(* ===== verification/_CoqProject ===== *)
-Q . S2P
Prelude.v
Codec.v
Utf8.v
Kv.v
Buffering.v
Wire.v
PddbClient.v
Protocol.v
Sessions.v
Concrete.v
Contents.v
Store.v
Text.v
Redact.v
Tls.v
Http.v
Pump.v
Startup.v
Probes.v
Batch.v
Worker.v
Send.v
Receive.v
Dispatcher.v
ManagerTask.v
System.v
Provenance.v
Linking.v
Sending.v
Testing.v
BufferingTests.v
StoreTests.v
WorkerTests.v
Dialogue.v
MessageStore.v
Screens.v
AppLoop.v
AppSpec.v
AppHistory.v
AppConcrete.v
Connection.v
Client.v
Settle.v
AppTests.v
NetTests.v
