(* ===== verification/Prelude.v ===== *)
(** * Verification of xous-app-signal, a Signal client for Xous

    This library models the client: the screens a user drives, the worker that
    runs presage's [Manager], the store with the IPC pages that reach the PDDB
    server, and the network bridge with its HTTP, WebSocket and TLS parts. Source
    paths are relative to [src/crates/].

    ** The program

    The app's main thread sends [Cmd]s over a channel to the worker thread and
    renders the [Event]s that come back ([xous-signal-worker/src/cmd.rs]). The
    worker's dispatcher ([worker_main]) answers some commands itself, links the
    device, and forwards the rest to the manager task ([manager_task]), which owns
    presage's [Manager] and alternates between its receive stream and operations
    such as a send ([handle_send]). Presage keeps everything in a [PddbStore]
    ([presage-store-pddb]): account state, contents and the libsignal protocol
    stores, with session ratchets in a write-back cache. The store sits on a
    [KvBackend], in production a [BufferingBackend] (writes of one send are
    coalesced into a batch) over a [PddbBackend], which speaks the PDDB's IPC
    protocol through the client of [xous-pddb-ipc]. libsignal-service reaches
    Signal's servers through [SyncHttpClient] ([xous-net-bridge]): one thread and
    one connection per HTTP request, three threads per WebSocket, all over one TLS
    configuration with pinned roots. The app ([xous-app-signal]) keeps a bounded
    message buffer and the state of its screens, and is a loop over key presses,
    redraws and the events a forwarder thread queues for it.

    ** The files

    - [Prelude]: results, the state-and-error monad [M] with its notation, bytes,
      machine integers, hash-map iteration order. [Codec]: decimal and hexadecimal
      text with their round trips. [Utf8], [Text]: what the program uses of [str].
    - [Kv]: the trait [KvBackend] (class of operations), what it promises
      ([KvLaws], stated against a view of the contents), the abstract store
      [KvSpec] and its refinement by every lawful backend, and [MockBackend]
      ([lib.rs], [error.rs], [backend_mock.rs]).
    - [Buffering]: [BufferingBackend], itself a lawful backend over any other
      ([buffering_backend.rs]).
    - [Wire]: the requests, codes and packed pages of [xous-pddb-ipc/src/api.rs]
      and the encoders and parsers of [client.rs]. [PddbClient]: the client, its
      [KeyHandle] and [PddbBackend] ([client.rs], [backend_pddb.rs]) over a server
      that is a parameter with laws; a reference server shows the laws can hold.
    - [Protocol]: identity, prekey, signed prekey, Kyber and sender-key stores
      ([presage-store-pddb/src/protocol/]).
    - [Sessions]: [PddbStore] with the session cache, its two locks and
      [flush_sessions] ([lib.rs], [session_store.rs], [session_store_ext.rs]).
    - [Contents]: messages, contacts, groups, profiles ([content.rs]). [Store]:
      account state, [Store::clear], the stale-store probe ([state.rs],
      [store.rs]).
    - [Batch]: the batch scope a send opens on the store, and what any run of
      key-value operations does to it.
    - [Redact]: redaction of identifiers and the log filter ([redact.rs],
      [log_filter.rs]). [Tls], [Http], [Pump]: the files of [xous-net-bridge/src/]:
      session store and connection set-up ([tls.rs]), requests and responses
      ([http.rs]), the reader, writer and setup threads of a WebSocket
      ([ws_pump.rs], [ws.rs]). [Startup]: the random-number shim, the choice of the
      store, the transport of the worker thread and the self-tests ([main.rs],
      [put_truncate_smoke.rs]). [Probes]: the other probes and the order of [main].
    - [Worker]: commands, events and the world of a worker task; presage's manager
      is a class of calls. [Send], [Receive], [Dispatcher], [ManagerTask]: the
      functions of [xous-signal-worker/src/lib.rs] of those names. [System]: the
      dispatcher and every manager task it spawned, on one executor, with their op
      channels; a [Turn] is one command or one wake-up of one task. [Provenance]: no
      outcome is reported for a timestamp nobody asked to send, part by part.
      [Linking]: a link in flight, turn by turn: its URL, its outcome, a cancellation
      and the commands taken meanwhile are separate turns, other threads run between.
      [Sending]: a send in flight, stopped where [handle_send] waits, other tasks at
      work on the store in between.
    - [Dialogue], [MessageStore]: the conversation list and the message buffer of
      [xous-app-signal/src/dialogue.rs] and [store.rs]. [Screens]: the [App] record
      of [gam_app.rs] and the text of every screen. [AppLoop]: its handlers and main
      loop, over an outside world of modals, drawing and channels (class [Ui]).
      [AppSpec]: what holds of every run. [AppHistory]: what a row of the
      conversation says, handler by handler. [AppConcrete]: the witnesses and the
      runs behind the findings.
    - [Connection]: the connections of a PDDB client, and what [run] asks of the
      graphics server before its loop.
    - [Client]: the app, its forwarder thread and the worker, joined by the two
      channels that [main] makes; a [ClientTurn] is one message of the graphics
      server, one turn of the main loop, of the forwarder, of the dispatcher, of a link
      in flight or of a manager task. [Settle]: the measure that its turns make smaller.
    - [Concrete]: instances of the library parameters, for the witnesses.
    - [Testing]: [assert], [unwrap] and the like over [M]. [BufferingTests],
      [StoreTests], [WorkerTests], [AppTests], [NetTests]: the [#[test]] functions of
      the crates as programs, each run by evaluation to its end. They check the
      definitions against what the authors expect on concrete inputs.

    State is passed explicitly: an operation is a function from the state to a
    result and the new state, so an error keeps the effects made before it, as a
    Rust [?] does. A poisoned mutex is a boolean beside the data it guards. Hash
    maps are stdpp's [gmap], iterated in an order the theorems do not know
    ([HashOrder]). Machine integers are [N] with their bounds and wrap-around
    written out.

    ** What the theorems show

    - A batch is invisible: committed, it has the answers and the contents of the
      direct operations; aborted, it leaves no trace; its fallback loses nothing; a
      failed commit still closes it, unless the buffer mutex is poisoned
      ([Buffering]).
    - The wire pages parse back to what was packed and nothing overruns them; the
      key-list parser is total; a value written through the client is read back
      whatever the chunking, and the client's loops end ([Wire], [PddbClient]).
    - The stores are maps with the intended updates, ids are fresh until the
      counter wraps, identities are trusted on first use, the layout keeps every
      entry apart and within the caps ([Protocol], [Contents], [Store]).
    - The session store refines a map, and a flush makes its dirty part durable
      and touches nothing else ([Sessions]).
    - A send is settled exactly once, leaves no batch open and, unless it
      succeeded, no trace; the manager task is bounded, never stops silently and
      forgets no deferred send while it runs; a link never runs over an old
      account and is answered by one event unless the worker is told to leave ([Send], [Receive], [ManagerTask], [Dispatcher]).
    - Composed, a send that the worker handles is reported, waits in a task, or was
      accepted by a task that stopped, one that arrives during a link is dropped; the
      worker keeps every op channel in order
      and within its eight slots, is held up by a full channel for one op at most,
      and refines the dispatcher taken alone; a logout cuts the old task off, which
      still carries out the ops that waited ([System]). [Dispatcher] and [System] run
      a link in one turn; with nothing else running that is exactly what its single
      turns do ([Linking]). Whatever the others do while a send waits for presage or
      sleeps, it is over within twelve turns and reports once ([Sending]).
    - The conversation list is the reference summary of the buffer, and the buffer
      shows the tail of an unbounded log ([Dialogue], [MessageStore]). The app never
      panics and leaves no event waiting; a message leaves only from Enter or F1 on a
      conversation; the end of a link erases what the app knew, all but the cursor of
      the settings list and an account query under way ([AppSpec]).
    - The whole client, whatever the user and the server do and however the threads
      interleave: its channels lose and reorder nothing and stay open, a row says
      delivered or failed only once the worker reported that outcome of a send the
      app asked for, an incoming row is a message the worker reported, and the
      threads never wait for each other in a circle
      ([Client]); left alone it comes to rest after finitely many turns with nothing
      unanswered but a link that waits for its server ([Settle]). Links in flight
      interleave with everything else there.
    - The response parser is total and reads back what a server writes; a head cut
      short is an error ([Http]). The WebSocket threads keep the frames in order, lose
      none while they run, use the socket one at a time and end within a bound once abandoned ([Pump]). The
      counting session store is transparent and counts the tickets taken ([Tls]); an
      identifier reaches the log as its last four characters and a muffled crate not
      at all below a warning ([Redact]); the random shim fills the buffer it is given
      and nothing else ([Startup]).

    Where the code and its comments disagree, the theorem states what the code
    does: only the last base key of a Kyber pair is remembered
    ([kyber_replay_of_older_base_key]), [clear] keeps sticker packs and message
    threads ([clear_wipes_account]), [SendComplete] does not wait for durability
    when a commit fails ([send_complete_durability]), a send that is deferred when
    the task returns is forgotten with it ([deferred_kept_until_stop]), [Content-Length]
    is not looked at ([http_response_roundtrip]), a read error does not end the
    WebSocket reader ([read_error_goes_on]), a remote close does not end the writer
    ([close_waits_for_writer]), and two TLS configurations share one session store
    ([configs_share_store]). [AppConcrete] ends with the runs of the app that do what
    its comments deny, such as a late link event that is applied
    ([late_link_complete_links]), [Client] with an account query that is lost because
    a link was running ([query_lost_in_link]), and [Linking] with a link that is
    cancelled after its account was stored ([cancelled_after_registration]), [Sending]
    with one that is lost because an old send sleeps with its batch open
    ([link_lost_to_sleeping_send]).

    ** Parameters, bounds and fuel

    presage, libsignal, serde, bincode, SHA-256, base64 and the PDDB server are
    classes ([Json], [Bincode], [WireRecord], [Digests], [Presage],
    [PresageLink], [LinkSteps], the server class of [PddbClient]), as are rustls, the http and
    url crates, tungstenite, the hardware services and the user interface
    ([TlsLib], [HttpCrates], [Tungstenite], [Trng], [UuidCrate], [UnicodeTables],
    [Ui]); what the code relies on is in the classes of laws beside them, round
    trips and the effect of each server request, and [Concrete] and the witnesses instantiate them. Presage is assumed
    to reach the store only through key-value operations ([PresageSendLaws],
    [PresageTaskLaws]). The client's read, write and list loops take a fuel that
    [pddb_loops_terminate] shows to be enough; parsers recurse on the length of
    the input; the reopening loop of the manager task takes 21 rounds, one more
    than the failures it tolerates ([manager_task_bounds]); the send and startup
    loops recurse on their attempts. An abandoned WebSocket needs at most 59 steps:
    three per queued frame, of which there are at most 16, and those in hand.

    ** What is not modelled

    The text of most log lines, time measurements and the wall clock (a clock in
    milliseconds is part of the world and moves with sleeps and calls). In [System]
    and [Client] the other tasks do not run inside the [await]s of a send or of an
    opening stream; for a send, [Sending] says what holds when they do. A call of
    presage is one step everywhere. A link in flight waits for a slot for its URL
    before it goes on, where presage may work meanwhile; its calls of presage are
    three parameters, up to the URL, from there to the outcome, and a drop. Frames still queued when the
    thread that would take them has ended stay in the queue of the model, as they do
    in the channel's buffer until both ends are gone. A thread
    of the client that waits for a slot in the command or the event channel is taken
    to have finished its turn, and has no other until there is room. The scalars that
    wake the main loop wait in a mailbox without bound: the kernel's own queue, and a
    forwarder that waits for it, are not in the model. Thread and executor set-up. The
    frame counters of the WebSocket threads are seen by the log only and left out. Of
    the unit tests, the two on serde's and bincode's own encodings and the one that
    drives a TLS server over sockets; the integration tests of
    [xous-net-bridge/tests/], which need rustls on both sides of a connection. *)
From Stdlib Require Export Strings.Byte.
From Stdlib Require Import Strings.String.
From stdpp Require Export base numbers option list strings gmap sets pretty sorting.
From stdpp Require Import countable.

(** ** Results and the state-and-error monad

    [result] is Rust's [Result]; [M St Er A] is a fallible operation on a
    shared mutable state: an error keeps the state reached so far, as a Rust
    [?] leaves every effect made before it in place. *)
Inductive result (A Er : Type) : Type :=
| Ok (a : A)
| Err (e : Er).
Arguments Ok {A Er} a.
Arguments Err {A Er} e.

Definition is_ok {A Er} (r : result A Er) : bool :=
  match r with Ok _ => true | Err _ => false end.

Definition map_err {A Er Fr} (f : Er -> Fr) (r : result A Er) : result A Fr :=
  match r with Ok a => Ok a | Err e => Err (f e) end.

Definition M (St Er A : Type) : Type := St -> result A Er * St.

Definition mok {St Er A} (a : A) : M St Er A := fun s => (Ok a, s).
Definition merr {St Er A} (e : Er) : M St Er A := fun s => (Err e, s).
Definition mbind {St Er A B} (m : M St Er A) (k : A -> M St Er B) : M St Er B :=
  fun s => match m s with
           | (Ok a, s') => k a s'
           | (Err e, s') => (Err e, s')
           end.
(** Run [m] and hand its [Result] on as a value ([match m { .. }]). *)
Definition mtry {St Er Fr A} (m : M St Er A) : M St Fr (result A Er) :=
  fun s => let '(r, s') := m s in (Ok r, s').
Definition mlift {St Er A} (r : result A Er) : M St Er A := fun s => (r, s).
Definition mget {St Er} : M St Er St := fun s => (Ok s, s).
Definition mput {St Er} (s : St) : M St Er unit := fun _ => (Ok tt, s).
Definition mmap_err {St Er Fr A} (f : Er -> Fr) (m : M St Er A) : M St Fr A :=
  fun s => let '(r, s') := m s in (map_err f r, s').

Declare Scope prog_scope.
Delimit Scope prog_scope with prog.
Notation "'let*' x := m 'in' k" := (mbind m (fun x => k))
  (at level 10, x name, m at level 100, k at level 200) : prog_scope.
Notation "'let*' ' x := m 'in' k" := (mbind m (fun x => k))
  (at level 10, x strict pattern, m at level 100, k at level 200) : prog_scope.
Notation "m ';*' k" := (mbind m (fun _ => k))
  (at level 199, right associativity) : prog_scope.
Open Scope prog_scope.

(** Run an operation on a component of a larger state. *)
Definition zoom {St T Er A} (get : T -> St) (set : St -> T -> T) (m : M St Er A) : M T Er A :=
  fun t => let '(r, s') := m (get t) in (r, set s' t).

(** [for x in xs { body(x)?; }] *)
Fixpoint mfor {St Er A} (xs : list A) (body : A -> M St Er unit) : M St Er unit :=
  match xs with
  | [] => mok tt
  | x :: xs' => body x ;* mfor xs' body
  end.

(** [xs.into_iter().map(f).collect::<Result<Vec<_>, _>>()?] *)
Fixpoint mmapM {St Er A B} (f : A -> M St Er B) (xs : list A) : M St Er (list B) :=
  match xs with
  | [] => mok []
  | x :: xs' => let* y := f x in let* ys := mmapM f xs' in mok (y :: ys)
  end.

Section monad_lemmas.
Context {St Er : Type}.

Lemma mbind_ok {A B} (m : M St Er A) (k : A -> M St Er B) s a s' :
  m s = (Ok a, s') -> mbind m k s = k a s'.
Proof. unfold mbind. by intros ->. Qed.

Lemma mbind_err {A B} (m : M St Er A) (k : A -> M St Er B) s e s' :
  m s = (Err e, s') -> mbind m k s = (Err e, s').
Proof. unfold mbind. by intros ->. Qed.

Lemma mbind_inv {A B} (m : M St Er A) (k : A -> M St Er B) s r s' :
  mbind m k s = (r, s') ->
  (exists a s1, m s = (Ok a, s1) /\ k a s1 = (r, s')) \/
  (exists e, m s = (Err e, s') /\ r = Err e).
Proof. unfold mbind. destruct (m s) as [[a|e] s1]; intros H; [left|right]; naive_solver. Qed.

Lemma mbind_inv_ok {A B} (m : M St Er A) (k : A -> M St Er B) s b s' :
  mbind m k s = (Ok b, s') ->
  exists a s1, m s = (Ok a, s1) /\ k a s1 = (Ok b, s').
Proof. intros [?|(e & _ & [=])]%mbind_inv. done. Qed.

Lemma mbind_assoc {A B C} (m : M St Er A) (k : A -> M St Er B) (l : B -> M St Er C) s :
  mbind (mbind m k) l s = mbind m (fun a => mbind (k a) l) s.
Proof. unfold mbind. by destruct (m s) as [[a|e] s1]. Qed.
End monad_lemmas.

Lemma mmap_err_inv {S E F A} (f : E -> F) (m : M S E A) s r s' :
  mmap_err f m s = (r, s') -> exists r0, m s = (r0, s') /\ r = map_err f r0.
Proof. unfold mmap_err. destruct (m s) as [r0 s0]. intros [= <- <-]. by exists r0. Qed.

(** Split every hypothesis that runs a bind, and simplify the equations. *)
Ltac mstep :=
  match goal with
  | H : mbind _ _ _ = (Ok _, _) |- _ =>
      let a := fresh "a" in let s := fresh "s" in let H1 := fresh "Hrun" in
      apply mbind_inv_ok in H as (a & s & H1 & H)
  | H : mok _ _ = (_, _) |- _ => unfold mok in H; simplify_eq
  | H : merr _ _ = (_, _) |- _ => unfold merr in H; simplify_eq
  end.
Ltac mstep_all := repeat (mstep; simpl in *).

(** ** Bytes and strings

    A Rust [String] is its UTF-8 bytes, kept as a Rocq [string]; a [Vec<u8>]
    is a list of bytes. *)
Abbreviation bytes := (list byte).

#[global] Instance byte_eq_dec : EqDecision byte := Byte.byte_eq_dec.
#[global] Program Instance byte_countable : Countable byte :=
  inj_countable Byte.to_N Byte.of_N _.
Next Obligation. intros b. apply Byte.of_to_N. Qed.

Definition as_bytes (s : string) : bytes := list_byte_of_string s.
Definition of_bytes (b : bytes) : string := string_of_list_byte b.

Lemma of_as_bytes s : of_bytes (as_bytes s) = s.
Proof. apply string_of_list_byte_of_string. Qed.

Lemma as_of_bytes b : as_bytes (of_bytes b) = b.
Proof. apply list_byte_of_string_of_list_byte. Qed.

#[global] Instance as_bytes_inj : Inj (=) (=) as_bytes.
Proof. intros s1 s2 H. by rewrite <- (of_as_bytes s1), <- (of_as_bytes s2), H. Qed.

Definition slen (s : string) : nat := String.length s.

Lemma as_bytes_length s : length (as_bytes s) = slen s.
Proof.
  unfold as_bytes, slen, list_byte_of_string. induction s as [|a s IH]; simpl; [done|].
  by rewrite IH.
Qed.

(** ** Machine integers *)
Definition u8_max : N := 255.
Definition u16_max : N := 65535.
Definition u32_max : N := 4294967295.
Definition u64_max : N := 18446744073709551615.

(** [x as u32], and the wrapping arithmetic of a release build. *)
Definition wrap32 (n : N) : N := (n mod 4294967296)%N.
Definition wrap64 (n : N) : N := (n mod 18446744073709551616)%N.
Definition saturating_sub (a b : N) : N := (a - b)%N.
Definition saturating_add_u64 (a b : N) : N := (a + b) `min` u64_max.

(** ** Hash maps

    The iteration order of a Rust [HashMap]/[HashSet] is unspecified: a run of
    the program fixes some enumeration of the entries, and the theorems hold
    for every one. *)
Class HashOrder : Type := {
  hash_iter : forall {K A : Type} `{Countable K}, gmap K A -> list (K * A);
  hash_iter_perm : forall {K A : Type} `{Countable K} (m : gmap K A),
    hash_iter m ≡ₚ map_to_list m
}.

(** The order stdpp enumerates in: one concrete order, used by witnesses. *)
Definition canonical_order : HashOrder := {|
  hash_iter := fun K A _ _ m => map_to_list m;
  hash_iter_perm := fun K A _ _ m => reflexivity _
|}.

Section hash_order.
Context `{HashOrder}.

Definition hash_keys {K A} `{Countable K} (m : gmap K A) : list K := (hash_iter m).*1.

Lemma elem_of_hash_iter {K A} `{Countable K} (m : gmap K A) k a :
  (k, a) ∈ hash_iter m <-> m !! k = Some a.
Proof. rewrite hash_iter_perm. apply elem_of_map_to_list. Qed.

Lemma NoDup_hash_keys {K A} `{Countable K} (m : gmap K A) : NoDup (hash_keys m).
Proof. unfold hash_keys. rewrite hash_iter_perm. apply NoDup_fst_map_to_list. Qed.

Lemma length_hash_iter {K A} `{Countable K} (m : gmap K A) : length (hash_iter m) = size m.
Proof. rewrite hash_iter_perm. apply length_map_to_list. Qed.
End hash_order.

(** ** Sorted key sets ([BTreeSet<String>]) *)
Definition btree_elements (X : gset string) : list string := merge_sort String.le (elements X).

Lemma btree_elements_perm X : btree_elements X ≡ₚ elements X.
Proof. apply merge_sort_Permutation. Qed.

Lemma elem_of_btree_elements X k : k ∈ btree_elements X <-> k ∈ X.
Proof. rewrite btree_elements_perm. set_solver. Qed.

Lemma NoDup_btree_elements X : NoDup (btree_elements X).
Proof. rewrite btree_elements_perm. apply NoDup_elements. Qed.

(** Agreement of two maps outside a set of keys: what a failed write still
    promises. *)
Definition agree_off {K A} `{Countable K} (P : K -> Prop) (m1 m2 : gmap K A) : Prop :=
  forall k, ~ P k -> m1 !! k = m2 !! k.

#[global] Instance agree_off_equiv {K A} `{Countable K} (P : K -> Prop) :
  Equivalence (@agree_off K A _ _ P).
Proof.
  split.
  - intros m k _. done.
  - intros m1 m2 H1 k Hk. symmetry. by apply H1.
  - intros m1 m2 m3 H1 H2 k Hk. rewrite H1 by done. by apply H2.
Qed.

Lemma agree_off_weaken {K A} `{Countable K} (P Q : K -> Prop) (m1 m2 : gmap K A) :
  (forall k, P k -> Q k) -> agree_off P m1 m2 -> agree_off Q m1 m2.
Proof. intros HPQ Hm k Hk. apply Hm. naive_solver. Qed.
