(* ===== verification/Codec.v ===== *)
(** * Text encodings of numbers

    The conversions of Rust's standard library the program stores keys with:
    [to_string] and [parse::<u32>()], [{:016x}] and [{:02x}], and
    [from_str_radix], with the round trips that make the stored keys
    injective. *)
From Stdlib Require Import Ascii.
From S2P Require Import Prelude.

(** ** Decimal and radix parsing *)

(** [char::to_digit(radix)] on one byte. *)
Definition to_digit (radix : N) (c : ascii) : option N :=
  let n := N_of_ascii c in
  let d :=
    (if (48 <=? n) && (n <=? 57) then Some (n - 48)
     else if (97 <=? n) && (n <=? 122) then Some (n - 87)
     else if (65 <=? n) && (n <=? 90) then Some (n - 55)
     else None)%N in
  d ≫= fun d => if (d <? radix)%N then Some d else None.

(** The digit loop of [from_str_radix]: checked multiply, checked add. *)
Fixpoint radix_go (max radix acc : N) (s : string) : option N :=
  match s with
  | EmptyString => Some acc
  | String c s' =>
      d ← to_digit radix c;
      let acc' := (acc * radix + d)%N in
      if (acc' <=? max)%N then radix_go max radix acc' s' else None
  end.

(** [uN::from_str_radix]: empty input and a lone sign are errors, a leading
    ['+'] is accepted, ['-'] is an invalid digit of an unsigned type. *)
Definition from_str_radix (max radix : N) (s : string) : option N :=
  match s with
  | EmptyString => None
  | String c EmptyString =>
      if bool_decide (c = "+"%char \/ c = "-"%char) then None else radix_go max radix 0 s
  | String c s' =>
      if bool_decide (c = "+"%char) then radix_go max radix 0 s' else radix_go max radix 0 s
  end.

Definition parse_u32 : string -> option N := from_str_radix u32_max 10.
Definition parse_u64_hex : string -> option N := from_str_radix u64_max 16.
Definition parse_u8_hex : string -> option N := from_str_radix u8_max 16.

(** ** Hexadecimal printing *)

Definition hex_digit (n : N) : ascii :=
  ascii_of_N (if (n <? 10)%N then 48 + n else 87 + n)%N.

(** [{:0wx}] of a number below [16 ^ w]. *)
Fixpoint hex_fixed (w : nat) (n : N) : string :=
  match w with
  | O => ""
  | S w' => hex_fixed w' (n / 16) +:+ String (hex_digit (n mod 16)) ""
  end.

Lemma sapp_nil_l s : "" +:+ s = s.
Proof. done. Qed.
Lemma sapp_cons c s1 s2 : String c s1 +:+ s2 = String c (s1 +:+ s2).
Proof. done. Qed.
Lemma sapp_assoc s1 s2 s3 : (s1 +:+ s2) +:+ s3 = s1 +:+ (s2 +:+ s3).
Proof. induction s1 as [|c s1 IH]; [done|]. by rewrite !sapp_cons, IH. Qed.
Lemma sapp_nil_r s : s +:+ "" = s.
Proof. induction s as [|c s IH]; [done|]. by rewrite sapp_cons, IH. Qed.
Lemma slen_app s1 s2 : slen (s1 +:+ s2) = slen s1 + slen s2.
Proof. induction s1 as [|c s1 IH]; [done|]. rewrite sapp_cons. simpl. unfold slen in *. simpl. lia. Qed.

Lemma sapp_inj_len s1 s2 t1 t2 :
  slen s1 = slen s2 -> s1 +:+ t1 = s2 +:+ t2 -> s1 = s2 /\ t1 = t2.
Proof.
  revert s2. induction s1 as [|c s1 IH]; intros [|c2 s2] Hl; unfold slen in *; simpl in Hl;
    try lia; [done|].
  rewrite !sapp_cons. intros [= -> H]. apply IH in H as [-> ->]; [done|lia].
Qed.

#[global] Instance sapp_inj_r p : Inj (=) (=) (String.append p).
Proof. intros s t H. by apply sapp_inj_len in H as [_ ?]. Qed.

#[global] Instance sapp_inj_l q : Inj (=) (=) (fun s => s +:+ q).
Proof.
  intros s t H.
  assert (Hl : slen (s +:+ q) = slen (t +:+ q)) by (simpl in H; by rewrite H).
  rewrite !slen_app in Hl. by apply sapp_inj_len in H as [? _]; [|lia].
Qed.

Lemma hex_fixed_length w n : slen (hex_fixed w n) = w.
Proof. revert n. induction w as [|w IH]; intros n; simpl; [done|]. rewrite slen_app, IH. simpl. unfold slen. simpl. lia. Qed.

(** ** Round trips *)

Lemma below16_cases (P : N -> Prop) :
  P 0%N -> P 1%N -> P 2%N -> P 3%N -> P 4%N -> P 5%N -> P 6%N -> P 7%N -> P 8%N -> P 9%N ->
  P 10%N -> P 11%N -> P 12%N -> P 13%N -> P 14%N -> P 15%N ->
  forall n, (n < 16)%N -> P n.
Proof.
  intros ???????????????? n Hn.
  destruct n as [|p]; [done|].
  do 4 (destruct p as [p|p|]; try (exfalso; lia); try done).
Qed.

Lemma to_digit_hex n : (n < 16)%N -> to_digit 16 (hex_digit n) = Some n.
Proof. revert n. by apply below16_cases. Qed.

Lemma hex_digit_not_plus n : (n < 16)%N -> hex_digit n <> "+"%char.
Proof. revert n. by apply below16_cases. Qed.

Lemma to_digit_dec n : (n < 10)%N -> to_digit 10 (pretty_N_char n) = Some n.
Proof.
  intros Hn. destruct n as [|p]; [done|].
  do 4 (destruct p as [p|p|]; try (exfalso; lia); try done).
Qed.

Lemma N_div_le n k : (k <> 0 -> n / k <= n)%N.
Proof. intros. apply N.Div0.div_le_upper_bound. nia. Qed.

Lemma radix_go_app max radix acc s t :
  radix_go max radix acc (s +:+ t) = (radix_go max radix acc s ≫= fun a => radix_go max radix a t).
Proof.
  revert acc. induction s as [|c s IH]; intros acc; [done|].
  rewrite sapp_cons. simpl. destruct (to_digit radix c); simpl; [|done].
  case_match; [apply IH|done].
Qed.

Lemma radix_go_hex_fixed max w n :
  (n < 16 ^ N.of_nat w)%N -> (n <= max)%N -> radix_go max 16 0 (hex_fixed w n) = Some n.
Proof.
  revert n. induction w as [|w IH]; intros n Hn Hm.
  - simpl in *. f_equal. lia.
  - assert (Hd : (n = 16 * (n / 16) + n mod 16)%N) by (apply N.div_mod; lia).
    assert (Hr : (n mod 16 < 16)%N) by (apply N.mod_lt; lia).
    simpl hex_fixed. rewrite radix_go_app, IH; [| |pose proof (N_div_le n 16); lia].
    2:{ rewrite Nat2N.inj_succ, N.pow_succ_r' in Hn. apply N.Div0.div_lt_upper_bound; lia. }
    simpl. rewrite to_digit_hex by done. simpl.
    replace (n / 16 * 16 + n mod 16)%N with n by lia.
    by rewrite (proj2 (N.leb_le _ _) Hm).
Qed.

Lemma from_str_radix_hex_fixed max w n :
  2 <= w -> (n < 16 ^ N.of_nat w)%N -> (n <= max)%N ->
  from_str_radix max 16 (hex_fixed w n) = Some n.
Proof.
  intros Hw Hn Hm. rewrite <- (radix_go_hex_fixed max w n) by done.
  assert (Hhd : exists m s, hex_fixed w n = String (hex_digit m) s /\ (m < 16)%N /\ s <> "").
  { clear Hm. revert n Hn. induction Hw as [|w Hw IH]; intros n Hn.
    - simpl. exists ((n / 16) mod 16)%N. rewrite sapp_nil_l, sapp_cons.
      eexists; split; [done|]. split; [apply N.mod_lt; lia|done].
    - destruct (IH (n / 16)%N) as (m & s & Heq & Hm & Hs).
      { rewrite Nat2N.inj_succ, N.pow_succ_r' in Hn. apply N.Div0.div_lt_upper_bound; lia. }
      simpl. rewrite Heq, sapp_cons. exists m. eexists; split; [done|].
      split; [done|]. by destruct s. }
  destruct Hhd as (m & s & -> & Hm' & Hs). unfold from_str_radix.
  destruct s as [|c s]; [done|]. rewrite bool_decide_false by by apply hex_digit_not_plus. done.
Qed.

Lemma hex_fixed_inj w n1 n2 :
  (n1 < 16 ^ N.of_nat w)%N -> (n2 < 16 ^ N.of_nat w)%N ->
  hex_fixed w n1 = hex_fixed w n2 -> n1 = n2.
Proof.
  intros H1 H2 Heq.
  assert (Some n1 = Some n2) as [=]; [|done].
  rewrite <- (radix_go_hex_fixed (N.max n1 n2) w n1), <- (radix_go_hex_fixed (N.max n1 n2) w n2)
    by lia. by rewrite Heq.
Qed.

Lemma radix_go_pretty max acc x s :
  (x <= max)%N -> acc = 0%N ->
  radix_go max 10 acc (pretty_N_go x s) = radix_go max 10 x s.
Proof.
  intros Hx ->. revert s. induction (N.lt_wf_0 x) as [x _ IH]. intros s.
  destruct (decide (x = 0)%N) as [->|Hne]; [by rewrite pretty_N_go_0|].
  rewrite pretty_N_go_step by lia.
  rewrite IH; [|apply N.div_lt; lia|pose proof (N_div_le x 10); lia].
  simpl. rewrite to_digit_dec by (apply N.mod_lt; lia). simpl.
  assert (Hd : (x = 10 * (x / 10) + x mod 10)%N) by (apply N.div_mod; lia).
  replace (x / 10 * 10 + x mod 10)%N with x by lia.
  by rewrite (proj2 (N.leb_le _ _) Hx).
Qed.

Lemma pretty_N_go_grows x t : slen t <= slen (pretty_N_go x t).
Proof.
  revert t. induction (N.lt_wf_0 x) as [x _ IH]. intros t.
  destruct (decide (x = 0)%N) as [->|]; [by rewrite pretty_N_go_0|].
  rewrite pretty_N_go_step by lia. etrans; [|apply IH, N.div_lt; lia]. unfold slen. simpl. lia.
Qed.

Lemma pretty_N_pos n : 0 < slen (pretty (n : N)).
Proof.
  unfold pretty, pretty_N. case_decide; [unfold slen; simpl; lia|].
  rewrite pretty_N_go_step by lia.
  pose proof (pretty_N_go_grows (n / 10) (String (pretty_N_char (n mod 10)) "")) as Hg.
  unfold slen in *. simpl in Hg. lia.
Qed.

(** [n.to_string().parse() == Ok(n)] at every width. *)
Lemma from_str_radix_pretty max n : (n <= max)%N -> from_str_radix max 10 (pretty n) = Some n.
Proof.
  intros Hn.
  assert (Hgo : radix_go max 10 0 (pretty n) = Some n).
  { unfold pretty, pretty_N. case_decide as H0; [subst; cbn [radix_go to_digit]|by rewrite radix_go_pretty].
    by destruct max. }
  destruct (pretty n) as [|c s] eqn:Hp.
  { pose proof (pretty_N_pos n) as Hpos. rewrite Hp in Hpos. unfold slen in Hpos. simpl in Hpos. lia. }
  assert (Hc : to_digit 10 c <> None).
  { simpl in Hgo. by destruct (to_digit 10 c). }
  unfold from_str_radix. destruct s as [|c' s].
  - rewrite bool_decide_false; [done|]. by intros [-> | ->].
  - rewrite bool_decide_false; [done|]. by intros ->.
Qed.

Lemma parse_u32_pretty n : (n <= u32_max)%N -> parse_u32 (pretty n) = Some n.
Proof. apply from_str_radix_pretty. Qed.

(** A decimal rendering contains digits only, so it never contains a given
    separator. *)
Fixpoint string_forall (p : ascii -> bool) (s : string) : bool :=
  match s with EmptyString => true | String c s' => p c && string_forall p s' end.

Lemma string_forall_app p s t : string_forall p (s +:+ t) = string_forall p s && string_forall p t.
Proof. induction s as [|c s IH]; [done|]. rewrite sapp_cons. simpl. rewrite IH. by destruct (p c). Qed.

Definition is_ascii_digit (c : ascii) : bool := (48 <=? N_of_ascii c)%N && (N_of_ascii c <=? 57)%N.

Lemma pretty_digits (n : N) : string_forall is_ascii_digit (pretty n) = true.
Proof.
  unfold pretty, pretty_N. case_decide; [done|]. clear H.
  assert (Hgo : forall s, string_forall is_ascii_digit s = true ->
                     string_forall is_ascii_digit (pretty_N_go n s) = true).
  2: by apply Hgo.
  induction (N.lt_wf_0 n) as [n _ IH]. intros s Hs.
  destruct (decide (n = 0)%N) as [->|]; [by rewrite pretty_N_go_0|].
  rewrite pretty_N_go_step by lia. apply IH; [apply N.div_lt; lia|].
  simpl. rewrite Hs, andb_true_r.
  assert (Hm : (n mod 10 < 10)%N) by (apply N.mod_lt; lia). revert Hm.
  generalize (n mod 10)%N. intros m Hm. unfold pretty_N_char. by repeat case_match.
Qed.

(** Splitting at a separator that the prefix does not contain is unique. *)
Lemma sapp_sep_inj (sep : ascii) s1 s2 t1 t2 :
  string_forall (fun c => negb (Ascii.eqb c sep)) s1 = true ->
  string_forall (fun c => negb (Ascii.eqb c sep)) s2 = true ->
  s1 +:+ String sep t1 = s2 +:+ String sep t2 -> s1 = s2 /\ t1 = t2.
Proof.
  revert s2. induction s1 as [|c s1 IH]; intros [|c2 s2]; simpl; rewrite ?sapp_nil_l, ?sapp_cons.
  - by intros _ _ [=].
  - intros _ H2 [= <- _]. by rewrite Ascii.eqb_refl in H2.
  - intros H1 _ [= -> _]. by rewrite Ascii.eqb_refl in H1.
  - intros [_ H1]%andb_true_iff [_ H2]%andb_true_iff [= -> H]. by apply IH in H as [-> ->].
Qed.

Lemma string_forall_impl (p q : ascii -> bool) s :
  (forall c, p c = true -> q c = true) -> string_forall p s = true -> string_forall q s = true.
Proof.
  intros Hpq. induction s as [|c s IH]; [done|]. simpl.
  intros [H1 H2]%andb_true_iff. rewrite Hpq by done. by apply IH.
Qed.
