(* ===== verification/Utf8.v ===== *)
(** * UTF-8

    What the program uses of Rust's [str]: validation ([str::from_utf8]) and
    iteration over [char]s. A [char] is kept as the string of its bytes. *)
From Stdlib Require Import Ascii.
From S2P Require Import Prelude Codec.

(** ** Validation (Unicode table 3-7, the ranges [core::str] checks) *)
Definition in_range (lo hi : N) (b : byte) : bool :=
  (lo <=? Byte.to_N b)%N && (Byte.to_N b <=? hi)%N.
Definition is_cont (b : byte) : bool := in_range 128 191 b.

(** Length of the well-formed sequence [bs] starts with. *)
Definition utf8_first (bs : bytes) : option nat :=
  match bs with
  | [] => None
  | b :: r =>
      if in_range 0 127 b then Some 1
      else if in_range 194 223 b then
        match r with c1 :: _ => if is_cont c1 then Some 2 else None | _ => None end
      else if in_range 224 239 b then
        match r with
        | c1 :: c2 :: _ =>
            let lo := if in_range 224 224 b then 160%N else 128%N in
            let hi := if in_range 237 237 b then 159%N else 191%N in
            if in_range lo hi c1 && is_cont c2 then Some 3 else None
        | _ => None
        end
      else if in_range 240 244 b then
        match r with
        | c1 :: c2 :: c3 :: _ =>
            let lo := if in_range 240 240 b then 144%N else 128%N in
            let hi := if in_range 244 244 b then 143%N else 191%N in
            if in_range lo hi c1 && is_cont c2 && is_cont c3 then Some 4 else None
        | _ => None
        end
      else None
  end.

Fixpoint utf8_valid_go (fuel : nat) (bs : bytes) : bool :=
  match bs, fuel with
  | [], _ => true
  | _, O => false
  | _, S fuel' =>
      match utf8_first bs with
      | Some n => utf8_valid_go fuel' (drop n bs)
      | None => false
      end
  end.
Definition utf8_valid (bs : bytes) : bool := utf8_valid_go (length bs) bs.

(** [std::str::from_utf8]. *)
Definition from_utf8 (bs : bytes) : option string := if utf8_valid bs then Some (of_bytes bs) else None.

(** ** Characters *)
Definition ascii_cont (c : ascii) : bool := is_cont (byte_of_ascii c).

(** [s.chars()]: a continuation byte belongs to the character before it. *)
Fixpoint chars (s : string) : list string :=
  match s with
  | EmptyString => []
  | String c s' =>
      match chars s' with
      | String c' g :: gs =>
          if ascii_cont c' then String c (String c' g) :: gs
          else String c "" :: String c' g :: gs
      | gs => String c "" :: gs
      end
  end.

(** [iter.collect::<String>()]. *)
Definition collect (cs : list string) : string := foldr String.append "" cs.

(** [s.chars().count()]. *)
Definition char_count (s : string) : nat := length (chars s).

Lemma collect_app xs ys : collect (xs ++ ys) = collect xs +:+ collect ys.
Proof. induction xs as [|x xs IH]; [done|]. simpl. by rewrite IH, sapp_assoc. Qed.

Lemma collect_chars s : collect (chars s) = s.
Proof.
  induction s as [|c s IH]; [done|]. simpl.
  destruct (chars s) as [|[|c' g] gs]; simpl in *.
  - by rewrite <- IH.
  - by rewrite <- IH.
  - destruct (ascii_cont c'); simpl; by rewrite <- IH.
Qed.

Lemma chars_nil s : chars s = [] <-> s = "".
Proof.
  split; [|by intros ->]. intros H. rewrite <- (collect_chars s). by rewrite H.
Qed.

Definition is_ascii_byte (c : ascii) : bool := in_range 0 127 (byte_of_ascii c).

Lemma ascii_not_cont c : is_ascii_byte c = true -> ascii_cont c = false.
Proof.
  unfold is_ascii_byte, ascii_cont, is_cont, in_range.
  rewrite andb_true_iff, !N.leb_le. intros [_ H].
  apply andb_false_iff. left. apply N.leb_gt. lia.
Qed.

(** An ASCII string has one character per byte. *)
Lemma chars_ascii s :
  string_forall is_ascii_byte s = true -> chars s = (fun c => String c "") <$> String.list_ascii_of_string s.
Proof.
  induction s as [|c s IH]; [done|]. cbn [string_forall]. intros [Hc Hs]%andb_true_iff.
  specialize (IH Hs). simpl. rewrite IH. destruct s as [|c2 s]; [done|].
  simpl. cbn in Hs. apply andb_true_iff in Hs as [Hc2 _].
  by rewrite ascii_not_cont.
Qed.

Lemma char_count_ascii s : string_forall is_ascii_byte s = true -> char_count s = slen s.
Proof.
  intros Hs. unfold char_count. rewrite chars_ascii by done. rewrite length_fmap.
  clear Hs. unfold slen. induction s as [|c s IH]; [done|]. simpl. by rewrite IH.
Qed.
