(* ===== verification/Kv.v ===== *)
(** * The key-value interface of the store

    [KvBackend] is the trait of [presage-store-pddb/src/lib.rs]: six fallible
    operations on [(dict, key) -> bytes]. [KvLaws] is what its doc comments
    promise, stated against a view of the backend's contents; [MockBackend]
    ([backend_mock.rs]) discharges it. [KvSpec] is the abstract store, which
    every lawful backend implements. *)
From S2P Require Import Prelude.

(** ** Errors ([error.rs]) *)
Inductive Error : Type :=
| Backend (msg : string)
| Encode (msg : string)
| Decode (msg : string)
| Protocol (msg : string).

#[global] Instance Error_eq_dec : EqDecision Error.
Proof. solve_decision. Defined.

(** The rendering [#[error("kv backend: {0}")]] and its siblings give. *)
Definition error_to_string (e : Error) : string :=
  match e with
  | Backend m => "kv backend: " +:+ m
  | Encode m => "encode: " +:+ m
  | Decode m => "decode: " +:+ m
  | Protocol m => "protocol: " +:+ m
  end.

Abbreviation kv_key := (string * string)%type.
Abbreviation kv_map := (gmap (string * string) bytes).
Abbreviation kv_entry := (string * string * bytes)%type.

(** ** The trait *)
Class KvBackend (St : Type) : Type := {
  kv_get : string -> string -> M St Error (option bytes);
  kv_put : string -> string -> bytes -> M St Error unit;
  kv_put_batch : list kv_entry -> M St Error unit;
  kv_delete : string -> string -> M St Error unit;
  kv_delete_dict : string -> M St Error unit;
  kv_list_keys : string -> M St Error (list string)
}.

(** The trait's default [put_batch]: a loop over [put] with [?]. *)
Definition put_batch_default {St} (put : string -> string -> bytes -> M St Error unit)
    (entries : list kv_entry) : M St Error unit :=
  mfor entries (fun '(d, k, v) => put d k v).

(** ** Effects on a view *)
Definition insert_entries (es : list kv_entry) (m : kv_map) : kv_map :=
  foldl (fun m '(d, k, v) => <[(d, k) := v]> m) m es.
Definition entry_key (e : kv_entry) : kv_key := (e.1.1, e.1.2).
Definition drop_dict (d : string) (m : kv_map) : kv_map := filter (fun '((d', _), _) => d' <> d) m.

Lemma lookup_drop_dict d m d' k :
  drop_dict d m !! (d', k) = if decide (d' = d) then None else m !! (d', k).
Proof.
  unfold drop_dict. rewrite map_lookup_filter. destruct (m !! (d', k)) as [v|] eqn:Hm; simpl.
  - repeat case_guard || case_decide; simpl in *; naive_solver.
  - by case_decide.
Qed.

Lemma lookup_insert_entries_not es m p :
  p ∉ entry_key <$> es -> insert_entries es m !! p = m !! p.
Proof.
  unfold insert_entries. revert m. induction es as [|[[d k] v] es IH]; intros m Hp; [done|].
  simpl. rewrite fmap_cons, not_elem_of_cons in Hp. destruct Hp as [Hne Hp].
  rewrite IH by done. by rewrite lookup_insert_ne.
Qed.

(** With distinct keys, the last write of a key is its only one. *)
Lemma lookup_insert_entries es m d k v :
  NoDup (entry_key <$> es) -> (d, k, v) ∈ es -> insert_entries es m !! (d, k) = Some v.
Proof.
  unfold insert_entries. revert m. induction es as [|[[d' k'] v'] es IH]; intros m Hnd Hin.
  { by apply elem_of_nil in Hin. }
  rewrite fmap_cons in Hnd. apply NoDup_cons in Hnd as [Hnot Hnd].
  apply elem_of_cons in Hin as [[= -> -> ->]|Hin].
  - simpl. fold (insert_entries es (<[(d', k'):=v']> m)).
    rewrite lookup_insert_entries_not by done. apply lookup_insert_eq.
  - simpl. by apply IH.
Qed.

(** ** What the trait promises

    [kv_view] is the logical content. A successful operation has exactly the
    documented effect; a failed one leaves every key it does not name alone
    (an erroring [put] of the PDDB backend may have lost the old value). *)
Class KvLaws (St : Type) `{!KvBackend St} : Type := {
  kv_view : St -> kv_map;
  kv_get_law s d k r s' : kv_get d k s = (r, s') ->
    kv_view s' = kv_view s /\ forall v, r = Ok v -> v = kv_view s !! (d, k);
  kv_put_ok s d k v u s' : kv_put d k v s = (Ok u, s') -> kv_view s' = <[(d, k) := v]> (kv_view s);
  kv_put_err s d k v e s' : kv_put d k v s = (Err e, s') ->
    agree_off (fun p => p = (d, k)) (kv_view s') (kv_view s);
  kv_put_batch_ok s es u s' : kv_put_batch es s = (Ok u, s') ->
    kv_view s' = insert_entries es (kv_view s);
  kv_put_batch_err s es e s' : kv_put_batch es s = (Err e, s') ->
    agree_off (fun p => p ∈ entry_key <$> es) (kv_view s') (kv_view s);
  kv_delete_ok s d k u s' : kv_delete d k s = (Ok u, s') -> kv_view s' = delete (d, k) (kv_view s);
  kv_delete_err s d k e s' : kv_delete d k s = (Err e, s') ->
    agree_off (fun p => p = (d, k)) (kv_view s') (kv_view s);
  kv_delete_dict_ok s d u s' : kv_delete_dict d s = (Ok u, s') -> kv_view s' = drop_dict d (kv_view s);
  kv_delete_dict_err s d e s' : kv_delete_dict d s = (Err e, s') ->
    agree_off (fun p => p.1 = d) (kv_view s') (kv_view s);
  kv_list_keys_law s d r s' : kv_list_keys d s = (r, s') ->
    kv_view s' = kv_view s /\
    forall ks, r = Ok ks -> NoDup ks /\ forall k, k ∈ ks <-> is_Some (kv_view s !! (d, k))
}.

(** The default batch meets the batch laws whenever [put] meets its own. *)
Section default_batch.
Context {St : Type} (view : St -> kv_map) (put : string -> string -> bytes -> M St Error unit).
Hypothesis put_ok : forall s d k v u s', put d k v s = (Ok u, s') ->
  view s' = <[(d, k) := v]> (view s).
Hypothesis put_err : forall s d k v e s', put d k v s = (Err e, s') ->
  agree_off (fun p => p = (d, k)) (view s') (view s).

Lemma put_batch_default_ok s es u s' :
  put_batch_default put es s = (Ok u, s') -> view s' = insert_entries es (view s).
Proof.
  unfold put_batch_default, insert_entries.
  revert s. induction es as [|[[d k] v] es IH]; intros s H; simpl in *; [by mstep_all|].
  mstep_all. apply put_ok in Hrun. apply IH in H. by rewrite H, Hrun.
Qed.

Lemma put_batch_default_err s es e s' :
  put_batch_default put es s = (Err e, s') ->
  agree_off (fun p => p ∈ entry_key <$> es) (view s') (view s).
Proof.
  unfold put_batch_default. revert s. induction es as [|[[d k] v] es IH]; intros s H; simpl in *;
    [by mstep_all|].
  apply mbind_inv in H as [(u & s1 & Hp & H)|(e' & Hp & [= <-])].
  - apply IH in H. apply put_ok in Hp. intros p Hin.
    apply not_elem_of_cons in Hin as [Hne Hin]. rewrite H by done. rewrite Hp. by apply lookup_insert_ne.
  - apply put_err in Hp. eapply agree_off_weaken; [|exact Hp].
    intros p ->. apply elem_of_cons. by left.
Qed.
End default_batch.

(** ** The abstract store *)
Module KvSpec.
Inductive op : Type :=
| Get (d k : string)
| Put (d k : string) (v : bytes)
| PutBatch (es : list kv_entry)
| Delete (d k : string)
| DeleteDict (d : string)
| ListKeys (d : string).

(** Key listings are compared as sets: the trait's implementations differ
    in the order they list. *)
Inductive out : Type :=
| OUnit
| OBytes (v : option bytes)
| OKeys (ks : gset string).

Definition dict_keys (d : string) (m : kv_map) : gset string :=
  set_map snd (dom (filter (fun '((d', _), _) => d' = d) m)).

Definition step (o : op) (m : kv_map) : out * kv_map :=
  match o with
  | Get d k => (OBytes (m !! (d, k)), m)
  | Put d k v => (OUnit, <[(d, k) := v]> m)
  | PutBatch es => (OUnit, insert_entries es m)
  | Delete d k => (OUnit, delete (d, k) m)
  | DeleteDict d => (OUnit, drop_dict d m)
  | ListKeys d => (OKeys (dict_keys d m), m)
  end.

Fixpoint run (os : list op) (m : kv_map) : list out * kv_map :=
  match os with
  | [] => ([], m)
  | o :: os' => let '(x, m1) := step o m in let '(xs, m2) := run os' m1 in (x :: xs, m2)
  end.

(** The same operations on a backend. *)
Definition exec {St} `{!KvBackend St} (o : op) : M St Error out :=
  match o with
  | Get d k => let* v := kv_get d k in mok (OBytes v)
  | Put d k v => kv_put d k v ;* mok OUnit
  | PutBatch es => kv_put_batch es ;* mok OUnit
  | Delete d k => kv_delete d k ;* mok OUnit
  | DeleteDict d => kv_delete_dict d ;* mok OUnit
  | ListKeys d => let* ks := kv_list_keys d in mok (OKeys (list_to_set ks))
  end.

Lemma elem_of_dict_keys d m k : k ∈ dict_keys d m <-> is_Some (m !! (d, k)).
Proof.
  unfold dict_keys. rewrite elem_of_map. split.
  - intros ([d' k'] & -> & Hin). apply elem_of_dom in Hin as [v Hv].
    apply map_lookup_filter_Some in Hv as [Hv ->]. by exists v.
  - intros [v Hv]. exists (d, k). split; [done|]. apply elem_of_dom. exists v.
    by apply map_lookup_filter_Some.
Qed.

(** One successful operation of a lawful backend is one step of the
    abstract store, with the same answer. *)
Lemma exec_refines {St} `{KvLaws St} o (s : St) x s' :
  exec o s = (Ok x, s') -> step o (kv_view s) = (x, kv_view s').
Proof.
  destruct o; simpl; intros Hx; mstep_all.
  - apply kv_get_law in Hrun as [-> Hv]. by rewrite (Hv _ eq_refl).
  - by apply kv_put_ok in Hrun as ->.
  - by apply kv_put_batch_ok in Hrun as ->.
  - by apply kv_delete_ok in Hrun as ->.
  - by apply kv_delete_dict_ok in Hrun as ->.
  - apply kv_list_keys_law in Hrun as [-> Hv]. destruct (Hv _ eq_refl) as [_ Hks].
    f_equal. f_equal. apply set_eq. intros k. rewrite elem_of_dict_keys, elem_of_list_to_set.
    symmetry. apply Hks.
Qed.

Lemma exec_all_refines {St} `{KvLaws St} os (s : St) xs s' :
  mmapM exec os s = (Ok xs, s') -> run os (kv_view s) = (xs, kv_view s').
Proof.
  revert s xs. induction os as [|o os IH]; simpl; intros s xs Hx; mstep_all; [done|].
  apply exec_refines in Hrun. apply IH in Hrun0. by rewrite Hrun, Hrun0.
Qed.
End KvSpec.

(** ** The in-memory backend ([backend_mock.rs])

    The map is behind a [Mutex]: once poisoned, every operation is an error. *)
Record MockBackend : Type := mkMock {
  mock_inner : kv_map;
  mock_poisoned : bool
}.

Definition mock_new : MockBackend := mkMock ∅ false.

Section mock.
Context `{HashOrder}.

(** [fn lock]. *)
Definition mock_lock : M MockBackend Error kv_map :=
  fun s => if mock_poisoned s then (Err (Backend "mock backend mutex poisoned"), s)
           else (Ok (mock_inner s), s).

Definition mock_set (m : kv_map) : M MockBackend Error unit :=
  fun s => (Ok tt, mkMock m (mock_poisoned s)).

Definition mock_get (d k : string) : M MockBackend Error (option bytes) :=
  let* m := mock_lock in mok (m !! (d, k)).

Definition mock_put (d k : string) (v : bytes) : M MockBackend Error unit :=
  let* m := mock_lock in mock_set (<[(d, k) := v]> m).

Definition mock_delete (d k : string) : M MockBackend Error unit :=
  let* m := mock_lock in mock_set (delete (d, k) m).

(** [guard.retain(|(d, _), _| d != dict)]. *)
Definition mock_delete_dict (d : string) : M MockBackend Error unit :=
  let* m := mock_lock in mock_set (drop_dict d m).

(** [keys().filter(..).map(..).collect()], in hash order. *)
Definition mock_list_keys (d : string) : M MockBackend Error (list string) :=
  let* m := mock_lock in
  mok (snd <$> filter (fun p => p.1 = d) (hash_keys m)).

#[global] Instance mock_backend : KvBackend MockBackend := {|
  kv_get := mock_get;
  kv_put := mock_put;
  kv_put_batch := put_batch_default mock_put;
  kv_delete := mock_delete;
  kv_delete_dict := mock_delete_dict;
  kv_list_keys := mock_list_keys
|}.

Lemma mock_lock_inv s r s' :
  mock_lock s = (r, s') ->
  s' = s /\ ((exists e, r = Err e) \/ (r = Ok (mock_inner s) /\ mock_poisoned s = false)).
Proof. unfold mock_lock. destruct (mock_poisoned s); intros [= <- <-]; naive_solver. Qed.

(** Every mock operation is [lock] then a pure update. *)
Lemma mock_update_inv {f : kv_map -> kv_map} s r s' :
  mbind mock_lock (fun m => mock_set (f m)) s = (r, s') ->
  match r with Ok _ => mock_inner s' = f (mock_inner s) | Err _ => s' = s end.
Proof.
  intros [(m & s1 & Hl & Hs)|(e & Hl & ->)]%mbind_inv.
  - apply mock_lock_inv in Hl as [-> [[? [=]]|[[= ->] _]]]. by injection Hs as <- <-.
  - by apply mock_lock_inv in Hl as [-> _].
Qed.

#[global] Program Instance mock_laws : KvLaws MockBackend := {| kv_view := mock_inner |}.
Next Obligation.
  intros s d k r s' [(m & s1 & Hl & Hs)|(e & Hl & ->)]%mbind_inv.
  - apply mock_lock_inv in Hl as [-> [[? [=]]|[[= ->] _]]]. injection Hs as <- <-. naive_solver.
  - by apply mock_lock_inv in Hl as [-> _].
Qed.
Next Obligation. intros s d k v [] s' Hs. by apply mock_update_inv in Hs. Qed.
Next Obligation. intros s d k v e s' Hs. apply mock_update_inv in Hs. by subst. Qed.
Next Obligation.
  intros s es u s'. apply put_batch_default_ok.
  clear. intros s d k v [] s' Hs. by apply mock_update_inv in Hs.
Qed.
Next Obligation.
  intros s es e s'. apply put_batch_default_err; clear.
  - intros s d k v [] s' Hs. by apply mock_update_inv in Hs.
  - intros s d k v e s' Hs. apply mock_update_inv in Hs. by subst.
Qed.
Next Obligation. intros s d k [] s' Hs. by apply mock_update_inv in Hs. Qed.
Next Obligation. intros s d k e s' Hs. apply mock_update_inv in Hs. by subst. Qed.
Next Obligation. intros s d [] s' Hs. by apply mock_update_inv in Hs. Qed.
Next Obligation. intros s d e s' Hs. apply mock_update_inv in Hs. by subst. Qed.
Next Obligation.
  intros s d r s' [(m & s1 & Hl & Hs)|(e & Hl & ->)]%mbind_inv.
  2:{ by apply mock_lock_inv in Hl as [-> _]. }
  apply mock_lock_inv in Hl as [-> [[? [=]]|[[= ->] _]]]. injection Hs as <- <-.
  split; [done|]. intros ks [= <-]. split.
  - pose proof (NoDup_hash_keys (mock_inner s)) as Hnd.
    apply (NoDup_filter (fun p : kv_key => p.1 = d)) in Hnd.
    assert (Hd : Forall (fun p : kv_key => p.1 = d) (filter (fun p => p.1 = d) (hash_keys (mock_inner s)))).
    { apply Forall_forall. by intros p [? _]%list_elem_of_filter. }
    revert Hnd Hd. generalize (filter (fun p : kv_key => p.1 = d) (hash_keys (mock_inner s))).
    intros l. induction l as [|[d1 k1] l IH]; intros Hnd Hd; [constructor|].
    apply NoDup_cons in Hnd as [Hn Hnd]. apply Forall_cons in Hd as [Hd1 Hd]. simpl in Hd1. subst.
    rewrite fmap_cons. apply NoDup_cons. split; [|by apply IH].
    intros ([d2 k2] & Hk & Hin)%list_elem_of_fmap. simpl in Hk. subst.
    rewrite Forall_forall in Hd. pose proof (Hd _ Hin). simpl in *. by subst.
  - intros k. rewrite list_elem_of_fmap. unfold hash_keys. split.
    + intros ([d1 k1] & -> & [Hd Hin]%list_elem_of_filter). simpl in Hd. subst d1.
      apply list_elem_of_fmap in Hin as ([p v] & Hp & Hin). simpl in Hp. subst p.
      apply elem_of_hash_iter in Hin. simpl. by exists v.
    + intros [v Hv]. exists (d, k). split; [done|]. apply list_elem_of_filter. split; [done|].
      apply list_elem_of_fmap. exists ((d, k), v). split; [done|]. by apply elem_of_hash_iter.
Qed.

Lemma mock_put_total s d k v : mock_poisoned s = false ->
  kv_put d k v s = (Ok tt, mkMock (<[(d, k) := v]> (mock_inner s)) false).
Proof. destruct s as [m []]; done. Qed.
End mock.

(** The mock lists in the order of its hash map, which need not be sorted. *)
Example mock_lists_unsorted :
  (kv_list_keys (KvBackend := mock_backend (H := canonical_order)) "d"
     (mkMock {[ ("d", "a") := [x00]; ("d", "b") := [x00]; ("d", "c") := [x00] ]} false)).1 = Ok ["c"; "a"; "b"].
Proof. vm_compute. reflexivity. Qed.
