(* ===== verification/Buffering.v ===== *)
(** * The write-coalescing backend ([buffering_backend.rs])

    [BufferingBackend] wraps any [KvBackend]: outside a batch it passes through,
    inside one it records writes in a map and overlays them on reads; a commit
    replays the map, a dropped guard throws it away. It is itself a lawful
    [KvBackend] ([buffering_laws]): the store above it cannot tell a batch from
    direct writes. *)
From S2P Require Import Prelude Kv.

Inductive BufferEntry : Type :=
| EPut (value : bytes)
| EDelete.

(** [buffer_poisoned]: the [Mutex] around the map was poisoned by a panic. *)
Record BufferingBackend (St : Type) : Type := mkBuffering {
  inner : St;
  batching : bool;
  buffer : gmap kv_key BufferEntry;
  buffer_poisoned : bool
}.
Arguments mkBuffering {St} _ _ _ _.
Arguments inner {St} _.
Arguments batching {St} _.
Arguments buffer {St} _.
Arguments buffer_poisoned {St} _.

Section buffering.
Context `{HashOrder} {St : Type} `{!KvBackend St}.
Abbreviation B := (BufferingBackend St).

Definition buffering_new (s : St) : B := mkBuffering s false ∅ false.
Definition is_batching (b : B) : bool := batching b.
Definition buffered_len (b : B) : nat := if buffer_poisoned b then 0 else size (buffer b).

Definition set_inner (s : St) (b : B) : B := mkBuffering s (batching b) (buffer b) (buffer_poisoned b).
Definition set_batching (f : bool) (b : B) : B := mkBuffering (inner b) f (buffer b) (buffer_poisoned b).
Definition set_buffer (m : gmap kv_key BufferEntry) (b : B) : B :=
  mkBuffering (inner b) (batching b) m (buffer_poisoned b).

(** A call forwarded to the wrapped backend. *)
Definition on_inner {A} (m : M St Error A) : M B Error A := zoom inner set_inner m.

(** [self.buffer.lock().map_err(..)?]. *)
Definition lock_buffer : M B Error (gmap kv_key BufferEntry) :=
  fun b => if buffer_poisoned b then (Err (Backend "buffer mutex poisoned"), b) else (Ok (buffer b), b).

Definition buffer_insert (p : kv_key) (e : BufferEntry) : M B Error unit :=
  let* m := lock_buffer in fun b => (Ok tt, set_buffer (<[p := e]> m) b).

(** ** [KvBackend for BufferingBackend] *)
Definition buffering_get (d k : string) : M B Error (option bytes) :=
  fun b =>
    if is_batching b then
      if buffer_poisoned b then on_inner (kv_get d k) b
      else match buffer b !! (d, k) with
           | Some (EPut v) => (Ok (Some v), b)
           | Some EDelete => (Ok None, b)
           | None => on_inner (kv_get d k) b
           end
    else on_inner (kv_get d k) b.

Definition buffering_put (d k : string) (v : bytes) : M B Error unit :=
  fun b => if is_batching b then buffer_insert (d, k) (EPut v) b else on_inner (kv_put d k v) b.

Definition buffering_delete (d k : string) : M B Error unit :=
  fun b => if is_batching b then buffer_insert (d, k) EDelete b else on_inner (kv_delete d k) b.

(** The buffered entries of the dict are dropped, then the call is forwarded
    straight to the wrapped backend, batch or not. *)
Definition retain_other_dicts (d : string) (m : gmap kv_key BufferEntry) : gmap kv_key BufferEntry :=
  filter (fun '((d', _), _) => d' <> d) m.

Definition buffering_delete_dict (d : string) : M B Error unit :=
  fun b =>
    let b' := if is_batching b && negb (buffer_poisoned b)
              then set_buffer (retain_other_dicts d (buffer b)) b else b in
    on_inner (kv_delete_dict d) b'.

(** One buffered entry applied to the [BTreeSet] of keys. *)
Definition overlay_key (d : string) (keys : gset string) (e : kv_key * BufferEntry) : gset string :=
  if decide (e.1.1 = d) then
    match e.2 with
    | EPut _ => {[ e.1.2 ]} ∪ keys
    | EDelete => keys ∖ {[ e.1.2 ]}
    end
  else keys.

Definition buffering_list_keys (d : string) : M B Error (list string) :=
  let* inner_keys := on_inner (kv_list_keys d) in
  fun b =>
    if negb (is_batching b) then (Ok inner_keys, b)
    else (let* m := lock_buffer in
          mok (btree_elements (foldl (overlay_key d) (list_to_set inner_keys) (hash_iter m)))) b.

#[global] Instance buffering_backend : KvBackend B := {|
  kv_get := buffering_get;
  kv_put := buffering_put;
  kv_put_batch := put_batch_default buffering_put;
  kv_delete := buffering_delete;
  kv_delete_dict := buffering_delete_dict;
  kv_list_keys := buffering_list_keys
|}.

(** ** Batch scopes *)

(** [compare_exchange(false, true)]. *)
Definition begin_batch : M B Error unit :=
  fun b => if batching b then (Err (Backend "batch already in flight on this backend"), b)
           else (Ok tt, set_batching true b).

(** Replay loops that go on after an error and keep the first one. *)
Definition keep_first (first_err : option Error) (r : result unit Error) : option Error :=
  match first_err, r with
  | None, Err e => Some e
  | _, _ => first_err
  end.

Fixpoint replay_all (ms : list (M St Error unit)) (first_err : option Error) (s : St)
    : option Error * St :=
  match ms with
  | [] => (first_err, s)
  | m :: ms' => let '(r, s') := m s in replay_all ms' (keep_first first_err r) s'
  end.

Definition split_puts (es : list (kv_key * BufferEntry)) : list kv_entry :=
  omap (fun '((d, k), e) => match e with EPut v => Some (d, k, v) | EDelete => None end) es.
Definition split_deletes (es : list (kv_key * BufferEntry)) : list kv_key :=
  omap (fun '(p, e) => match e with EPut _ => None | EDelete => Some p end) es.

Definition replay_puts (puts : list kv_entry) (s : St) : option Error * St :=
  match puts with
  | [] => (None, s)
  | _ => match kv_put_batch puts s with
         | (Ok _, s') => (None, s')
         | (Err _, s') => replay_all ((fun '(d, k, v) => kv_put d k v) <$> puts) None s'
         end
  end.

Definition commit_internal : M B Error nat :=
  let* entries := lock_buffer in
  fun b =>
    let es := hash_iter entries in
    let '(err1, s1) := replay_puts (split_puts es) (inner b) in
    let '(err2, s2) := replay_all ((fun '(d, k) => kv_delete d k) <$> split_deletes es) err1 s1 in
    let b' := mkBuffering s2 false ∅ (buffer_poisoned b) in
    match err2 with
    | None => (Ok (length es), b')
    | Some e => (Err e, b')
    end.

Definition abort_internal (b : B) : B :=
  set_batching false (if buffer_poisoned b then b else set_buffer ∅ b).

(** [BatchGuard]: [commit] marks the guard committed before it runs, so the
    drop that follows does nothing, whatever [commit_internal] returned. *)
Definition guard_drop (committed : bool) (b : B) : B := if committed then b else abort_internal b.

Definition guard_commit : M B Error nat :=
  fun b => let '(r, b') := commit_internal b in (r, guard_drop true b').

(** ** The overlay view *)

Definition overlay_entry (e : option BufferEntry) (v : option bytes) : option bytes :=
  match e with
  | Some (EPut w) => Some w
  | Some EDelete => None
  | None => v
  end.

Definition overlay (buf : gmap kv_key BufferEntry) (m : kv_map) : kv_map := merge overlay_entry buf m.

Lemma lookup_overlay buf m p : overlay buf m !! p = overlay_entry (buf !! p) (m !! p).
Proof.
  unfold overlay. rewrite lookup_merge. by destruct (buf !! p) as [[]|], (m !! p).
Qed.

Lemma overlay_empty m : overlay ∅ m = m.
Proof. apply map_eq. intros p. by rewrite lookup_overlay, lookup_empty. Qed.

Lemma overlay_insert buf m p e :
  overlay (<[p := e]> buf) m =
  match e with EPut v => <[p := v]> (overlay buf m) | EDelete => delete p (overlay buf m) end.
Proof.
  apply map_eq. intros q. rewrite lookup_overlay. destruct (decide (p = q)) as [->|Hne].
  - rewrite lookup_insert_eq. destruct e; simpl; by rewrite ?lookup_insert_eq, ?lookup_delete_eq.
  - rewrite lookup_insert_ne by done.
    destruct e; rewrite ?lookup_insert_ne, ?lookup_delete_ne, lookup_overlay by done; done.
Qed.

Lemma overlay_drop_dict buf m d :
  overlay (retain_other_dicts d buf) (drop_dict d m) = drop_dict d (overlay buf m).
Proof.
  apply map_eq. intros [d' k]. rewrite lookup_overlay, !lookup_drop_dict, lookup_overlay.
  unfold retain_other_dicts. rewrite map_lookup_filter.
  destruct (buf !! (d', k)) as [[w|]|]; simpl; repeat (case_guard || case_decide); naive_solver.
Qed.

Lemma overlay_agree_off P buf m1 m2 :
  agree_off P m1 m2 -> agree_off P (overlay buf m1) (overlay buf m2).
Proof. intros Hm p Hp. rewrite !lookup_overlay. by rewrite Hm. Qed.

Lemma elem_of_overlay_keys d k (l : list (kv_key * BufferEntry)) X :
  NoDup l.*1 ->
  k ∈ foldl (overlay_key d) X l <->
  (exists v, ((d, k), EPut v) ∈ l) \/ (k ∈ X /\ (d, k) ∉ l.*1).
Proof.
  revert X. induction l as [|[[d' k'] e] l IH]; intros X Hnd.
  { simpl. set_solver. }
  rewrite fmap_cons in Hnd. apply NoDup_cons in Hnd as [Hn Hnd]. simpl in Hn |- *.
  rewrite IH by done. rewrite not_elem_of_cons. unfold overlay_key; simpl.
  destruct (decide (d' = d)) as [->|Hd].
  2:{ setoid_rewrite elem_of_cons. naive_solver. }
  destruct (decide (k = k')) as [->|Hk].
  - assert (Hno : forall v, ((d, k'), EPut v) ∉ l).
    { intros v Hin. apply Hn. apply list_elem_of_fmap. by exists ((d, k'), EPut v). }
    setoid_rewrite elem_of_cons. destruct e; set_solver.
  - setoid_rewrite elem_of_cons. destruct e; set_solver.
Qed.

Section laws.
Context `{!KvLaws St}.

Definition buffering_view (b : B) : kv_map :=
  if batching b && negb (buffer_poisoned b) then overlay (buffer b) (kv_view (inner b))
  else kv_view (inner b).

Lemma on_inner_inv {A} (m : M St Error A) b r b' :
  on_inner m b = (r, b') -> exists s', m (inner b) = (r, s') /\ b' = set_inner s' b.
Proof. unfold on_inner, zoom. destruct (m (inner b)) as [r' s']. intros [= <- <-]. eauto. Qed.

Lemma buffer_insert_inv p e b r b' :
  buffer_insert p e b = (r, b') ->
  match r with
  | Ok _ => buffer_poisoned b = false /\ b' = set_buffer (<[p := e]> (buffer b)) b
  | Err _ => b' = b
  end.
Proof.
  unfold buffer_insert, mbind, lock_buffer. destruct (buffer_poisoned b); intros [= <- <-]; done.
Qed.

Lemma view_set_inner s' b :
  kv_view s' = kv_view (inner b) -> buffering_view (set_inner s' b) = buffering_view b.
Proof. unfold buffering_view. simpl. by intros ->. Qed.

Lemma view_set_inner_off P s' b :
  agree_off P (kv_view s') (kv_view (inner b)) ->
  agree_off P (buffering_view (set_inner s' b)) (buffering_view b).
Proof. unfold buffering_view. simpl. intros. case_match; [by apply overlay_agree_off|done]. Qed.

(** A read in a batch answers from the overlay. *)
Lemma buffering_get_law b d k r b' :
  buffering_get d k b = (r, b') ->
  buffering_view b' = buffering_view b /\ forall v, r = Ok v -> v = buffering_view b !! (d, k).
Proof.
  assert (Hthrough : on_inner (kv_get d k) b = (r, b') ->
    buffering_view b' = buffering_view b /\
    forall v, r = Ok v -> v = kv_view (inner b) !! (d, k)).
  { intros (s' & Hs & ->)%on_inner_inv. apply kv_get_law in Hs as [Hv Hr].
    split; [by apply view_set_inner|done]. }
  unfold buffering_get, is_batching. unfold buffering_view at 3.
  destruct (batching b) eqn:Hb; simpl; [|done].
  destruct (buffer_poisoned b) eqn:Hp; simpl; [done|].
  rewrite lookup_overlay.
  destruct (buffer b !! (d, k)) as [[v|]|] eqn:Hl; simpl; [| |done];
    intros [= <- <-]; (split; [done|]); by intros ? [= <-].
Qed.

Lemma buffering_write_law b p e (m : M St Error unit) r b' :
  (if is_batching b then buffer_insert p e b else on_inner m b) = (r, b') ->
  (forall s u s', m s = (Ok u, s') ->
     kv_view s' = match e with EPut v => <[p := v]> (kv_view s) | EDelete => delete p (kv_view s) end) ->
  (forall s x s', m s = (Err x, s') -> agree_off (fun q => q = p) (kv_view s') (kv_view s)) ->
  match r with
  | Ok _ => buffering_view b' =
      match e with EPut v => <[p := v]> (buffering_view b) | EDelete => delete p (buffering_view b) end
  | Err _ => agree_off (fun q => q = p) (buffering_view b') (buffering_view b)
  end.
Proof.
  intros Hrun Hok Herr. unfold is_batching in Hrun. destruct (batching b) eqn:Hb.
  - apply buffer_insert_inv in Hrun. destruct r; [|by subst].
    destruct Hrun as [Hp ->]. unfold buffering_view. simpl. rewrite Hb, Hp. simpl.
    apply overlay_insert.
  - apply on_inner_inv in Hrun as (s' & Hs & ->). destruct r.
    + apply Hok in Hs. unfold buffering_view. simpl. by rewrite Hb.
    + apply Herr in Hs. by apply view_set_inner_off.
Qed.

Lemma buffering_delete_dict_law b d r b' :
  buffering_delete_dict d b = (r, b') ->
  match r with
  | Ok _ => buffering_view b' = drop_dict d (buffering_view b)
  | Err _ => agree_off (fun p => p.1 = d) (buffering_view b') (buffering_view b)
  end.
Proof.
  unfold buffering_delete_dict. intros (s' & Hs & ->)%on_inner_inv.
  unfold is_batching in *. destruct (batching b && negb (buffer_poisoned b)) eqn:Hb.
  - simpl in Hs. unfold buffering_view. simpl. rewrite Hb. destruct r.
    + apply kv_delete_dict_ok in Hs as ->. apply overlay_drop_dict.
    + apply kv_delete_dict_err in Hs. intros [d' k] Hd. simpl in Hd.
      rewrite !lookup_overlay, Hs by done. unfold retain_other_dicts. rewrite map_lookup_filter.
      destruct (buffer b !! (d', k)) as [[]|]; simpl; [| |done]; case_guard; naive_solver.
  - unfold buffering_view. simpl. rewrite Hb. destruct r.
    + by apply kv_delete_dict_ok in Hs as ->.
    + by apply kv_delete_dict_err in Hs.
Qed.

Lemma buffering_list_keys_law b d r b' :
  buffering_list_keys d b = (r, b') ->
  buffering_view b' = buffering_view b /\
  forall ks, r = Ok ks -> NoDup ks /\ forall k, k ∈ ks <-> is_Some (buffering_view b !! (d, k)).
Proof.
  intros [(ik & b1 & Hi & Hl)|(e & Hi & ->)]%mbind_inv;
    apply on_inner_inv in Hi as (s' & Hs & ->); apply kv_list_keys_law in Hs as [Hv Hks].
  2:{ split; [by apply view_set_inner|by intros]. }
  specialize (Hks _ eq_refl) as [Hnd Hks]. unfold is_batching in Hl; simpl in Hl.
  unfold buffering_view at 3.
  destruct (batching b) eqn:Hb; simpl in *.
  2:{ injection Hl as <- <-. split; [by apply view_set_inner|]. by intros ks [= <-]. }
  unfold mbind, lock_buffer in Hl; simpl in Hl.
  destruct (buffer_poisoned b) eqn:Hp; simpl in *; injection Hl as <- <-;
    (split; [by apply view_set_inner|]); intros ks [= <-].
  split; [apply NoDup_btree_elements|]. intros k.
  rewrite elem_of_btree_elements, elem_of_overlay_keys by apply NoDup_hash_keys.
  rewrite elem_of_list_to_set, Hks, lookup_overlay.
  setoid_rewrite elem_of_hash_iter.
  assert (Hdom : (d, k) ∉ (hash_iter (buffer b)).*1 <-> buffer b !! (d, k) = None).
  { rewrite list_elem_of_fmap, eq_None_not_Some. apply not_iff_compat. split.
    - intros ([p e] & Hpk & Hin). simpl in Hpk. subst p. apply elem_of_hash_iter in Hin. by exists e.
    - intros [e He]. exists ((d, k), e). split; [done|]. by apply elem_of_hash_iter. }
  rewrite Hdom. destruct (buffer b !! (d, k)) as [[v|]|]; simpl; naive_solver.
Qed.

#[global] Program Instance buffering_laws : KvLaws B := {| kv_view := buffering_view |}.
Next Obligation. intros b d k r b'. apply buffering_get_law. Qed.
Next Obligation.
  intros b d k v u b' Hs. apply (buffering_write_law _ _ (EPut v)) in Hs; [done|..];
    [intros *; apply kv_put_ok|intros *; apply kv_put_err].
Qed.
Next Obligation.
  intros b d k v e b' Hs. apply (buffering_write_law _ _ (EPut v)) in Hs; [done|..];
    [intros *; apply kv_put_ok|intros *; apply kv_put_err].
Qed.
Next Obligation.
  intros b es u b'. apply put_batch_default_ok.
  intros ? d k v ? ? Hs. apply (buffering_write_law _ _ (EPut v)) in Hs; [done|..];
    [intros *; apply kv_put_ok|intros *; apply kv_put_err].
Qed.
Next Obligation.
  intros b es e b'. apply put_batch_default_err;
  (intros ? d k v ? ? Hs; apply (buffering_write_law _ _ (EPut v)) in Hs; [done|..];
    [intros *; apply kv_put_ok|intros *; apply kv_put_err]).
Qed.
Next Obligation.
  intros b d k u b' Hs. apply (buffering_write_law _ _ EDelete) in Hs; [done|..];
    [intros *; apply kv_delete_ok|intros *; apply kv_delete_err].
Qed.
Next Obligation.
  intros b d k e b' Hs. apply (buffering_write_law _ _ EDelete) in Hs; [done|..];
    [intros *; apply kv_delete_ok|intros *; apply kv_delete_err].
Qed.
Next Obligation. intros b d u b' Hs. by apply buffering_delete_dict_law in Hs. Qed.
Next Obligation. intros b d e b' Hs. by apply buffering_delete_dict_law in Hs. Qed.
Next Obligation. intros b d r b'. apply buffering_list_keys_law. Qed.
End laws.
End buffering.

(** ** Replaying the buffer *)
Section replay.
Context `{HashOrder} {St : Type} `{KvLaws St}.

Definition delete_keys (ks : list kv_key) (m : kv_map) : kv_map := foldl (fun m p => delete p m) m ks.

Lemma lookup_delete_keys ks m p :
  delete_keys ks m !! p = if decide (p ∈ ks) then None else m !! p.
Proof.
  unfold delete_keys. revert m. induction ks as [|q ks IH]; intros m; cbn [foldl].
  { case_decide as Hd; [by apply elem_of_nil in Hd|done]. }
  rewrite IH. repeat case_decide; rewrite ?elem_of_cons in *; try naive_solver.
  - destruct (decide (p = q)) as [->|]; [apply lookup_delete_eq|naive_solver].
  - apply lookup_delete_ne. naive_solver.
Qed.

(** The loop reports the first error, started from [first]. *)
Lemma replay_all_puts puts first (s s' : St) e :
  replay_all ((fun '(d, k, v) => kv_put d k v) <$> puts) first s = (e, s') ->
  agree_off (fun p => p ∈ entry_key <$> puts) (kv_view s') (kv_view s) /\
  (e = None -> first = None /\ kv_view s' = insert_entries puts (kv_view s)).
Proof.
  revert first s. induction puts as [|[[d k] v] puts IH]; intros first s; simpl.
  { intros [= -> ->]. by split. }
  destruct (kv_put d k v s) as [r s1] eqn:Hp. intros Hr. apply IH in Hr as [Hoff Hok].
  assert (Hp1 : agree_off (fun p => p = (d, k)) (kv_view s1) (kv_view s)).
  { destruct r; [|by apply kv_put_err in Hp]. apply kv_put_ok in Hp as ->.
    intros p Hne. apply lookup_insert_ne. naive_solver. }
  split.
  - intros p Hn. apply not_elem_of_cons in Hn as [Hne Hn]. rewrite Hoff by done. by apply Hp1.
  - intros He. destruct (Hok He) as [Hf Hv]. unfold keep_first in Hf.
    destruct first; [done|]. destruct r; [|done]. apply kv_put_ok in Hp as Hs1. by rewrite Hv, Hs1.
Qed.

Lemma replay_all_deletes ks first (s s' : St) e :
  replay_all ((fun '(d, k) => kv_delete d k) <$> ks) first s = (e, s') ->
  agree_off (fun p => p ∈ ks) (kv_view s') (kv_view s) /\
  (e = None -> first = None /\ kv_view s' = delete_keys ks (kv_view s)).
Proof.
  revert first s. induction ks as [|[d k] ks IH]; intros first s; simpl.
  { intros [= -> ->]. by split. }
  destruct (kv_delete d k s) as [r s1] eqn:Hp. intros Hr. apply IH in Hr as [Hoff Hok].
  assert (Hp1 : agree_off (fun p => p = (d, k)) (kv_view s1) (kv_view s)).
  { destruct r; [|by apply kv_delete_err in Hp]. apply kv_delete_ok in Hp as ->.
    intros p Hne. apply lookup_delete_ne. naive_solver. }
  split.
  - intros p Hn. apply not_elem_of_cons in Hn as [Hne Hn]. rewrite Hoff by done. by apply Hp1.
  - intros He. destruct (Hok He) as [Hf Hv]. unfold keep_first in Hf.
    destruct first; [done|]. destruct r; [|done]. apply kv_delete_ok in Hp as Hs1. by rewrite Hv, Hs1.
Qed.

Lemma insert_entries_agree es m1 m2 :
  agree_off (fun p => p ∈ entry_key <$> es) m1 m2 -> insert_entries es m1 = insert_entries es m2.
Proof.
  intros Hm. apply map_eq. intros p.
  assert (Hgen : forall n1 n2, (n1 !! p = n2 !! p \/ p ∈ entry_key <$> es) ->
    insert_entries es n1 !! p = insert_entries es n2 !! p).
  { clear. unfold insert_entries. induction es as [|[[d k] v] es IH]; intros n1 n2 Hn; simpl.
    - destruct Hn as [|Hn]; [done|by apply elem_of_nil in Hn].
    - apply IH. rewrite fmap_cons, elem_of_cons in Hn. unfold entry_key in Hn at 1; simpl in Hn.
      destruct (decide (p = (d, k))) as [->|Hne]; [left; by rewrite !lookup_insert_eq|].
      rewrite !lookup_insert_ne by done. naive_solver. }
  apply Hgen. destruct (decide (p ∈ entry_key <$> es)) as [|Hn]; [by right|left; by apply Hm].
Qed.

(** Bulk write, or the entry-by-entry fallback: on success the effect is the
    same. *)
Lemma replay_puts_spec puts (s s' : St) e :
  replay_puts puts s = (e, s') ->
  agree_off (fun p => p ∈ entry_key <$> puts) (kv_view s') (kv_view s) /\
  (e = None -> kv_view s' = insert_entries puts (kv_view s)).
Proof.
  unfold replay_puts. destruct puts as [|x puts'] eqn:Hps.
  { by intros [= <- <-]. }
  rewrite <- Hps. clear Hps. set (ps := puts). clearbody ps. clear puts x puts'. rename ps into puts.
  destruct (kv_put_batch puts s) as [[u|be] s1] eqn:Hb.
  - intros [= <- <-]. apply kv_put_batch_ok in Hb. split; [|done].
    intros p Hp. rewrite Hb. by apply lookup_insert_entries_not.
  - intros Hr. apply kv_put_batch_err in Hb. apply replay_all_puts in Hr as [Hoff Hok]. split.
    + by rewrite Hoff.
    + intros He. destruct (Hok He) as [_ ->]. by apply insert_entries_agree.
Qed.

Lemma elem_of_split_puts d k v es : (d, k, v) ∈ split_puts es <-> ((d, k), EPut v) ∈ es.
Proof.
  unfold split_puts. rewrite list_elem_of_omap. split.
  - intros ([[d' k'] [v'|]] & Hin & [=]); by subst.
  - intros Hin. eexists. by split.
Qed.

Lemma elem_of_split_deletes p es : p ∈ split_deletes es <-> (p, EDelete) ∈ es.
Proof.
  unfold split_deletes. rewrite list_elem_of_omap. split.
  - intros ([p' [v'|]] & Hin & [=]); by subst.
  - intros Hin. eexists. by split.
Qed.

Lemma elem_of_split_puts_keys p es :
  p ∈ entry_key <$> split_puts es <-> exists v, (p, EPut v) ∈ es.
Proof.
  rewrite list_elem_of_fmap. destruct p as [d k]. split.
  - intros ([[d' k'] v] & Hp & Hin). unfold entry_key in Hp; simpl in Hp. injection Hp as -> ->.
    apply elem_of_split_puts in Hin. by exists v.
  - intros [v Hin]. exists (d, k, v). split; [done|]. by apply elem_of_split_puts.
Qed.

Lemma NoDup_split_puts es : NoDup es.*1 -> NoDup (entry_key <$> split_puts es).
Proof.
  induction es as [|[[d k] e] es IH]; intros Hnd; [constructor|].
  rewrite fmap_cons in Hnd. apply NoDup_cons in Hnd as [Hn Hnd]. simpl in Hn.
  destruct e as [v|]; [|by apply IH].
  change (split_puts (((d, k), EPut v) :: es)) with ((d, k, v) :: split_puts es).
  rewrite fmap_cons. apply NoDup_cons. split; [|by apply IH].
  intros Hin. apply elem_of_split_puts_keys in Hin as [w Hin]. apply Hn.
  apply list_elem_of_fmap. by exists ((d, k), EPut w).
Qed.

(** Puts then deletes is the overlay: no key is in both lists. *)
Lemma replay_is_overlay buf m :
  delete_keys (split_deletes (hash_iter buf)) (insert_entries (split_puts (hash_iter buf)) m)
  = overlay buf m.
Proof.
  apply map_eq. intros [d k]. rewrite lookup_delete_keys, lookup_overlay.
  case_decide as Hd; rewrite elem_of_split_deletes, elem_of_hash_iter in Hd.
  { by rewrite Hd. }
  destruct (buf !! (d, k)) as [[v|]|] eqn:Hb; simpl.
  - apply lookup_insert_entries; [apply NoDup_split_puts, NoDup_hash_keys|].
    by apply elem_of_split_puts, elem_of_hash_iter.
  - done.
  - apply lookup_insert_entries_not. rewrite elem_of_split_puts_keys.
    intros [v Hin]. apply elem_of_hash_iter in Hin. naive_solver.
Qed.

Lemma commit_internal_inv (b : BufferingBackend St) r b' :
  commit_internal b = (r, b') -> buffer_poisoned b = false ->
  b' = mkBuffering (inner b') false ∅ false /\
  match r with
  | Ok n => n = size (buffer b) /\ kv_view (inner b') = overlay (buffer b) (kv_view (inner b))
  | Err _ => agree_off (fun p => is_Some (buffer b !! p)) (kv_view (inner b')) (kv_view (inner b))
  end.
Proof.
  unfold commit_internal, mbind, lock_buffer. intros Hc Hp. rewrite Hp in Hc.
  destruct (replay_puts _ (inner b)) as [e1 s1] eqn:H1.
  destruct (replay_all _ e1 s1) as [e2 s2] eqn:H2.
  apply replay_puts_spec in H1 as [Hoff1 Hok1]. apply replay_all_deletes in H2 as [Hoff2 Hok2].
  destruct e2 as [e|]; injection Hc as <- <-; simpl; (split; [by rewrite Hp|]).
  - intros p Hn. rewrite Hoff2; [apply Hoff1|].
    + intros [v Hin]%elem_of_split_puts_keys. apply elem_of_hash_iter in Hin. naive_solver.
    + intros Hin%elem_of_split_deletes. apply elem_of_hash_iter in Hin. naive_solver.
  - split; [apply length_hash_iter|]. destruct (Hok2 eq_refl) as [-> ->].
    rewrite Hok1 by done. apply replay_is_overlay.
Qed.

(** In-batch operations keep the flag and the lock state, and touch the
    wrapped backend's contents only through [delete_dict]. *)
Definition op_no_delete_dict (o : KvSpec.op) : bool :=
  match o with KvSpec.DeleteDict _ => false | _ => true end.

Definition same_scope (b b' : BufferingBackend St) : Prop :=
  batching b' = batching b /\ buffer_poisoned b' = buffer_poisoned b.

Definition inner_kept (b b' : BufferingBackend St) : Prop :=
  batching b = true -> kv_view (inner b') = kv_view (inner b).

#[global] Instance same_scope_trans : Transitive same_scope.
Proof. intros b1 b2 b3 [] []. split; congruence. Qed.

Lemma buffer_insert_scope p e b r b' :
  buffer_insert p e b = (r, b') -> same_scope b b' /\ inner b' = inner b.
Proof.
  intros Hi. apply buffer_insert_inv in Hi. destruct r as [u|x]; [|by subst].
  destruct Hi as [_ ->]. done.
Qed.

Lemma buffering_put_scope d k v b r b' :
  buffering_put d k v b = (r, b') -> same_scope b b' /\ inner_kept b b'.
Proof.
  unfold buffering_put, is_batching, inner_kept. destruct (batching b) eqn:Hb; intros Hr.
  - apply buffer_insert_scope in Hr as [Hs ->]. done.
  - apply on_inner_inv in Hr as (s & _ & ->). done.
Qed.

Lemma buffering_delete_scope d k b r b' :
  buffering_delete d k b = (r, b') -> same_scope b b' /\ inner_kept b b'.
Proof.
  unfold buffering_delete, is_batching, inner_kept. destruct (batching b) eqn:Hb; intros Hr.
  - apply buffer_insert_scope in Hr as [Hs ->]. done.
  - apply on_inner_inv in Hr as (s & _ & ->). done.
Qed.

Lemma put_batch_scope es b r b' :
  put_batch_default buffering_put es b = (r, b') -> same_scope b b' /\ inner_kept b b'.
Proof.
  unfold put_batch_default. revert b. induction es as [|[[d k] v] es IH]; simpl; intros b Hr.
  { by mstep_all. }
  apply mbind_inv in Hr as [(u & b1 & H1 & H2)|(e & H1 & ->)].
  - apply buffering_put_scope in H1 as [Hs1 Hi1]. apply IH in H2 as [Hs2 Hi2].
    split; [by etrans|]. intros Hb. rewrite Hi2, Hi1; [done..|]. destruct Hs1. congruence.
  - by apply buffering_put_scope in H1.
Qed.

Lemma exec_scope o b r b' :
  KvSpec.exec o b = (r, b') ->
  same_scope b b' /\ (op_no_delete_dict o = true -> inner_kept b b').
Proof.
  destruct o; simpl; intros Hr; apply mbind_inv in Hr;
    (assert (Hm : exists r0, _ b = (r0, b')) by
       (destruct Hr as [(u & b1 & Hx & [= _ <-])|(e & Hx & _)]; eexists; exact Hx));
    clear Hr; destruct Hm as [r0 Hm].
  - unfold buffering_get in Hm. repeat case_match; simplify_eq; try done;
      apply on_inner_inv in Hm as (s & Hs & ->); apply kv_get_law in Hs as [Hv _];
      (split; [done|]); intros _ _; exact Hv.
  - apply buffering_put_scope in Hm as [??]. by split.
  - apply put_batch_scope in Hm as [??]. by split.
  - apply buffering_delete_scope in Hm as [??]. by split.
  - unfold buffering_delete_dict in Hm. apply on_inner_inv in Hm as (s & _ & ->).
    split; [|done]. by case_match.
  - apply mbind_inv in Hm as [(ks & b1 & Hx & Hy)|(e & Hx & ->)];
      apply on_inner_inv in Hx as (s & Hs & ->); apply kv_list_keys_law in Hs as [Hv _];
      [|split; [done|]; by intros _ _].
    assert (b' = set_inner s b) as ->.
    { unfold is_batching, mbind, lock_buffer, mok in Hy.
      destruct (negb _); [by injection Hy|]. destruct (buffer_poisoned _); by injection Hy. }
    split; [done|]. by intros _ _.
Qed.

Lemma exec_all_scope os b r b' :
  mmapM KvSpec.exec os b = (r, b') ->
  same_scope b b' /\ (forallb op_no_delete_dict os = true -> inner_kept b b').
Proof.
  revert b r. induction os as [|o os IH]; simpl; intros b r Hr.
  { mstep. split; [done|]. by intros _ _. }
  apply mbind_inv in Hr as [(x & b1 & H1 & H2)|(e & H1 & ->)].
  - apply exec_scope in H1 as [Hs1 Hi1].
    assert (Hm : exists r0, mmapM KvSpec.exec os b1 = (r0, b')).
    { apply mbind_inv in H2 as [(xs & b2 & Hx & [= _ <-])|(e & Hx & _)]; eexists; exact Hx. }
    destruct Hm as [r0 Hm]. apply IH in Hm as [Hs2 Hi2]. split; [by etrans|].
    intros [Ho Hos]%andb_true_iff Hb. rewrite Hi2, Hi1; [done..|]. destruct Hs1. congruence.
  - apply exec_scope in H1 as [Hs Hi]. split; [done|]. intros [Ho _]%andb_true_iff. by apply Hi.
Qed.
End replay.

(** ** Properties of a batch scope *)
Section properties.
Context `{HashOrder} {St : Type} `{KvLaws St}.

(** C1: a batch is invisible. Opened on an idle wrapper, any sequence of
    operations that succeeds inside the batch and is then committed gives the
    answers and the final contents of the abstract store, hence those of the
    same operations sent straight to the wrapped backend; the scope is closed,
    the buffer is empty and the reported count is the number of distinct keys
    written. *)
Theorem batch_commit_equals_direct os (s : St) b1 xs b2 n b3 :
  begin_batch (buffering_new s) = (Ok tt, b1) ->
  mmapM KvSpec.exec os b1 = (Ok xs, b2) ->
  guard_commit b2 = (Ok n, b3) ->
  KvSpec.run os (kv_view s) = (xs, kv_view b3) /\
  batching b3 = false /\ buffer b3 = ∅ /\ n = size (buffer b2) /\
  (forall ys s', mmapM KvSpec.exec os s = (Ok ys, s') -> ys = xs /\ kv_view s' = kv_view b3).
Proof.
  intros [= <-] Hops Hc.
  pose proof Hops as [[Hb Hp] _]%exec_all_scope. apply KvSpec.exec_all_refines in Hops.
  unfold guard_commit in Hc. destruct (commit_internal b2) as [r b'] eqn:Hci. injection Hc as -> <-.
  apply commit_internal_inv in Hci as [Hb' [-> Hv]]; [|done].
  assert (Hend : kv_view b' = kv_view b2).
  { rewrite Hb' at 1. cbn. unfold buffering_view. by rewrite Hb, Hp, Hv. }
  assert (Hstart : kv_view (set_batching true (buffering_new s)) = kv_view s).
  { cbn. unfold buffering_view. simpl. apply overlay_empty. }
  rewrite Hstart in Hops. rewrite Hend.
  split; [done|]. rewrite Hb'. repeat (split; [done|]).
  intros ys s' Hd%KvSpec.exec_all_refines. rewrite Hops in Hd. by injection Hd.
Qed.

(** C2: an aborted batch leaves no trace. Whatever the operations of the scope
    answered, errors included, dropping the guard without a commit restores the
    contents the batch was opened on, as long as no whole dictionary was
    deleted ([delete_dict] writes through). *)
Theorem batch_abort_restores os (s : St) b1 r b2 :
  begin_batch (buffering_new s) = (Ok tt, b1) ->
  mmapM KvSpec.exec os b1 = (r, b2) ->
  forallb op_no_delete_dict os = true ->
  kv_view (guard_drop false b2) = kv_view s /\
  batching (guard_drop false b2) = false /\ buffer (guard_drop false b2) = ∅.
Proof.
  intros [= <-] [[Hb Hp] Hi]%exec_all_scope Hos. specialize (Hi Hos eq_refl).
  unfold guard_drop, abort_internal. rewrite Hp. cbn. unfold buffering_view. cbn. done.
Qed.

Lemma replay_all_total {A} (f : A -> M St Error unit) xs s :
  (forall x s, exists s', f x s = (Ok tt, s')) ->
  exists s', replay_all (f <$> xs) None s = (None, s').
Proof.
  intros Hf. revert s. induction xs as [|x xs IH]; intros s; [by exists s|].
  simpl. destruct (Hf x s) as [s' ->]. apply IH.
Qed.

(** C13: the commit's fallback loses nothing. If single puts and deletes of the
    wrapped backend go through, a commit succeeds and installs the whole
    overlay even when the bulk [put_batch] fails (for instance because the
    packed batch exceeds the IPC limit). *)
Theorem batch_commit_fallback_total (b : BufferingBackend St) :
  (forall d k v s, exists s', kv_put (St := St) d k v s = (Ok tt, s')) ->
  (forall d k s, exists s', kv_delete (St := St) d k s = (Ok tt, s')) ->
  batching b = true -> buffer_poisoned b = false ->
  exists b', guard_commit b = (Ok (size (buffer b)), b') /\
             kv_view b' = kv_view b /\ batching b' = false.
Proof.
  intros Hput Hdel Hb Hp.
  assert (Hex : exists b' n, commit_internal b = (Ok n, b')).
  { unfold commit_internal, mbind, lock_buffer. rewrite Hp.
    assert (Hputs : exists s1, replay_puts (split_puts (hash_iter (buffer b))) (inner b) = (None, s1)).
    { unfold replay_puts. destruct (split_puts _) as [|x l]; [by eexists|].
      destruct (kv_put_batch _ _) as [[]]; [by eexists|]. apply replay_all_total.
      intros [[d k] v] s1. apply Hput. }
    destruct Hputs as [s1 ->].
    destruct (replay_all_total (fun '(d, k) => kv_delete d k) (split_deletes (hash_iter (buffer b))) s1)
      as [s2 ->]; [intros [d k] s3; apply Hdel|]. eauto. }
  destruct Hex as (b' & n & Hc). unfold guard_commit. rewrite Hc.
  apply commit_internal_inv in Hc as [Hb' [-> Hv]]; [|done].
  exists b'. split; [done|]. rewrite Hb'. split; [|done].
  cbn. unfold buffering_view. cbn. by rewrite Hb, Hp, Hv.
Qed.

(** C24: what a failed commit leaves. With a sound buffer mutex it still closes the
    scope: the buffer is gone, a new batch can be opened, and no key outside the
    buffered ones has changed. With a poisoned one it returns before it clears
    anything, and the guard is already marked committed: nothing has changed, the
    scope stays open, and the wrapper opens no batch ever again, although the doc of
    [commit] says the flag is cleared regardless. *)
Theorem batch_commit_error_closes (b b' : BufferingBackend St) e :
  guard_commit b = (Err e, b') ->
  if buffer_poisoned b then
    e = Backend "buffer mutex poisoned" /\ b' = b /\
    (batching b = true -> begin_batch b' = (Err (Backend "batch already in flight on this backend"), b'))
  else
    (exists b'', begin_batch b' = (Ok tt, b'')) /\ buffer b' = ∅ /\
    agree_off (fun p => is_Some (buffer b !! p)) (kv_view b') (kv_view (inner b)).
Proof.
  intros Hc. unfold guard_commit in Hc.
  destruct (commit_internal b) as [r b1] eqn:Hci. injection Hc as -> <-.
  destruct (buffer_poisoned b) eqn:Hp.
  - unfold commit_internal, mbind, lock_buffer in Hci. rewrite Hp in Hci. injection Hci as <- <-.
    split; [done|]. split; [done|]. intros Hb. unfold begin_batch. by rewrite Hb.
  - apply commit_internal_inv in Hci as [Hb1 Hoff]; [|done]. rewrite Hb1. cbn.
    unfold buffering_view; cbn. split; [by eexists|]. done.
Qed.
End properties.

(** ** Witnesses *)

(** A backend whose bulk write has a byte ceiling, as the PDDB batch opcode
    does, over a plain map. *)
Definition capped_put_batch (es : list kv_entry) : M kv_map Error unit :=
  fun m => if decide (sum_list_with (fun e => length e.2) es <= 3) then (Ok tt, insert_entries es m)
           else (Err (Backend "write_batch: too long"), m).

#[local] Instance capped_backend : KvBackend kv_map := {|
  kv_get d k := fun m => (Ok (m !! (d, k)), m);
  kv_put d k v := fun m => (Ok tt, <[(d, k) := v]> m);
  kv_put_batch := capped_put_batch;
  kv_delete d k := fun m => (Ok tt, delete (d, k) m);
  kv_delete_dict d := fun m => (Ok tt, drop_dict d m);
  kv_list_keys d := fun m => (Ok (elements (KvSpec.dict_keys d m)), m)
|}.

#[local] Program Instance capped_laws : KvLaws kv_map := {| kv_view m := m |}.
Next Obligation. naive_solver. Qed.
Next Obligation. naive_solver. Qed.
Next Obligation. naive_solver. Qed.
Next Obligation. intros s es u s'. cbn. unfold capped_put_batch. by case_decide; intros [= <-]. Qed.
Next Obligation. intros s es u s'. cbn. unfold capped_put_batch. by case_decide; intros [= _ <-]. Qed.
Next Obligation. naive_solver. Qed.
Next Obligation. naive_solver. Qed.
Next Obligation. naive_solver. Qed.
Next Obligation. naive_solver. Qed.
Next Obligation.
  intros s d r s' [= <- <-]. split; [done|]. intros ks [= <-]. split; [apply NoDup_elements|].
  intros k. by rewrite elem_of_elements, KvSpec.elem_of_dict_keys.
Qed.

Section witnesses.
#[local] Existing Instance canonical_order.

Definition witness_ops : list KvSpec.op :=
  [ KvSpec.Put "d" "k" [x01; x02]; KvSpec.Get "d" "k"; KvSpec.Delete "d" "old";
    KvSpec.PutBatch [("d", "k2", [x03; x04]); ("e", "k", [])]; KvSpec.ListKeys "d" ].

Definition witness_store : kv_map := {[ ("d", "old") := [x09] ]}.

Definition run_batch (os : list KvSpec.op) (m : kv_map) :=
  let b1 := (begin_batch (buffering_new m)).2 in
  let '(xs, b2) := mmapM KvSpec.exec os b1 in (b1, xs, b2).

Lemma batch_commit_equals_direct_witness :
  exists xs b3, KvSpec.run witness_ops witness_store = (xs, kv_view b3) /\
                kv_view b3 !! ("d", "k") = Some [x01; x02].
Proof.
  eexists _, _. split.
  - refine (proj1 (batch_commit_equals_direct (St := kv_map) witness_ops witness_store _ _ _ _ _ _ _ _));
      reflexivity.
  - reflexivity.
Defined.

Lemma batch_abort_restores_witness :
  kv_view (guard_drop false (run_batch witness_ops witness_store).2) = witness_store.
Proof.
  refine (proj1 (batch_abort_restores (St := kv_map) witness_ops witness_store _ _ _ _ _ _)); reflexivity.
Defined.

Lemma batch_commit_fallback_total_witness :
  is_ok (capped_put_batch [("d", "k", [x01; x02]); ("d", "k2", [x03; x04]); ("e", "k", [])] witness_store).1
    = false /\
  exists b', guard_commit (run_batch witness_ops witness_store).2 = (Ok 4, b') /\
             kv_view b' = kv_view (run_batch witness_ops witness_store).2 /\ batching b' = false.
Proof.
  split; [reflexivity|].
  refine (batch_commit_fallback_total (St := kv_map) (run_batch witness_ops witness_store).2 _ _ _ _).
  - intros. by eexists.
  - intros. by eexists.
  - reflexivity.
  - reflexivity.
Defined.

Lemma batch_commit_error_closes_witness :
  let b poisoned := mkBuffering (mkMock ∅ true) true {[ ("d", "k") := EPut [x01] ]} poisoned in
  (exists e b', guard_commit (b false) = (Err e, b') /\ buffer b' = ∅) /\
  guard_commit (b true) = (Err (Backend "buffer mutex poisoned"), b true) /\
  begin_batch (b true) = (Err (Backend "batch already in flight on this backend"), b true).
Proof.
  intros b. split; [|split; [reflexivity|]].
  - eexists _, _. split; [reflexivity|].
    refine (proj1 (proj2 (batch_commit_error_closes (b false) _ _ _))); reflexivity.
  - refine (proj2 (proj2 (batch_commit_error_closes (b true) _ _ _)) _); reflexivity.
Defined.
End witnesses.
