(* ===== verification/Wire.v ===== *)
(** * The PDDB wire formats ([xous-pddb-ipc/src/api.rs])

    Message records, the packed batch that [write_batch] builds and the packed
    name list that [list_keys] walks, each with the reader of the documented
    layout and the round trip between them. *)
From S2P Require Import Prelude Codec Utf8 Kv.

(** ** Constants *)
Definition SERVER_NAME_PDDB : string := "_Plausibly Deniable Database_".
Definition SERVER_NAME_PDDB_POLLER : string := "_PDDB Mount Poller_".
Definition BASIS_NAME_LEN : nat := 64.
Definition DICT_NAME_LEN : nat := 127 - 4 - 4 - 4 - 4.
Definition KEY_NAME_LEN : nat := 127 - 8 - 8 - 8 - 4 - 4.
Definition MAX_PDDBKLISTLEN : nat := 4064.
Definition MAX_PDDB_WRITE_BATCH_LEN : nat := 3800.
Definition PDDB_BUF_DATA_LEN : nat := 4072.
Definition U16_MAX : N := 65535.

(** ** Opcodes and codes *)
Inductive Opcode : Type :=
| IsMounted | TryMount | DeleteKey | DeleteDict | KeyAttributes | KeyCountInDict | KeyRequest
| ReadKey | WriteKey | WriteKeyFlush | KeyDrop | ListKeyV2 | WriteKeyBatch.

Definition opcode_to_u32 (o : Opcode) : N :=
  match o with
  | IsMounted => 0 | TryMount => 1 | DeleteKey => 8 | DeleteDict => 9 | KeyAttributes => 10
  | KeyCountInDict => 11 | KeyRequest => 15 | ReadKey => 16 | WriteKey => 17
  | WriteKeyFlush => 18 | KeyDrop => 20 | ListKeyV2 => 45 | WriteKeyBatch => 57
  end.

Inductive PddbRequestCode : Type :=
| RC_Create | RC_Open | RC_Close | RC_Delete | RC_NoErr | RC_NotMounted | RC_NoFreeSpace
| RC_NotFound | RC_InternalError | RC_AccessDenied | RC_Uninit | RC_DuplicateEntry | RC_BulkRead.

(** [{:?}] of a request code. *)
Definition request_code_debug (c : PddbRequestCode) : string :=
  match c with
  | RC_Create => "Create" | RC_Open => "Open" | RC_Close => "Close" | RC_Delete => "Delete"
  | RC_NoErr => "NoErr" | RC_NotMounted => "NotMounted" | RC_NoFreeSpace => "NoFreeSpace"
  | RC_NotFound => "NotFound" | RC_InternalError => "InternalError"
  | RC_AccessDenied => "AccessDenied" | RC_Uninit => "Uninit"
  | RC_DuplicateEntry => "DuplicateEntry" | RC_BulkRead => "BulkRead"
  end.

Inductive PddbRetcode : Type :=
| RET_Uninit | RET_Ok | RET_BasisLost | RET_AccessDenied | RET_UnexpectedEof | RET_InternalError
| RET_DiskFull.

Definition retcode_to_u32 (c : PddbRetcode) : N :=
  match c with
  | RET_Uninit => 0 | RET_Ok => 1 | RET_BasisLost => 2 | RET_AccessDenied => 3
  | RET_UnexpectedEof => 4 | RET_InternalError => 5 | RET_DiskFull => 6
  end.

Definition retcode_debug (c : PddbRetcode) : string :=
  match c with
  | RET_Uninit => "Uninit" | RET_Ok => "Ok" | RET_BasisLost => "BasisLost"
  | RET_AccessDenied => "AccessDenied" | RET_UnexpectedEof => "UnexpectedEof"
  | RET_InternalError => "InternalError" | RET_DiskFull => "DiskFull"
  end.

#[global] Instance Opcode_eq_dec : EqDecision Opcode.
Proof. solve_decision. Defined.
#[global] Instance PddbRequestCode_eq_dec : EqDecision PddbRequestCode.
Proof. solve_decision. Defined.
#[global] Instance PddbRetcode_eq_dec : EqDecision PddbRetcode.
Proof. solve_decision. Defined.

(** ** Messages *)
Definition ApiToken : Type := N * N * N.
Definition ListToken : Type := N * N * N * N.

Record PddbKeyRequest : Type := mkKeyRequest {
  kr_basis_specified : bool;
  kr_basis : string;
  kr_dict : string;
  kr_key : string;
  kr_token : option ApiToken;
  kr_create_dict : bool;
  kr_create_key : bool;
  kr_alloc_hint : option N;
  kr_cb_sid : option ListToken;
  kr_result : PddbRequestCode
}.

Record PddbDictRequest : Type := mkDictRequest {
  dr_basis_specified : bool;
  dr_basis : string;
  dr_dict : string;
  dr_key : string;
  dr_index : N;
  dr_token : ListToken;
  dr_code : PddbRequestCode;
  dr_bulk_limit : option N;
  dr_key_count : N;
  dr_found_key_count : N
}.

Record PddbKeyList : Type := mkKeyList {
  kl_token : ListToken;
  kl_data : bytes;
  kl_retcode : PddbRetcode;
  kl_end : bool
}.

Record PddbWriteBatch : Type := mkWriteBatch {
  wb_basis_specified : bool;
  wb_basis : string;
  wb_data : bytes;
  wb_retcode : PddbRetcode
}.

(** The page-sized streaming buffer; its contents survive between calls. *)
Record PddbBuf : Type := mkPddbBuf {
  pb_token : ApiToken;
  pb_retcode : PddbRetcode;
  pb_reserved : N;
  pb_len : N;
  pb_position : N;
  pb_data : bytes
}.

(** ** Errors *)
Inductive ErrorKind : Type :=
| NotMounted | NotFound | AccessDenied | InvalidInput | NoFreeSpace | Internal | Ipc.

#[global] Instance ErrorKind_eq_dec : EqDecision ErrorKind.
Proof. solve_decision. Defined.

Record IpcError : Type := ipc_error { kind : ErrorKind; ipc_msg : string }.

Definition kind_debug (k : ErrorKind) : string :=
  match k with
  | NotMounted => "NotMounted" | NotFound => "NotFound" | AccessDenied => "AccessDenied"
  | InvalidInput => "InvalidInput" | NoFreeSpace => "NoFreeSpace" | Internal => "Internal"
  | Ipc => "Ipc"
  end.
Definition ipc_error_to_string (e : IpcError) : string := kind_debug (kind e) +:+ ": " +:+ ipc_msg e.

(** ** Packing a write batch ([PddbClient::write_batch], lines 549-600)

    [index] is the length of what has been packed; the page is zeroed, so the
    terminator written after the last entry is already there. *)
Definition byte_of_N (n : N) : byte := default x00 (Byte.of_N (n mod 256)).

Definition le_u16 (n : N) : bytes := [byte_of_N n; byte_of_N (n / 256)].

Definition encode_entry (e : kv_entry) : bytes :=
  let '(d, k, v) := e in
  byte_of_N (N.of_nat (slen d)) :: as_bytes d ++ byte_of_N (N.of_nat (slen k)) :: as_bytes k ++
    le_u16 (N.of_nat (length v)) ++ v.

Definition check_entry (index : nat) (e : kv_entry) : result unit IpcError :=
  let '(d, k, v) := e in
  if slen d =? 0 then Err (ipc_error InvalidInput "empty dict name (collides with terminator)")
  else if DICT_NAME_LEN - 1 <? slen d then Err (ipc_error InvalidInput "dict name too long")
  else if KEY_NAME_LEN - 1 <? slen k then Err (ipc_error InvalidInput "key name too long")
  else if (U16_MAX <? N.of_nat (length v))%N then
    Err (ipc_error InvalidInput "value too large for one entry")
  else
    let needed := 1 + slen d + 1 + slen k + 2 + length v in
    if MAX_PDDB_WRITE_BATCH_LEN <? index + needed + 1 then
      Err (ipc_error InvalidInput "batch exceeds MAX_PDDB_WRITE_BATCH_LEN; split")
    else Ok tt.

Fixpoint pack_entries (index : nat) (es : list kv_entry) : result bytes IpcError :=
  match es with
  | [] => Ok []
  | e :: es' =>
      match check_entry index e with
      | Err x => Err x
      | Ok _ =>
          match pack_entries (index + length (encode_entry e)) es' with
          | Err x => Err x
          | Ok rest => Ok (encode_entry e ++ rest)
          end
      end
  end.

(** A packed prefix in its zeroed page. *)
Definition in_page (page : nat) (packed : bytes) : bytes :=
  packed ++ replicate (page - length packed) x00.

(** ** The documented layout of [PddbWriteBatch::data], read back *)
Definition unpack_entry (bs : bytes) : option (kv_entry * bytes) :=
  match bs with
  | [] => None
  | dl :: r =>
      let dn := N.to_nat (Byte.to_N dl) in
      let d := take dn r in
      match drop dn r with
      | [] => None
      | kl :: r1 =>
          let kn := N.to_nat (Byte.to_N kl) in
          let k := take kn r1 in
          match drop kn r1 with
          | v0 :: v1 :: r2 =>
              let vn := N.to_nat (Byte.to_N v0 + 256 * Byte.to_N v1) in
              if (length r2 <? vn) || (length d <? dn) || (length k <? kn) then None
              else Some ((of_bytes d, of_bytes k, take vn r2), drop vn r2)
          | _ => None
          end
      end
  end.

Fixpoint unpack_go (fuel : nat) (bs : bytes) : option (list kv_entry) :=
  match fuel, bs with
  | _, x00 :: _ => Some []
  | S fuel', _ =>
      '(e, r) ← unpack_entry bs;
      es ← unpack_go fuel' r;
      Some (e :: es)
  | O, _ => None
  end.
Definition unpack_batch (data : bytes) : option (list kv_entry) := unpack_go (length data) data.

(** ** The packed name list ([PddbKeyList::data], walked by [list_keys],
    lines 450-461)

    [rest] is [data[idx..]]. Every iteration consumes a length byte and
    [strlen] name bytes, so [length data] rounds reach the end
    ([parse_key_list_total]). *)
Fixpoint parse_key_list_go (fuel : nat) (rest : bytes) : option (result (list string) IpcError) :=
  match rest with
  | [] => Some (Ok [])
  | b :: r =>
      if bool_decide (b = x00) then Some (Ok [])
      else
        match fuel with
        | O => None
        | S fuel' =>
            let strlen := N.to_nat (Byte.to_N b) in
            if length r <? strlen then Some (Err (ipc_error Internal "key list overran buffer"))
            else match from_utf8 (take strlen r) with
                 | None => Some (Err (ipc_error Internal "key name not utf-8"))
                 | Some name =>
                     match parse_key_list_go fuel' (drop strlen r) with
                     | Some (Ok names) => Some (Ok (name :: names))
                     | x => x
                     end
                 end
        end
  end.

Definition parse_key_list (data : bytes) : result (list string) IpcError :=
  default (Err (ipc_error Internal "fuel")) (parse_key_list_go (length data) data).

(** The layout the server documents: length-prefixed names, a zero byte. *)
Definition encode_names (ns : list string) : bytes :=
  flat_map (fun s => byte_of_N (N.of_nat (slen s)) :: as_bytes s) ns.

(** A name the list format can carry: not empty, one-byte length, UTF-8. *)
Definition listable (s : string) : Prop :=
  0 < slen s /\ slen s < 256 /\ utf8_valid (as_bytes s) = true.

(** ** Lemmas *)
Lemma byte_of_N_to_N n : (n < 256)%N -> Byte.to_N (byte_of_N n) = n.
Proof.
  intros Hn. unfold byte_of_N. rewrite N.mod_small by done.
  destruct (Byte.of_N n) as [b|] eqn:Hb; simpl.
  - by apply Byte.to_of_N_iff.
  - apply Byte.of_N_None_iff in Hb. lia.
Qed.

Lemma byte_of_N_mod n : byte_of_N (n mod 256) = byte_of_N n.
Proof. unfold byte_of_N. by rewrite N.Div0.mod_mod. Qed.

Lemma byte_of_N_x00 n : (n < 256)%N -> byte_of_N n = x00 <-> n = 0%N.
Proof.
  intros Hn. split; [|by intros ->]. intros Hb.
  rewrite <- (byte_of_N_to_N n) by done. by rewrite Hb.
Qed.

Lemma le_u16_value n : (n <= U16_MAX)%N ->
  (Byte.to_N (byte_of_N n) + 256 * Byte.to_N (byte_of_N (n / 256)))%N = n.
Proof.
  unfold U16_MAX. intros Hn. rewrite <- byte_of_N_mod, !byte_of_N_to_N.
  - pose proof (N.div_mod n 256). lia.
  - apply N.Div0.div_lt_upper_bound. lia.
  - apply N.mod_lt. lia.
Qed.

Lemma check_entry_ok index d k v u :
  check_entry index (d, k, v) = Ok u ->
  0 < slen d /\ slen d < DICT_NAME_LEN /\ slen k < KEY_NAME_LEN /\
  (N.of_nat (length v) <= U16_MAX)%N /\
  index + length (encode_entry (d, k, v)) + 1 <= MAX_PDDB_WRITE_BATCH_LEN.
Proof.
  unfold check_entry. unfold encode_entry. rewrite !length_cons, !length_app, length_cons, !length_app, !as_bytes_length.
  destruct (slen d =? 0) eqn:H1; [done|]. destruct (_ <? slen d) eqn:H2; [done|].
  destruct (_ <? slen k) eqn:H3; [done|]. destruct (U16_MAX <? _)%N eqn:H4; [done|].
  destruct (MAX_PDDB_WRITE_BATCH_LEN <? _) eqn:H5; [done|]. intros _.
  apply Nat.eqb_neq in H1. apply Nat.ltb_ge in H2, H3, H5. apply N.ltb_ge in H4.
  unfold le_u16. simpl length. unfold DICT_NAME_LEN, KEY_NAME_LEN in *. lia.
Qed.

Lemma unpack_encode_entry index d k v rest :
  check_entry index (d, k, v) = Ok tt ->
  unpack_entry (encode_entry (d, k, v) ++ rest) = Some ((d, k, v), rest).
Proof.
  intros (Hd & Hd' & Hk & Hv & _)%check_entry_ok.
  unfold DICT_NAME_LEN, KEY_NAME_LEN in *.
  unfold encode_entry, unpack_entry. simpl.
  rewrite byte_of_N_to_N by lia. rewrite Nat2N.id, <- !(app_assoc (as_bytes d)).
  rewrite take_app_length' by (by rewrite as_bytes_length).
  rewrite drop_app_length' by (by rewrite as_bytes_length). simpl.
  rewrite byte_of_N_to_N by lia. rewrite Nat2N.id, <- !(app_assoc (as_bytes k)).
  rewrite take_app_length' by (by rewrite as_bytes_length).
  rewrite drop_app_length' by (by rewrite as_bytes_length). simpl.
  rewrite le_u16_value by done. rewrite Nat2N.id.
  rewrite take_app_length, drop_app_length, length_app, !as_bytes_length, !of_as_bytes.
  replace (length v + length rest <? length v) with false by (symmetry; apply Nat.ltb_ge; lia).
  by rewrite !Nat.ltb_irrefl.
Qed.

Lemma encode_entry_not_terminator index d k v :
  check_entry index (d, k, v) = Ok tt ->
  exists b r, encode_entry (d, k, v) = b :: r /\ b <> x00.
Proof.
  intros (Hd & Hd' & _)%check_entry_ok. unfold DICT_NAME_LEN in *. unfold encode_entry.
  eexists _, _. split; [done|]. rewrite byte_of_N_x00; lia.
Qed.

(** The whole packed prefix reads back, whatever follows its terminator. *)
Lemma unpack_go_pack index es packed rest fuel :
  pack_entries index es = Ok packed -> length packed < fuel ->
  unpack_go fuel (packed ++ x00 :: rest) = Some es.
Proof.
  revert index packed fuel. induction es as [|[[d k] v] es IH]; intros index packed fuel Hp Hf; cbn [pack_entries] in Hp.
  - injection Hp as <-. simpl in *. by destruct fuel.
  - destruct (check_entry index (d, k, v)) as [[]|] eqn:Hc; [|done].
    destruct (pack_entries _ es) as [more|] eqn:Hm; [|done].
    assert (packed = encode_entry (d, k, v) ++ more) as -> by congruence.
    rewrite <- app_assoc. rewrite length_app in Hf.
    destruct (encode_entry_not_terminator _ _ _ _ Hc) as (b & r & Heq & Hb).
    destruct fuel as [|fuel]; [lia|].
    assert (Hstep : unpack_go (S fuel) (encode_entry (d, k, v) ++ more ++ x00 :: rest) =
      '(e, r) ← unpack_entry (encode_entry (d, k, v) ++ more ++ x00 :: rest);
      es ← unpack_go fuel r; Some (e :: es)).
    { rewrite Heq. simpl app. destruct b; first [congruence|reflexivity]. }
    rewrite Hstep, (unpack_encode_entry index) by done. simpl.
    rewrite (IH _ _ fuel Hm); [done|]. rewrite Heq in Hf. simpl in Hf. lia.
Qed.

Lemma pack_entries_bound index es packed :
  pack_entries index es = Ok packed -> index < MAX_PDDB_WRITE_BATCH_LEN ->
  index + length packed < MAX_PDDB_WRITE_BATCH_LEN.
Proof.
  revert index packed. induction es as [|[[d k] v] es IH]; intros index packed Hp Hi; cbn [pack_entries] in Hp.
  - injection Hp as <-. simpl. lia.
  - destruct (check_entry index (d, k, v)) as [[]|] eqn:Hc; [|done].
    destruct (pack_entries _ es) as [more|] eqn:Hm; [|done].
    assert (packed = encode_entry (d, k, v) ++ more) as -> by congruence.
    apply check_entry_ok in Hc as (_ & _ & _ & _ & Hc). apply IH in Hm; [|lia].
    rewrite length_app. lia.
Qed.

Lemma parse_key_list_go_total fuel rest :
  length rest <= fuel -> exists r, parse_key_list_go fuel rest = Some r.
Proof.
  revert rest. induction fuel as [|fuel IH]; intros rest Hf; destruct rest as [|b r]; simpl in *;
    [by eexists|lia|by eexists|].
  case_bool_decide; [by eexists|]. destruct (_ <? _); [by eexists|].
  destruct (from_utf8 _); [|by eexists].
  destruct (IH (drop (N.to_nat (Byte.to_N b)) r)) as [[|] ->].
  { rewrite length_drop. lia. }
  all: by eexists.
Qed.

Lemma parse_key_list_encoded fuel ns rest :
  Forall listable ns -> length (encode_names ns) <= fuel ->
  parse_key_list_go fuel (encode_names ns ++ x00 :: rest) = Some (Ok ns) /\
  parse_key_list_go fuel (encode_names ns) = Some (Ok ns).
Proof.
  intros Hns. revert fuel. induction Hns as [|s ns (Hs & Hs' & Hu) Hns IH]; intros fuel Hf.
  { by destruct fuel. }
  cbn [encode_names flat_map app] in *. fold (encode_names ns) in *.
  rewrite length_cons, length_app in Hf. destruct fuel as [|fuel]; [lia|].
  simpl. rewrite bool_decide_false by (rewrite byte_of_N_x00; lia).
  rewrite byte_of_N_to_N by lia. rewrite Nat2N.id.
  rewrite <- (app_assoc (as_bytes s)), !length_app, as_bytes_length.
  rewrite !take_app_length' by (by rewrite as_bytes_length).
  rewrite !drop_app_length' by (by rewrite as_bytes_length).
  unfold from_utf8. rewrite Hu, of_as_bytes.
  destruct (IH fuel) as [-> ->]; [lia|].
  by split; destruct (_ <? slen s) eqn:Hlt; try (apply Nat.ltb_lt in Hlt; lia).
Qed.

(** ** Properties *)

(** What an entry must satisfy to be packed at all. *)
Definition entry_valid (e : kv_entry) : Prop :=
  0 < slen e.1.1 /\ slen e.1.1 < DICT_NAME_LEN /\ slen e.1.2 < KEY_NAME_LEN /\
  (N.of_nat (length e.2) <= U16_MAX)%N.

Lemma check_entry_iff index e :
  check_entry index e = Ok tt <->
  entry_valid e /\ index + length (encode_entry e) + 1 <= MAX_PDDB_WRITE_BATCH_LEN.
Proof.
  destruct e as [[d k] v]. unfold entry_valid. simpl fst. simpl snd. split.
  - intros Hc%check_entry_ok. tauto.
  - intros [(Hd & Hd' & Hk & Hv) Hi]. unfold encode_entry in Hi. unfold check_entry.
    rewrite !length_cons, !length_app, length_cons, !length_app, !as_bytes_length in Hi.
    unfold le_u16 in Hi. simpl length in Hi. unfold DICT_NAME_LEN, KEY_NAME_LEN in *.
    repeat (match goal with |- context [if ?c then _ else _] =>
      let Hc := fresh "Hc" in destruct c eqn:Hc;
      [exfalso; rewrite ?Nat.eqb_eq, ?Nat.ltb_lt, ?N.ltb_lt in Hc; lia|] end).
    done.
Qed.

(** C14: packing a write batch succeeds exactly on batches of valid entries that
    leave a byte of the 3800-byte page free for the terminator, and then the
    page is the concatenation of the entries, zero padded; the documented layout
    reads the very entries back, whatever the page is used for. *)
Theorem write_batch_layout_roundtrip es :
  (forall packed, pack_entries 0 es = Ok packed ->
     length (in_page MAX_PDDB_WRITE_BATCH_LEN packed) = MAX_PDDB_WRITE_BATCH_LEN /\
     unpack_batch (in_page MAX_PDDB_WRITE_BATCH_LEN packed) = Some es) /\
  (is_ok (pack_entries 0 es) = true <->
     Forall entry_valid es /\ length (flat_map encode_entry es) < MAX_PDDB_WRITE_BATCH_LEN).
Proof.
  split.
  - intros packed Hp. pose proof (pack_entries_bound _ _ _ Hp) as Hb.
    assert (Hl : length packed < MAX_PDDB_WRITE_BATCH_LEN) by (unfold MAX_PDDB_WRITE_BATCH_LEN in *; lia).
    unfold in_page. split.
    { rewrite length_app, length_replicate. lia. }
    destruct (MAX_PDDB_WRITE_BATCH_LEN - length packed) as [|n] eqn:Hn; [lia|].
    simpl. unfold unpack_batch. apply (unpack_go_pack 0); [done|].
    rewrite length_app. simpl. lia.
  - assert (Hgen : forall index, is_ok (pack_entries index es) = true <->
      Forall entry_valid es /\ (es = [] \/ index + length (flat_map encode_entry es) < MAX_PDDB_WRITE_BATCH_LEN)).
    { induction es as [|e es IH]; intros index; cbn [pack_entries flat_map].
      { split; [by repeat constructor; left|done]. }
      rewrite Forall_cons, length_app. pose proof (check_entry_iff index e) as Hiff.
      destruct (check_entry index e) as [[]|x].
      - specialize (IH (index + length (encode_entry e))).
        destruct (proj1 Hiff eq_refl) as [Hv Hi].
        transitivity (is_ok (pack_entries (index + length (encode_entry e)) es) = true).
        { by destruct (pack_entries _ es). }
        rewrite IH. split.
        + intros [Hes [->|Hl]]; (split; [done|right]); simpl; lia.
        + intros [[_ Hes] [?|Hl]]; [done|]. split; [done|right]. lia.
      - split; [done|]. intros [[Hv Hes] [?|Hl]]; [done|].
        discriminate (proj2 Hiff). split; [done|]. lia. }
    rewrite (Hgen 0). split; intros [Hv Hl]; (split; [done|]).
    + destruct Hl as [->|]; [|done]. unfold MAX_PDDB_WRITE_BATCH_LEN. simpl. lia.
    + by right.
Qed.

(** C25: the name-list parser is total on every reply page (its loop ends within the
    page),
    and returns exactly the names the server packed, with or without the closing
    zero byte. *)
Theorem parse_key_list_total_roundtrip :
  (forall data, exists r, parse_key_list_go (length data) data = Some r) /\
  (forall ns rest, Forall listable ns ->
     parse_key_list (encode_names ns ++ x00 :: rest) = Ok ns /\ parse_key_list (encode_names ns) = Ok ns).
Proof.
  split; [intros data; by apply parse_key_list_go_total|].
  intros ns rest Hns. unfold parse_key_list. split.
  - destruct (parse_key_list_encoded (length (encode_names ns ++ x00 :: rest)) ns rest Hns) as [-> _].
    { rewrite length_app. lia. } done.
  - by destruct (parse_key_list_encoded (length (encode_names ns)) ns rest Hns) as [_ ->].
Qed.

Lemma write_batch_layout_roundtrip_witness :
  exists packed, pack_entries 0 [("d", "k", [x01; x02]); ("dict2", "", [])] = Ok packed /\
    unpack_batch (in_page MAX_PDDB_WRITE_BATCH_LEN packed) = Some [("d", "k", [x01; x02]); ("dict2", "", [])].
Proof.
  eexists. split; [reflexivity|].
  refine (proj2 (proj1 (write_batch_layout_roundtrip [("d", "k", [x01; x02]); ("dict2", "", [])]) _ _)).
  reflexivity.
Defined.

Lemma parse_key_list_total_roundtrip_witness :
  parse_key_list (encode_names ["abc"; "7"] ++ [x00]) = Ok ["abc"; "7"].
Proof.
  refine (proj1 (proj2 parse_key_list_total_roundtrip ["abc"; "7"] [] _)).
  repeat constructor.
Defined.
