(* ===== verification/PddbClient.v ===== *)
(** * The PDDB client and backend ([xous-pddb-ipc/src/client.rs],
    [presage-store-pddb/src/backend_pddb.rs])

    The PDDB server runs in another process and is not part of this repository:
    it is the parameter [PddbServer], one operation per message the client
    sends, with what its documented protocol promises as the named laws of
    [PddbServerLaws]. Over it: the client's requests with every reply code, the
    streaming key handle, and [PddbBackend], a lawful [KvBackend]. *)
From S2P Require Import Prelude Codec Utf8 Kv Wire.

(** ** The server *)

(** The three ways a buffer exchange fails on this side. *)
Inductive ipc_fail : Type := IntoBuf | LendMut | ToOriginal.

(** [xous::Result] of a blocking scalar, [{:?}] in the last case. *)
Inductive scalar_reply : Type :=
| Scalar1 (v : N)
| Scalar2 (a b : N)
| OtherReply (debug : string).

Class PddbServer (Sv : Type) : Type := {
  lend_key_request : Opcode -> PddbKeyRequest -> M Sv ipc_fail PddbKeyRequest;
  lend_dict_request : Opcode -> PddbDictRequest -> M Sv ipc_fail PddbDictRequest;
  lend_key_list : Opcode -> PddbKeyList -> M Sv ipc_fail PddbKeyList;
  lend_write_batch : Opcode -> PddbWriteBatch -> M Sv ipc_fail PddbWriteBatch;
  lend_buf : Opcode -> PddbBuf -> M Sv ipc_fail PddbBuf;
  send_main : N -> N -> N -> N -> N -> M Sv string scalar_reply;
  send_poller : M Sv string scalar_reply;
  (** [xous::create_server_id], behind [random_token_4]. *)
  create_server_id : Sv -> ListToken * Sv
}.

Record OpenOptions : Type := mkOpenOptions {
  create_dict : bool;
  create_key : bool;
  alloc_hint : option N
}.
Definition open_default : OpenOptions := mkOpenOptions false false None.
Definition create_all : OpenOptions := mkOpenOptions true true None.

Record KeyHandle : Type := mkKeyHandle {
  token : ApiToken;
  pos : N;
  buf : PddbBuf
}.

Section client.
Context {Sv : Type} `{!PddbServer Sv}.

(** ** Requests ([impl PddbClient]) *)

Definition is_mounted : Sv -> bool * Sv :=
  fun s => match send_poller s with
           | (Ok (Scalar1 v), s') => (negb (v =? 0)%N, s')
           | (_, s') => (false, s')
           end.

Definition try_mount : M Sv IpcError bool :=
  let* resp := mmap_err (fun e => ipc_error Ipc ("TryMount: " +:+ e))
                        (send_main (opcode_to_u32 TryMount) 0 0 0 0) in
  match resp with
  | Scalar2 retcode _ => mok (retcode =? 0)%N
  | Scalar1 retcode => mok (retcode =? 0)%N
  | OtherReply d => merr (ipc_error Ipc ("TryMount: " +:+ d))
  end.

Definition key_request (dict key : string) (cd ck : bool) (hint : option N) : PddbKeyRequest :=
  mkKeyRequest false "" dict key None cd ck hint None RC_Uninit.

(** [Buffer::into_buf], [lend_mut], [to_original]: each has its message. *)
Definition buffer_error (into lend orig : string) (f : ipc_fail) : IpcError :=
  ipc_error Ipc (match f with IntoBuf => into | LendMut => lend | ToOriginal => orig end).

Definition empty_buf : PddbBuf :=
  mkPddbBuf (0, 0, 0)%N RET_Uninit 0 0 0 (replicate PDDB_BUF_DATA_LEN x00).

Definition client_open (dict key : string) (opts : OpenOptions) : M Sv IpcError KeyHandle :=
  if DICT_NAME_LEN - 1 <? slen dict then merr (ipc_error InvalidInput "dictionary name too long")
  else if KEY_NAME_LEN - 1 <? slen key then merr (ipc_error InvalidInput "key name too long")
  else
    let* response :=
      mmap_err (buffer_error "Buffer::into_buf" "lend_mut KeyRequest" "to_original KeyRequest")
        (lend_key_request KeyRequest
           (key_request dict key (create_dict opts) (create_key opts) (alloc_hint opts))) in
    match kr_result response with
    | RC_NoErr =>
        match kr_token response with
        | Some t => mok (mkKeyHandle t 0 empty_buf)
        | None => merr (ipc_error Internal "server returned no token")
        end
    | RC_AccessDenied => merr (ipc_error AccessDenied "dict/key access denied")
    | RC_NotMounted => merr (ipc_error NotMounted "PDDB not mounted")
    | RC_NoFreeSpace => merr (ipc_error NoFreeSpace "out of space")
    | RC_NotFound => merr (ipc_error NotFound "dict/key not found")
    | other => merr (ipc_error Internal ("KeyRequest: " +:+ request_code_debug other))
    end.

Definition client_delete_key (dict key : string) : M Sv IpcError unit :=
  let* response :=
    mmap_err (buffer_error "Buffer::into_buf" "lend_mut DeleteKey" "to_original DeleteKey")
      (lend_key_request DeleteKey (key_request dict key false false None)) in
  match kr_result response with
  | RC_NoErr => mok tt
  | RC_NotFound => merr (ipc_error NotFound "key not found")
  | RC_NotMounted => merr (ipc_error NotMounted "PDDB not mounted")
  | other => merr (ipc_error Internal ("DeleteKey: " +:+ request_code_debug other))
  end.

Definition client_delete_dict (dict : string) : M Sv IpcError unit :=
  let* response :=
    mmap_err (buffer_error "Buffer::into_buf" "lend_mut DeleteDict" "to_original DeleteDict")
      (lend_key_request DeleteDict (key_request dict "" false false None)) in
  match kr_result response with
  | RC_NoErr => mok tt
  | RC_NotFound => mok tt
  | RC_NotMounted => merr (ipc_error NotMounted "PDDB not mounted")
  | other => merr (ipc_error Internal ("DeleteDict: " +:+ request_code_debug other))
  end.

Definition opcode_debug (o : Opcode) : string :=
  match o with
  | IsMounted => "IsMounted" | TryMount => "TryMount" | DeleteKey => "DeleteKey"
  | DeleteDict => "DeleteDict" | KeyAttributes => "KeyAttributes"
  | KeyCountInDict => "KeyCountInDict" | KeyRequest => "KeyRequest" | ReadKey => "ReadKey"
  | WriteKey => "WriteKey" | WriteKeyFlush => "WriteKeyFlush" | KeyDrop => "KeyDrop"
  | ListKeyV2 => "ListKeyV2" | WriteKeyBatch => "WriteKeyBatch"
  end.

Definition dict_request_send (request : PddbDictRequest) (op : Opcode) : M Sv IpcError PddbDictRequest :=
  mmap_err (buffer_error "Buffer::into_buf" ("lend_mut " +:+ opcode_debug op) "to_original DictRequest")
    (lend_dict_request op request).

Definition random_token_4 : M Sv IpcError ListToken :=
  fun s => let '(t, s') := create_server_id s in (Ok t, s').

(** One page of the listing: [ListKeyV2], its return code, the name walk. *)
Definition list_page (t : ListToken) : M Sv IpcError (list string * bool) :=
  let* response :=
    mmap_err (buffer_error "Buffer::into_buf KeyList" "lend_mut ListKeyV2" "to_original KeyList")
      (lend_key_list ListKeyV2 (mkKeyList t (replicate MAX_PDDBKLISTLEN x00) RET_Uninit false)) in
  match kl_retcode response with
  | RET_Ok =>
      let* names := mlift (parse_key_list (kl_data response)) in
      mok (names, kl_end response)
  | RET_AccessDenied => merr (ipc_error AccessDenied "key list locked by another process")
  | other => merr (ipc_error Internal ("ListKeyV2: " +:+ retcode_debug other))
  end.

(** The [loop] that drains pages until the server sets [end]. [None] is the
    loop still running after [fuel] pages. *)
Fixpoint list_pages (fuel : nat) (t : ListToken) (keys : list string)
    : M Sv IpcError (option (list string)) :=
  match fuel with
  | O => mok None
  | S fuel' =>
      let* page := list_page t in
      if page.2 then mok (Some (keys ++ page.1)) else list_pages fuel' t (keys ++ page.1)
  end.

Definition client_list_keys (fuel : nat) (dict : string) : M Sv IpcError (option (list string)) :=
  if DICT_NAME_LEN - 1 <? slen dict then merr (ipc_error InvalidInput "dict name too long")
  else
    let* t := random_token_4 in
    let* resp := dict_request_send
      (mkDictRequest false "" dict "" 0 t RC_Uninit None 0 0) KeyCountInDict in
    match dr_code resp with
    | RC_NoErr => list_pages fuel t []
    | RC_NotFound => merr (ipc_error NotFound "dictionary not found")
    | RC_NotMounted => merr (ipc_error NotMounted "PDDB not mounted")
    | other => merr (ipc_error Internal ("KeyCountInDict: " +:+ request_code_debug other))
    end.

Definition client_write_batch (es : list kv_entry) : M Sv IpcError unit :=
  match es with
  | [] => mok tt
  | _ =>
      let* packed := mlift (pack_entries 0 es) in
      let* response :=
        mmap_err (buffer_error "Buffer::into_buf WriteKeyBatch" "lend_mut WriteKeyBatch"
                    "to_original WriteKeyBatch")
          (lend_write_batch WriteKeyBatch
             (mkWriteBatch false "" (in_page MAX_PDDB_WRITE_BATCH_LEN packed) RET_Uninit)) in
      match wb_retcode response with
      | RET_Ok => mok tt
      | RET_BasisLost => merr (ipc_error NotFound "basis lost")
      | RET_AccessDenied => merr (ipc_error AccessDenied "access denied")
      | RET_DiskFull => merr (ipc_error NoFreeSpace "disk full")
      | RET_UnexpectedEof => merr (ipc_error Internal "unexpected EOF")
      | RET_InternalError => merr (ipc_error Internal "internal error")
      | RET_Uninit => merr (ipc_error Internal "server returned without setting retcode")
      end
  end.

(** ** The key handle ([impl Read, Write, Drop for KeyHandle])

    An [io::Error] is its display string. *)

Definition flush_writes (h : KeyHandle) : M Sv IpcError unit :=
  let '(t0, t1, t2) := token h in
  let* resp := mmap_err (fun e => ipc_error Ipc ("WriteKeyFlush: " +:+ e))
                        (send_main (opcode_to_u32 WriteKeyFlush) t0 t1 t2 0) in
  match resp with
  | Scalar1 rcode =>
      if (rcode =? retcode_to_u32 RET_Ok)%N then mok tt
      else if (rcode =? retcode_to_u32 RET_BasisLost)%N then
        merr (ipc_error Internal "WriteKeyFlush: BasisLost")
      else if (rcode =? retcode_to_u32 RET_DiskFull)%N then
        merr (ipc_error NoFreeSpace "WriteKeyFlush: DiskFull")
      else if (rcode =? retcode_to_u32 RET_AccessDenied)%N then
        merr (ipc_error AccessDenied "WriteKeyFlush: AccessDenied")
      else if (rcode =? retcode_to_u32 RET_InternalError)%N then
        merr (ipc_error Internal "WriteKeyFlush: InternalError")
      else merr (ipc_error Internal ("WriteKeyFlush: unknown retcode=" +:+ pretty rcode))
  | Scalar2 a b =>
      merr (ipc_error Ipc ("WriteKeyFlush: unexpected Scalar2(" +:+ pretty a +:+ ", " +:+ pretty b +:+ ")"))
  | OtherReply d => merr (ipc_error Ipc ("WriteKeyFlush: unexpected " +:+ d))
  end.

(** [read] into a buffer of [want] bytes: the bytes read, and the handle with
    its position advanced by their number. *)
Definition handle_read (want : nat) (h : KeyHandle) : M Sv string (bytes * KeyHandle) :=
  if want =? 0 then mok ([], h)
  else
    let n := if want <=? PDDB_BUF_DATA_LEN then want else PDDB_BUF_DATA_LEN in
    let req := mkPddbBuf (token h) RET_Uninit (pb_reserved (buf h)) (N.of_nat n) (pos h) (pb_data (buf h)) in
    let* pbuf := mmap_err (fun _ => "lend_mut ReadKey") (lend_buf ReadKey req) in
    match pb_retcode pbuf with
    | RET_Ok =>
        let got := N.to_nat (pb_len pbuf) in
        if n <? got then merr "server returned more data than requested"
        else mok (take got (pb_data pbuf), mkKeyHandle (token h) (pos h + pb_len pbuf) pbuf)
    | RET_UnexpectedEof => mok ([], mkKeyHandle (token h) (pos h) pbuf)
    | RET_BasisLost => merr "basis lost"
    | RET_AccessDenied => merr "access denied"
    | other => merr ("ReadKey retcode " +:+ retcode_debug other)
    end.

Definition handle_write (b : bytes) (h : KeyHandle) : M Sv string (nat * KeyHandle) :=
  if length b =? 0 then mok (0, h)
  else
    let n := if length b <=? PDDB_BUF_DATA_LEN then length b else PDDB_BUF_DATA_LEN in
    let data := take n b ++ drop n (pb_data (buf h)) in
    let req := mkPddbBuf (token h) RET_Uninit (pb_reserved (buf h)) (N.of_nat n) (pos h) data in
    let* pbuf := mmap_err (fun _ => "lend_mut WriteKey") (lend_buf WriteKey req) in
    match pb_retcode pbuf with
    | RET_Ok =>
        let wrote := N.to_nat (pb_len pbuf) in
        if n <? wrote then merr "server reported writing more than supplied"
        else mok (wrote, mkKeyHandle (token h) (pos h + pb_len pbuf) pbuf)
    | RET_DiskFull => merr "disk full"
    | RET_BasisLost => merr "basis lost"
    | RET_AccessDenied => merr "access denied"
    | other => merr ("WriteKey retcode " +:+ retcode_debug other)
    end.

(** [Drop]: [KeyDrop], its outcome ignored. *)
Definition handle_drop (h : KeyHandle) (s : Sv) : Sv :=
  let '(t0, t1, t2) := token h in (send_main (opcode_to_u32 KeyDrop) t0 t1 t2 0 s).2.

(** [io::Write::write_all]: a write of zero bytes is an error. Every round
    writes at least one byte, so [length b] rounds are enough
    ([write_all_total]). *)
Fixpoint write_all_go (fuel : nat) (b : bytes) (h : KeyHandle) : M Sv string KeyHandle :=
  match b, fuel with
  | [], _ => mok h
  | _, O => merr "fuel"
  | _, S fuel' =>
      let* r := handle_write b h in
      if r.1 =? 0 then merr "failed to write whole buffer"
      else write_all_go fuel' (drop r.1 b) r.2
  end.
Definition write_all (b : bytes) (h : KeyHandle) : M Sv string KeyHandle := write_all_go (length b) b h.

(** ** [PddbBackend]'s [read_all]: 4096-byte chunks until a read of zero. [None]
    is the loop still running after [fuel] chunks. *)
Fixpoint read_all (fuel : nat) (out : bytes) (h : KeyHandle) : M Sv string (option (bytes * KeyHandle)) :=
  match fuel with
  | O => mok None
  | S fuel' =>
      let* r := handle_read 4096 h in
      match r.1 with
      | [] => mok (Some (out, r.2))
      | chunk => read_all fuel' (out ++ chunk) r.2
      end
  end.

Definition map_ipc_err (ctx : string) (e : IpcError) : Error :=
  match kind e with
  | NotMounted => Backend (ctx +:+ ": PDDB not mounted")
  | AccessDenied => Backend (ctx +:+ ": access denied")
  | NoFreeSpace => Backend (ctx +:+ ": out of space")
  | InvalidInput => Backend (ctx +:+ ": invalid input (" +:+ ipc_msg e +:+ ")")
  | NotFound => Backend (ctx +:+ ": not found")
  | Internal | Ipc => Backend (ctx +:+ ": " +:+ ipc_msg e)
  end.
End client.

(** ** The backend: the client behind its [Mutex] *)
Record PddbBackend (Sv : Type) : Type := mkPddbBackend {
  server : Sv;
  client_poisoned : bool
}.
Arguments mkPddbBackend {Sv} _ _.
Arguments server {Sv} _.
Arguments client_poisoned {Sv} _.

(** How many chunks and pages the two open-ended loops are run for. *)
Class LoopFuel : Type := loop_fuel : nat.

Section backend.
Context {Sv : Type} `{!PddbServer Sv} `{!LoopFuel}.
Abbreviation B := (PddbBackend Sv).

(** [self.lock()?] then a call on the client. *)
Definition with_client {A} (m : M Sv Error A) : M B Error A :=
  fun b => if client_poisoned b then (Err (Backend "PDDB client mutex poisoned"), b)
           else zoom server (fun s b => mkPddbBackend s (client_poisoned b)) m b.

Definition backend_is_mounted (b : B) : bool * B :=
  if client_poisoned b then (false, b)
  else let '(r, s) := is_mounted (server b) in (r, mkPddbBackend s (client_poisoned b)).

Definition backend_try_mount : M B Error bool :=
  with_client (mmap_err (map_ipc_err "try_mount") try_mount).

(** The loops' outcome "still running". *)
Definition still_running {A} : M Sv Error A := merr (Backend "(loop bound reached)").

(** The handle is dropped on every path once it is open. *)
Definition pddb_get (dict key : string) : M B Error (option bytes) :=
  with_client (fun s =>
    match client_open dict key open_default s with
    | (Err e, s1) =>
        if bool_decide (kind e = NotFound) then (Ok None, s1)
        else (Err (map_ipc_err "open for read" e), s1)
    | (Ok h, s1) =>
        match read_all loop_fuel [] h s1 with
        | (Err e, s2) => (Err (Backend ("read: " +:+ e)), handle_drop h s2)
        | (Ok None, s2) => still_running s2
        | (Ok (Some (v, _)), s2) => (Ok (Some v), handle_drop h s2)
        end
    end).

Definition pddb_put (dict key : string) (value : bytes) : M B Error unit :=
  with_client (
    (let* r := mtry (client_delete_key dict key) in
     match r with
     | Ok _ => mok tt
     | Err e => if bool_decide (kind e = NotFound) then mok tt
                else merr (map_ipc_err "put: pre-delete" e)
     end) ;*
    (let* h := mmap_err (map_ipc_err "open for write") (client_open dict key create_all) in
     fun s => match write_all value h s with
              | (Err e, s') => (Err (Backend ("write: " +:+ e)), handle_drop h s')
              | (Ok _, s') => (Ok tt, handle_drop h s')
              end)).

Definition pddb_put_batch (entries : list kv_entry) : M B Error unit :=
  match entries with
  | [] => mok tt
  | _ => with_client (mmap_err (map_ipc_err "write_batch") (client_write_batch entries))
  end.

Definition pddb_delete (dict key : string) : M B Error unit :=
  with_client (
    let* r := mtry (client_delete_key dict key) in
    match r with
    | Ok _ => mok tt
    | Err e => if bool_decide (kind e = NotFound) then mok tt else merr (map_ipc_err "delete_key" e)
    end).

Definition pddb_delete_dict (dict : string) : M B Error unit :=
  with_client (mmap_err (map_ipc_err "delete_dict") (client_delete_dict dict)).

Definition pddb_list_keys (dict : string) : M B Error (list string) :=
  with_client (
    let* r := mtry (client_list_keys loop_fuel dict) in
    match r with
    | Ok (Some ks) => mok ks
    | Ok None => still_running
    | Err e => if bool_decide (kind e = NotFound) then mok [] else merr (map_ipc_err "list_keys" e)
    end).

#[global] Instance pddb_backend : KvBackend B := {|
  kv_get := pddb_get;
  kv_put := pddb_put;
  kv_put_batch := pddb_put_batch;
  kv_delete := pddb_delete;
  kv_delete_dict := pddb_delete_dict;
  kv_list_keys := pddb_list_keys
|}.
End backend.

(** ** What the server's protocol promises

    [srv_view] is the store's contents, [srv_handle] the key an open token
    stands for, [srv_cursor] the names a listing token has still to return. *)
Definition splice (at_pos : nat) (d v : bytes) : bytes := take at_pos v ++ d ++ drop (at_pos + length d) v.

Class PddbServerLaws (Sv : Type) `{!PddbServer Sv} : Type := {
  srv_view : Sv -> kv_map;
  srv_handle : Sv -> ApiToken -> option kv_key;
  srv_cursor : Sv -> ListToken -> option (list string);
  (** Opening creates the key, empty, when asked to and only then. *)
  srv_key_request r s x s' : lend_key_request KeyRequest r s = (x, s') ->
    (srv_view s' = srv_view s \/
     kr_create_key r = true /\ srv_view s !! (kr_dict r, kr_key r) = None /\
     srv_view s' = <[(kr_dict r, kr_key r) := []]> (srv_view s)) /\
    (forall resp, x = Ok resp ->
       (kr_result resp = RC_NoErr -> is_Some (srv_view s' !! (kr_dict r, kr_key r)) /\
          forall t, kr_token resp = Some t -> srv_handle s' t = Some (kr_dict r, kr_key r)) /\
       (kr_result resp = RC_NotFound -> kr_create_key r = false ->
          srv_view s !! (kr_dict r, kr_key r) = None));
  srv_delete_key r s x s' : lend_key_request DeleteKey r s = (x, s') ->
    agree_off (fun p => p = (kr_dict r, kr_key r)) (srv_view s') (srv_view s) /\
    (forall resp, x = Ok resp ->
       (kr_result resp = RC_NoErr -> srv_view s' = delete (kr_dict r, kr_key r) (srv_view s)) /\
       (kr_result resp = RC_NotFound ->
          srv_view s !! (kr_dict r, kr_key r) = None /\ srv_view s' = srv_view s));
  srv_delete_dict r s x s' : lend_key_request DeleteDict r s = (x, s') ->
    agree_off (fun p => p.1 = kr_dict r) (srv_view s') (srv_view s) /\
    (forall resp, x = Ok resp ->
       (kr_result resp = RC_NoErr -> srv_view s' = drop_dict (kr_dict r) (srv_view s)) /\
       (kr_result resp = RC_NotFound ->
          (forall k, srv_view s !! (kr_dict r, k) = None) /\ srv_view s' = srv_view s));
  (** Not atomic, but confined to the packed entries. *)
  srv_write_batch r s x s' es : lend_write_batch WriteKeyBatch r s = (x, s') ->
    unpack_batch (wb_data r) = Some es ->
    agree_off (fun p => p ∈ entry_key <$> es) (srv_view s') (srv_view s) /\
    (forall resp, x = Ok resp -> wb_retcode resp = RET_Ok ->
       srv_view s' = insert_entries es (srv_view s));
  (** A read returns a piece of the value at the position, nothing only at its
      end. *)
  srv_read r s x s' p v : lend_buf ReadKey r s = (x, s') ->
    srv_handle s (pb_token r) = Some p -> srv_view s !! p = Some v -> (0 < pb_len r)%N ->
    srv_view s' = srv_view s /\ srv_handle s' (pb_token r) = Some p /\
    (forall resp, x = Ok resp ->
       (pb_retcode resp = RET_Ok ->
          N.to_nat (pb_position r) + N.to_nat (pb_len resp) <= length v /\
          take (N.to_nat (pb_len resp)) (pb_data resp) =
            take (N.to_nat (pb_len resp)) (drop (N.to_nat (pb_position r)) v) /\
          (pb_len resp = 0%N -> length v <= N.to_nat (pb_position r))) /\
       (pb_retcode resp = RET_UnexpectedEof -> length v <= N.to_nat (pb_position r)));
  (** A write replaces bytes in place and never truncates. *)
  srv_write r s x s' p v : lend_buf WriteKey r s = (x, s') ->
    srv_handle s (pb_token r) = Some p -> srv_view s !! p = Some v ->
    agree_off (fun q => q = p) (srv_view s') (srv_view s) /\ srv_handle s' (pb_token r) = Some p /\
    (forall resp, x = Ok resp -> pb_retcode resp = RET_Ok -> (pb_len resp <= pb_len r)%N ->
       srv_view s' =
         <[p := splice (N.to_nat (pb_position r)) (take (N.to_nat (pb_len resp)) (pb_data r)) v]>
           (srv_view s));
  srv_scalar op a b c d s : srv_view (send_main op a b c d s).2 = srv_view s;
  srv_server_id s : srv_view (create_server_id s).2 = srv_view s;
  srv_key_count r s x s' : lend_dict_request KeyCountInDict r s = (x, s') ->
    srv_view s' = srv_view s /\
    (forall resp, x = Ok resp ->
       (dr_code resp = RC_NoErr -> exists ks, srv_cursor s' (dr_token r) = Some ks /\ NoDup ks /\
          Forall listable ks /\ forall k, k ∈ ks <-> is_Some (srv_view s !! (dr_dict r, k))) /\
       (dr_code resp = RC_NotFound -> forall k, srv_view s !! (dr_dict r, k) = None));
  (** A page is a non-empty prefix of the names left, unless none are. *)
  srv_list_keys r s x s' ks : lend_key_list ListKeyV2 r s = (x, s') ->
    srv_view s' = srv_view s /\
    (srv_cursor s (kl_token r) = Some ks ->
     forall resp, x = Ok resp -> kl_retcode resp = RET_Ok ->
       exists page rest, ks = page ++ rest /\ (page = [] -> rest = []) /\
         (kl_end resp = true <-> rest = []) /\ srv_cursor s' (kl_token r) = Some rest /\
         (kl_data resp = encode_names page \/ exists junk, kl_data resp = encode_names page ++ x00 :: junk))
}.

Section server_laws.
Context {Sv : Type} `{PddbServerLaws Sv}.

Lemma drop_view h s : srv_view (handle_drop h s) = srv_view s.
Proof. unfold handle_drop. destruct (token h) as [[t0 t1] t2]. apply srv_scalar. Qed.

(** Opening for reading changes nothing and reports an absent key as such;
    opening with [create_all] leaves the key present, otherwise as it was. *)
Lemma client_open_spec dict key opts s r s' :
  client_open dict key opts s = (r, s') ->
  (srv_view s' = srv_view s \/
   create_key opts = true /\ srv_view s !! (dict, key) = None /\
   srv_view s' = <[(dict, key) := []]> (srv_view s)) /\
  match r with
  | Ok h => pos h = 0%N /\ srv_handle s' (token h) = Some (dict, key) /\ is_Some (srv_view s' !! (dict, key))
  | Err e => kind e = NotFound -> create_key opts = false -> srv_view s !! (dict, key) = None
  end.
Proof.
  unfold client_open. case_match; [intros [= <- <-]; by split; [left|]|].
  case_match; [intros [= <- <-]; by split; [left|]|].
  intros [(resp & s1 & Hl & Hm)|(e & Hl & ->)]%mbind_inv; apply mmap_err_inv in Hl as (r0 & Hl & Hr0);
    apply srv_key_request in Hl as [Hv Hresp]; destruct r0; try discriminate Hr0; simpl in *.
  2:{ split; [done|]. injection Hr0 as ->. done. }
  injection Hr0 as <-. destruct (Hresp _ eq_refl) as [Hok Hnf].
  assert (s' = s1) as ->.
  { revert Hm. unfold mok, merr. repeat case_match; by intros [=]. }
  split; [done|]. revert Hm. unfold mok, merr.
  destruct (kr_result resp) eqn:Hres; try (intros [= <-]; done).
  - destruct (kr_token resp) eqn:Ht; intros [= <-]; [|done]. simpl.
    destruct (Hok eq_refl) as [Hin Htok]. split; [done|]. split; [by apply Htok|done].
  - intros [= <-]. intros _ Hck. by apply Hnf.
Qed.

Lemma client_delete_key_spec dict key s r s' :
  client_delete_key dict key s = (r, s') ->
  agree_off (fun p => p = (dict, key)) (srv_view s') (srv_view s) /\
  match r with
  | Ok _ => srv_view s' = delete (dict, key) (srv_view s)
  | Err e => kind e = NotFound -> srv_view s !! (dict, key) = None /\ srv_view s' = srv_view s
  end.
Proof.
  unfold client_delete_key.
  intros [(resp & s1 & Hl & Hm)|(e & Hl & ->)]%mbind_inv; apply mmap_err_inv in Hl as (r0 & Hl & Hr0);
    apply srv_delete_key in Hl as [Hoff Hresp]; destruct r0; try discriminate Hr0; simpl in *.
  2:{ split; [done|]. by injection Hr0 as ->. }
  injection Hr0 as <-. destruct (Hresp _ eq_refl) as [Hok Hnf].
  revert Hm. unfold mok, merr. destruct (kr_result resp) eqn:Hres; intros [= <- <-];
    (split; [done|]); try done.
  - by apply Hok.
  - intros _. by apply Hnf.
Qed.

Lemma client_delete_dict_spec dict s r s' :
  client_delete_dict dict s = (r, s') ->
  match r with
  | Ok _ => srv_view s' = drop_dict dict (srv_view s)
  | Err e => agree_off (fun p => p.1 = dict) (srv_view s') (srv_view s)
  end.
Proof.
  unfold client_delete_dict.
  intros [(resp & s1 & Hl & Hm)|(e & Hl & ->)]%mbind_inv; apply mmap_err_inv in Hl as (r0 & Hl & Hr0);
    apply srv_delete_dict in Hl as [Hoff Hresp]; destruct r0; try discriminate Hr0; simpl in *; [|done].
  injection Hr0 as <-. destruct (Hresp _ eq_refl) as [Hok Hnf].
  revert Hm. unfold mok, merr. destruct (kr_result resp) eqn:Hres; intros [= <- <-]; try done.
  - by apply Hok.
  - destruct (Hnf eq_refl) as [Hno ->]. apply map_eq. intros [d k]. rewrite lookup_drop_dict.
    case_decide; [by subst|done].
Qed.

Lemma client_write_batch_spec es s r s' :
  client_write_batch es s = (r, s') ->
  match r with
  | Ok _ => srv_view s' = insert_entries es (srv_view s)
  | Err e => agree_off (fun p => p ∈ entry_key <$> es) (srv_view s') (srv_view s)
  end.
Proof.
  unfold client_write_batch. destruct es as [|e0 es0] eqn:Hes; [by intros [= <- <-]|].
  rewrite <- Hes. clear Hes e0 es0. unfold mlift.
  intros [(packed & s1 & Hp & Hm)|(e & Hp & ->)]%mbind_inv; [|by injection Hp as _ <-].
  injection Hp as Hp <-.
  assert (Hun : unpack_batch (in_page MAX_PDDB_WRITE_BATCH_LEN packed) = Some es).
  { pose proof (pack_entries_bound _ _ _ Hp) as Hb. unfold in_page, unpack_batch.
    assert (Hl : length packed < MAX_PDDB_WRITE_BATCH_LEN) by (unfold MAX_PDDB_WRITE_BATCH_LEN in *; lia).
    destruct (MAX_PDDB_WRITE_BATCH_LEN - length packed) as [|n] eqn:Hn; [lia|].
    simpl replicate. apply (unpack_go_pack 0); [done|]. rewrite length_app. simpl. lia. }
  apply mbind_inv in Hm as [(resp & s1 & Hl & Hm)|(e & Hl & ->)]; apply mmap_err_inv in Hl as (r0 & Hl & Hr0);
    eapply srv_write_batch in Hl as [Hoff Hresp]; [|exact Hun| |exact Hun];
    destruct r0; try discriminate Hr0; simpl in *; [|done].
  injection Hr0 as <-.
  revert Hm. unfold mok, merr. destruct (wb_retcode resp) eqn:Hres; intros [= <- <-]; try done.
  by eapply Hresp.
Qed.

(** ** The streaming loops *)

Lemma handle_read_spec want h s r s' p v :
  handle_read want h s = (r, s') -> 0 < want ->
  srv_handle s (token h) = Some p -> srv_view s !! p = Some v ->
  srv_view s' = srv_view s /\ srv_handle s' (token h) = Some p /\
  match r with
  | Err _ => True
  | Ok (c, h') => token h' = token h /\ N.to_nat (pos h') = N.to_nat (pos h) + length c /\
      c = take (length c) (drop (N.to_nat (pos h)) v) /\
      N.to_nat (pos h) + length c <= N.to_nat (pos h) `max` length v /\
      (c = [] -> length v <= N.to_nat (pos h))
  end.
Proof.
  unfold handle_read. intros Hr Hw Hh Hv. destruct (want =? 0) eqn:Hz; [apply Nat.eqb_eq in Hz; lia|].
  set (n := if want <=? PDDB_BUF_DATA_LEN then want else PDDB_BUF_DATA_LEN) in *.
  assert (Hn : 0 < n) by (unfold n; destruct (_ <=? _); unfold PDDB_BUF_DATA_LEN; lia). clearbody n.
  apply mbind_inv in Hr as [(resp & s1 & Hl & Hm)|(e & Hl & ->)]; apply mmap_err_inv in Hl as (r0 & Hl & Hr0);
    eapply srv_read in Hl as (Hv' & Hh' & Hresp);
      [|exact Hh|exact Hv|simpl; lia| |exact Hh|exact Hv|simpl; lia];
    destruct r0; try discriminate Hr0; simpl in *.
  2:{ by injection Hr0 as ->. }
  injection Hr0 as <-. destruct (Hresp _ eq_refl) as [Hok Heof].
  revert Hm. unfold mok, merr. destruct (pb_retcode resp) eqn:Hres; try (intros [= <- <-]; done).
  - destruct (Hok eq_refl) as (Hlen & Hdata & Hzero).
    destruct (_ <? N.to_nat (pb_len resp)); intros [= <- <-]; [done|].
    repeat (split; [done|]). simpl.
    assert (Hc : length (take (N.to_nat (pb_len resp)) (pb_data resp)) = N.to_nat (pb_len resp)).
    { rewrite Hdata, length_take, length_drop. lia. }
    rewrite Hc, <- Hdata. repeat split; [lia|lia|].
    intros Hnil. apply Hzero. rewrite Hnil in Hc. simpl in Hc. lia.
  - intros [= <- <-]. repeat (split; [done|]). simpl. specialize (Heof eq_refl).
    repeat split; lia.
Qed.

Lemma read_all_spec fuel out h s r s' p v :
  read_all fuel out h s = (r, s') ->
  srv_handle s (token h) = Some p -> srv_view s !! p = Some v -> N.to_nat (pos h) <= length v ->
  srv_view s' = srv_view s /\
  match r with
  | Ok None => fuel <= length v - N.to_nat (pos h)
  | Ok (Some (b, _)) => b = out ++ drop (N.to_nat (pos h)) v
  | Err _ => True
  end.
Proof.
  revert out h s. induction fuel as [|fuel IH]; intros out h s Hr Hh Hv Hp; simpl in Hr.
  { injection Hr as <- <-. split; [done|lia]. }
  apply mbind_inv in Hr as [([c h'] & s1 & Hrd & Hm)|(e & Hrd & ->)];
    eapply handle_read_spec in Hrd as (Hv1 & Hh1 & Hres); [| |exact Hh|exact Hv| | |exact Hh|exact Hv]; try lia; [|done].
  destruct Hres as (Ht & Hpos & Hc & Hle & Hnil). simpl in Hm.
  destruct c as [|c0 c].
  - injection Hm as <- <-. split; [done|]. specialize (Hnil eq_refl).
    rewrite drop_ge by lia. by rewrite app_nil_r.
  - set (cc := c0 :: c) in *. rewrite <- Ht in Hh1. rewrite <- Hv1 in Hv.
    apply (IH _ _ _ Hm Hh1) in Hv; [|lia]. destruct Hv as [Hv2 Hres]. split; [congruence|].
    assert (0 < length cc) by (simpl; lia).
    destruct r as [[[b h2]|]|]; [|lia|done].
    rewrite Hres, Hpos, <- app_assoc. f_equal.
    rewrite Hc at 1. rewrite <- drop_drop. apply take_drop.
Qed.

Lemma handle_write_spec b h s r s' p v :
  handle_write b h s = (r, s') -> b <> [] ->
  srv_handle s (token h) = Some p -> srv_view s !! p = Some v ->
  agree_off (fun q => q = p) (srv_view s') (srv_view s) /\ srv_handle s' (token h) = Some p /\
  match r with
  | Err _ => True
  | Ok (n, h') => token h' = token h /\ N.to_nat (pos h') = N.to_nat (pos h) + n /\ n <= length b /\
      srv_view s' = <[p := splice (N.to_nat (pos h)) (take n b) v]> (srv_view s)
  end.
Proof.
  unfold handle_write. intros Hr Hb Hh Hv.
  destruct (length b =? 0) eqn:Hz; [apply Nat.eqb_eq, nil_length_inv in Hz; done|].
  set (n := if length b <=? PDDB_BUF_DATA_LEN then length b else PDDB_BUF_DATA_LEN) in *.
  assert (Hn : n <= length b).
  { unfold n. destruct (_ <=? _) eqn:Hc; [done|]. apply Nat.leb_gt in Hc. lia. }
  clearbody n.
  apply mbind_inv in Hr as [(resp & s1 & Hl & Hm)|(e & Hl & ->)]; apply mmap_err_inv in Hl as (r0 & Hl & Hr0);
    eapply srv_write in Hl as (Hoff & Hh' & Hresp); [|exact Hh|exact Hv| |exact Hh|exact Hv];
    destruct r0; try discriminate Hr0; simpl in *.
  2:{ by injection Hr0 as ->. }
  injection Hr0 as <-. specialize (Hresp _ eq_refl).
  revert Hm. unfold mok, merr. destruct (pb_retcode resp) eqn:Hres; try (intros [= <- <-]; done).
  destruct (n <? N.to_nat (pb_len resp)) eqn:Hov; intros [= <- <-]; [done|].
  apply Nat.ltb_ge in Hov. repeat (split; [done|]). simpl. repeat split; [lia|lia|].
  rewrite Hresp; [|done|lia]. f_equal. f_equal.
  rewrite take_app_le by (rewrite length_take; lia). rewrite take_take. f_equal. lia.
Qed.

(** [write_all] at the end of a value appends exactly its argument. *)
Lemma write_all_spec fuel b h s r s' p v :
  write_all_go fuel b h s = (r, s') -> length b <= fuel ->
  srv_handle s (token h) = Some p -> srv_view s !! p = Some v -> N.to_nat (pos h) = length v ->
  agree_off (fun q => q = p) (srv_view s') (srv_view s) /\
  match r with
  | Ok h' => token h' = token h /\ srv_view s' = <[p := v ++ b]> (srv_view s)
  | Err e => e <> "fuel"
  end.
Proof.
  revert b h s v. induction fuel as [|fuel IH]; intros b h s v Hr Hf Hh Hv Hp; destruct b as [|c b];
    try (simpl in Hf; lia); cbn [write_all_go] in Hr.
  1,2: injection Hr as <- <-; rewrite app_nil_r, insert_id by done; done.
  set (b0 := c :: b) in *.
  apply mbind_inv in Hr as [([n h'] & s1 & Hw & Hm)|(e & Hw & [= ->])].
  2:{ pose proof Hw as Hw'. eapply handle_write_spec in Hw as (Hoff & _ & _); [|done..].
      split; [done|]. intros ->. revert Hw'. unfold handle_write.
      destruct (length b0 =? 0); [done|]. unfold mbind, mmap_err, mok, merr.
      destruct (lend_buf _ _ _) as [[]]; simpl; repeat case_match; intros [=]. }
  eapply handle_write_spec in Hw as (Hoff & Hh1 & Ht & Hpos & Hn & Hview); [|done..].
  simpl in Hm. destruct (n =? 0) eqn:Hz; [by injection Hm as <- <-|]. apply Nat.eqb_neq in Hz.
  assert (Hlb : length b0 = S (length b)) by done.
  assert (Hsp : splice (N.to_nat (pos h)) (take n b0) v = v ++ take n b0).
  { unfold splice. rewrite take_ge by lia. rewrite drop_ge by lia. by rewrite app_nil_r. }
  rewrite Hsp in Hview. rewrite <- Ht in Hh1.
  apply (IH _ _ _ (v ++ take n b0)) in Hm as [Hoff2 Hres].
  - split; [by rewrite Hoff2|]. destruct r as [h2|]; [|done]. destruct Hres as [-> Hv2].
    split; [done|]. by rewrite Hv2, Hview, insert_insert_eq, <- app_assoc, take_drop.
  - rewrite length_drop. lia.
  - done.
  - rewrite Hview. apply lookup_insert_eq.
  - rewrite length_app, length_take. lia.
Qed.

(** Draining the pages collects exactly the names the cursor had left. *)
Lemma list_pages_spec fuel t acc s r s' ks :
  list_pages fuel t acc s = (r, s') -> srv_cursor s t = Some ks -> Forall listable ks ->
  srv_view s' = srv_view s /\
  match r with
  | Ok (Some l) => l = acc ++ ks
  | Ok None => fuel <= length ks
  | Err _ => True
  end.
Proof.
  revert acc s ks. induction fuel as [|fuel IH]; intros acc s ks Hr Hc Hks; simpl in Hr.
  { injection Hr as <- <-. split; [done|lia]. }
  apply mbind_inv in Hr as [([names e] & s1 & Hp & Hm)|(e & Hp & ->)].
  2:{ split; [|done]. unfold list_page in Hp.
      apply mbind_inv in Hp as [(resp & s1 & Hl & Hm)|(e' & Hl & _)];
        apply mmap_err_inv in Hl as (r0 & Hl & _); eapply (srv_list_keys _ _ _ _ ks) in Hl as [Hv _]; [|done].
      rewrite <- Hv. revert Hm. unfold mok, merr, mbind, mlift. repeat case_match; intros; by simplify_eq. }
  unfold list_page in Hp.
  apply mbind_inv_ok in Hp as (resp & s2 & Hl & Hp).
  apply mmap_err_inv in Hl as (r0 & Hl & Hr0). destruct r0; try discriminate Hr0. injection Hr0 as <-.
  apply (srv_list_keys _ _ _ _ ks) in Hl as [Hv Hresp]. specialize (Hresp Hc _ eq_refl).
  destruct (kl_retcode resp) eqn:Hret; try discriminate Hp.
  destruct (Hresp eq_refl) as (page & rest & -> & Hne & Hend & Hc2 & Hdata).
  apply Forall_app in Hks as [Hpage Hrest].
  assert (Hparse : parse_key_list (kl_data resp) = Ok page).
  { unfold parse_key_list. destruct Hdata as [->|[junk ->]].
    - by destruct (parse_key_list_encoded (length (encode_names page)) page [] Hpage) as [_ ->].
    - destruct (parse_key_list_encoded (length (encode_names page ++ x00 :: junk)) page junk Hpage)
        as [-> _]; [|done]. rewrite length_app. lia. }
  unfold mlift, mbind, mok in Hp. rewrite Hparse in Hp. injection Hp as <- <- <-.
  simpl in Hm. destruct (kl_end resp).
  - injection Hm as <- <-. split; [done|]. destruct Hend as [Hend _]. rewrite (Hend eq_refl).
    by rewrite app_nil_r.
  - apply (IH _ _ rest) in Hm as [Hv2 Hres]; [|done..]. split; [congruence|].
    destruct r as [[l|]|]; [|rewrite length_app|done].
    + by rewrite Hres, <- app_assoc.
    + assert (rest <> []) by (intros ->; destruct Hend as [_ Hend]; by discriminate (Hend eq_refl)).
      assert (page <> []) by naive_solver. destruct page; [done|]. simpl. lia.
Qed.

Lemma parse_key_list_go_kind fuel rest e :
  parse_key_list_go fuel rest = Some (Err e) -> kind e = Internal.
Proof.
  revert rest. induction fuel as [|fuel IH]; intros rest; destruct rest as [|b r]; simpl; try done.
  - by case_bool_decide.
  - case_bool_decide; [done|]. case_match; [by intros [= <-]|].
    case_match; [|by intros [= <-]].
    destruct (parse_key_list_go fuel _) as [[|]|] eqn:Hgo; [done| |done].
    intros [= <-]. by eapply IH.
Qed.

Lemma parse_key_list_kind data e : parse_key_list data = Err e -> kind e = Internal.
Proof.
  unfold parse_key_list. destruct (parse_key_list_go_total (length data) data) as [r Hr]; [done|].
  rewrite Hr. simpl. intros ->. by eapply parse_key_list_go_kind.
Qed.

(** Only the count request answers [NotFound]. *)
Lemma list_pages_kind fuel t acc (s s' : Sv) e :
  list_pages fuel t acc s = (Err e, s') -> kind e <> NotFound.
Proof.
  revert acc s. induction fuel as [|fuel IH]; intros acc s Hr; [done|]. simpl in Hr.
  apply mbind_inv in Hr as [([names end_] & s1 & Hp & Hm)|(e' & Hp & [= ->])].
  - simpl in Hm. destruct end_; [done|]. by eapply IH.
  - unfold list_page in Hp. apply mbind_inv in Hp as [(resp & s1 & _ & Hm)|(e2 & Hl & [= ->])].
    + destruct (kl_retcode resp); try (by injection Hm as <- _).
      unfold mbind, mlift in Hm. destruct (parse_key_list _) eqn:Hparse; [done|].
      injection Hm as -> _. apply parse_key_list_kind in Hparse. by rewrite Hparse.
    + apply mmap_err_inv in Hl as (r0 & _ & Hr0). destruct r0; [done|]. by injection Hr0 as ->.
Qed.

Lemma client_list_keys_spec fuel dict (s s' : Sv) r :
  client_list_keys fuel dict s = (r, s') ->
  srv_view s' = srv_view s /\
  match r with
  | Ok (Some ks) => NoDup ks /\ forall k, k ∈ ks <-> is_Some (srv_view s !! (dict, k))
  | Ok None => exists ks, fuel <= length ks /\ NoDup ks /\ forall k, k ∈ ks <-> is_Some (srv_view s !! (dict, k))
  | Err e => kind e = NotFound -> forall k, srv_view s !! (dict, k) = None
  end.
Proof.
  unfold client_list_keys. case_match; [by intros [= <- <-]|].
  unfold random_token_4. unfold mbind at 1. destruct (create_server_id s) as [t s1] eqn:Ht.
  assert (Hv1 : srv_view s1 = srv_view s) by (rewrite <- (srv_server_id s); by rewrite Ht).
  unfold dict_request_send.
  intros [(resp & s2 & Hl & Hm)|(e & Hl & ->)]%mbind_inv; apply mmap_err_inv in Hl as (r0 & Hl & Hr0);
    apply srv_key_count in Hl as [Hv2 Hresp]; destruct r0; try discriminate Hr0; simpl in *.
  2:{ split; [congruence|]. by injection Hr0 as ->. }
  injection Hr0 as <-. destruct (Hresp _ eq_refl) as [Hok Hnf]. rewrite Hv1 in *.
  destruct (dr_code resp) eqn:Hcode; try (injection Hm as <- <-; split; [congruence|done]).
  - destruct (Hok eq_refl) as (ks & Hc & Hnd & Hks & Hmem).
    pose proof Hm as Hm'. apply (list_pages_spec _ _ _ _ _ _ ks) in Hm as [Hv3 Hres]; [|done..].
    split; [congruence|]. destruct r as [[l|]|e].
    + simpl in Hres. by subst.
    + by exists ks.
    + intros Hk. by apply list_pages_kind in Hm'.
  - injection Hm as <- <-. split; [congruence|]. intros _. by apply Hnf.
Qed.
End server_laws.

(** ** The backend is lawful *)
Section backend_laws.
Context {Sv : Type} `{PddbServerLaws Sv} `{!LoopFuel}.
Abbreviation B := (PddbBackend Sv).

Definition pddb_view (b : B) : kv_map := srv_view (server b).

Lemma with_client_inv {A} (m : M Sv Error A) (b b' : B) r :
  with_client m b = (r, b') ->
  (exists e, r = Err e) /\ b' = b \/
  (exists s', m (server b) = (r, s') /\ pddb_view b' = srv_view s').
Proof.
  unfold with_client, zoom. destruct (client_poisoned b).
  - intros [= <- <-]. left. split; [by eexists|done].
  - destruct (m (server b)) as [r0 s0] eqn:Hm. intros [= <- <-]. right. by exists s0.
Qed.

Lemma pddb_get_law b d k r b' :
  pddb_get d k b = (r, b') ->
  pddb_view b' = pddb_view b /\ (forall v, r = Ok v -> v = pddb_view b !! (d, k)).
Proof.
  intros [[[e ->] ->]|(s' & Hm & ->)]%with_client_inv; [done|].
  unfold pddb_view. destruct (client_open d k open_default (server b)) as [[h|e] s1] eqn:Ho;
    apply client_open_spec in Ho as [Hv Hres].
  - assert (Hv1 : srv_view s1 = srv_view (server b)) by (destruct Hv as [|[[=] _]]; done).
    destruct Hres as (Hpos & Hh & [v Hk]).
    destruct (read_all loop_fuel [] h s1) as [[[[w h2]|]|e] s2] eqn:Hr;
      eapply read_all_spec in Hr as [Hv2 Hres]; try done; try lia;
      injection Hm as <- <-; rewrite ?drop_view, Hv2; (split; [done|]); try by intros ? [=].
    intros ? [= <-]. rewrite Hres, Hpos, <- Hv1, Hk. done.
  - assert (Hv1 : srv_view s1 = srv_view (server b)) by (destruct Hv as [|[[=] _]]; done).
    case_bool_decide as Hk; injection Hm as <- <-; (split; [done|]); intros ? [=]; subst.
    symmetry. by apply Hres.
Qed.

Lemma pddb_put_law b d k v r b' :
  pddb_put d k v b = (r, b') ->
  agree_off (fun p => p = (d, k)) (pddb_view b') (pddb_view b) /\
  (forall u, r = Ok u -> pddb_view b' = <[(d, k) := v]> (pddb_view b)).
Proof.
  intros [[[e ->] ->]|(s' & Hm & ->)]%with_client_inv; [done|]. unfold pddb_view.
  apply mbind_inv in Hm as [(u & s1 & Hdel & Hm)|(e & Hdel & ->)].
  2:{ split; [|by intros]. unfold mtry in Hdel. unfold mbind in Hdel.
      destruct (client_delete_key d k (server b)) as [rd s0] eqn:Hd.
      apply client_delete_key_spec in Hd as [Hoff _].
      destruct rd; [done|]. by case_bool_decide; injection Hdel as _ <-. }
  assert (Hs1 : srv_view s1 = delete (d, k) (srv_view (server b))).
  { unfold mtry, mbind in Hdel. destruct (client_delete_key d k (server b)) as [rd s0] eqn:Hd.
    apply client_delete_key_spec in Hd as [_ Hres]. destruct rd as [u0|e0].
    - injection Hdel as _ <-. done.
    - case_bool_decide as Hk; [|done]. injection Hdel as _ <-. destruct (Hres Hk) as [Hno ->].
      by rewrite delete_id. }
  assert (Hoff1 : agree_off (fun p => p = (d, k)) (srv_view s1) (srv_view (server b))).
  { intros p Hp. rewrite Hs1. apply lookup_delete_ne. naive_solver. }
  apply mbind_inv in Hm as [(h & s2 & Ho & Hm)|(e & Ho & ->)]; apply mmap_err_inv in Ho as (ro & Ho & Hro);
    apply client_open_spec in Ho as [Hv Hres]; destruct ro as [h0|]; try discriminate Hro.
  2:{ split; [|by intros]. destruct Hv as [->|(_ & _ & ->)]; [done|].
      intros p Hp. rewrite lookup_insert_ne by naive_solver. by apply Hoff1. }
  injection Hro as <-. destruct Hres as (Hpos & Hh & [w Hw]).
  assert (Hs2 : srv_view s2 = <[(d, k) := []]> (srv_view s1)).
  { destruct Hv as [Hv|(_ & _ & Hv)]; [|done]. rewrite Hv, Hs1, lookup_delete_eq in Hw. done. }
  rewrite Hs2, lookup_insert_eq in Hw. injection Hw as <-.
  destruct (write_all v h s2) as [rw s3] eqn:Hwr. unfold write_all in Hwr.
  eapply write_all_spec in Hwr as [Hoff3 Hres3]; [|lia|exact Hh| |].
  2:{ rewrite Hs2. apply lookup_insert_eq. }
  2:{ by rewrite Hpos. }
  assert (Hoff2 : agree_off (fun p => p = (d, k)) (srv_view s2) (srv_view (server b))).
  { intros p Hp. rewrite Hs2, lookup_insert_ne by naive_solver. by apply Hoff1. }
  destruct rw as [h'|e]; injection Hm as <- <-; rewrite drop_view.
  - destruct Hres3 as [_ ->]. split.
    + intros p Hp. rewrite lookup_insert_ne by naive_solver. by apply Hoff2.
    + intros _ _. rewrite Hs2, Hs1, insert_insert_eq. apply insert_delete_eq.
  - split; [by rewrite Hoff3|by intros].
Qed.

Lemma pddb_delete_law b d k r b' :
  pddb_delete d k b = (r, b') ->
  agree_off (fun p => p = (d, k)) (pddb_view b') (pddb_view b) /\
  (forall u, r = Ok u -> pddb_view b' = delete (d, k) (pddb_view b)).
Proof.
  intros [[[e ->] ->]|(s' & Hm & ->)]%with_client_inv; [done|]. unfold pddb_view.
  unfold mtry, mbind in Hm. destruct (client_delete_key d k (server b)) as [rd s0] eqn:Hd.
  apply client_delete_key_spec in Hd as [Hoff Hres]. destruct rd as [u|e].
  - by injection Hm as <- <-.
  - case_bool_decide as Hk; injection Hm as <- <-; (split; [done|]); [|by intros].
    intros _ _. destruct (Hres Hk) as [Hno ->]. by rewrite delete_id.
Qed.

#[global] Program Instance pddb_laws : KvLaws B := {| kv_view := pddb_view |}.
Next Obligation. intros b d k r b'. apply pddb_get_law. Qed.
Next Obligation. intros b d k v u b' Hp. apply pddb_put_law in Hp as [_ Hp]. by eapply Hp. Qed.
Next Obligation. intros b d k v e b' Hp. by apply pddb_put_law in Hp as [Hp _]. Qed.
Next Obligation.
  intros b es u b' Hp. cbn in Hp. unfold pddb_put_batch in Hp.
  destruct es as [|x es0] eqn:Hes; [by injection Hp as _ <-|]. rewrite <- Hes in *. clear Hes x es0.
  apply with_client_inv in Hp as [[[e [=]] _]|(s' & Hm & ->)].
  apply mmap_err_inv in Hm as (r0 & Hm & Hr0). destruct r0; [|done].
  by apply client_write_batch_spec in Hm.
Qed.
Next Obligation.
  intros b es e b' Hp. cbn in Hp. unfold pddb_put_batch in Hp.
  destruct es as [|x es0] eqn:Hes; [done|]. rewrite <- Hes in *. clear Hes x es0.
  apply with_client_inv in Hp as [[_ ->]|(s' & Hm & ->)]; [done|].
  apply mmap_err_inv in Hm as (r0 & Hm & Hr0). destruct r0; [done|].
  by apply client_write_batch_spec in Hm.
Qed.
Next Obligation. intros b d k u b' Hp. apply pddb_delete_law in Hp as [_ Hp]. by eapply Hp. Qed.
Next Obligation. intros b d k e b' Hp. by apply pddb_delete_law in Hp as [Hp _]. Qed.
Next Obligation.
  intros b d u b' [[[e [=]] _]|(s' & Hm & ->)]%with_client_inv.
  apply mmap_err_inv in Hm as (r0 & Hm & Hr0). destruct r0; [|done].
  by apply client_delete_dict_spec in Hm.
Qed.
Next Obligation.
  intros b d e b' [[_ ->]|(s' & Hm & ->)]%with_client_inv; [done|].
  apply mmap_err_inv in Hm as (r0 & Hm & Hr0). destruct r0; [done|].
  by apply client_delete_dict_spec in Hm.
Qed.
Next Obligation.
  intros b d r b' [[[e ->] ->]|(s' & Hm & ->)]%with_client_inv; [done|]. unfold pddb_view.
  unfold mtry, mbind in Hm. destruct (client_list_keys loop_fuel d (server b)) as [rd s0] eqn:Hd.
  apply client_list_keys_spec in Hd as [Hv Hres]. destruct rd as [[ks|]|e]; simpl in Hm.
  - injection Hm as <- <-. split; [done|]. by intros ? [= <-].
  - injection Hm as <- <-. split; [done|]. by intros.
  - case_bool_decide as Hk; injection Hm as <- <-; (split; [done|]); [|by intros].
    intros ? [= <-]. split; [constructor|]. intros k. rewrite (Hres Hk).
    split; [by intros ?%elem_of_nil|by intros [? [=]]].
Qed.
End backend_laws.

(** ** Properties *)
Section properties.
Context {Sv : Type} `{PddbServerLaws Sv} `{!LoopFuel}.

(** C15: what is put is what is got. After a successful [put], of any length and
    over a value of any length, a successful [get] of any key returns exactly the
    new value for that key and the old contents for every other key; a failed
    [put] has changed nothing but its own key. *)
Theorem pddb_put_get (b b1 : PddbBackend Sv) d k v r :
  pddb_put d k v b = (r, b1) ->
  (forall d' k' w b2, pddb_get d' k' b1 = (Ok w, b2) ->
     (r = Ok tt \/ (d', k') <> (d, k)) ->
     w = if decide ((d', k') = (d, k)) then Some v else pddb_view b !! (d', k')).
Proof.
  intros Hp d' k' w b2 Hg Hr. apply pddb_get_law in Hg as [_ Hg]. rewrite (Hg _ eq_refl).
  apply pddb_put_law in Hp as [Hoff Hok]. case_decide as Heq.
  - rewrite Heq. destruct Hr as [Hr|]; [|done]. rewrite (Hok _ Hr). apply lookup_insert_eq.
  - by apply Hoff.
Qed.

(** C26: the client's open-ended loops end. The chunked read of a value stops
    within one round more than its length, the key listing within one page more
    than the dictionary has keys, and [write_all] within one round per byte
    (short reads, pages and writes included). *)
Theorem pddb_loops_terminate :
  (forall fuel h (s s' : Sv) r p v, read_all fuel [] h s = (r, s') ->
     srv_handle s (token h) = Some p -> srv_view s !! p = Some v -> pos h = 0%N ->
     length v < fuel -> r <> Ok None) /\
  (forall fuel dict (s s' : Sv) r (ks : list string), client_list_keys fuel dict s = (r, s') ->
     (forall k, is_Some (srv_view s !! (dict, k)) -> k ∈ ks) -> length ks < fuel -> r <> Ok None) /\
  (forall b h (s s' : Sv) r p v, write_all b h s = (r, s') ->
     srv_handle s (token h) = Some p -> srv_view s !! p = Some v -> N.to_nat (pos h) = length v ->
     r <> Err "fuel").
Proof.
  split; [|split].
  - intros fuel h s s' r p v Hr Hh Hv Hp Hf ->.
    eapply read_all_spec in Hr as [_ Hres]; [|done..|rewrite Hp; simpl; lia]. rewrite Hp in Hres. simpl in Hres. lia.
  - intros fuel dict s s' r ks Hr Hks Hf ->. apply client_list_keys_spec in Hr as [_ (l & Hl & Hnd & Hmem)].
    assert (length l <= length ks); [|lia]. apply submseteq_length, NoDup_submseteq; [done|].
    intros k Hk. by apply Hks, Hmem.
  - intros b h s s' r p v Hr Hh Hv Hp ->. unfold write_all in Hr.
    by eapply write_all_spec in Hr as [_ Hres].
Qed.
End properties.

(** ** A reference server

    A concrete server that meets the laws: it reads five bytes and writes seven
    at a time and lists one name a page, so every loop goes round. *)
Module RefServer.
Record state : Type := mkState {
  rs_map : kv_map;
  rs_open : gmap ApiToken kv_key;
  rs_next : N;
  rs_cursors : gmap ListToken (list string)
}.

#[export] Instance listable_dec s : Decision (listable s).
Proof. unfold listable. apply _. Defined.

Definition reply (r : PddbKeyRequest) (t : option ApiToken) (c : PddbRequestCode) : PddbKeyRequest :=
  mkKeyRequest (kr_basis_specified r) (kr_basis r) (kr_dict r) (kr_key r) t (kr_create_dict r)
    (kr_create_key r) (kr_alloc_hint r) (kr_cb_sid r) c.

Definition set_map (m : kv_map) (s : state) : state := mkState m (rs_open s) (rs_next s) (rs_cursors s).

Definition open_key (p : kv_key) (s : state) : ApiToken * state :=
  let t := (rs_next s, 0%N, 0%N) in
  (t, mkState (rs_map s) (<[t := p]> (rs_open s)) (rs_next s + 1) (rs_cursors s)).

Definition key_op (op : Opcode) (r : PddbKeyRequest) : M state ipc_fail PddbKeyRequest :=
  fun s =>
    let p := (kr_dict r, kr_key r) in
    match op with
    | KeyRequest =>
        match rs_map s !! p with
        | Some _ => let '(t, s') := open_key p s in (Ok (reply r (Some t) RC_NoErr), s')
        | None =>
            if kr_create_key r then
              let '(t, s') := open_key p (set_map (<[p := []]> (rs_map s)) s) in
              (Ok (reply r (Some t) RC_NoErr), s')
            else (Ok (reply r None RC_NotFound), s)
        end
    | DeleteKey =>
        match rs_map s !! p with
        | Some _ => (Ok (reply r None RC_NoErr), set_map (delete p (rs_map s)) s)
        | None => (Ok (reply r None RC_NotFound), s)
        end
    | DeleteDict => (Ok (reply r None RC_NoErr), set_map (drop_dict (kr_dict r) (rs_map s)) s)
    | _ => (Err LendMut, s)
    end.

Definition batch_op (op : Opcode) (r : PddbWriteBatch) : M state ipc_fail PddbWriteBatch :=
  fun s =>
    match op, unpack_batch (wb_data r) with
    | WriteKeyBatch, Some es =>
        (Ok (mkWriteBatch (wb_basis_specified r) (wb_basis r) (wb_data r) RET_Ok),
         set_map (insert_entries es (rs_map s)) s)
    | _, _ => (Err LendMut, s)
    end.

Definition buf_op (op : Opcode) (r : PddbBuf) : M state ipc_fail PddbBuf :=
  fun s =>
    match rs_open s !! pb_token r with
    | None => (Err LendMut, s)
    | Some p =>
        match rs_map s !! p with
        | None => (Ok (mkPddbBuf (pb_token r) RET_AccessDenied 0 0 (pb_position r) (pb_data r)), s)
        | Some v =>
            let at_pos := N.to_nat (pb_position r) in
            match op with
            | ReadKey =>
                let c := take (N.to_nat (pb_len r) `min` 5) (drop at_pos v) in
                if bool_decide (c = []) then
                  (Ok (mkPddbBuf (pb_token r) RET_UnexpectedEof 0 0 (pb_position r) (pb_data r)), s)
                else (Ok (mkPddbBuf (pb_token r) RET_Ok 0 (N.of_nat (length c)) (pb_position r)
                            (c ++ drop (length c) (pb_data r))), s)
            | WriteKey =>
                let n := N.to_nat (pb_len r) `min` 7 in
                (Ok (mkPddbBuf (pb_token r) RET_Ok 0 (N.of_nat n) (pb_position r) (pb_data r)),
                 set_map (<[p := splice at_pos (take n (pb_data r)) v]> (rs_map s)) s)
            | _ => (Err LendMut, s)
            end
        end
    end.

Definition count_op (op : Opcode) (r : PddbDictRequest) : M state ipc_fail PddbDictRequest :=
  fun s =>
    let ks := elements (KvSpec.dict_keys (dr_dict r) (rs_map s)) in
    let c := if decide (Forall listable ks) then RC_NoErr else RC_InternalError in
    (Ok (mkDictRequest (dr_basis_specified r) (dr_basis r) (dr_dict r) (dr_key r) (dr_index r) (dr_token r)
           c (dr_bulk_limit r) (N.of_nat (length ks)) (N.of_nat (length ks))),
     mkState (rs_map s) (rs_open s) (rs_next s) (<[dr_token r := ks]> (rs_cursors s))).

Definition list_op (op : Opcode) (r : PddbKeyList) : M state ipc_fail PddbKeyList :=
  fun s =>
    match rs_cursors s !! kl_token r with
    | None => (Ok (mkKeyList (kl_token r) (kl_data r) RET_AccessDenied true), s)
    | Some ks =>
        (Ok (mkKeyList (kl_token r) (in_page MAX_PDDBKLISTLEN (encode_names (take 1 ks))) RET_Ok
               (bool_decide (drop 1 ks = []))),
         mkState (rs_map s) (rs_open s) (rs_next s) (<[kl_token r := drop 1 ks]> (rs_cursors s)))
    end.

#[export] Instance server : PddbServer state := {|
  lend_key_request := key_op;
  lend_dict_request := count_op;
  lend_key_list := list_op;
  lend_write_batch := batch_op;
  lend_buf := buf_op;
  send_main := fun _ _ _ _ _ s => (Ok (Scalar1 1), s);
  send_poller := fun s => (Ok (Scalar1 1), s);
  create_server_id := fun s => ((rs_next s, 0, 0, 0)%N, s)
|}.

Lemma take_min_length {A} n (l : list A) : take n l = take (n `min` length l) l.
Proof.
  destruct (Nat.min_spec n (length l)) as [[_ ->]|[Hge ->]]; [done|]. by rewrite !take_ge.
Qed.

Lemma in_page_names ns :
  in_page MAX_PDDBKLISTLEN (encode_names ns) = encode_names ns \/
  exists junk, in_page MAX_PDDBKLISTLEN (encode_names ns) = encode_names ns ++ x00 :: junk.
Proof.
  unfold in_page. destruct (MAX_PDDBKLISTLEN - _) as [|n].
  - left. apply app_nil_r.
  - right. by eexists.
Qed.

#[export] Program Instance server_laws : PddbServerLaws state := {|
  srv_view := rs_map;
  srv_handle s t := rs_open s !! t;
  srv_cursor s t := rs_cursors s !! t
|}.
Next Obligation.
  intros r s x s'. simpl. destruct (rs_map s !! (kr_dict r, kr_key r)) eqn:Hm.
  - intros [= <- <-]. split; [by left|]. intros resp [= <-]. simpl. split; [|done]. intros _.
    split; [by eexists|]. intros t [= <-]. apply lookup_insert_eq.
  - destruct (kr_create_key r); intros [= <- <-]; simpl.
    + split; [by right|]. intros resp [= <-]. simpl. split; [|done]. intros _.
      split; [rewrite lookup_insert_eq; by eexists|]. intros t [= <-]. apply lookup_insert_eq.
    + split; [by left|]. intros resp [= <-]. by split.
Qed.
Next Obligation.
  intros r s x s'. simpl. destruct (rs_map s !! (kr_dict r, kr_key r)) eqn:Hm; intros [= <- <-]; simpl.
  - split; [|intros resp [= <-]; by split]. intros p Hp. apply lookup_delete_ne. naive_solver.
  - split; [done|]. intros resp [= <-]. by split.
Qed.
Next Obligation.
  intros r s x s' [= <- <-]. simpl. split; [|intros resp [= <-]; by split].
  intros [d k] Hp. rewrite lookup_drop_dict. by rewrite decide_False.
Qed.
Next Obligation.
  intros r s x s' es Hl Hun. simpl in Hl. unfold batch_op in Hl. rewrite Hun in Hl.
  injection Hl as <- <-. simpl. split; [|intros resp [= <-]; done].
  intros p Hp. by apply lookup_insert_entries_not.
Qed.
Next Obligation.
  intros r s x s' p v Hl Hh Hv Hlen. simpl in *. unfold buf_op in Hl. rewrite Hh, Hv in Hl.
  remember (take _ (drop (N.to_nat (pb_position r)) v)) as c eqn:Hc.
  pose proof (f_equal length Hc) as Hlc. rewrite length_take, length_drop in Hlc.
  case_bool_decide as Hnil; injection Hl as <- <-;
    (split; [done|]); (split; [done|]); intros resp [= <-]; cbn [pb_retcode pb_len pb_data pb_position];
    (split; [|try done]); try done.
  - intros _. subst c. rewrite Hnil in Hlc. simpl in Hlc. lia.
  - intros _. rewrite Nat2N.id. assert (length c <> 0) by (by destruct c).
    split; [lia|]. split.
    + rewrite take_app_length. rewrite Hc at 1. rewrite Hlc.
      rewrite <- length_drop. apply take_min_length.
    + lia.
Qed.
Next Obligation.
  intros r s x s' p v Hl Hh Hv. simpl in *. unfold buf_op in Hl. rewrite Hh, Hv in Hl.
  injection Hl as <- <-. simpl. split.
  - intros q Hq. apply lookup_insert_ne. naive_solver.
  - split; [done|]. intros resp [= <-] _ Hle. simpl. by rewrite Nat2N.id.
Qed.
Next Obligation. done. Qed.
Next Obligation. done. Qed.
Next Obligation.
  intros r s x s' [= <- <-]. split; [done|]. intros resp [= <-]. simpl.
  case_decide as Hall; (split; [|done]); [|done]. intros _.
  exists (elements (KvSpec.dict_keys (dr_dict r) (rs_map s))). split; [apply lookup_insert_eq|].
  split; [apply NoDup_elements|]. split; [done|]. intros k.
  by rewrite elem_of_elements, KvSpec.elem_of_dict_keys.
Qed.
Next Obligation.
  intros r s x s' ks Hl. simpl in Hl. unfold list_op in Hl.
  destruct (rs_cursors s !! kl_token r) as [ks'|] eqn:Hc; injection Hl as <- <-; (split; [done|]);
    intros Hks; simpl in Hks; rewrite Hc in Hks; [|done]. injection Hks as ->.
  intros resp [= <-] _. simpl kl_data. simpl kl_end. exists (take 1 ks), (drop 1 ks).
  split; [by rewrite take_drop|]. split; [by destruct ks|].
  split; [apply bool_decide_eq_true|]. split; [apply lookup_insert_eq|]. apply in_page_names.
Qed.

Definition empty : state := mkState ∅ ∅ 0 ∅.
End RefServer.

Section witnesses.
Import RefServer.
#[local] Instance witness_fuel : LoopFuel := 50.

Definition witness_backend : PddbBackend RefServer.state := mkPddbBackend RefServer.empty false.

(** A long value, then a shorter one over it. *)
Definition long_value : bytes := replicate 40 x55.
Definition short_value : bytes := replicate 12 xaa.

Lemma pddb_put_get_witness :
  let b1 := (pddb_put "signal.state" "k" long_value witness_backend).2 in
  let b2 := (pddb_put "signal.state" "k" short_value b1).2 in
  exists w b3, pddb_get "signal.state" "k" b2 = (Ok w, b3) /\ w = Some short_value.
Proof.
  intros b1 b2. eexists _, _. split; [vm_compute; reflexivity|].
  refine (pddb_put_get b1 b2 "signal.state" "k" short_value (Ok tt) _ "signal.state" "k" _ _ _ _);
    [vm_compute; reflexivity|vm_compute; reflexivity|by left].
Defined.

Lemma pddb_loops_terminate_witness :
  let s := RefServer.mkState {[ ("d", "k") := long_value ]} {[ (7, 0, 0)%N := ("d", "k") ]} 9 ∅ in
  let h := mkKeyHandle (7, 0, 0)%N 0 empty_buf in
  (read_all 41 [] h s).1 <> Ok None.
Proof.
  intros s h. refine (proj1 pddb_loops_terminate 41 h s _ _ ("d", "k") long_value _ _ _ _ _).
  - apply surjective_pairing.
  - reflexivity.
  - reflexivity.
  - reflexivity.
  - vm_compute; lia.
Defined.
End witnesses.
