(* ===== verification/Protocol.v ===== *)
(** * The libsignal protocol stores ([presage-store-pddb/src/protocol/])

    One-time, signed and Kyber prekeys, sender keys and identities, each kept in
    its own dictionary of the backend. Records, keys and JSON are libsignal's and
    serde's: parameters with the round trips their documentation promises. *)
From S2P Require Import Prelude Codec Kv.

(** ** What the stores use of other crates *)

(** [SignalProtocolError], as far as the stores build it; [Libsignal] is any
    error of a libsignal call. *)
Inductive SignalProtocolError : Type :=
| InvalidState (context msg : string)
| InvalidPreKeyId
| InvalidSignedPreKeyId
| InvalidKyberPreKeyId
| InvalidMessage (message_type reason : string)
| Libsignal (msg : string).

(** A libsignal record: [serialize]/[deserialize]. *)
Class WireRecord (R : Type) : Type := {
  rec_serialize : R -> result bytes SignalProtocolError;
  rec_deserialize : bytes -> result R SignalProtocolError
}.
Class WireRecordLaws (R : Type) `{!WireRecord R} : Prop :=
  rec_roundtrip r b : rec_serialize r = Ok b -> rec_deserialize b = Ok r.

(** serde_json: [to_vec]/[from_slice], with the rendered error. *)
Class Json (T : Type) : Type := {
  to_vec : T -> result bytes string;
  from_slice : bytes -> result T string
}.
Class JsonLaws (T : Type) `{!Json T} : Prop :=
  json_roundtrip x b : to_vec x = Ok b -> from_slice b = Ok x.

(** Keys with a fixed serialization ([PublicKey], [IdentityKey]). *)
Class KeyBytes (K : Type) : Type := {
  key_serialize : K -> bytes;
  key_decode : bytes -> result K SignalProtocolError;
  key_eq_dec :: EqDecision K
}.
Class KeyBytesLaws (K : Type) `{!KeyBytes K} : Prop := {
  key_roundtrip k : key_decode (key_serialize k) = Ok k;
  key_serialize_inj :: Inj (=) (=) (key_serialize (K := K))
}.

Record ProtocolAddress : Type := mkAddress { name : string; device_id : N }.

(** [Uuid]'s two renderings. *)
Class UuidText (Uuid : Type) : Type := {
  uuid_simple : Uuid -> string;
  uuid_hyphenated : Uuid -> string
}.

(** ** Identities and dictionary names ([mod.rs]) *)
Inductive IdentityType : Type := Aci | Pni.

#[global] Instance IdentityType_eq_dec : EqDecision IdentityType.
Proof. solve_decision. Defined.
#[global] Program Instance IdentityType_countable : Countable IdentityType :=
  inj_countable (fun i => match i with Aci => true | Pni => false end)
    (fun b => Some (if b : bool then Aci else Pni)) _.
Next Obligation. by intros []. Qed.

Definition as_str (i : IdentityType) : string := match i with Aci => "aci" | Pni => "pni" end.

Definition dict_session (i : IdentityType) : string := "signal.protocol." +:+ as_str i +:+ ".session".
Definition dict_identity (i : IdentityType) : string := "signal.protocol." +:+ as_str i +:+ ".identity".
Definition dict_prekey_bundle (i : IdentityType) : string :=
  "signal.protocol." +:+ as_str i +:+ ".prekey_bundle".
Definition dict_signed_prekey (i : IdentityType) : string :=
  "signal.protocol." +:+ as_str i +:+ ".signed_prekey".
Definition dict_kyber_prekey (i : IdentityType) : string :=
  "signal.protocol." +:+ as_str i +:+ ".kyber_prekey".
Definition dict_kyber_meta (i : IdentityType) : string :=
  "signal.protocol." +:+ as_str i +:+ ".kyber_meta".
Definition dict_sender_key (i : IdentityType) : string :=
  "signal.protocol." +:+ as_str i +:+ ".sender_key".
Definition PREKEY_BUNDLE_KEY : string := "all".

(** [state::DICT] and the identity-pair keys ([identity_key_store.rs]). *)
Definition STATE_DICT : string := "signal.state".
Definition state_key_identity_key_pair (i : IdentityType) : string :=
  match i with Aci => "aci_identity_key_pair" | Pni => "pni_identity_key_pair" end.

Definition identity_key (a : ProtocolAddress) : string := name a +:+ "." +:+ pretty (device_id a).

Definition sender_key_key {Uuid} `{!UuidText Uuid} (a : ProtocolAddress) (distribution_id : Uuid) : string :=
  name a +:+ "." +:+ pretty (device_id a) +:+ "." +:+ uuid_simple distribution_id.

Definition protocol_backend_err (e : Error) : SignalProtocolError :=
  InvalidState "kv backend" (error_to_string e).

(** [OnNewIdentity]. *)
Inductive OnNewIdentity : Type := Reject | Trust.

Section helpers.
Context {St : Type} `{!KvBackend St}.

(** A backend call with [.map_err(protocol_backend_err)]. *)
Definition kv_protocol {A} (m : M St Error A) : M St SignalProtocolError A :=
  mmap_err protocol_backend_err m.

Definition backend_get_json_protocol {T} `{!Json T} (dict key decode_context : string)
    : M St SignalProtocolError (option T) :=
  let* v := kv_protocol (kv_get dict key) in
  match v with
  | Some b =>
      match from_slice b with
      | Ok x => mok (Some x)
      | Err e => merr (InvalidState decode_context e)
      end
  | None => mok None
  end.

Definition backend_put_json_protocol {T} `{!Json T} (dict key : string) (value : T) (encode_context : string)
    : M St SignalProtocolError unit :=
  match to_vec value with
  | Err e => merr (InvalidState encode_context e)
  | Ok b => kv_protocol (kv_put dict key b)
  end.

(** [list_keys_as_u32s] ([lib.rs]): keys that do not parse are dropped. *)
Definition list_keys_as_u32s (dict : string) : M St Error (list N) :=
  let* ks := kv_list_keys dict in mok (omap parse_u32 ks).
End helpers.

(** [iter().max()]. *)
Definition list_max (ids : list N) : option N :=
  foldr (fun id acc => Some (match acc with None => id | Some b => N.max id b end)) None ids.

(** ** One-time prekeys ([pre_key_store.rs]): one bundle under one key *)
Section prekeys.
Context {St : Type} `{!KvBackend St} {PreKeyRecord : Type} `{!WireRecord PreKeyRecord}
  `{!Json (list (N * bytes))}.
Variable identity : IdentityType.

Definition load_bundle : M St SignalProtocolError (list (N * bytes)) :=
  let* b := backend_get_json_protocol (dict_prekey_bundle identity) PREKEY_BUNDLE_KEY "decode prekey bundle" in
  mok (default [] b).

Definition save_bundle (bundle : list (N * bytes)) : M St SignalProtocolError unit :=
  backend_put_json_protocol (dict_prekey_bundle identity) PREKEY_BUNDLE_KEY bundle "encode prekey bundle".

(** [iter().find(|(rid, _)| rid == id)]. *)
Fixpoint bundle_find (id : N) (bundle : list (N * bytes)) : option bytes :=
  match bundle with
  | [] => None
  | (rid, b) :: rest => if bool_decide (rid = id) then Some b else bundle_find id rest
  end.

(** [if let Some(existing) = iter_mut().find(..) { existing.1 = bytes } else { push }]. *)
Fixpoint bundle_upsert (id : N) (b : bytes) (bundle : list (N * bytes)) : list (N * bytes) :=
  match bundle with
  | [] => [(id, b)]
  | (rid, b0) :: rest =>
      if bool_decide (rid = id) then (rid, b) :: rest else (rid, b0) :: bundle_upsert id b rest
  end.

Definition get_pre_key (prekey_id : N) : M St SignalProtocolError PreKeyRecord :=
  let* bundle := load_bundle in
  match bundle_find prekey_id bundle with
  | None => merr InvalidPreKeyId
  | Some b => mlift (rec_deserialize b)
  end.

Definition save_pre_key (prekey_id : N) (record : PreKeyRecord) : M St SignalProtocolError unit :=
  let* b := mlift (rec_serialize record) in
  let* bundle := load_bundle in
  save_bundle (bundle_upsert prekey_id b bundle).

Definition remove_pre_key (prekey_id : N) : M St SignalProtocolError unit :=
  let* bundle := load_bundle in
  save_bundle (filter (fun '(rid, _) => rid <> prekey_id) bundle).

Definition max_pre_key_id : M St SignalProtocolError (option N) :=
  let* bundle := load_bundle in mok (list_max bundle.*1).

(** [max.map(|id| id + 1).unwrap_or(1)] on [u32], as a release build computes it. *)
Definition next_id (m : option N) : N := match m with Some id => wrap32 (id + 1) | None => 1 end.

Definition next_pre_key_id : M St SignalProtocolError N :=
  let* m := max_pre_key_id in mok (next_id m).
End prekeys.

(** ** Signed prekeys ([signed_pre_key_store.rs]) *)
Section signed.
Context {St : Type} `{!KvBackend St} {SignedPreKeyRecord : Type} `{!WireRecord SignedPreKeyRecord}.
Variable identity : IdentityType.

Definition get_signed_pre_key (signed_prekey_id : N) : M St SignalProtocolError SignedPreKeyRecord :=
  let* v := kv_protocol (kv_get (dict_signed_prekey identity) (pretty signed_prekey_id)) in
  match v with
  | None => merr InvalidSignedPreKeyId
  | Some b => mlift (rec_deserialize b)
  end.

Definition save_signed_pre_key (signed_prekey_id : N) (record : SignedPreKeyRecord)
    : M St SignalProtocolError unit :=
  let* b := mlift (rec_serialize record) in
  kv_protocol (kv_put (dict_signed_prekey identity) (pretty signed_prekey_id) b).

Definition count_signed_pre_keys : M St SignalProtocolError nat :=
  let* ks := kv_protocol (kv_list_keys (dict_signed_prekey identity)) in mok (length ks).

Definition max_signed_pre_key_id : M St SignalProtocolError (option N) :=
  let* ids := kv_protocol (list_keys_as_u32s (dict_signed_prekey identity)) in mok (list_max ids).

Definition next_signed_pre_key_id : M St SignalProtocolError N :=
  let* m := max_signed_pre_key_id in mok (next_id m).

(** [PreKeysStore]'s counts and latest ids. *)
Definition signed_pre_keys_count : M St SignalProtocolError nat := count_signed_pre_keys.
Definition signed_prekey_id : M St SignalProtocolError (option N) := max_signed_pre_key_id.
End signed.

(** ** Kyber prekeys ([kyber_pre_key_store.rs], [kyber_pre_key_store_ext.rs]) *)
Record KyberStored : Type := mkKyberStored { ky_record : bytes; is_last_resort : bool }.

Section kyber.
Context {St : Type} `{!KvBackend St} {KyberPreKeyRecord PublicKey : Type}
  `{!WireRecord KyberPreKeyRecord} `{!KeyBytes PublicKey} `{!Json KyberStored}.
Variable identity : IdentityType.

Definition store_envelope (id : N) (record : KyberPreKeyRecord) (last_resort : bool)
    : M St SignalProtocolError unit :=
  let* b := mlift (rec_serialize record) in
  backend_put_json_protocol (dict_kyber_prekey identity) (pretty id) (mkKyberStored b last_resort)
    "encode kyber envelope".

Definition load_envelope (id : N) : M St SignalProtocolError (option KyberStored) :=
  backend_get_json_protocol (dict_kyber_prekey identity) (pretty id) "decode kyber envelope".

(** [load_envelope(..)?.ok_or(InvalidKyberPreKeyId)?]. *)
Definition require_envelope (id : N) : M St SignalProtocolError KyberStored :=
  let* e := load_envelope id in
  match e with Some e => mok e | None => merr InvalidKyberPreKeyId end.

Definition get_kyber_pre_key (kyber_prekey_id : N) : M St SignalProtocolError KyberPreKeyRecord :=
  let* e := require_envelope kyber_prekey_id in mlift (rec_deserialize (ky_record e)).

Definition save_kyber_pre_key (kyber_prekey_id : N) (record : KyberPreKeyRecord)
    : M St SignalProtocolError unit := store_envelope kyber_prekey_id record false.

Definition store_last_resort_kyber_pre_key (kyber_prekey_id : N) (record : KyberPreKeyRecord)
    : M St SignalProtocolError unit := store_envelope kyber_prekey_id record true.

Definition meta_key (kyber_prekey_id ec_prekey_id : N) : string :=
  pretty kyber_prekey_id +:+ "." +:+ pretty ec_prekey_id.

Definition mark_kyber_pre_key_used (kyber_prekey_id ec_prekey_id : N) (base_key : PublicKey)
    : M St SignalProtocolError unit :=
  let* e := require_envelope kyber_prekey_id in
  if is_last_resort e then
    let dict := dict_kyber_meta identity in
    let key := meta_key kyber_prekey_id ec_prekey_id in
    let new_base_bytes := key_serialize base_key in
    let* prior := kv_protocol (kv_get dict key) in
    if bool_decide (prior = Some new_base_bytes) then merr (InvalidMessage "PreKey" "reused base key")
    else kv_protocol (kv_put dict key new_base_bytes)
  else kv_protocol (kv_delete (dict_kyber_prekey identity) (pretty kyber_prekey_id)).

Definition kyber_ids : M St SignalProtocolError (list N) :=
  kv_protocol (list_keys_as_u32s (dict_kyber_prekey identity)).

(** The loops over [ids] that load each envelope and keep the last-resort ones. *)
Fixpoint last_resort_ids (ids : list N) : M St SignalProtocolError (list (N * KyberStored)) :=
  match ids with
  | [] => mok []
  | id :: ids' =>
      let* e := load_envelope id in
      let* rest := last_resort_ids ids' in
      mok (match e with
           | Some e => if is_last_resort e then (id, e) :: rest else rest
           | None => rest
           end)
  end.

Definition count_kyber_pre_keys (last_resort_only : bool) : M St SignalProtocolError nat :=
  let* ids := kyber_ids in
  if last_resort_only then let* l := last_resort_ids ids in mok (length l) else mok (length ids).

Definition max_kyber_pre_key_id : M St SignalProtocolError (option N) :=
  let* ids := kyber_ids in mok (list_max ids).

Definition max_last_resort_kyber_pre_key_id : M St SignalProtocolError (option N) :=
  let* ids := kyber_ids in
  let* l := last_resort_ids ids in mok (list_max l.*1).

Definition next_pq_pre_key_id : M St SignalProtocolError N :=
  let* m := max_kyber_pre_key_id in mok (next_id m).

Definition kyber_pre_keys_count (last_resort : bool) : M St SignalProtocolError nat := count_kyber_pre_keys last_resort.
Definition last_resort_kyber_prekey_id : M St SignalProtocolError (option N) := max_last_resort_kyber_pre_key_id.

(** The records are deserialized as the loop meets them, so a record that does
    not decode ends the loop there. *)
Fixpoint load_last_resort_go (ids : list N) (out : list KyberPreKeyRecord)
    : M St SignalProtocolError (list KyberPreKeyRecord) :=
  match ids with
  | [] => mok out
  | id :: ids' =>
      let* e := load_envelope id in
      match e with
      | Some (mkKyberStored record true) =>
          let* r := mlift (rec_deserialize record) in load_last_resort_go ids' (out ++ [r])
      | _ => load_last_resort_go ids' out
      end
  end.

Definition load_last_resort_kyber_pre_keys : M St SignalProtocolError (list KyberPreKeyRecord) :=
  let* ids := kyber_ids in load_last_resort_go ids [].

Definition remove_kyber_pre_key (kyber_prekey_id : N) : M St SignalProtocolError unit :=
  kv_protocol (kv_delete (dict_kyber_prekey identity) (pretty kyber_prekey_id)).
End kyber.

(** ** Sender keys ([sender_key_store.rs]) *)
Section sender_keys.
Context {St : Type} `{!KvBackend St} {SenderKeyRecord Uuid : Type}
  `{!WireRecord SenderKeyRecord} `{!UuidText Uuid}.
Variable identity : IdentityType.

Definition store_sender_key (sender : ProtocolAddress) (distribution_id : Uuid) (record : SenderKeyRecord)
    : M St SignalProtocolError unit :=
  let* b := mlift (rec_serialize record) in
  kv_protocol (kv_put (dict_sender_key identity) (sender_key_key sender distribution_id) b).

Definition load_sender_key (sender : ProtocolAddress) (distribution_id : Uuid)
    : M St SignalProtocolError (option SenderKeyRecord) :=
  let* v := kv_protocol (kv_get (dict_sender_key identity) (sender_key_key sender distribution_id)) in
  match v with
  | Some b => let* r := mlift (rec_deserialize b) in mok (Some r)
  | None => mok None
  end.
End sender_keys.

(** ** Identities ([identity_key_store.rs]) *)
Inductive IdentityChange : Type := NewOrUnchanged | ReplacedExisting.
Definition from_changed (changed : bool) : IdentityChange :=
  if changed then ReplacedExisting else NewOrUnchanged.

Section identities.
Context {St : Type} `{!KvBackend St} {IdentityKey IdentityKeyPair : Type}
  `{!KeyBytes IdentityKey} `{!KeyBytes IdentityKeyPair}.
Variable identity : IdentityType.
Variable trust_new_identities : OnNewIdentity.

Definition get_identity_key_pair : M St SignalProtocolError IdentityKeyPair :=
  let key := state_key_identity_key_pair identity in
  let* v := kv_protocol (kv_get STATE_DICT key) in
  match v with
  | None => merr (InvalidState "get_identity_key_pair" ("no " +:+ key +:+ " stored"))
  | Some b => mlift (key_decode b)
  end.

Definition save_identity (address : ProtocolAddress) (k : IdentityKey)
    : M St SignalProtocolError IdentityChange :=
  let dict := dict_identity identity in
  let key := identity_key address in
  let new_bytes := key_serialize k in
  let* prior := kv_protocol (kv_get dict key) in
  let changed := match prior with Some old => negb (bool_decide (old = new_bytes)) | None => false end in
  kv_protocol (kv_put dict key new_bytes) ;*
  mok (from_changed changed).

Definition get_identity (address : ProtocolAddress) : M St SignalProtocolError (option IdentityKey) :=
  let* v := kv_protocol (kv_get (dict_identity identity) (identity_key address)) in
  match v with
  | Some b => let* k := mlift (key_decode b) in mok (Some k)
  | None => mok None
  end.

Definition is_trusted_identity (address : ProtocolAddress) (k : IdentityKey) : M St SignalProtocolError bool :=
  let* stored := get_identity address in
  match stored with
  | Some k' =>
      if decide (k' = k) then mok true
      else mok (match trust_new_identities with Trust => true | Reject => false end)
  | None => mok true
  end.
End identities.

(** ** Lemmas *)

Lemma list_max_None ids : list_max ids = None <-> ids = [].
Proof. by destruct ids. Qed.

Lemma list_max_Some ids m : list_max ids = Some m -> m ∈ ids /\ forall id, id ∈ ids -> (id <= m)%N.
Proof.
  revert m. induction ids as [|a ids IH]; [done|]. simpl. intros m [= <-].
  destruct (list_max ids) as [b|] eqn:Hb.
  - destruct (IH b eq_refl) as [Hin Hle]. split.
    + destruct (N.max_spec a b) as [[_ ->]|[_ ->]]; [by right|left].
    + intros id [->|Hid]%elem_of_cons; [lia|]. specialize (Hle id Hid). lia.
  - apply list_max_None in Hb as ->. split; [left|]. intros id. rewrite list_elem_of_singleton. by intros ->.
Qed.

Section kv_protocol.
Context {St : Type} `{KvLaws St}.

Lemma kv_protocol_get_inv d k (s s' : St) r :
  kv_protocol (kv_get d k) s = (r, s') ->
  kv_view s' = kv_view s /\
  match r with Ok v => v = kv_view s !! (d, k) | Err e => exists m, e = InvalidState "kv backend" m end.
Proof.
  intros (r0 & Hg & ->)%mmap_err_inv. apply kv_get_law in Hg as [Hv Hr]. split; [done|].
  destruct r0 as [v|e]; simpl; [by apply Hr|]. by eexists.
Qed.

Lemma kv_protocol_put_inv d k v (s s' : St) r :
  kv_protocol (kv_put d k v) s = (r, s') ->
  match r with
  | Ok _ => kv_view s' = <[(d, k) := v]> (kv_view s)
  | Err e => exists m, e = InvalidState "kv backend" m
  end.
Proof.
  intros (r0 & Hg & ->)%mmap_err_inv. destruct r0; simpl; [by apply kv_put_ok in Hg|by eexists].
Qed.

Lemma kv_protocol_delete_inv d k (s s' : St) r :
  kv_protocol (kv_delete d k) s = (r, s') ->
  match r with
  | Ok _ => kv_view s' = delete (d, k) (kv_view s)
  | Err e => exists m, e = InvalidState "kv backend" m
  end.
Proof.
  intros (r0 & Hg & ->)%mmap_err_inv. destruct r0; simpl; [by apply kv_delete_ok in Hg|by eexists].
Qed.

(** A decoded read: absent, decodable, or an [InvalidState]. *)
Lemma get_json_inv {T} `{!Json T} d k ctx (s s' : St) r :
  backend_get_json_protocol (T := T) d k ctx s = (r, s') ->
  kv_view s' = kv_view s /\
  match r with
  | Ok None => kv_view s !! (d, k) = None
  | Ok (Some x) => exists b, kv_view s !! (d, k) = Some b /\ from_slice b = Ok x
  | Err e => exists c m, e = InvalidState c m
  end.
Proof.
  unfold backend_get_json_protocol.
  intros [(v & s1 & Hg & Hm)|(e & Hg & ->)]%mbind_inv; apply kv_protocol_get_inv in Hg as [Hv Hr].
  - destruct v as [b|]; [|by injection Hm as <- <-].
    destruct (from_slice b) eqn:Hb; injection Hm as <- <-; (split; [done|]); eauto.
  - split; [done|]. destruct Hr as [m ->]. eauto.
Qed.

Lemma put_json_inv {T} `{!Json T} d k (x : T) ctx (s s' : St) u :
  backend_put_json_protocol d k x ctx s = (Ok u, s') ->
  exists b, to_vec x = Ok b /\ kv_view s' = <[(d, k) := b]> (kv_view s).
Proof.
  unfold backend_put_json_protocol. destruct (to_vec x) as [b|]; [|done].
  intros Hp%kv_protocol_put_inv. by exists b.
Qed.

Lemma list_ids_inv d (s s' : St) ids :
  kv_protocol (list_keys_as_u32s d) s = (Ok ids, s') ->
  kv_view s' = kv_view s /\
  forall id, (id <= u32_max)%N -> is_Some (kv_view s !! (d, pretty id)) -> id ∈ ids.
Proof.
  intros (r0 & Hl & Hr)%mmap_err_inv. destruct r0; [|done]. injection Hr as ->.
  apply mbind_inv_ok in Hl as (ks & s1 & Hk & Hm). injection Hm as <- <-.
  apply kv_list_keys_law in Hk as [Hv Hks]. destruct (Hks _ eq_refl) as [_ Hmem]. split; [done|].
  intros id Hid Hin. apply list_elem_of_omap. exists (pretty id). split; [by apply Hmem|].
  by apply parse_u32_pretty.
Qed.
End kv_protocol.

(** *** The bundle as a map *)
Lemma bundle_find_lookup id (l : list (N * bytes)) : bundle_find id l = (list_to_map l : gmap N bytes) !! id.
Proof.
  induction l as [|[rid b] l IH]; simpl; [by rewrite lookup_empty|].
  case_bool_decide as Hr; [subst; by rewrite lookup_insert_eq|]. by rewrite lookup_insert_ne.
Qed.

Lemma bundle_upsert_map id b (l : list (N * bytes)) :
  list_to_map (bundle_upsert id b l) = <[id := b]> (list_to_map l : gmap N bytes).
Proof.
  induction l as [|[rid b0] l IH]; [done|]. simpl. case_bool_decide as Hr; simpl.
  - subst. by rewrite insert_insert_eq.
  - rewrite IH. by apply insert_insert_ne.
Qed.

Lemma bundle_remove_map id (l : list (N * bytes)) :
  list_to_map (filter (fun '(rid, _) => rid <> id) l) = delete id (list_to_map l : gmap N bytes).
Proof.
  induction l as [|[rid b0] l IH]; [simpl; by rewrite delete_empty|]. rewrite filter_cons.
  simpl. destruct (decide (rid = id)) as [->|Hr].
  - rewrite decide_False by naive_solver. by rewrite IH, delete_insert_eq.
  - rewrite decide_True by done. simpl. rewrite IH. by rewrite delete_insert_ne.
Qed.

Section prekey_props.
Context {St : Type} `{KvLaws St} {PreKeyRecord : Type} `{WireRecordLaws PreKeyRecord}
  `{JsonLaws (list (N * bytes))}.
Variable identity : IdentityType.

(** The prekeys an account holds, as a map from id to serialized record. *)
Definition prekey_map (m : kv_map) : gmap N bytes :=
  match m !! (dict_prekey_bundle identity, PREKEY_BUNDLE_KEY) with
  | Some b => match from_slice b with Ok l => list_to_map l | Err _ => ∅ end
  | None => ∅
  end.

Lemma load_bundle_inv (s s' : St) r :
  load_bundle identity s = (r, s') ->
  kv_view s' = kv_view s /\
  match r with Ok l => list_to_map l = prekey_map (kv_view s) | Err e => exists c m, e = InvalidState c m end.
Proof.
  unfold load_bundle. intros [(v & s1 & Hg & Hm)|(e & Hg & ->)]%mbind_inv;
    apply get_json_inv in Hg as [Hv Hr]; [|done].
  injection Hm as <- <-. split; [done|]. unfold prekey_map. destruct v as [l|]; simpl.
  - destruct Hr as (b & -> & ->). done.
  - by rewrite Hr.
Qed.

Lemma save_bundle_inv l (s s' : St) u :
  save_bundle identity l s = (Ok u, s') -> prekey_map (kv_view s') = list_to_map l.
Proof.
  unfold save_bundle. intros (b & Hb & Hv)%put_json_inv. unfold prekey_map.
  by rewrite Hv, lookup_insert_eq, (json_roundtrip _ _ Hb).
Qed.

(** C27: the one-time prekey store is a map. Saving inserts or replaces one id,
    removing deletes it, reading looks it up (and only an id that is there can be
    read), so a saved prekey is read back as it was and a removed one never. *)
Theorem prekey_store_refines_map (s s' : St) id :
  (forall (r : PreKeyRecord) u, save_pre_key identity id r s = (Ok u, s') ->
     exists b, rec_serialize r = Ok b /\
       prekey_map (kv_view s') = <[id := b]> (prekey_map (kv_view s)) /\
       forall r' s2, get_pre_key identity id s' = (Ok r', s2) -> r' = r) /\
  (forall u, remove_pre_key identity id s = (Ok u, s') ->
     prekey_map (kv_view s') = delete id (prekey_map (kv_view s)) /\
     forall (r : PreKeyRecord) s2, get_pre_key identity id s' <> (Ok r, s2)) /\
  (forall r : result PreKeyRecord SignalProtocolError, get_pre_key identity id s = (r, s') ->
     kv_view s' = kv_view s /\
     match prekey_map (kv_view s) !! id with
     | Some b => r = rec_deserialize b \/ exists c m, r = Err (InvalidState c m)
     | None => r = Err InvalidPreKeyId \/ exists c m, r = Err (InvalidState c m)
     end).
Proof.
  assert (Hget : forall (s s' : St) (r : result PreKeyRecord SignalProtocolError),
    get_pre_key identity id s = (r, s') ->
     kv_view s' = kv_view s /\
     match prekey_map (kv_view s) !! id with
     | Some b => r = rec_deserialize b \/ exists c m, r = Err (InvalidState c m)
     | None => r = Err InvalidPreKeyId \/ exists c m, r = Err (InvalidState c m)
     end).
  { intros t t' r. unfold get_pre_key. intros [(l & s1 & Hl & Hm)|(e & Hl & ->)]%mbind_inv;
      apply load_bundle_inv in Hl as [Hv Hr].
    - rewrite bundle_find_lookup, Hr in Hm.
      destruct (prekey_map (kv_view t) !! id); injection Hm as <- <-; auto.
    - destruct Hr as (c & m & ->). split; [done|]. case_match; right; eauto. }
  split; [|split; [|by apply Hget]].
  - intros r u Hs. unfold save_pre_key in Hs. unfold mlift at 1 in Hs. unfold mbind at 1 in Hs.
    destruct (rec_serialize r) as [b|] eqn:Hb; [|done]. exists b. split; [done|].
    apply mbind_inv_ok in Hs as (l & s1 & Hl & Hs). apply load_bundle_inv in Hl as [Hv Hl].
    apply save_bundle_inv in Hs. rewrite bundle_upsert_map, Hl in Hs. split; [done|].
    intros r' s2 Hg. apply Hget in Hg as [_ Hg]. rewrite Hs, lookup_insert_eq in Hg.
    destruct Hg as [Hg|(c & m & [=])]. rewrite (rec_roundtrip _ _ Hb) in Hg. by injection Hg.
  - intros u Hs. unfold remove_pre_key in Hs.
    apply mbind_inv_ok in Hs as (l & s1 & Hl & Hs). apply load_bundle_inv in Hl as [Hv Hl].
    apply save_bundle_inv in Hs. rewrite bundle_remove_map, Hl in Hs. split; [done|].
    intros r s2 Hg. apply Hget in Hg as [_ Hg]. rewrite Hs, lookup_delete_eq in Hg.
    destruct Hg as [[=]|(c & m & [=])].
Qed.
End prekey_props.

Section next_ids.
Context {St : Type} `{KvLaws St} `{JsonLaws (list (N * bytes))}.
Variable identity : IdentityType.

Lemma next_id_list_max ids :
  (forall id, id ∈ ids -> (id < u32_max)%N) ->
  (next_id (list_max ids) ∉ ids) /\ (1 <= next_id (list_max ids) <= u32_max)%N.
Proof.
  intros Hids. unfold next_id. destruct (list_max ids) as [m|] eqn:Hm.
  - apply list_max_Some in Hm as [Hin Hle]. specialize (Hids m Hin). unfold u32_max, wrap32 in *.
    rewrite N.mod_small by lia. split; [|lia]. intros Hn. apply Hle in Hn. lia.
  - apply list_max_None in Hm as ->. split; [apply not_elem_of_nil|]. unfold u32_max. lia.
Qed.

(** C28: the next-id queries hand out fresh ids. While no stored id has reached
    [u32::MAX], the id they return is between 1 and [u32::MAX] and no prekey of
    that kind is stored under it; at [u32::MAX] the increment wraps to 0. *)
Theorem next_ids_fresh (s s' : St) n :
  (next_pre_key_id identity s = (Ok n, s') ->
     (forall id, is_Some (prekey_map identity (kv_view s) !! id) -> (id < u32_max)%N) ->
     prekey_map identity (kv_view s) !! n = None /\ (1 <= n <= u32_max)%N) /\
  (next_signed_pre_key_id identity s = (Ok n, s') ->
     (forall k id, is_Some (kv_view s !! (dict_signed_prekey identity, k)) -> parse_u32 k = Some id ->
        (id < u32_max)%N) ->
     kv_view s !! (dict_signed_prekey identity, pretty n) = None /\ (1 <= n <= u32_max)%N) /\
  (next_pq_pre_key_id identity s = (Ok n, s') ->
     (forall k id, is_Some (kv_view s !! (dict_kyber_prekey identity, k)) -> parse_u32 k = Some id ->
        (id < u32_max)%N) ->
     kv_view s !! (dict_kyber_prekey identity, pretty n) = None /\ (1 <= n <= u32_max)%N) /\
  next_id (Some u32_max) = 0%N.
Proof.
  assert (Hdict : forall d m s1,
    mbind (kv_protocol (list_keys_as_u32s d)) (fun ids => mok (list_max ids)) s = (Ok m, s1) ->
    (forall k id, is_Some (kv_view s !! (d, k)) -> parse_u32 k = Some id -> (id < u32_max)%N) ->
    kv_view s !! (d, pretty (next_id m)) = None /\ (1 <= next_id m <= u32_max)%N).
  { intros d m s1 Hr Hb. apply mbind_inv_ok in Hr as (ids & s2 & Hl & [= <- _]).
    pose proof Hl as Hl2. apply list_ids_inv in Hl as [Hv Hall].
    apply mmap_err_inv in Hl2 as (r0 & Hl2 & Hr0). destruct r0; [|done]. injection Hr0 as ->.
    apply mbind_inv_ok in Hl2 as (ks & s3 & Hk & Hm). injection Hm as <- _.
    apply kv_list_keys_law in Hk as [_ Hks]. destruct (Hks _ eq_refl) as [_ Hmem].
    destruct (next_id_list_max (omap parse_u32 ks)) as [Hn Hrange].
    { intros id (k & Hk & Hp)%list_elem_of_omap. apply Hmem in Hk. by eapply Hb. }
    split; [|done]. apply eq_None_not_Some. intros Hin. apply Hn. apply Hall; [lia|done]. }
  split; [|split; [|split; [|done]]].
  - unfold next_pre_key_id, max_pre_key_id. intros Hr Hb.
    apply mbind_inv_ok in Hr as (m & s1 & Hr & [= <- _]).
    apply mbind_inv_ok in Hr as (l & s2 & Hl & [= <- _]). apply load_bundle_inv in Hl as [_ Hl].
    rewrite <- Hl in *. destruct (next_id_list_max l.*1) as [Hn Hrange].
    { intros id Hin. apply Hb. destruct ((list_to_map l : gmap N bytes) !! id) eqn:Hid; [by eexists|].
      by apply not_elem_of_list_to_map in Hid. }
    split; [|done]. by apply not_elem_of_list_to_map.
  - intros Hr Hb. apply mbind_inv_ok in Hr as (m & s1 & Hr & [= <- _]). by eapply Hdict.
  - intros Hr Hb. apply mbind_inv_ok in Hr as (m & s1 & Hr & [= <- _]). by eapply Hdict.
Qed.
End next_ids.

Section kyber_props.
Context {St : Type} `{KvLaws St} {KyberPreKeyRecord PublicKey : Type}
  `{WireRecordLaws KyberPreKeyRecord} `{KeyBytesLaws PublicKey} `{JsonLaws KyberStored}.
Variable identity : IdentityType.

Lemma require_envelope_inv id (s s' : St) r :
  require_envelope identity id s = (r, s') ->
  kv_view s' = kv_view s /\
  match r with
  | Ok e => exists b, kv_view s !! (dict_kyber_prekey identity, pretty id) = Some b /\ from_slice b = Ok e
  | Err InvalidKyberPreKeyId => kv_view s !! (dict_kyber_prekey identity, pretty id) = None
  | Err e => exists c m, e = InvalidState c m
  end.
Proof.
  unfold require_envelope, load_envelope.
  intros [(v & s1 & Hg & Hm)|(e & Hg & ->)]%mbind_inv; apply get_json_inv in Hg as [Hv Hr].
  - destruct v as [e|]; injection Hm as <- <-; done.
  - split; [done|]. destruct Hr as (c & m & ->). eauto.
Qed.

Lemma meta_not_prekey i : dict_kyber_meta i <> dict_kyber_prekey i.
Proof. by destruct i. Qed.

Lemma mark_last_resort_inv id ec (k : PublicKey) (s s' : St) r b e :
  kv_view s !! (dict_kyber_prekey identity, pretty id) = Some b ->
  from_slice b = Ok e -> is_last_resort e = true ->
  mark_kyber_pre_key_used identity id ec k s = (r, s') ->
  match r with
  | Ok _ => kv_view s !! (dict_kyber_meta identity, meta_key id ec) <> Some (key_serialize k) /\
      kv_view s' = <[(dict_kyber_meta identity, meta_key id ec) := key_serialize k]> (kv_view s)
  | Err e' => e' = InvalidMessage "PreKey" "reused base key" /\
      kv_view s !! (dict_kyber_meta identity, meta_key id ec) = Some (key_serialize k) \/
      exists c m, e' = InvalidState c m
  end.
Proof.
  intros Hb He Hlr. unfold mark_kyber_pre_key_used.
  intros [(e1 & s1 & Hq & Hm)|(x & Hq & ->)]%mbind_inv; apply require_envelope_inv in Hq as [Hv Hr].
  2:{ destruct x; try (by destruct Hr as (c & m & [=])); [|by rewrite Hb in Hr].
      right. eauto. }
  destruct Hr as (b1 & Hb1 & He1). rewrite Hb in Hb1. injection Hb1 as <-. rewrite He in He1.
  injection He1 as <-. rewrite Hlr in Hm.
  apply mbind_inv in Hm as [(prior & s2 & Hg & Hm)|(x & Hg & ->)]; apply kv_protocol_get_inv in Hg as [Hv2 Hr].
  2:{ right. destruct Hr as [m ->]. eauto. }
  subst prior. rewrite Hv in *. case_bool_decide as Hp.
  - injection Hm as <- <-. left. done.
  - apply kv_protocol_put_inv in Hm. destruct r as [u|x].
    + rewrite Hm, Hv2. done.
    + right. destruct Hm as [m ->]. eauto.
Qed.

(** C29: using a Kyber prekey. Marking a one-time prekey deletes its record, so it
    can never be served again; marking a last-resort prekey keeps it and records
    the base key, and the very next use of the same (kyber, ec, base key) triple
    is refused. *)
Theorem kyber_mark_used_effect id ec (k : PublicKey) (s s1 s2 : St) u :
  mark_kyber_pre_key_used identity id ec k s = (Ok u, s1) ->
  exists b e, kv_view s !! (dict_kyber_prekey identity, pretty id) = Some b /\ from_slice b = Ok e /\
  if is_last_resort e then
    kv_view s1 !! (dict_kyber_prekey identity, pretty id) = Some b /\
    (forall r, mark_kyber_pre_key_used identity id ec k s1 = (r, s2) ->
       r = Err (InvalidMessage "PreKey" "reused base key") \/ exists c m, r = Err (InvalidState c m))
  else
    kv_view s1 = delete (dict_kyber_prekey identity, pretty id) (kv_view s) /\
    (forall r : result KyberPreKeyRecord SignalProtocolError, get_kyber_pre_key identity id s1 = (r, s2) ->
       r = Err InvalidKyberPreKeyId \/ exists c m, r = Err (InvalidState c m)).
Proof.
  intros Hmark. pose proof Hmark as Hm. unfold mark_kyber_pre_key_used in Hm.
  apply mbind_inv_ok in Hm as (e & s0 & Hq & Hm). apply require_envelope_inv in Hq as [Hv (b & Hb & He)].
  exists b, e. split; [done|]. split; [done|]. destruct (is_last_resort e) eqn:Hlr.
  - apply (mark_last_resort_inv _ _ _ _ _ _ b e) in Hmark as [_ Hv1]; [|done..].
    assert (Hb1 : kv_view s1 !! (dict_kyber_prekey identity, pretty id) = Some b).
    { rewrite Hv1, lookup_insert_ne; [done|]. intros Hd%(f_equal fst). by apply (meta_not_prekey identity). }
    split; [done|]. intros r Hr. apply (mark_last_resort_inv _ _ _ _ _ _ b e) in Hr; [|done..].
    destruct r as [u'|x].
    + destruct Hr as [Hne _]. exfalso. apply Hne. rewrite Hv1. apply lookup_insert_eq.
    + destruct Hr as [[-> _]|(c & m & ->)]; eauto.
  - apply kv_protocol_delete_inv in Hm. rewrite Hv in Hm. split; [done|].
    intros r. unfold get_kyber_pre_key. intros [(e1 & s3 & Hq & _)|(x & Hq & ->)]%mbind_inv;
      apply require_envelope_inv in Hq as [_ Hr].
    + destruct Hr as (b1 & Hb1 & _). by rewrite Hm, lookup_delete_eq in Hb1.
    + destruct x; try (by destruct Hr as (c & m & [=])); eauto.
Qed.

(** the replay record of a last-resort prekey holds the last base key only.
    After uses with base keys A then B of one (kyber, ec) pair, a replay of A is
    not recognised: the call is never refused as a reused base key. *)
Theorem kyber_replay_of_older_base_key id ec (ka kb : PublicKey) (s s1 s2 s3 : St) ua ub r b e :
  kv_view s !! (dict_kyber_prekey identity, pretty id) = Some b ->
  from_slice b = Ok e -> is_last_resort e = true -> ka <> kb ->
  mark_kyber_pre_key_used identity id ec ka s = (Ok ua, s1) ->
  mark_kyber_pre_key_used identity id ec kb s1 = (Ok ub, s2) ->
  mark_kyber_pre_key_used identity id ec ka s2 = (r, s3) ->
  r = Ok tt \/ exists c m, r = Err (InvalidState c m).
Proof.
  intros Hb He Hlr Hne Ha Hbk Hr.
  assert (Hkeep : forall k (t t' : St) u, kv_view t !! (dict_kyber_prekey identity, pretty id) = Some b ->
    mark_kyber_pre_key_used identity id ec (k : PublicKey) t = (Ok u, t') ->
    kv_view t' !! (dict_kyber_prekey identity, pretty id) = Some b /\
    kv_view t' !! (dict_kyber_meta identity, meta_key id ec) = Some (key_serialize k)).
  { intros k t t' u Ht Hm. apply (mark_last_resort_inv _ _ _ _ _ _ b e) in Hm as [_ ->]; [|done..].
    split; [|apply lookup_insert_eq]. rewrite lookup_insert_ne; [done|].
    intros Hd%(f_equal fst). by apply (meta_not_prekey identity). }
  apply Hkeep in Ha as [Hb1 _]; [|done]. apply Hkeep in Hbk as [Hb2 Hmeta]; [|done].
  apply (mark_last_resort_inv _ _ _ _ _ _ b e) in Hr; [|done..]. destruct r as [[]|x]; [by left|].
  right. destruct Hr as [[_ Hm]|(c & m & ->)]; [|eauto].
  rewrite Hmeta in Hm. injection Hm as Hm. by apply key_serialize_inj in Hm.
Qed.
End kyber_props.

Section identity_props.
Context {St : Type} `{KvLaws St} {IdentityKey : Type} `{KeyBytesLaws IdentityKey}.
Variable identity : IdentityType.
Variable trust_new_identities : OnNewIdentity.

(** C30: trust on first use. An unknown address is trusted; a known one is trusted
    with its stored key, and with a different key exactly under the [Trust]
    policy. Saving records the key, reports a replacement exactly when a
    different key was stored, and the saved key is trusted from then on under
    either policy. *)
Theorem identity_trust_on_first_use (a : ProtocolAddress) (k : IdentityKey) (s s1 : St) :
  (forall t, is_trusted_identity identity trust_new_identities a k s = (Ok t, s1) ->
     kv_view s1 = kv_view s /\
     match kv_view s !! (dict_identity identity, identity_key a) with
     | None => t = true
     | Some b => exists k', key_decode b = Ok k' /\ (t = true <-> k' = k \/ trust_new_identities = Trust)
     end) /\
  (forall c, save_identity identity a k s = (Ok c, s1) ->
     kv_view s1 = <[(dict_identity identity, identity_key a) := key_serialize k]> (kv_view s) /\
     (c = ReplacedExisting <->
        exists b, kv_view s !! (dict_identity identity, identity_key a) = Some b /\ b <> key_serialize k) /\
     (forall k' t s2, is_trusted_identity identity trust_new_identities a k' s1 = (Ok t, s2) ->
        t = true <-> k' = k \/ trust_new_identities = Trust)).
Proof.
  assert (Htrust : forall (k : IdentityKey) (s s1 : St) t,
     is_trusted_identity identity trust_new_identities a k s = (Ok t, s1) ->
     kv_view s1 = kv_view s /\
     match kv_view s !! (dict_identity identity, identity_key a) with
     | None => t = true
     | Some b => exists k', key_decode b = Ok k' /\ (t = true <-> k' = k \/ trust_new_identities = Trust)
     end).
  { intros q z z1 t Hr. unfold is_trusted_identity, get_identity in Hr.
    apply mbind_inv_ok in Hr as (stored & z2 & Hg & Hm).
    apply mbind_inv_ok in Hg as (v & z3 & Hg & Hd). apply kv_protocol_get_inv in Hg as [Hv ->].
    destruct (kv_view z !! _) as [b|] eqn:Hb.
    - unfold mlift, mbind in Hd. destruct (key_decode b) as [k'|] eqn:Hdec; [|done]. injection Hd as <- <-.
      destruct (decide (k' = q)) as [->|Hne].
      + injection Hm as <- <-. split; [done|]. exists q. naive_solver.
      + injection Hm as <- <-. split; [done|]. exists k'. split; [done|].
        destruct trust_new_identities; naive_solver.
    - injection Hd as <- <-. injection Hm as <- <-. done. }
  split; [intros t; apply Htrust|].
  intros c Hs. unfold save_identity in Hs. apply mbind_inv_ok in Hs as (prior & s2 & Hg & Hm).
  apply kv_protocol_get_inv in Hg as [Hv ->]. apply mbind_inv_ok in Hm as (u & s3 & Hp & Hm).
  apply kv_protocol_put_inv in Hp. injection Hm as <- <-. rewrite Hv in Hp. split; [done|]. split.
  - destruct (kv_view s !! _) as [b|]; [|naive_solver]. case_bool_decide; simpl; naive_solver.
  - intros k' t s4 Ht. apply Htrust in Ht as [_ Ht]. rewrite Hp, lookup_insert_eq in Ht.
    destruct Ht as (k2 & Hdec & Ht). rewrite key_roundtrip in Hdec. injection Hdec as ->.
    rewrite Ht. naive_solver.
Qed.
End identity_props.
