(* ===== verification/Sessions.v ===== *)
(** * The store and its session cache ([lib.rs], [protocol/session_store.rs],
    [protocol/session_store_ext.rs])

    Ratchet state is kept in RAM: [store_session] touches only the cache and the
    dirty set, [flush_sessions] persists the dirty records, bundled per address.
    The session store refines a map from addresses to records
    ([sessions_refine_map]), and a flush makes exactly the dirty part of it
    durable ([flush_sessions_durable]). *)
From S2P Require Import Prelude Codec Kv Buffering Protocol.

(** ** The store *)
Abbreviation SessionKey := (IdentityType * string * N)%type.
Abbreviation SessionBundle := (gmap N bytes).

Record PddbStore (St SessionRecord : Type) : Type := mkStore {
  backend : St;
  session_cache : gmap SessionKey SessionRecord;
  session_dirty : gset SessionKey;
  trust_new_identities : OnNewIdentity;
  cache_poisoned : bool;
  dirty_poisoned : bool
}.
Arguments mkStore {St SessionRecord} _ _ _ _ _ _.
Arguments backend {St SessionRecord} _.
Arguments session_cache {St SessionRecord} _.
Arguments session_dirty {St SessionRecord} _.
Arguments trust_new_identities {St SessionRecord} _.
Arguments cache_poisoned {St SessionRecord} _.
Arguments dirty_poisoned {St SessionRecord} _.

(** [backend] and [buffering] of the Rust struct: either a plain backend, or the
    buffering wrapper that is also the backend. *)
Inductive StoreBackend (St : Type) : Type :=
| Plain (s : St)
| Buffered (b : BufferingBackend St).
Arguments Plain {St} s.
Arguments Buffered {St} b.

Section store_backend.
Context `{HashOrder} {St : Type} `{!KvBackend St}.

Definition on_store_backend {A} (f : M St Error A) (g : M (BufferingBackend St) Error A)
    : M (StoreBackend St) Error A :=
  fun sb => match sb with
            | Plain s => let '(r, s') := f s in (r, Plain s')
            | Buffered b => let '(r, b') := g b in (r, Buffered b')
            end.

#[global] Instance store_backend : KvBackend (StoreBackend St) := {|
  kv_get d k := on_store_backend (kv_get d k) (kv_get d k);
  kv_put d k v := on_store_backend (kv_put d k v) (kv_put d k v);
  kv_put_batch es := on_store_backend (kv_put_batch es) (kv_put_batch es);
  kv_delete d k := on_store_backend (kv_delete d k) (kv_delete d k);
  kv_delete_dict d := on_store_backend (kv_delete_dict d) (kv_delete_dict d);
  kv_list_keys d := on_store_backend (kv_list_keys d) (kv_list_keys d)
|}.

Definition store_backend_view `{!KvLaws St} (sb : StoreBackend St) : kv_map :=
  match sb with Plain s => kv_view s | Buffered b => kv_view b end.

Ltac store_case H :=
  unfold kv_get, kv_put, kv_put_batch, kv_delete, kv_delete_dict, kv_list_keys, store_backend, on_store_backend in H;
  match type of H with (let '(_, _) := ?m in _) = _ => destruct m eqn:?; simplify_eq; unfold store_backend_view end.

#[global] Program Instance store_backend_laws `{!KvLaws St} : KvLaws (StoreBackend St) := {|
  kv_view := store_backend_view
|}.
Next Obligation. intros ? s d k r s' Hr. destruct s; store_case Hr; by eapply kv_get_law. Qed.
Next Obligation. intros ? s d k v u s' Hr. destruct s; store_case Hr; by eapply kv_put_ok. Qed.
Next Obligation. intros ? s d k v e s' Hr. destruct s; store_case Hr; by eapply kv_put_err. Qed.
Next Obligation. intros ? s es u s' Hr. destruct s; store_case Hr; by eapply kv_put_batch_ok. Qed.
Next Obligation. intros ? s es e s' Hr. destruct s; store_case Hr; by eapply kv_put_batch_err. Qed.
Next Obligation. intros ? s d k u s' Hr. destruct s; store_case Hr; by eapply kv_delete_ok. Qed.
Next Obligation. intros ? s d k e s' Hr. destruct s; store_case Hr; by eapply kv_delete_err. Qed.
Next Obligation. intros ? s d u s' Hr. destruct s; store_case Hr; by eapply kv_delete_dict_ok. Qed.
Next Obligation. intros ? s d e s' Hr. destruct s; store_case Hr; by eapply kv_delete_dict_err. Qed.
Next Obligation. intros ? s d r s' Hr. destruct s; store_case Hr; by eapply kv_list_keys_law. Qed.

(** [begin_send_batch]: [Some] when a batch was opened, [None] without buffering. *)
Definition store_begin_batch : M (StoreBackend St) Error bool :=
  fun sb => match sb with
            | Plain _ => (Ok false, sb)
            | Buffered b => match begin_batch b with
                            | (Ok _, b') => (Ok true, Buffered b')
                            | (Err e, b') => (Err e, Buffered b')
                            end
            end.

Definition is_send_batching (sb : StoreBackend St) : bool :=
  match sb with Plain _ => false | Buffered b => is_batching b end.
End store_backend.

(** ** What the session store uses of bincode and libsignal-service *)
Class Bincode (T : Type) : Type := {
  bincode_serialize : T -> result bytes string;
  bincode_deserialize : bytes -> result T string
}.
Class BincodeLaws (T : Type) `{!Bincode T} : Prop :=
  bincode_roundtrip x b : bincode_serialize x = Ok b -> bincode_deserialize b = Ok x.

(** The two renderings of a [ServiceId]. *)
Class ServiceIdText (ServiceId : Type) : Type := {
  raw_uuid_string : ServiceId -> string;
  service_id_string : ServiceId -> string
}.
(** [Display for SignalProtocolError], [DeviceId::try_from], [DEFAULT_DEVICE_ID]. *)
Class SignalMisc : Type := {
  protocol_error_to_string : SignalProtocolError -> string;
  device_id_valid : N -> bool;
  DEFAULT_DEVICE_ID : N
}.

(** ** Bundles *)
Definition SESSION_BUNDLE_VERSION_BINCODE_V1 : byte := x01.

Section bundles.
Context `{!Bincode SessionBundle} `{!Json SessionBundle}.

Definition serialize_session_bundle (bundle : SessionBundle) : result bytes Error :=
  match bincode_serialize bundle with
  | Err e => Err (Encode e)
  | Ok body => Ok (SESSION_BUNDLE_VERSION_BINCODE_V1 :: body)
  end.

Definition deserialize_session_bundle (b : bytes) : result SessionBundle Error :=
  match b with
  | v :: body =>
      if bool_decide (v = SESSION_BUNDLE_VERSION_BINCODE_V1)
      then map_err Decode (bincode_deserialize body)
      else map_err Decode (from_slice b)
  | [] => map_err Decode (from_slice b)
  end.

Context {St : Type} `{!KvBackend St}.

Definition backend_get_session_bundle (dict key : string) : M St Error (option SessionBundle) :=
  let* v := kv_get dict key in
  match v with
  | Some b => let* x := mlift (deserialize_session_bundle b) in mok (Some x)
  | None => mok None
  end.

Definition backend_put_session_bundle (dict key : string) (bundle : SessionBundle) : M St Error unit :=
  let* b := mlift (serialize_session_bundle bundle) in kv_put dict key b.

Definition backend_get_session_bundle_protocol (dict key : string)
    : M St SignalProtocolError (option SessionBundle) :=
  let* v := kv_protocol (kv_get dict key) in
  match v with
  | Some b =>
      match deserialize_session_bundle b with
      | Ok x => mok (Some x)
      | Err e => merr (InvalidState "decode session bundle" (error_to_string e))
      end
  | None => mok None
  end.

Definition backend_put_session_bundle_protocol (dict key : string) (bundle : SessionBundle)
    : M St SignalProtocolError unit :=
  match serialize_session_bundle bundle with
  | Err e => merr (InvalidState "encode session bundle" (error_to_string e))
  | Ok b => kv_protocol (kv_put dict key b)
  end.
End bundles.

(** ** The session stores *)
Section sessions.
Context `{HashOrder} `{SignalMisc} {St SessionRecord ServiceId : Type} `{!KvBackend St}
  `{!WireRecord SessionRecord} `{!Bincode SessionBundle} `{!Json SessionBundle} `{!ServiceIdText ServiceId}.
Abbreviation P := (PddbStore St SessionRecord).

Definition store_new (s : St) (t : OnNewIdentity) : P := mkStore s ∅ ∅ t false false.

Definition set_backend (s : St) (p : P) : P :=
  mkStore s (session_cache p) (session_dirty p) (trust_new_identities p) (cache_poisoned p) (dirty_poisoned p).
Definition set_cache (c : gmap SessionKey SessionRecord) (p : P) : P :=
  mkStore (backend p) c (session_dirty p) (trust_new_identities p) (cache_poisoned p) (dirty_poisoned p).
Definition set_dirty (d : gset SessionKey) (p : P) : P :=
  mkStore (backend p) (session_cache p) d (trust_new_identities p) (cache_poisoned p) (dirty_poisoned p).

Definition on_backend {Er A} (m : M St Er A) : M P Er A := zoom backend set_backend m.

Definition session_cache_len (p : P) : nat := if cache_poisoned p then 0 else size (session_cache p).
Definition session_dirty_len (p : P) : nat := if dirty_poisoned p then 0 else size (session_dirty p).

(** The two locks, with the protocol stores' error. *)
Definition lock_cache : M P SignalProtocolError (gmap SessionKey SessionRecord) :=
  fun p => if cache_poisoned p then (Err (InvalidState "session cache" "poisoned"), p)
           else (Ok (session_cache p), p).
Definition lock_dirty : M P SignalProtocolError (gset SessionKey) :=
  fun p => if dirty_poisoned p then (Err (InvalidState "session dirty" "poisoned"), p)
           else (Ok (session_dirty p), p).
Definition mmodify {Er} (f : P -> P) : M P Er unit := fun p => (Ok tt, f p).

Definition session_key (i : IdentityType) (a : ProtocolAddress) : SessionKey := (i, name a, device_id a).

(** One record of the bundle into the cache, unless it is there already. *)
Definition populate (i : IdentityType) (nm : string) (e : N * bytes) : M P SignalProtocolError unit :=
  fun p =>
    let k := (i, nm, e.1) in
    match session_cache p !! k with
    | Some _ => (Ok tt, p)
    | None => (let* r := mlift (rec_deserialize e.2) in
               mmodify (set_cache (<[k := r]> (session_cache p)))) p
    end.

Definition load_session (i : IdentityType) (a : ProtocolAddress)
    : M P SignalProtocolError (option SessionRecord) :=
  let key := session_key i a in
  let* cache := lock_cache in
  match cache !! key with
  | Some r => mok (Some r)
  | None =>
      let* bundle := on_backend (backend_get_session_bundle_protocol (dict_session i) (name a)) in
      match bundle with
      | None => mok None
      | Some bundle =>
          let* _c := lock_cache in
          mfor (hash_iter bundle) (populate i (name a)) ;*
          match bundle !! device_id a with
          | Some ser => let* r := mlift (rec_deserialize ser) in mok (Some r)
          | None => mok None
          end
      end
  end.

Definition store_session (i : IdentityType) (a : ProtocolAddress) (record : SessionRecord)
    : M P SignalProtocolError unit :=
  let key := session_key i a in
  let* cache := lock_cache in
  mmodify (set_cache (<[key := record]> cache)) ;*
  (let* dirty := lock_dirty in
   mmodify (set_dirty ({[ key ]} ∪ dirty))).

(** *** [session_store_ext.rs] *)

Definition cached_devices (i : IdentityType) (uuid : string) (cache : gmap SessionKey SessionRecord) : list N :=
  omap (fun '(i', addr, dev) =>
          if bool_decide (i' = i /\ addr = uuid /\ dev <> DEFAULT_DEVICE_ID) then Some dev else None)
       (hash_keys cache).

(** [sort_unstable] then [dedup]. *)
Fixpoint dedup_sorted (l : list N) : list N :=
  match l with
  | x :: (y :: _) as r => if bool_decide (x = y) then dedup_sorted r else x :: dedup_sorted r
  | _ => l
  end.

Definition get_sub_device_sessions (i : IdentityType) (nm : ServiceId) : M P SignalProtocolError (list N) :=
  let uuid := raw_uuid_string nm in
  let* cache := lock_cache in
  let* bundle := on_backend (backend_get_session_bundle_protocol (dict_session i) uuid) in
  let persisted := match bundle with
                   | Some b => filter (fun d => d <> DEFAULT_DEVICE_ID) (hash_keys b)
                   | None => []
                   end in
  let ids := dedup_sorted (merge_sort N.le (cached_devices i uuid cache ++ persisted)) in
  mok (filter (fun d => device_id_valid d = true) ids).

Definition delete_session (i : IdentityType) (a : ProtocolAddress) : M P SignalProtocolError unit :=
  let key := session_key i a in
  let* cache := lock_cache in
  mmodify (set_cache (delete key cache)) ;*
  (let* dirty := lock_dirty in
   mmodify (set_dirty (dirty ∖ {[ key ]})) ;*
   (let* bundle := on_backend (backend_get_session_bundle_protocol (dict_session i) (name a)) in
    match bundle with
    | None => mok tt
    | Some b =>
        match b !! device_id a with
        | None => mok tt
        | Some _ =>
            let b' := delete (device_id a) b in
            if decide (b' = ∅) then on_backend (kv_protocol (kv_delete (dict_session i) (name a)))
            else on_backend (backend_put_session_bundle_protocol (dict_session i) (name a) b')
        end
    end)).

(** [cache.retain(..)]: the entries of the address go, their devices are noted,
    their keys leave the dirty set. *)
Definition of_address (i : IdentityType) (uuid : string) (k : SessionKey) : Prop := k.1 = (i, uuid).

#[global] Instance of_address_dec i uuid k : Decision (of_address i uuid k).
Proof. unfold of_address. apply _. Defined.

Definition delete_all_sessions (i : IdentityType) (address : ServiceId) : M P SignalProtocolError nat :=
  let uuid := raw_uuid_string address in
  let* cache := lock_cache in
  let* dirty := lock_dirty in
  let dropped := filter (fun '(k, _) => of_address i uuid k) cache in
  let affected : gset N := set_map snd (dom dropped) in
  mmodify (fun p => set_dirty (dirty ∖ dom dropped)
                      (set_cache (filter (fun '(k, _) => ~ of_address i uuid k) cache) p)) ;*
  (let* bundle := on_backend (backend_get_session_bundle_protocol (dict_session i) uuid) in
   match bundle with
   | None => mok (size affected)
   | Some b =>
       on_backend (kv_protocol (kv_delete (dict_session i) uuid)) ;*
       mok (size (affected ∪ dom b))
   end).

(** *** [flush_sessions] *)
Abbreviation Groups := (gmap (IdentityType * string) (list (N * bytes))).

(** Dirty keys grouped by address, in the dirty set's iteration order; a key
    with no cached record is skipped, a record that does not serialize ends the
    flush before anything is written. *)
Fixpoint group_dirty (cache : gmap SessionKey SessionRecord) (keys : list SessionKey) (groups : Groups)
    : result Groups Error :=
  match keys with
  | [] => Ok groups
  | key :: keys' =>
      match cache !! key with
      | None => group_dirty cache keys' groups
      | Some record =>
          match rec_serialize record with
          | Err e => Err (Encode (protocol_error_to_string e))
          | Ok b =>
              let l := default [] (groups !! key.1) in
              group_dirty cache keys' (<[key.1 := l ++ [(key.2, b)]]> groups)
          end
      end
  end.

Definition insert_devices (entries : list (N * bytes)) (b : SessionBundle) : SessionBundle :=
  foldl (fun b '(dev, ser) => <[dev := ser]> b) b entries.

(** One address: read the bundle, change the dirty devices, write it back. *)
Definition flush_group (g : IdentityType * string * list (N * bytes)) : M St Error nat :=
  let '((i, nm), entries) := g in
  let* bundle := backend_get_session_bundle (dict_session i) nm in
  backend_put_session_bundle (dict_session i) nm (insert_devices entries (default ∅ bundle)) ;*
  mok (length entries).

Fixpoint flush_groups (gs : list (IdentityType * string * list (N * bytes))) (written : nat) : M St Error nat :=
  match gs with
  | [] => mok written
  | g :: gs' => let* n := flush_group g in flush_groups gs' (written + n)
  end.

Definition dirty_keys (d : gset SessionKey) : list SessionKey := hash_keys (gset_to_gmap tt d).

Definition flush_sessions : M P Error nat :=
  fun p =>
    if dirty_poisoned p then (Err (Backend "session dirty mutex poisoned"), p)
    else if decide (session_dirty p = ∅) then (Ok 0, p)
    else if cache_poisoned p then (Err (Backend "session cache mutex poisoned"), p)
    else
      (let* groups := mlift (group_dirty (session_cache p) (dirty_keys (session_dirty p)) ∅) in
       let* written := on_backend (flush_groups (hash_iter groups) 0) in
       mmodify (set_dirty ∅) ;* mok written) p.
End sessions.

(** ** The abstract session map *)
Section refinement.
Context `{HashOrder} `{SignalMisc} {St SessionRecord ServiceId : Type} `{KvLaws St}
  `{WireRecordLaws SessionRecord} `{BincodeLaws SessionBundle} `{!Json SessionBundle}
  `{!ServiceIdText ServiceId}.
Abbreviation P := (PddbStore St SessionRecord).

(** The persisted bundle of an address; an absent key is an empty bundle, an
    undecodable one is [None]. *)
Definition bundle_in (m : kv_map) (i : IdentityType) (nm : string) : option SessionBundle :=
  match m !! (dict_session i, nm) with
  | None => Some ∅
  | Some b => match deserialize_session_bundle b with Ok x => Some x | Err _ => None end
  end.

Definition ok_option {A Er} (r : result A Er) : option A := match r with Ok a => Some a | Err _ => None end.

(** What a restarted process (empty cache) would load. *)
Definition durable (m : kv_map) (k : SessionKey) : option SessionRecord :=
  b ← bundle_in m k.1.1 k.1.2; ser ← b !! k.2; ok_option (rec_deserialize ser).

(** What this process loads: the cache over the durable records. *)
Definition logical (p : P) (k : SessionKey) : option SessionRecord :=
  match session_cache p !! k with
  | Some r => Some r
  | None => durable (kv_view (backend p)) k
  end.

Lemma dict_session_inj i j : dict_session i = dict_session j -> i = j.
Proof. by destruct i, j. Qed.

Lemma session_slot_inj i j (n1 n2 : string) :
  (dict_session i, n1) = (dict_session j, n2) -> (j, n2) = (i, n1).
Proof.
  intros Heq. pose proof (f_equal fst Heq) as Hd. pose proof (f_equal snd Heq) as Hn. simpl in Hn.
  apply dict_session_inj in Hd. by subst.
Qed.

Lemma bundle_in_insert m i nm b i' nm' :
  bundle_in (<[(dict_session i, nm) := b]> m) i' nm' =
  if decide ((i', nm') = (i, nm)) then ok_option (deserialize_session_bundle b) else bundle_in m i' nm'.
Proof.
  unfold bundle_in. case_decide as Heq.
  - injection Heq as -> ->. rewrite lookup_insert_eq. by destruct (deserialize_session_bundle b).
  - rewrite lookup_insert_ne; [done|]. intros Hs%session_slot_inj. by apply Heq.
Qed.

Lemma bundle_in_delete m i nm i' nm' :
  bundle_in (delete (dict_session i, nm) m) i' nm' =
  if decide ((i', nm') = (i, nm)) then Some ∅ else bundle_in m i' nm'.
Proof.
  unfold bundle_in. case_decide as Heq.
  - injection Heq as -> ->. by rewrite lookup_delete_eq.
  - rewrite lookup_delete_ne; [done|]. intros Hs%session_slot_inj. by apply Heq.
Qed.

Lemma serialize_bundle_roundtrip b x : serialize_session_bundle x = Ok b -> deserialize_session_bundle b = Ok x.
Proof.
  unfold serialize_session_bundle. destruct (bincode_serialize x) as [body|] eqn:Hb; [|done].
  intros [= <-]. simpl. by rewrite (bincode_roundtrip _ _ Hb).
Qed.

Lemma on_backend_inv {Er A} (m : M St Er A) (p p' : P) r :
  on_backend m p = (r, p') -> exists s', m (backend p) = (r, s') /\ p' = set_backend s' p.
Proof. unfold on_backend, zoom. destruct (m (backend p)) as [r' s']. intros [= <- <-]. eauto. Qed.

Lemma get_bundle_protocol_inv i nm (s s' : St) r :
  backend_get_session_bundle_protocol (dict_session i) nm s = (r, s') ->
  kv_view s' = kv_view s /\
  match r with
  | Ok x => bundle_in (kv_view s) i nm = Some (default ∅ x) /\
            (x = None -> kv_view s !! (dict_session i, nm) = None)
  | Err _ => True
  end.
Proof.
  unfold backend_get_session_bundle_protocol, bundle_in.
  intros [(v & s1 & Hg & Hm)|(e & Hg & ->)]%mbind_inv; apply kv_protocol_get_inv in Hg as [Hv Hr]; [|done].
  subst v. destruct (kv_view s !! _) as [b|].
  - destruct (deserialize_session_bundle b); by injection Hm as <- <-.
  - by injection Hm as <- <-.
Qed.

Lemma put_bundle_protocol_inv i nm x (s s' : St) u :
  backend_put_session_bundle_protocol (dict_session i) nm x s = (Ok u, s') ->
  exists b, deserialize_session_bundle b = Ok x /\ kv_view s' = <[(dict_session i, nm) := b]> (kv_view s).
Proof.
  unfold backend_put_session_bundle_protocol. destruct (serialize_session_bundle x) as [b|] eqn:Hb; [|done].
  intros Hp%kv_protocol_put_inv. exists b. split; [by apply serialize_bundle_roundtrip|done].
Qed.

Lemma logical_set_backend s' (p : P) :
  kv_view s' = kv_view (backend p) -> forall k, logical (set_backend s' p) k = logical p k.
Proof. intros Hv k. unfold logical. simpl. by rewrite Hv. Qed.

(** Filling the cache from the bundle does not change what is loaded. *)
Lemma populate_logical i nm bundle l (p p' : P) r :
  bundle_in (kv_view (backend p)) i nm = Some bundle ->
  (forall dev ser, (dev, ser) ∈ l -> bundle !! dev = Some ser) ->
  mfor l (populate i nm) p = (r, p') ->
  backend p' = backend p /\ forall k, logical p' k = logical p k.
Proof.
  intros Hb. revert p Hb. induction l as [|[dev ser] l IH]; intros p Hb Hl Hm; simpl in Hm.
  { by injection Hm as <- <-. }
  assert (Hstep : forall q r0, populate i nm (dev, ser) p = (r0, q) ->
    backend q = backend p /\ forall k, logical q k = logical p k).
  { intros q r0. unfold populate. simpl. destruct (session_cache p !! (i, nm, dev)) eqn:Hc.
    { by intros [= _ <-]. }
    unfold mbind, mlift. destruct (rec_deserialize ser) as [rec|] eqn:Hd; intros [= _ <-]; [|done].
    split; [done|]. intros k. unfold logical. simpl.
    destruct (decide (k = (i, nm, dev))) as [->|Hne]; [|by rewrite lookup_insert_ne].
    rewrite lookup_insert_eq, Hc. unfold durable. simpl. rewrite Hb. simpl.
    rewrite (Hl dev ser) by left. simpl. by rewrite Hd. }
  apply mbind_inv in Hm as [(u & p1 & Hm1 & Hm2)|(e & Hm1 & ->)]; apply Hstep in Hm1 as [Hb1 Hl1].
  - apply IH in Hm2 as [Hb2 Hl2].
    + split; [by rewrite Hb2|]. intros k. by rewrite Hl2.
    + by rewrite Hb1.
    + intros d s Hin. apply Hl. by right.
  - done.
Qed.

Lemma load_session_logical i a (p p' : P) r :
  load_session i a p = (r, p') ->
  (forall k, logical p' k = logical p k) /\
  forall o, r = Ok o -> o = logical p (session_key i a).
Proof.
  unfold load_session. intros Hr.
  apply mbind_inv in Hr as [(c & p1 & Hl & Hr)|(e & Hl & ->)];
    unfold lock_cache in Hl; destruct (cache_poisoned p) eqn:Hp; try discriminate Hl.
  2:{ by injection Hl as _ <-. }
  injection Hl as <- <-. destruct (session_cache p !! session_key i a) as [rec|] eqn:Hc.
  { injection Hr as <- <-. split; [done|]. intros o [= <-]. unfold logical. by rewrite Hc. }
  apply mbind_inv in Hr as [(x & p1 & Hg & Hr)|(e & Hg & ->)]; apply on_backend_inv in Hg as (s' & Hg & ->);
    apply get_bundle_protocol_inv in Hg as [Hv Hx].
  2:{ split; [by apply logical_set_backend|done]. }
  destruct Hx as [Hb _].
  assert (Hkey : logical p (session_key i a) = default ∅ x !! device_id a ≫= fun ser => ok_option (rec_deserialize ser)).
  { unfold logical. rewrite Hc. unfold durable. simpl. by rewrite Hb. }
  destruct x as [bundle|]; simpl in Hb, Hkey.
  2:{ injection Hr as <- <-. split; [by apply logical_set_backend|]. intros o [= <-].
      by rewrite Hkey, lookup_empty. }
  apply mbind_inv in Hr as [(c2 & p2 & Hl & Hr)|(e & Hl & ->)];
    unfold lock_cache in Hl; simpl in Hl; rewrite Hp in Hl; [|done]. injection Hl as _ <-.
  assert (Hpop : forall l r0 q, mfor (hash_iter bundle) (populate i (name a)) (set_backend s' p) = (r0, q) ->
    l = q -> forall k, logical l k = logical p k).
  { intros l r0 q Hm -> k. eapply populate_logical in Hm as [_ Hq].
    - rewrite Hq. by apply logical_set_backend.
    - simpl. by rewrite Hv.
    - intros dev ser. by rewrite elem_of_hash_iter. }
  apply mbind_inv in Hr as [(u & p2 & Hm & Hr)|(e & Hm & ->)].
  2:{ split; [by eapply Hpop|done]. }
  assert (Hend : p' = p2 /\ forall o, r = Ok o -> o = bundle !! device_id a ≫= fun ser => ok_option (rec_deserialize ser)).
  { destruct (bundle !! device_id a) as [ser|]; simpl.
    - unfold mbind, mlift in Hr. destruct (rec_deserialize ser); injection Hr as <- <-; (split; [done|]).
      + by intros o [= <-].
      + by intros.
    - injection Hr as <- <-. split; [done|]. by intros o [= <-]. }
  destruct Hend as [-> Ho]. split; [by eapply Hpop|]. intros o Hr0. rewrite Hkey. by apply Ho.
Qed.

(** The durable records of one address, replaced. *)
Lemma durable_ext m1 m2 k : bundle_in m1 k.1.1 k.1.2 = bundle_in m2 k.1.1 k.1.2 -> durable m1 k = durable m2 k.
Proof. unfold durable. by intros ->. Qed.

Lemma delete_session_logical i a (p p' : P) u :
  delete_session i a p = (Ok u, p') ->
  forall k, logical p' k = if decide (k = session_key i a) then None else logical p k.
Proof.
  unfold delete_session. intros Hr.
  apply mbind_inv_ok in Hr as (c & p1 & Hl & Hr).
  unfold lock_cache in Hl. destruct (cache_poisoned p); [done|]. injection Hl as <- <-.
  apply mbind_inv_ok in Hr as (u1 & p1 & Hm & Hr). injection Hm as _ <-.
  apply mbind_inv_ok in Hr as (d & p1 & Hl & Hr). unfold lock_dirty in Hl. simpl in Hl.
  destruct (dirty_poisoned p); [done|]. injection Hl as <- <-.
  apply mbind_inv_ok in Hr as (u2 & p1 & Hm & Hr). injection Hm as _ <-.
  apply mbind_inv_ok in Hr as (x & p1 & Hg & Hr). apply on_backend_inv in Hg as (s' & Hg & ->).
  apply get_bundle_protocol_inv in Hg as [Hv [Hb Hnone]]. simpl in Hv, Hb, Hnone.
  set (key := session_key i a) in *.
  assert (Hsuff : forall q : P, session_cache q = delete key (session_cache p) ->
    (forall i' nm', bundle_in (kv_view (backend q)) i' nm' =
       if decide ((i', nm') = (i, name a)) then Some (delete (device_id a) (default ∅ x))
       else bundle_in (kv_view (backend p)) i' nm') ->
    forall k, logical q k = if decide (k = key) then None else logical p k).
  { intros q Hc Hq [[i' nm'] dev]. unfold logical. rewrite Hc. case_decide as Hk.
    - rewrite Hk, lookup_delete_eq. unfold durable, key, session_key. simpl. rewrite Hq.
      rewrite decide_True by done. simpl. by rewrite lookup_delete_eq.
    - rewrite lookup_delete_ne by done. unfold logical.
      destruct (session_cache p !! (i', nm', dev)) eqn:Hcp; [done|]. unfold durable. simpl. rewrite Hq.
      case_decide as Ha; [|done]. injection Ha as -> ->. rewrite Hb. simpl.
      rewrite lookup_delete_ne; [done|]. intros <-. by apply Hk. }
  assert (Hsame : default ∅ x !! device_id a = None ->
    forall i' nm', bundle_in (kv_view s') i' nm' =
       if decide ((i', nm') = (i, name a)) then Some (delete (device_id a) (default ∅ x))
       else bundle_in (kv_view (backend p)) i' nm').
  { intros Hd i' nm'. rewrite Hv. case_decide as Ha; [|done]. injection Ha as -> ->.
    by rewrite Hb, delete_id. }
  destruct x as [b|]; simpl in Hsuff, Hsame.
  2:{ injection Hr as _ <-. apply Hsuff; [done|]. simpl. apply Hsame, lookup_empty. }
  destruct (b !! device_id a) as [ser|] eqn:Hd.
  2:{ injection Hr as _ <-. apply Hsuff; [done|]. simpl. by apply Hsame. }
  case_decide as He; apply on_backend_inv in Hr as (s2 & Hr & ->); simpl in Hr.
  - apply kv_protocol_delete_inv in Hr. apply Hsuff; [done|]. simpl. intros i' nm'.
    rewrite Hr, bundle_in_delete, He, Hv. done.
  - apply put_bundle_protocol_inv in Hr as (w & Hw & Hr). apply Hsuff; [done|]. simpl. intros i' nm'.
    rewrite Hr, bundle_in_insert, Hw, Hv. done.
Qed.

Lemma delete_all_logical i (sid : ServiceId) (p p' : P) n :
  delete_all_sessions i sid p = (Ok n, p') ->
  forall k, logical p' k = if decide (of_address i (raw_uuid_string sid) k) then None else logical p k.
Proof.
  unfold delete_all_sessions. intros Hr. set (uuid := raw_uuid_string sid) in *.
  apply mbind_inv_ok in Hr as (c & p1 & Hl & Hr).
  unfold lock_cache in Hl. destruct (cache_poisoned p); [done|]. injection Hl as <- <-.
  apply mbind_inv_ok in Hr as (d & p1 & Hl & Hr). unfold lock_dirty in Hl.
  destruct (dirty_poisoned p); [done|]. injection Hl as <- <-.
  apply mbind_inv_ok in Hr as (u & p1 & Hm & Hr). injection Hm as _ <-.
  apply mbind_inv_ok in Hr as (x & p1 & Hg & Hr). apply on_backend_inv in Hg as (s' & Hg & ->).
  apply get_bundle_protocol_inv in Hg as [Hv [Hb Hnone]]. simpl in Hv, Hb, Hnone.
  assert (Hsuff : forall q : P,
    session_cache q = filter (fun '(k, _) => ~ of_address i uuid k) (session_cache p) ->
    (forall i' nm', bundle_in (kv_view (backend q)) i' nm' =
       if decide ((i', nm') = (i, uuid)) then Some ∅ else bundle_in (kv_view (backend p)) i' nm') ->
    forall k, logical q k = if decide (of_address i uuid k) then None else logical p k).
  { intros q Hc Hq [[i' nm'] dev]. unfold logical. rewrite Hc, map_lookup_filter. unfold of_address. simpl.
    unfold durable. simpl. rewrite Hq.
    destruct (decide ((i', nm') = (i, uuid))) as [Ha|Ha].
    - destruct (session_cache p !! _); simpl; [case_guard; [done|]|]; by rewrite ?lookup_empty.
    - destruct (session_cache p !! _); simpl; [|done]. by case_guard. }
  destruct x as [b|].
  - apply mbind_inv_ok in Hr as (u2 & p2 & Hd & Hr). apply on_backend_inv in Hd as (s2 & Hd & ->).
    apply kv_protocol_delete_inv in Hd. injection Hr as _ <-. apply Hsuff; [done|]. simpl in *.
    intros i' nm'. by rewrite Hd, bundle_in_delete, Hv.
  - injection Hr as _ <-. apply Hsuff; [done|]. simpl in *. intros i' nm'. rewrite Hv.
    case_decide as Ha; [|done]. by injection Ha as -> ->.
Qed.

(** C5: the session store is a map from addresses to records. A load returns the
    record last stored (from the cache or, after a restart, from the backend) and
    changes none; a store replaces one record; deleting one session or all the
    sessions of an address removes exactly those. *)
Theorem sessions_refine_map i a (sid : ServiceId) (rec : SessionRecord) (p p' : P) :
  (forall o, load_session i a p = (Ok o, p') ->
     o = logical p (session_key i a) /\ forall k, logical p' k = logical p k) /\
  (forall u, store_session i a rec p = (Ok u, p') ->
     forall k, logical p' k = if decide (k = session_key i a) then Some rec else logical p k) /\
  (forall u, delete_session i a p = (Ok u, p') ->
     forall k, logical p' k = if decide (k = session_key i a) then None else logical p k) /\
  (forall n, delete_all_sessions i sid p = (Ok n, p') ->
     forall k, logical p' k =
       if decide (of_address i (raw_uuid_string sid) k) then None else logical p k).
Proof.
  split; [|split; [|split]].
  - intros o [Hl Ho]%load_session_logical. split; [by apply Ho|done].
  - intros u Hr k. unfold store_session in Hr.
    apply mbind_inv_ok in Hr as (c & p1 & Hl & Hr).
    unfold lock_cache in Hl. destruct (cache_poisoned p); [done|]. injection Hl as <- <-.
    apply mbind_inv_ok in Hr as (u1 & p1 & Hm & Hr). injection Hm as _ <-.
    apply mbind_inv_ok in Hr as (d & p1 & Hl & Hr). unfold lock_dirty in Hl. simpl in Hl.
    destruct (dirty_poisoned p); [done|]. injection Hl as <- <-. injection Hr as _ <-.
    unfold logical. simpl. case_decide as Hk; [subst; by rewrite lookup_insert_eq|].
    by rewrite lookup_insert_ne.
  - intros u. apply delete_session_logical.
  - intros n. apply delete_all_logical.
Qed.
End refinement.

(** ** Flushing *)
Section flush.
Context `{HashOrder} `{SignalMisc} {St SessionRecord ServiceId : Type} `{KvLaws St}
  `{WireRecordLaws SessionRecord} `{BincodeLaws SessionBundle} `{!Json SessionBundle}
  `{!ServiceIdText ServiceId}.
Abbreviation P := (PddbStore St SessionRecord).
Abbreviation Address := (IdentityType * string)%type.

(** The entries of one address among the dirty keys. *)
Definition group_entry (cache : gmap SessionKey SessionRecord) (a : Address) (k : SessionKey)
    : option (N * bytes) :=
  if decide (k.1 = a) then
    r ← cache !! k; b ← ok_option (rec_serialize r); Some (k.2, b)
  else None.
Definition dirty_group (cache : gmap SessionKey SessionRecord) (a : Address) (ks : list SessionKey)
    : list (N * bytes) := omap (group_entry cache a) ks.

Lemma group_dirty_spec (cache : gmap SessionKey SessionRecord) (ks : list SessionKey) (g g' : gmap Address (list (N * bytes))) :
  group_dirty cache ks g = Ok g' ->
  (forall a, default [] (g' !! a) = default [] (g !! a) ++ dirty_group cache a ks) /\
  (forall k r, k ∈ ks -> cache !! k = Some r -> is_ok (rec_serialize r) = true).
Proof.
  revert g. induction ks as [|key ks IH]; intros g Hg; simpl in Hg.
  { injection Hg as <-. split; [intros a; by rewrite app_nil_r|]. by intros k r ?%elem_of_nil. }
  destruct (cache !! key) as [r|] eqn:Hc.
  - destruct (rec_serialize r) as [b|] eqn:Hb; [|done]. apply IH in Hg as [Hg Hok]. split.
    + intros a. rewrite Hg. unfold dirty_group. simpl. unfold group_entry at 2.
      destruct (decide (key.1 = a)) as [<-|Ha].
      * rewrite lookup_insert_eq, Hc. simpl. rewrite Hb. simpl. by rewrite <- app_assoc.
      * by rewrite lookup_insert_ne.
    + intros k r' [->|Hin]%elem_of_cons Hk; [|by eapply Hok].
      rewrite Hc in Hk. injection Hk as ->. by rewrite Hb.
  - apply IH in Hg as [Hg Hok]. split.
    + intros a. rewrite Hg. unfold dirty_group. simpl. unfold group_entry at 2. rewrite Hc. by case_decide.
    + intros k r' [->|Hin]%elem_of_cons Hk; [congruence|by eapply Hok].
Qed.

Lemma elem_of_dirty_group (cache : gmap SessionKey SessionRecord) a ks dev b :
  (dev, b) ∈ dirty_group cache a ks <->
  (a, dev) ∈ ks /\ exists r, cache !! (a, dev) = Some r /\ rec_serialize r = Ok b.
Proof.
  unfold dirty_group. rewrite list_elem_of_omap. split.
  - intros ([a' dev'] & Hin & He). unfold group_entry in He. simpl in He. case_decide; [|done]. subst a'.
    destruct (cache !! (a, dev')) as [r|] eqn:Hc; [|done]. simpl in He.
    destruct (rec_serialize r) as [b'|] eqn:Hb; [|done]. simpl in He. injection He as <- <-. eauto.
  - intros (Hin & r & Hc & Hb). exists (a, dev). split; [done|]. unfold group_entry. simpl.
    rewrite decide_True by done. by rewrite Hc; simpl; rewrite Hb.
Qed.

Lemma NoDup_dirty_group (cache : gmap SessionKey SessionRecord) a ks : NoDup ks -> NoDup (dirty_group cache a ks).*1.
Proof.
  induction 1 as [|[a' dev] ks Hn Hnd IH]; [constructor|]. unfold dirty_group. simpl.
  destruct (group_entry cache a (a', dev)) as [[d b]|] eqn:He; [|done].
  fold (dirty_group cache a ks). rewrite fmap_cons. apply NoDup_cons. split; [|done].
  unfold group_entry in He. simpl in He. case_decide; [|done]. subst a'.
  destruct (cache !! (a, dev)) as [r|]; [|done]. simpl in He.
  destruct (rec_serialize r); [|done]. simpl in He. injection He as <- <-. simpl.
  intros ([d2 b2] & Hd & Hin)%list_elem_of_fmap. simpl in Hd. subst d2.
  by apply elem_of_dirty_group in Hin as [Hin _].
Qed.

Lemma lookup_insert_devices l (B : SessionBundle) dev :
  NoDup l.*1 ->
  insert_devices l B !! dev =
    match list_find (fun e => e.1 = dev) l with Some (_, e) => Some e.2 | None => B !! dev end.
Proof.
  unfold insert_devices. revert B. induction l as [|[d b] l IH]; intros B Hnd; [done|].
  rewrite fmap_cons in Hnd. apply NoDup_cons in Hnd as [Hn Hnd]. simpl. rewrite IH by done.
  destruct (decide (d = dev)) as [->|Hd].
  - destruct (list_find (fun e => e.1 = dev) l) as [[j [d' b']]|] eqn:Hf.
    + apply list_find_Some in Hf as (Hj & Hd & _). simpl in Hd. subst d'. exfalso. apply Hn.
      apply list_elem_of_fmap. exists (dev, b'). split; [done|]. by eapply list_elem_of_lookup_2.
    + simpl. by rewrite lookup_insert_eq.
  - destruct (list_find (fun e => e.1 = dev) l) as [[j [d' b']]|]; simpl; [done|].
    by rewrite lookup_insert_ne.
Qed.

Lemma insert_devices_in l (B : SessionBundle) dev b :
  NoDup l.*1 -> (dev, b) ∈ l -> insert_devices l B !! dev = Some b.
Proof.
  unfold insert_devices. revert B. induction l as [|[d b0] l IH]; intros B Hnd Hin.
  { by apply elem_of_nil in Hin. }
  rewrite fmap_cons in Hnd. apply NoDup_cons in Hnd as [Hn Hnd]. simpl.
  apply elem_of_cons in Hin as [[= -> ->]|Hin]; [|by apply IH].
  fold (insert_devices l (<[d := b0]> B)). rewrite lookup_insert_devices by done.
  destruct (list_find _ l) as [[j [d' b']]|] eqn:Hf; [|apply lookup_insert_eq].
  apply list_find_Some in Hf as (Hj & Hd & _). simpl in Hd. subst d'. exfalso. apply Hn.
  apply list_elem_of_fmap. exists (d, b'). split; [done|]. by eapply list_elem_of_lookup_2.
Qed.

Lemma insert_devices_not_in l (B : SessionBundle) dev :
  dev ∉ l.*1 -> insert_devices l B !! dev = B !! dev.
Proof.
  unfold insert_devices. revert B. induction l as [|[d b] l IH]; intros B Hn; [done|].
  rewrite fmap_cons in Hn. apply not_elem_of_cons in Hn as [Hd Hn]. simpl in *.
  rewrite IH by done. by rewrite lookup_insert_ne.
Qed.

Lemma flush_group_spec i nm l (s s' : St) n :
  flush_group ((i, nm), l) s = (Ok n, s') ->
  exists old, bundle_in (kv_view s) i nm = Some old /\
    forall i' nm', bundle_in (kv_view s') i' nm' =
      if decide ((i', nm') = (i, nm)) then Some (insert_devices l old) else bundle_in (kv_view s) i' nm'.
Proof.
  unfold flush_group. intros Hr.
  apply mbind_inv_ok in Hr as (x & s1 & Hg & Hr). apply mbind_inv_ok in Hr as (u & s2 & Hp & Hr).
  injection Hr as _ <-. unfold backend_get_session_bundle in Hg.
  apply mbind_inv_ok in Hg as (v & s3 & Hg & Hm). apply kv_get_law in Hg as [Hv Hval].
  specialize (Hval _ eq_refl). subst v.
  assert (Hold : kv_view s1 = kv_view s /\ bundle_in (kv_view s) i nm = Some (default ∅ x)).
  { unfold bundle_in. destruct (kv_view s !! _) as [b|].
    - unfold mlift, mbind in Hm. destruct (deserialize_session_bundle b); [|done]. by injection Hm as <- <-.
    - by injection Hm as <- <-. }
  destruct Hold as [Hv1 Hold]. exists (default ∅ x). split; [done|].
  unfold backend_put_session_bundle, mlift, mbind in Hp.
  destruct (serialize_session_bundle _) as [b|] eqn:Hb; [|done]. apply kv_put_ok in Hp.
  apply serialize_bundle_roundtrip in Hb. intros i' nm'.
  by rewrite Hp, bundle_in_insert, Hb, Hv1.
Qed.

Lemma flush_groups_spec gs w (s s' : St) n :
  flush_groups gs w s = (Ok n, s') -> NoDup gs.*1 ->
  (forall a l, (a, l) ∈ gs -> exists old, bundle_in (kv_view s) a.1 a.2 = Some old /\
     bundle_in (kv_view s') a.1 a.2 = Some (insert_devices l old)) /\
  (forall a, a ∉ gs.*1 -> bundle_in (kv_view s') a.1 a.2 = bundle_in (kv_view s) a.1 a.2).
Proof.
  revert w s. induction gs as [|[[i nm] l] gs IH]; intros w s Hr Hnd; simpl in Hr.
  { injection Hr as _ <-. split; [by intros a l ?%elem_of_nil|done]. }
  apply mbind_inv_ok in Hr as (m & s1 & Hg & Hr). apply flush_group_spec in Hg as (old & Hold & Hg).
  rewrite fmap_cons in Hnd. apply NoDup_cons in Hnd as [Hn Hnd]. apply IH in Hr as [Hin Hout]; [|done].
  split.
  - intros a l' [[= -> ->]|Ha]%elem_of_cons.
    + exists old. split; [done|]. pose proof (Hout (i, nm) Hn) as Ho. simpl in *. rewrite Ho, Hg.
      by rewrite decide_True.
    + destruct (Hin a l' Ha) as (old' & Ho & He). exists old'. split; [|done].
      rewrite <- Ho, Hg. rewrite decide_False; [done|]. intros [= Hi Hm]. apply Hn. simpl.
      apply list_elem_of_fmap. exists (a, l'). split; [|done]. simpl. by rewrite <- Hi, <- Hm, <- surjective_pairing.
  - intros a Ha. rewrite fmap_cons in Ha. apply not_elem_of_cons in Ha as [Hne Ha]. simpl in Hne.
    rewrite Hout by done. rewrite Hg. rewrite decide_False; [done|].
    intros [= Hi Hm]. apply Hne. by rewrite <- Hi, <- Hm, <- surjective_pairing.
Qed.

Lemma elem_of_dirty_keys (d : gset SessionKey) k : k ∈ dirty_keys d <-> k ∈ d.
Proof.
  unfold dirty_keys, hash_keys. rewrite list_elem_of_fmap. split.
  - intros ([k' []] & -> & He). apply elem_of_hash_iter, lookup_gset_to_gmap_Some in He. by destruct He.
  - intros Hk. exists (k, tt). split; [done|]. by apply elem_of_hash_iter, lookup_gset_to_gmap_Some.
Qed.

(** What a successful flush leaves in the backend, address by address. *)
Lemma flush_bundles (p : P) groups written (s' : St) :
  let ks := dirty_keys (session_dirty p) in
  group_dirty (session_cache p) ks ∅ = Ok groups ->
  flush_groups (hash_iter groups) 0 (backend p) = (Ok written, s') ->
  forall a, exists old l, bundle_in (kv_view (backend p)) a.1 a.2 = old /\
    l = dirty_group (session_cache p) a ks /\
    bundle_in (kv_view s') a.1 a.2 = match old with Some B => Some (insert_devices l B) | None => None end /\
    (l <> [] -> is_Some old).
Proof.
  intros ks [Hg Hok]%group_dirty_spec Hf a. apply flush_groups_spec in Hf as [Hin Hout]; [|apply NoDup_hash_keys].
  specialize (Hg a). rewrite lookup_empty in Hg. simpl in Hg.
  destruct (groups !! a) as [l|] eqn:Hl; simpl in Hg.
  - destruct (Hin a l) as (B & HB & HB'); [by apply elem_of_hash_iter|].
    exists (Some B), l. split; [done|]. split; [done|]. split; [done|]. by eexists.
  - exists (bundle_in (kv_view (backend p)) a.1 a.2), []. split; [done|]. split; [done|].
    rewrite Hout; [split; [by destruct (bundle_in _ _ _)|done]|].
    unfold hash_keys. intros ([a' l] & -> & He)%list_elem_of_fmap. apply elem_of_hash_iter in He.
    simpl in Hl. congruence.
Qed.

Lemma flush_durable (p : P) groups written (s' : St) :
  group_dirty (session_cache p) (dirty_keys (session_dirty p)) ∅ = Ok groups ->
  flush_groups (hash_iter groups) 0 (backend p) = (Ok written, s') ->
  (forall k rec, k ∈ session_dirty p -> session_cache p !! k = Some rec -> durable (kv_view s') k = Some rec) /\
  (forall k, (k ∉ session_dirty p \/ session_cache p !! k = None) ->
     durable (kv_view s') k = durable (kv_view (backend p)) k).
Proof.
  intros Hg Hf. pose proof (flush_bundles p groups written s' Hg Hf) as Hb.
  apply group_dirty_spec in Hg as [_ Hok]. assert (Hks := elem_of_dirty_keys (session_dirty p)).
  assert (Hnd : NoDup (dirty_keys (session_dirty p))) by apply NoDup_hash_keys. split.
  - intros [a dev] rec Hk Hc. destruct (Hb a) as (old & l & Hold & Hl & Hnew & Hs).
    assert (Hser : exists b, rec_serialize rec = Ok b).
    { specialize (Hok (a, dev) rec). apply Hks in Hk. specialize (Hok Hk Hc).
      destruct (rec_serialize rec); [by eexists|done]. }
    destruct Hser as [b Hser].
    assert (Hmem : (dev, b) ∈ l).
    { rewrite Hl. apply elem_of_dirty_group. split; [by apply Hks|]. by exists rec. }
    destruct Hs as [B HB]; [by intros ->; apply elem_of_nil in Hmem|].
    unfold durable. simpl. rewrite Hnew, HB. simpl. rewrite (insert_devices_in _ _ dev b); [|subst l; by apply NoDup_dirty_group|done].
    simpl. by rewrite (rec_roundtrip _ _ Hser).
  - intros [a dev] Hk. destruct (Hb a) as (old & l & Hold & Hl & Hnew & Hs).
    unfold durable. simpl. rewrite Hnew, Hold. destruct old as [B|]; [|done]. simpl.
    rewrite insert_devices_not_in; [done|]. rewrite Hl.
    intros ([d b] & Hd & He)%list_elem_of_fmap. simpl in Hd. subst d.
    apply elem_of_dirty_group in He as (Hi & r & Hr & _). apply Hks in Hi. destruct Hk; [done|congruence].
Qed.

(** What a successful flush is: nothing to do, or every group written. *)
Lemma flush_sessions_inv (p p' : P) n :
  flush_sessions p = (Ok n, p') ->
  (session_dirty p = ∅ /\ p' = p) \/
  (exists groups s', group_dirty (session_cache p) (dirty_keys (session_dirty p)) ∅ = Ok groups /\
     flush_groups (hash_iter groups) 0 (backend p) = (Ok n, s') /\ p' = set_dirty ∅ (set_backend s' p)).
Proof.
  unfold flush_sessions. intros Hr. destruct (dirty_poisoned p); [by simplify_eq|].
  case_decide as Hempty; [simplify_eq; by left|]. destruct (cache_poisoned p); [by simplify_eq|].
  unfold mlift in Hr. apply mbind_inv_ok in Hr as (groups & p1 & Hg & Hr). injection Hg as Hg <-.
  apply mbind_inv_ok in Hr as (written & p2 & Hf & Hr). apply on_backend_inv in Hf as (s' & Hf & ->).
  injection Hr as <- <-. right. by exists groups, s'.
Qed.

Lemma flush_sessions_err (p p' : P) e :
  flush_sessions p = (Err e, p') -> exists s', p' = set_backend s' p.
Proof.
  unfold flush_sessions. intros Hr.
  assert (Hp : exists s', p = set_backend s' p) by (exists (backend p); by destruct p).
  destruct (dirty_poisoned p); [by simplify_eq|].
  case_decide as Hempty; [by simplify_eq|]. destruct (cache_poisoned p); [by simplify_eq|].
  unfold mlift in Hr. apply mbind_inv in Hr as [(groups & p1 & Hg & Hr)|(x & Hg & _)]; injection Hg as Hg <-; [|done].
  apply mbind_inv in Hr as [(written & p2 & Hf & Hr)|(x & Hf & _)]; [done|].
  apply on_backend_inv in Hf as (s' & Hf & ->). by exists s'.
Qed.

(** The records a successful flush leaves in the backend. *)
Lemma flush_sessions_ok (p p' : P) n :
  flush_sessions p = (Ok n, p') ->
  session_dirty p' = ∅ /\ session_cache p' = session_cache p /\
  (forall k rec, k ∈ session_dirty p -> session_cache p !! k = Some rec ->
     durable (kv_view (backend p')) k = Some rec) /\
  (forall k, (k ∉ session_dirty p \/ session_cache p !! k = None) ->
     durable (kv_view (backend p')) k = durable (kv_view (backend p)) k).
Proof.
  intros [[He ->]|(groups & s' & Hg & Hf & ->)]%flush_sessions_inv.
  - rewrite He. split; [done|]. split; [done|]. split; [|done]. intros k rec Hk. set_solver.
  - destruct (flush_durable p _ _ _ Hg Hf) as [Hdirty Hclean]. done.
Qed.

(** *** What a flush, finished or not, does not touch *)
Lemma group_dirty_from (cache : gmap SessionKey SessionRecord) (ks : list SessionKey)
    (g g' : gmap Address (list (N * bytes))) (a : Address) :
  group_dirty cache ks g = Ok g' -> is_Some (g' !! a) ->
  is_Some (g !! a) \/ exists k, k ∈ ks /\ k.1 = a /\ is_Some (cache !! k).
Proof.
  revert g. induction ks as [|k ks IH]; intros g; simpl; [intros [= ->]; by left|]. intros Hg Ha.
  assert (Hrest : (exists k0, k0 ∈ ks /\ k0.1 = a /\ is_Some (cache !! k0)) ->
    is_Some (g !! a) \/ exists k0, k0 ∈ k :: ks /\ k0.1 = a /\ is_Some (cache !! k0)).
  { intros (k0 & Hk & Hrest). right. exists k0. split; [by right|done]. }
  destruct (cache !! k) as [rec|] eqn:Hc; [|by destruct (IH _ Hg Ha); auto].
  destruct (rec_serialize rec) as [b|]; [|done]. destruct (IH _ Hg Ha) as [Hi|]; [|by apply Hrest].
  destruct (decide (k.1 = a)) as [He|Hne]; [right; exists k; split; [left|by rewrite Hc]|].
  rewrite lookup_insert_ne in Hi by done. by left.
Qed.

Lemma get_bundle_same i nm (s s' : St) r :
  backend_get_session_bundle (dict_session i) nm s = (r, s') -> kv_view s' = kv_view s.
Proof.
  unfold backend_get_session_bundle. intros [(v & s1 & [Hg _]%kv_get_law & Hr)|(e & [Hg _]%kv_get_law & _)]%mbind_inv; [|done].
  rewrite <- Hg. destruct v as [b|]; [|by injection Hr as _ <-].
  apply mbind_inv in Hr as [(x & s2 & Hx & Hr)|(e & Hx & _)]; injection Hx as _ <-; [by injection Hr as _ <-|done].
Qed.

Lemma put_bundle_off i nm x (s s' : St) r :
  backend_put_session_bundle (dict_session i) nm x s = (r, s') ->
  agree_off (fun p => p = (dict_session i, nm)) (kv_view s') (kv_view s).
Proof.
  unfold backend_put_session_bundle. intros [(b & s1 & Hb & Hp)|(e & He & _)]%mbind_inv.
  - injection Hb as _ <-. destruct r as [u|e]; [|by eapply kv_put_err]. apply kv_put_ok in Hp. rewrite Hp.
    intros k Hk. rewrite lookup_insert_ne; [done|congruence].
  - injection He as _ <-. reflexivity.
Qed.

Lemma flush_group_off i nm l (s s' : St) r :
  flush_group ((i, nm), l) s = (r, s') -> agree_off (fun p => p = (dict_session i, nm)) (kv_view s') (kv_view s).
Proof.
  unfold flush_group. intros [(x & s1 & Hg%get_bundle_same & Hr)|(e & Hg%get_bundle_same & _)]%mbind_inv; rewrite <- Hg; [|done].
  apply mbind_inv in Hr as [(u & s2 & Hp%put_bundle_off & Hr)|(e & Hp%put_bundle_off & _)]; [by injection Hr as _ <-|done].
Qed.

Lemma flush_groups_off gs w (s s' : St) r :
  flush_groups gs w s = (r, s') ->
  agree_off (fun p => exists a, a ∈ gs.*1 /\ p = (dict_session a.1, a.2)) (kv_view s') (kv_view s).
Proof.
  revert w s. induction gs as [|[[i nm] l] gs IH]; intros w s; cbn [flush_groups].
  { intros [= _ <-]. by intros k _. }
  intros Hr k Hk. apply mbind_inv in Hr as [(m & s1 & Hg & Hr)|(e & Hg & _)]; apply flush_group_off in Hg;
    (assert (Hne : k <> (dict_session i, nm)) by (intros ->; apply Hk; exists (i, nm); split; [left|done])).
  - rewrite <- (Hg k Hne). eapply IH; [exact Hr|]. intros (a & Ha & ->). apply Hk. exists a. split; [by right|done].
  - exact (Hg k Hne).
Qed.

(** The entries a flush may write: the bundles of the addresses with a dirty session. *)
Definition dirty_bundle (p : P) (dk : string * string) : Prop :=
  exists k, k ∈ session_dirty p /\ dk = (dict_session k.1.1, k.1.2).

Lemma flush_sessions_off (p p' : P) r :
  flush_sessions p = (r, p') -> agree_off (dirty_bundle p) (kv_view (backend p')) (kv_view (backend p)).
Proof.
  unfold flush_sessions. assert (Hsame : forall q, q = p -> agree_off (dirty_bundle p) (kv_view (backend q)) (kv_view (backend p)))
    by (by intros q ->).
  destruct (dirty_poisoned p); [intros [= _ <-]; by apply Hsame|].
  destruct (decide _); [intros [= _ <-]; by apply Hsame|]. destruct (cache_poisoned p); [intros [= _ <-]; by apply Hsame|].
  unfold mbind at 1, mlift. destruct (group_dirty _ _ _) as [groups|e] eqn:Hg; [|intros [= _ <-]; by apply Hsame].
  assert (Hf : forall r0 s', flush_groups (hash_iter groups) 0 (backend p) = (r0, s') ->
    agree_off (dirty_bundle p) (kv_view s') (kv_view (backend p))).
  { intros r0 s' Hf%flush_groups_off dk Hdk. apply Hf. intros ([i nm] & Ha & ->). apply Hdk.
    apply list_elem_of_fmap in Ha as ([a l] & -> & Ha). apply elem_of_hash_iter in Ha.
    destruct (group_dirty_from _ _ _ _ a Hg) as [Hn|(k & Hk & <- & _)]; [by eexists| |].
    - rewrite lookup_empty in Hn. by destruct Hn.
    - exists k. split; [by apply elem_of_dirty_keys|done]. }
  intros Hr. apply mbind_inv in Hr as [(written & p1 & Hw & Hr)|(e & Hw & _)]; apply on_backend_inv in Hw as (s' & Hw & ->).
  - injection Hr as _ <-. by eapply Hf.
  - by eapply Hf.
Qed.

(** C6: a flush makes the dirty sessions durable. After a successful flush the
    dirty set is empty and the cache as it was; the backend holds the cached
    record of every dirty key, so a process restarted on that backend loads
    exactly those records, and every session that was not dirty is on disk as it
    was before. After a failed flush the dirty set and the cache are as they
    were, so the next flush tries every record again. Neither a successful nor a
    failed flush changes any other entry of the backend: in every dictionary, every
    key but those of the bundles of the addresses that have a dirty session reads
    as before. *)
Theorem flush_sessions_durable (p p' : P) :
  (forall n, flush_sessions p = (Ok n, p') ->
    session_dirty p' = ∅ /\ session_cache p' = session_cache p /\
    (forall k rec, k ∈ session_dirty p -> session_cache p !! k = Some rec ->
       durable (kv_view (backend p')) k = Some rec /\
       forall o q t, load_session k.1.1 (mkAddress k.1.2 k.2) (store_new (backend p') t) = (Ok o, q) ->
         o = Some rec) /\
    (forall k, k ∉ session_dirty p -> durable (kv_view (backend p')) k = durable (kv_view (backend p)) k) /\
    (forall k, logical p' k = logical p k)) /\
  (forall e, flush_sessions p = (Err e, p') ->
    session_dirty p' = session_dirty p /\ session_cache p' = session_cache p) /\
  (forall r, flush_sessions p = (r, p') -> forall dict key,
    (forall k, k ∈ session_dirty p -> (dict, key) <> (dict_session k.1.1, k.1.2)) ->
    kv_view (backend p') !! (dict, key) = kv_view (backend p) !! (dict, key)).
Proof.
  split; [|split].
  - intros n (Hd & Hc & Hdirty & Hclean)%flush_sessions_ok. split; [done|]. split; [done|]. split; [|split].
    + intros k rec Hk Hrec. split; [by apply Hdirty|]. intros o q t Hl.
      apply load_session_logical in Hl as [_ Ho]. rewrite (Ho _ eq_refl). unfold logical. simpl.
      rewrite lookup_empty. destruct k as [[i nm] dev]. by apply Hdirty.
    + intros k Hk. apply Hclean. by left.
    + intros k. unfold logical. rewrite Hc. destruct (session_cache p !! k) eqn:Hk; [done|].
      apply Hclean. by right.
  - by intros e [s' ->]%flush_sessions_err.
  - intros r Hr dict key Hk. apply (flush_sessions_off p p' r Hr). intros (k & Hd & He). by apply (Hk k).
Qed.
End flush.
