(* ===== verification/Concrete.v ===== *)
(** * Concrete codecs and records

    Instances of the library parameters (JSON, records, keys) used by the
    witnesses: a countable type is written as the bits of its code. *)
From S2P Require Import Prelude Codec Kv Buffering Protocol Sessions.

Fixpoint pos_bytes (p : positive) : bytes :=
  match p with xH => [] | xO q => x00 :: pos_bytes q | xI q => x01 :: pos_bytes q end.
Fixpoint bytes_pos (b : bytes) : positive :=
  match b with [] => xH | x00 :: r => xO (bytes_pos r) | _ :: r => xI (bytes_pos r) end.

Lemma bytes_pos_bytes p : bytes_pos (pos_bytes p) = p.
Proof. induction p as [p IH|p IH|]; simpl; by rewrite ?IH. Qed.

Definition countable_json (T : Type) `{Countable T} : Json T := {|
  to_vec := fun x => Ok (pos_bytes (encode x));
  from_slice := fun b => match decode (bytes_pos b) with Some x => Ok x | None => Err "invalid" end
|}.

Lemma countable_json_laws (T : Type) `{Countable T} : @JsonLaws T (countable_json T).
Proof. intros x b [= <-]. cbn. by rewrite bytes_pos_bytes, decode_encode. Qed.

#[export] Instance bundle_json : Json (list (N * bytes)) := countable_json _.
#[export] Instance bundle_json_laws : JsonLaws (list (N * bytes)) := countable_json_laws _.
#[export] Instance kyber_json : Json KyberStored := {|
  to_vec e := Ok ((if is_last_resort e then x01 else x00) :: ky_record e);
  from_slice b := match b with f :: r => Ok (mkKyberStored r (bool_decide (f = x01))) | [] => Err "invalid" end
|}.
#[export] Instance kyber_json_laws : JsonLaws KyberStored.
Proof. by intros [r []] b [= <-]. Qed.

(** Records and keys that are their own serialization. *)
#[export] Instance bytes_record : WireRecord bytes := {|
  rec_serialize := fun b => Ok b; rec_deserialize := fun b => Ok b
|}.
#[export] Instance bytes_record_laws : WireRecordLaws bytes.
Proof. by intros r b [= ->]. Qed.
#[export] Instance bytes_key : KeyBytes bytes := {|
  key_serialize := fun b => b; key_decode := fun b => Ok b
|}.
#[export] Instance bytes_key_laws : KeyBytesLaws bytes.
Proof. split; [done|]. by intros x y. Qed.
#[export] Instance uuid_text : UuidText N := {|
  uuid_simple := fun u => hex_fixed 32 u; uuid_hyphenated := fun u => hex_fixed 32 u
|}.

(** Session bundles, service ids (the text is the id) and device ids. *)
#[export] Instance session_bincode : Bincode SessionBundle := {|
  bincode_serialize := fun b => Ok (pos_bytes (encode b));
  bincode_deserialize := fun b => match decode (bytes_pos b) with Some x => Ok x | None => Err "invalid" end
|}.
#[export] Instance session_bincode_laws : BincodeLaws SessionBundle.
Proof. intros x b [= <-]. cbn. by rewrite bytes_pos_bytes, decode_encode. Qed.
#[export] Instance session_json : Json SessionBundle := countable_json _.
#[export] Instance string_service_id : ServiceIdText string := {|
  raw_uuid_string := fun s => s; service_id_string := fun s => s
|}.
#[export] Instance signal_misc : SignalMisc := {|
  protocol_error_to_string := fun _ => "protocol";
  device_id_valid := fun d => (1 <=? d)%N && (d <=? 127)%N;
  DEFAULT_DEVICE_ID := 1
|}.

#[local] Existing Instance canonical_order.

Lemma prekey_store_refines_map_witness :
  let s1 := (save_pre_key (PreKeyRecord := bytes) Aci 5 [x07] mock_new).2 in
  prekey_map Aci (kv_view s1) !! 5%N = Some [x07].
Proof.
  intros s1.
  destruct (proj1 (prekey_store_refines_map (PreKeyRecord := bytes) Aci mock_new s1 5) [x07] tt)
    as (b & Hb & Hm & _); [vm_compute; reflexivity|].
  injection Hb as <-. rewrite Hm. apply lookup_insert_eq.
Defined.

Lemma next_ids_fresh_witness :
  let s1 := (save_pre_key (PreKeyRecord := bytes) Aci 5 [x07] mock_new).2 in
  next_pre_key_id Aci s1 = (Ok 6%N, s1) /\ prekey_map Aci (kv_view s1) !! 6%N = None.
Proof.
  intros s1. assert (Hn : next_pre_key_id Aci s1 = (Ok 6%N, s1)) by (vm_compute; reflexivity).
  split; [exact Hn|].
  refine (proj1 (proj1 (next_ids_fresh Aci s1 s1 6%N) Hn _)).
  intros id [b Hb].
  assert (Hs : prekey_map Aci (kv_view s1) = {[ 5%N := [x07] ]}) by (vm_compute; reflexivity).
  rewrite Hs in Hb. apply lookup_singleton_Some in Hb as [<- _]. reflexivity.
Defined.

Definition kyber_store : MockBackend :=
  (store_last_resort_kyber_pre_key (KyberPreKeyRecord := bytes) Pni 2 [x0a] mock_new).2.

Definition mark (k : bytes) (s : MockBackend) := mark_kyber_pre_key_used (PublicKey := bytes) Pni 2 9 k s.

Lemma kyber_mark_used_effect_witness :
  (mark [x01] (mark [x01] kyber_store).2).1 = Err (InvalidMessage "PreKey" "reused base key").
Proof.
  destruct (kyber_mark_used_effect (KyberPreKeyRecord := bytes) (PublicKey := bytes) Pni 2 9 [x01] kyber_store
    (mark [x01] kyber_store).2 (mark [x01] (mark [x01] kyber_store).2).2 tt)
    as (b & e & Hb & He & Hres); [vm_compute; reflexivity|].
  assert (Hlr : e = mkKyberStored [x0a] true).
  { vm_compute in Hb. injection Hb as <-. vm_compute in He. injection He as <-. reflexivity. }
  rewrite Hlr in Hres. destruct Hres as [_ Hres].
  destruct (Hres (mark [x01] (mark [x01] kyber_store).2).1) as [H|(c & m & H)].
  - vm_compute; reflexivity.
  - exact H.
  - vm_compute in H. discriminate.
Defined.

Lemma kyber_replay_of_older_base_key_witness :
  let s2 := (mark [x02] (mark [x01] kyber_store).2).2 in
  exists r, (mark [x01] s2).1 = r /\ (r = Ok tt \/ exists c m, r = Err (InvalidState c m)).
Proof.
  intros s2. eexists. split; [reflexivity|].
  refine (kyber_replay_of_older_base_key (PublicKey := bytes) Pni 2 9 [x01] [x02] kyber_store
    (mark [x01] kyber_store).2 s2 (mark [x01] s2).2 tt tt _ _ (mkKyberStored [x0a] true) _ _ _ _ _ _ _);
    try (vm_compute; reflexivity). vm_compute. discriminate.
Defined.

Definition bob : ProtocolAddress := mkAddress "5b4e1f9c" 2.

Lemma identity_trust_on_first_use_witness :
  let s1 := (save_identity (IdentityKey := bytes) Aci bob [x01] mock_new).2 in
  (is_trusted_identity (IdentityKey := bytes) Aci Reject bob [x02] s1).1 = Ok false /\
  kv_view s1 !! (dict_identity Aci, "5b4e1f9c.2") = Some [x01].
Proof.
  intros s1. split; [vm_compute; reflexivity|].
  destruct (proj2 (identity_trust_on_first_use Aci Reject bob ([x01] : bytes) mock_new s1) NewOrUnchanged)
    as (Hv & _); [vm_compute; reflexivity|].
  rewrite Hv. vm_compute. reflexivity.
Defined.

Definition session_store0 : PddbStore MockBackend bytes := store_new mock_new Trust.
Definition session_store1 : PddbStore MockBackend bytes := (store_session Aci bob [x07] session_store0).2.

Lemma sessions_refine_map_witness : logical session_store1 (session_key Aci bob) = Some [x07].
Proof.
  rewrite (proj1 (proj2 (sessions_refine_map Aci bob ("5b4e1f9c" : string) [x07] session_store0 session_store1))
             tt); [vm_compute; reflexivity|vm_compute; reflexivity].
Defined.

Lemma flush_sessions_durable_witness :
  exists p', flush_sessions session_store1 = (Ok 1, p') /\
    durable (kv_view (backend p')) (session_key Aci bob) = Some [x07] /\
    kv_view (backend p') !! ("signal.state", "registration") = kv_view (backend session_store1) !! ("signal.state", "registration").
Proof.
  exists (flush_sessions session_store1).2.
  assert (Hf : flush_sessions session_store1 = (Ok 1, (flush_sessions session_store1).2)) by (vm_compute; reflexivity).
  split; [exact Hf|]. destruct (flush_sessions_durable session_store1 (flush_sessions session_store1).2) as (Hok & _ & Hoff).
  destruct (Hok 1 Hf) as (_ & _ & Hd & _). split.
  - apply (Hd (session_key Aci bob) [x07]).
    + apply (bool_decide_unpack _). vm_compute. exact I.
    + vm_compute. reflexivity.
  - apply (Hoff _ Hf). intros [[[] nm] dev] _; discriminate.
Defined.
