(* ===== verification/Contents.v ===== *)
(** * The application-data store ([presage-store-pddb/src/content.rs])

    Profiles, contacts, groups, sticker packs and the messages of each thread:
    one dictionary per table, one dictionary per thread named by a digest, and
    message keys that are zero-padded hexadecimal timestamps. *)
From Stdlib Require Import Ascii.
From S2P Require Import Prelude Codec Utf8 Kv Protocol Sessions.

(** ** What the store uses of other crates *)

(** SHA-256 rendered with [{:x}], and the standard base64 alphabet. *)
Class Digests : Type := {
  sha256_hex : bytes -> string;
  base64_encode : bytes -> string
}.

Class UuidBytes (Uuid : Type) : Type := uuid_as_bytes : Uuid -> bytes.
Class ProfileKeyBytes (ProfileKey : Type) : Type := profile_key_bytes : ProfileKey -> bytes.

(** libsignal-service's [Content], split as [Content { metadata, body }]. *)
Record Metadata (ServiceId Uuid : Type) : Type := mkMetadata {
  sender : ServiceId;
  destination : ServiceId;
  sender_device : N;
  server_guid : option Uuid;
  timestamp : N;
  needs_receipt : bool;
  unidentified_sender : bool;
  was_plaintext : bool
}.
Arguments mkMetadata {ServiceId Uuid} _ _ _ _ _ _ _ _.
Arguments sender {ServiceId Uuid} _.
Arguments destination {ServiceId Uuid} _.
Arguments sender_device {ServiceId Uuid} _.
Arguments server_guid {ServiceId Uuid} _.
Arguments timestamp {ServiceId Uuid} _.
Arguments needs_receipt {ServiceId Uuid} _.
Arguments unidentified_sender {ServiceId Uuid} _.
Arguments was_plaintext {ServiceId Uuid} _.

Record Content (ServiceId Uuid Body : Type) : Type := mkContent {
  metadata : Metadata ServiceId Uuid;
  body : Body
}.
Arguments mkContent {ServiceId Uuid Body} _ _.
Arguments metadata {ServiceId Uuid Body} _.
Arguments body {ServiceId Uuid Body} _.

(** Protobuf encoding of a body, the reverse with [Content::from_proto], and the
    parsers of the textual fields. *)
Class ContentCodec (ServiceId Uuid Body Proto : Type) : Type := {
  body_encode : Body -> bytes;
  proto_decode : bytes -> result Proto string;
  body_from_proto : Proto -> Metadata ServiceId Uuid -> result Body string;
  parse_service_id : string -> option ServiceId;
  uuid_parse : string -> option Uuid;
  device_id_error : N -> string
}.

Class ContentCodecLaws (ServiceId Uuid Body Proto : Type) `{!ContentCodec ServiceId Uuid Body Proto}
    `{!ServiceIdText ServiceId} `{!UuidText Uuid} : Prop := {
  body_roundtrip (b : Body) (md : Metadata ServiceId Uuid) :
    exists p : Proto, proto_decode (body_encode b) = Ok p /\ body_from_proto p md = Ok b;
  service_id_roundtrip (s : ServiceId) : parse_service_id (service_id_string s) = Some s;
  uuid_roundtrip (u : Uuid) : uuid_parse (uuid_hyphenated u) = Some u
}.

Inductive Thread (ServiceId : Type) : Type :=
| ThreadContact (s : ServiceId)
| ThreadGroup (master_key : bytes).
Arguments ThreadContact {ServiceId} s.
Arguments ThreadGroup {ServiceId} master_key.

(** ** Dictionary names and key derivations *)
Definition DICT_CONTACTS : string := "signal.contacts".
Definition DICT_GROUPS : string := "signal.groups".
Definition DICT_GROUP_AVATARS : string := "signal.group_avatars".
Definition DICT_PROFILES : string := "signal.profiles".
Definition DICT_PROFILE_KEYS : string := "signal.profile_keys".
Definition DICT_PROFILE_AVATARS : string := "signal.profile_avatars".
Definition DICT_STICKER_PACKS : string := "signal.sticker_packs".
Definition THREAD_DICT_PREFIX : string := "signal.threads.".

Fixpoint hex_encode (b : bytes) : string :=
  match b with
  | [] => ""
  | x :: b' => hex_fixed 2 (Byte.to_N x) +:+ hex_encode b'
  end.

Definition group_key (master_key : bytes) : string := hex_encode master_key.
Definition sticker_pack_key (id : bytes) : string := hex_encode id.
Definition message_key (ts : N) : string := hex_fixed 16 ts.

Section keys.
Context `{!Digests} {ServiceId Uuid ProfileKey : Type} `{!ServiceIdText ServiceId} `{!UuidBytes Uuid}
  `{!ProfileKeyBytes ProfileKey}.

Definition profile_dict_key (uuid : Uuid) (key : ProfileKey) : string :=
  sha256_hex (uuid_as_bytes uuid ++ profile_key_bytes key).

Definition thread_dict_name (t : Thread ServiceId) : string :=
  let key := match t with
             | ThreadContact s => "contact:" +:+ service_id_string s
             | ThreadGroup mk => "group:" +:+ base64_encode mk
             end in
  THREAD_DICT_PREFIX +:+ sha256_hex (as_bytes key).
End keys.

(** [&s[i..j]]: a panic ([None]) off a character boundary or out of range. *)
Definition is_char_boundary (s : string) (i : nat) : bool :=
  if i =? 0 then true
  else match String.get i s with
       | Some c => negb (ascii_cont c)
       | None => i =? slen s
       end.
Definition slice_str (s : string) (i j : nat) : option string :=
  if is_char_boundary s i && is_char_boundary s j && (i <=? j) then Some (String.substring i (j - i) s)
  else None.

(** The 32 two-digit slices. Outer [None]: a slice panicked. *)
Fixpoint parse_hex_pairs (n i : nat) (hex : string) : option (result bytes Error) :=
  match n with
  | O => Some (Ok [])
  | S n' =>
      d ← slice_str hex (2 * i) (2 * i + 2);
      match parse_u8_hex d with
      | None => Some (Err (Decode "hex parse: invalid digit found in string"))
      | Some x =>
          r ← parse_hex_pairs n' (S i) hex;
          Some (match r with Ok bs => Ok (default x00 (Byte.of_N x) :: bs) | Err e => Err e end)
      end
  end.

Definition parse_hex_master_key (hex : string) : option (result bytes Error) :=
  if negb (slen hex =? 64) then
    Some (Err (Decode ("group key not 64 hex chars: " +:+ pretty (slen hex) +:+ " chars")))
  else parse_hex_pairs 32 0 hex.

(** ** Ranges *)
Inductive Bound : Type := Included (n : N) | Excluded (n : N) | Unbounded.

Definition range_contains_u64 (range : Bound * Bound) (value : N) : bool :=
  let after_start := match range.1 with
                     | Included s => (s <=? value)%N
                     | Excluded s => (s <? value)%N
                     | Unbounded => true
                     end in
  let before_end := match range.2 with
                    | Included e => (value <=? e)%N
                    | Excluded e => (value <? e)%N
                    | Unbounded => true
                    end in
  after_start && before_end.

(** ** JSON helpers of [lib.rs] *)
Section json.
Context {St : Type} `{!KvBackend St} {T : Type} `{!Json T}.

Definition backend_get_json (dict key : string) : M St Error (option T) :=
  let* v := kv_get dict key in
  match v with
  | Some b => let* x := mlift (map_err Decode (from_slice b)) in mok (Some x)
  | None => mok None
  end.

Definition backend_put_json (dict key : string) (value : T) : M St Error unit :=
  let* b := mlift (map_err Encode (to_vec value)) in kv_put dict key b.

Definition backend_get_json_required (dict key missing_msg : string) : M St Error T :=
  let* v := kv_get dict key in
  match v with
  | Some b => mlift (map_err Decode (from_slice b))
  | None => merr (Backend missing_msg)
  end.

(** [keys.into_iter().map(f).collect::<Vec<Result<_, _>>>()]: every item is
    computed, errors are items. *)
Fixpoint collect_results {A B} (f : A -> M St Error B) (xs : list A) : M St Error (list (result B Error)) :=
  match xs with
  | [] => mok []
  | x :: xs' =>
      let* r := mtry (f x) in
      let* rs := collect_results f xs' in
      mok (r :: rs)
  end.
End json.

(** ** Stored messages *)
Record StoredMessage : Type := mkStored {
  sm_sender : string;
  sm_destination : string;
  sm_sender_device : N;
  sm_server_guid : option string;
  sm_timestamp : N;
  sm_needs_receipt : bool;
  sm_unidentified_sender : bool;
  sm_was_plaintext : bool;
  sm_body_proto : bytes
}.

Section contents.
Context `{!Digests} `{SignalMisc}
  {St ServiceId Uuid Body Proto Profile ProfileKey Contact Group StickerPack : Type}
  `{!KvBackend St} `{!ServiceIdText ServiceId} `{!UuidText Uuid} `{!UuidBytes Uuid}
  `{!ProfileKeyBytes ProfileKey} `{!ContentCodec ServiceId Uuid Body Proto}
  `{!Json Profile} `{!Json ProfileKey} `{!Json Contact} `{!Json Group} `{!Json StickerPack}
  `{!Json StoredMessage}.
(** [contact.uuid], [pack.id]. *)
Variable contact_uuid : Contact -> Uuid.
Variable pack_id : StickerPack -> bytes.
Abbreviation Msg := (Content ServiceId Uuid Body).

Definition from_content (c : Msg) : StoredMessage :=
  let md := metadata c in
  mkStored (service_id_string (sender md)) (service_id_string (destination md)) (sender_device md)
    (uuid_hyphenated <$> server_guid md) (timestamp md) (needs_receipt md) (unidentified_sender md)
    (was_plaintext md) (body_encode (body c)).

Definition into_content (s : StoredMessage) : result Msg Error :=
  match proto_decode (sm_body_proto s) with
  | Err e => Err (Decode ("body_proto decode: " +:+ e))
  | Ok proto =>
      match parse_service_id (sm_sender s) with
      | None => Err (Decode ("invalid sender service id: " +:+ sm_sender s))
      | Some snd =>
          match parse_service_id (sm_destination s) with
          | None => Err (Decode ("invalid destination service id: " +:+ sm_destination s))
          | Some dst =>
              let guid := sm_server_guid s ≫= uuid_parse in
              if device_id_valid (sm_sender_device s) then
                let md := mkMetadata snd dst (sm_sender_device s) guid (sm_timestamp s)
                            (sm_needs_receipt s) (sm_unidentified_sender s) (sm_was_plaintext s) in
                match body_from_proto proto md with
                | Ok b => Ok (mkContent md b)
                | Err e => Err (Decode ("Content::from_proto: " +:+ e))
                end
              else Err (Decode ("sender_device: " +:+ device_id_error (sm_sender_device s)))
          end
      end
  end.

(** ** Profiles *)
Definition save_profile (uuid : Uuid) (key : ProfileKey) (p : Profile) : M St Error unit :=
  backend_put_json DICT_PROFILES (profile_dict_key uuid key) p.
Definition profile (uuid : Uuid) (key : ProfileKey) : M St Error (option Profile) :=
  backend_get_json DICT_PROFILES (profile_dict_key uuid key).
Definition save_profile_avatar (uuid : Uuid) (key : ProfileKey) (avatar : bytes) : M St Error unit :=
  kv_put DICT_PROFILE_AVATARS (profile_dict_key uuid key) avatar.
Definition profile_avatar (uuid : Uuid) (key : ProfileKey) : M St Error (option bytes) :=
  kv_get DICT_PROFILE_AVATARS (profile_dict_key uuid key).

Definition serialize_profile_key (pk : ProfileKey) : result bytes Error := map_err Encode (to_vec pk).
Definition deserialize_profile_key (b : bytes) : result ProfileKey Error := map_err Decode (from_slice b).

(** [true] when there was no key before. *)
Definition upsert_profile_key (uuid : Uuid) (key : ProfileKey) : M St Error bool :=
  let dict_key := uuid_hyphenated uuid in
  let* prior := kv_get DICT_PROFILE_KEYS dict_key in
  let* new_bytes := mlift (serialize_profile_key key) in
  kv_put DICT_PROFILE_KEYS dict_key new_bytes ;*
  mok (match prior with None => true | Some _ => false end).

Definition profile_key (s : ServiceId) : M St Error (option ProfileKey) :=
  let* v := kv_get DICT_PROFILE_KEYS (raw_uuid_string s) in
  match v with
  | Some b => let* k := mlift (deserialize_profile_key b) in mok (Some k)
  | None => mok None
  end.

Definition clear_profiles : M St Error unit :=
  kv_delete_dict DICT_PROFILES ;* (kv_delete_dict DICT_PROFILE_KEYS ;* kv_delete_dict DICT_PROFILE_AVATARS).

(** ** Contacts *)
Definition save_contact (c : Contact) : M St Error unit :=
  backend_put_json DICT_CONTACTS (uuid_hyphenated (contact_uuid c)) c.
Definition contacts : M St Error (list (result Contact Error)) :=
  let* keys := kv_list_keys DICT_CONTACTS in
  collect_results (fun k => backend_get_json_required DICT_CONTACTS k ("contact disappeared: " +:+ k)) keys.
Definition contact_by_id (s : ServiceId) : M St Error (option Contact) :=
  backend_get_json DICT_CONTACTS (raw_uuid_string s).
Definition clear_contacts : M St Error unit := kv_delete_dict DICT_CONTACTS.

(** ** Groups *)
Definition save_group (master_key : bytes) (g : Group) : M St Error unit :=
  backend_put_json DICT_GROUPS (group_key master_key) g.

(** [None]: the hex slicing of a stray key panicked. *)
Fixpoint groups_go (keys : list string) : M St Error (option (list (result (bytes * Group) Error))) :=
  match keys with
  | [] => mok (Some [])
  | k :: keys' =>
      let* r := mtry (backend_get_json_required DICT_GROUPS k ("group disappeared: " +:+ k)) in
      let item := match r with
                  | Err e => Some (Err e)
                  | Ok g => match parse_hex_master_key k with
                            | Some (Ok mk) => Some (Ok (mk, g))
                            | Some (Err e) => Some (Err e)
                            | None => None
                            end
                  end in
      match item with
      | None => mok None
      | Some x =>
          let* rest := groups_go keys' in
          mok (xs ← rest; Some (x :: xs))
      end
  end.
Definition groups : M St Error (option (list (result (bytes * Group) Error))) :=
  let* keys := kv_list_keys DICT_GROUPS in groups_go keys.
Definition group (master_key : bytes) : M St Error (option Group) :=
  backend_get_json DICT_GROUPS (group_key master_key).
Definition save_group_avatar (master_key avatar : bytes) : M St Error unit :=
  kv_put DICT_GROUP_AVATARS (group_key master_key) avatar.
Definition group_avatar (master_key : bytes) : M St Error (option bytes) :=
  kv_get DICT_GROUP_AVATARS (group_key master_key).
Definition clear_groups : M St Error unit := kv_delete_dict DICT_GROUPS ;* kv_delete_dict DICT_GROUP_AVATARS.

(** ** Sticker packs *)
Definition add_sticker_pack (p : StickerPack) : M St Error unit :=
  backend_put_json DICT_STICKER_PACKS (sticker_pack_key (pack_id p)) p.
Definition sticker_pack (id : bytes) : M St Error (option StickerPack) :=
  backend_get_json DICT_STICKER_PACKS (sticker_pack_key id).

(** [get(..)?.is_some()] then [delete]. *)
Definition delete_existing (dict key : string) : M St Error bool :=
  let* v := kv_get dict key in
  kv_delete dict key ;*
  mok (match v with Some _ => true | None => false end).

Definition remove_sticker_pack (id : bytes) : M St Error bool :=
  delete_existing DICT_STICKER_PACKS (sticker_pack_key id).
Definition sticker_packs : M St Error (list (result StickerPack Error)) :=
  let* keys := kv_list_keys DICT_STICKER_PACKS in
  collect_results (fun k => backend_get_json_required DICT_STICKER_PACKS k
                              ("sticker pack disappeared: " +:+ k)) keys.

(** ** Messages *)
Definition save_message (t : Thread ServiceId) (m : Msg) : M St Error unit :=
  backend_put_json (thread_dict_name t) (message_key (timestamp (metadata m))) (from_content m).
Definition delete_message (t : Thread ServiceId) (ts : N) : M St Error bool :=
  delete_existing (thread_dict_name t) (message_key ts).
Definition message (t : Thread ServiceId) (ts : N) : M St Error (option Msg) :=
  let* s := backend_get_json (thread_dict_name t) (message_key ts) in
  match s with
  | Some s => let* c := mlift (into_content s) in mok (Some c)
  | None => mok None
  end.

Definition message_timestamps (range : Bound * Bound) (keys : list string) : list N :=
  merge_sort N.le (filter (fun ts => range_contains_u64 range ts = true) (omap parse_u64_hex keys)).

Definition load_message (dict : string) (ts : N) : M St Error Msg :=
  let key := message_key ts in
  let* s := backend_get_json_required dict key ("message disappeared: " +:+ key) in
  mlift (into_content s).

Definition messages (t : Thread ServiceId) (range : Bound * Bound) : M St Error (list (result Msg Error)) :=
  let dict := thread_dict_name t in
  let* keys := kv_list_keys dict in
  collect_results (load_message dict) (message_timestamps range keys).

Definition clear_thread (t : Thread ServiceId) : M St Error unit := kv_delete_dict (thread_dict_name t).
Definition clear_messages : M St Error unit := mok tt.
Definition clear_contents : M St Error unit :=
  kv_delete_dict DICT_CONTACTS ;*
  (kv_delete_dict DICT_GROUPS ;* (kv_delete_dict DICT_GROUP_AVATARS ;* clear_profiles)).
End contents.

(** ** Hexadecimal keys *)
Definition hex_char (c : ascii) : bool := negb (ascii_cont c).

Lemma hex_digit_not_cont n : (n < 16)%N -> hex_char (hex_digit n) = true.
Proof. revert n. by apply below16_cases. Qed.

Lemma hex_fixed_forall w n : string_forall hex_char (hex_fixed w n) = true.
Proof.
  revert n. induction w as [|w IH]; intros n; [done|]. simpl. rewrite string_forall_app, IH. simpl.
  rewrite hex_digit_not_cont; [done|]. apply N.mod_lt. lia.
Qed.

Lemma hex_encode_forall b : string_forall hex_char (hex_encode b) = true.
Proof. induction b as [|x b IH]; [done|]. cbn [hex_encode]. by rewrite string_forall_app, hex_fixed_forall, IH. Qed.

Lemma hex_encode_length b : slen (hex_encode b) = 2 * length b.
Proof. induction b as [|x b IH]; [done|]. cbn [hex_encode length]. rewrite slen_app, hex_fixed_length, IH. lia. Qed.

Lemma get_forall p s i c : string_forall p s = true -> String.get i s = Some c -> p c = true.
Proof.
  revert i. induction s as [|a s IH]; intros i; [done|]. cbn [string_forall]. intros [Ha Hs]%andb_true_iff.
  destruct i as [|i]; simpl; [by intros [= <-]|by apply IH].
Qed.

Lemma get_None s i : String.get i s = None -> slen s <= i.
Proof.
  revert i. induction s as [|a s IH]; intros i; [unfold slen; simpl; lia|].
  destruct i as [|i]; [done|]. simpl. intros Hi%IH. unfold slen in *. simpl. lia.
Qed.

Lemma char_boundary_ascii s i : string_forall hex_char s = true -> i <= slen s -> is_char_boundary s i = true.
Proof.
  intros Hs Hi. unfold is_char_boundary. destruct (i =? 0); [done|].
  destruct (String.get i s) as [c|] eqn:Hg; [exact (get_forall _ _ _ _ Hs Hg)|].
  apply get_None in Hg. apply Nat.eqb_eq. lia.
Qed.

Lemma substring_app pre d post :
  String.substring (slen pre) (slen d) (pre +:+ (d +:+ post)) = d.
Proof.
  induction pre as [|c pre IH].
  - rewrite sapp_nil_l. unfold slen. simpl. induction d as [|a d IHd].
    + rewrite sapp_nil_l. by destruct post.
    + rewrite sapp_cons. simpl. f_equal. apply IHd.
  - rewrite sapp_cons. apply IH.
Qed.

Lemma parse_hex_pairs_encode pre b :
  string_forall hex_char pre = true -> forall i, slen pre = 2 * i ->
  parse_hex_pairs (length b) i (pre +:+ hex_encode b) = Some (Ok b).
Proof.
  revert pre. induction b as [|x b IH]; intros pre Hpre i Hi; [done|].
  cbn [length parse_hex_pairs hex_encode].
  assert (Hall : string_forall hex_char (pre +:+ hex_fixed 2 (Byte.to_N x) +:+ hex_encode b) = true).
  { by rewrite !string_forall_app, Hpre, hex_fixed_forall, hex_encode_forall. }
  assert (Hlen : slen (pre +:+ hex_fixed 2 (Byte.to_N x) +:+ hex_encode b) = 2 * i + 2 + 2 * length b).
  { rewrite !slen_app, hex_fixed_length, hex_encode_length. lia. }
  unfold slice_str. rewrite !char_boundary_ascii by (done || lia).
  replace (2 * i <=? 2 * i + 2) with true by (symmetry; apply Nat.leb_le; lia). cbn [andb].
  replace (2 * i + 2 - 2 * i) with (slen (hex_fixed 2 (Byte.to_N x))) by (rewrite hex_fixed_length; lia).
  rewrite <- Hi at 1. rewrite substring_app. cbn [base.mbind option_bind].
  pose proof (Byte.to_N_bounded x) as Hx.
  unfold parse_u8_hex. rewrite from_str_radix_hex_fixed; [|lia|simpl; lia|unfold u8_max; lia].
  rewrite <- sapp_assoc, IH.
  - cbn. by rewrite Byte.of_to_N.
  - by rewrite string_forall_app, Hpre, hex_fixed_forall.
  - rewrite slen_app, hex_fixed_length. lia.
Qed.

Lemma parse_group_key mk : length mk = 32 -> parse_hex_master_key (group_key mk) = Some (Ok mk).
Proof.
  intros Hl. unfold parse_hex_master_key, group_key. rewrite hex_encode_length, Hl.
  pose proof (parse_hex_pairs_encode "" mk eq_refl 0 eq_refl) as Hp. rewrite Hl in Hp. exact Hp.
Qed.

Lemma message_key_parse ts : (ts <= u64_max)%N -> parse_u64_hex (message_key ts) = Some ts.
Proof.
  intros Ht. apply from_str_radix_hex_fixed; [lia| |done].
  unfold u64_max in Ht. change (16 ^ N.of_nat 16)%N with 18446744073709551616%N. lia.
Qed.

Lemma NoDup_omap_inj {A B} (f : A -> option B) (l : list A) :
  (forall x y z, x ∈ l -> y ∈ l -> f x = Some z -> f y = Some z -> x = y) -> NoDup l -> NoDup (omap f l).
Proof.
  intros Hf. induction 1 as [|x l Hn Hnd IH]; [constructor|]. simpl.
  assert (IH' : NoDup (omap f l)).
  { apply IH. intros a b z Ha Hb. apply Hf; by right. }
  destruct (f x) as [z|] eqn:Hx; [|done]. apply NoDup_cons. split; [|done].
  intros (y & Hy & Hz)%list_elem_of_omap. apply Hn. by rewrite (Hf x y z ltac:(left) ltac:(by right) Hx Hz).
Qed.

(** ** Properties *)
Section properties.
Context `{!Digests} `{SignalMisc} {St ServiceId Uuid Body Proto : Type}
  `{KvLaws St} `{!ServiceIdText ServiceId} `{!UuidText Uuid}
  `{ContentCodecLaws ServiceId Uuid Body Proto} `{JsonLaws StoredMessage}.
Abbreviation Msg := (Content ServiceId Uuid Body).
Abbreviation contents_messages := (messages (Body := Body) (Proto := Proto) (Uuid := Uuid)).

Lemma get_json_view {T} `{!Json T} d k (s s' : St) r :
  backend_get_json (T := T) d k s = (r, s') ->
  kv_view s' = kv_view s /\
  forall o, r = Ok o -> match kv_view s !! (d, k) with
                   | None => o = None
                   | Some b => exists x, from_slice b = Ok x /\ o = Some x
                   end.
Proof.
  unfold backend_get_json. intros [(v & s1 & Hg & Hm)|(e & Hg & ->)]%mbind_inv;
    apply kv_get_law in Hg as [Hv Hr]; [|done].
  specialize (Hr _ eq_refl). subst v. destruct (kv_view s !! (d, k)) as [b|].
  - unfold mlift, mbind in Hm. destruct (from_slice b) as [x|] eqn:Hb; injection Hm as <- <-; (split; [done|]).
    + intros o [= <-]. by exists x.
    + by intros.
  - injection Hm as <- <-. split; [done|]. by intros o [= <-].
Qed.

Lemma put_json_view {T} `{!Json T} d k (x : T) (s s' : St) u :
  backend_put_json d k x s = (Ok u, s') ->
  exists b, to_vec x = Ok b /\ kv_view s' = <[(d, k) := b]> (kv_view s).
Proof.
  unfold backend_put_json, mlift, mbind. destruct (to_vec x) as [b|]; [|done].
  intros Hp%kv_put_ok. by exists b.
Qed.

Lemma into_from_content (m : Msg) :
  device_id_valid (sender_device (metadata m)) = true -> into_content (Proto := Proto) (from_content m) = Ok m.
Proof.
  intros Hd. destruct m as [[snd dst dev guid ts nr us wp] b]. unfold into_content, from_content. cbn in *.
  rewrite !service_id_roundtrip, Hd.
  assert (Hg : (uuid_hyphenated <$> guid) ≫= uuid_parse = guid).
  { destruct guid as [u|]; [|done]. cbn. by rewrite (uuid_roundtrip (Proto := Proto) (Body := Body) (ServiceId := ServiceId)). }
  rewrite Hg. destruct (body_roundtrip (Proto := Proto) b (mkMetadata snd dst dev guid ts nr us wp)) as (p & Hp & Hb).
  by rewrite Hp, Hb.
Qed.

(** What is saved is read back. A message saved to a thread is returned by a
    read of its timestamp exactly as it was (metadata and body), and the key of a
    group parses back to the group's master key. *)
Theorem message_and_group_key_roundtrip (t : Thread ServiceId) (m : Msg) (s s1 s2 : St) u o mk :
  device_id_valid (sender_device (metadata m)) = true ->
  save_message (Proto := Proto) t m s = (Ok u, s1) ->
  message (Body := Body) (Proto := Proto) (Uuid := Uuid) t (timestamp (metadata m)) s1 = (Ok o, s2) ->
  length mk = 32 ->
  o = Some m /\ parse_hex_master_key (group_key mk) = Some (Ok mk).
Proof.
  intros Hd Hs Hm Hmk. split; [|by apply parse_group_key].
  apply put_json_view in Hs as (b & Hb & Hv).
  apply mbind_inv_ok in Hm as (x & s3 & Hg & Hm). apply get_json_view in Hg as [_ Hr].
  specialize (Hr _ eq_refl). rewrite Hv, lookup_insert_eq in Hr. destruct Hr as (st & Hst & ->).
  rewrite (json_roundtrip _ _ Hb) in Hst. injection Hst as <-.
  unfold mlift, mbind in Hm. rewrite into_from_content in Hm by done. by injection Hm as <-.
Qed.

Lemma collect_results_spec {A B} (f : A -> M St Error B) (Q : A -> B -> Prop) (m : kv_map) xs (s s' : St) rs :
  (forall x s r s', kv_view s = m -> f x s = (r, s') ->
     kv_view s' = m /\ forall y, r = Ok y -> Q x y) ->
  kv_view s = m -> collect_results f xs s = (Ok rs, s') ->
  kv_view s' = m /\ Forall2 (fun x r => forall y, r = Ok y -> Q x y) xs rs.
Proof.
  intros Hf. revert s rs. induction xs as [|x xs IH]; intros s rs Hs Hr; simpl in Hr.
  { injection Hr as <- <-. split; [done|constructor]. }
  apply mbind_inv_ok in Hr as (r & s1 & Hx & Hr). apply mbind_inv_ok in Hr as (rs' & s2 & Hxs & Hr).
  injection Hr as <- <-. unfold mtry in Hx. destruct (f x s) as [r0 s0] eqn:Hfx. injection Hx as <- <-.
  apply Hf in Hfx as [Hv HQ]; [|done]. apply IH in Hxs as [Hv2 HF]; [|done]. split; [done|]. by constructor.
Qed.

(** The timestamps a pair of bounds stands for. *)
Definition within (range : Bound * Bound) (ts : N) : Prop :=
  match range.1 with Included a => (a <= ts)%N | Excluded a => (a < ts)%N | Unbounded => True end /\
  match range.2 with Included b => (ts <= b)%N | Excluded b => (ts < b)%N | Unbounded => True end.

Lemma range_contains_within range ts : range_contains_u64 range ts = true <-> within range ts.
Proof.
  unfold range_contains_u64, within. rewrite andb_true_iff.
  destruct range as [[] []]; cbn [fst snd]; rewrite ?N.leb_le, ?N.ltb_lt; naive_solver.
Qed.

(** [messages] answers a range query. When the keys of the thread's
    dictionary are message keys, the items are, in strictly increasing timestamp
    order, exactly the stored messages whose timestamp lies in the range, and an
    item that is a message is the one stored under its timestamp. *)
Theorem messages_answer_range (t : Thread ServiceId) range (s s' : St) items :
  contents_messages t range s = (Ok items, s') ->
  (forall k, is_Some (kv_view s !! (thread_dict_name t, k)) ->
     exists ts, (ts <= u64_max)%N /\ k = message_key ts) ->
  kv_view s' = kv_view s /\
  exists tss, Sorted N.le tss /\ NoDup tss /\
    (forall ts, ts ∈ tss <-> (ts <= u64_max)%N /\ within range ts /\
       is_Some (kv_view s !! (thread_dict_name t, message_key ts))) /\
    Forall2 (fun ts r => forall m, r = Ok m ->
       exists b st, kv_view s !! (thread_dict_name t, message_key ts) = Some b /\
         from_slice b = Ok st /\ into_content (Proto := Proto) st = Ok m) tss items.
Proof.
  intros Hm Hkeys. apply mbind_inv_ok in Hm as (keys & s1 & Hl & Hm).
  apply kv_list_keys_law in Hl as [Hv Hks]. destruct (Hks _ eq_refl) as [Hnd Hmem]. clear Hks.
  assert (Hperm := merge_sort_Permutation N.le
    (filter (fun ts => range_contains_u64 range ts = true) (omap parse_u64_hex keys))).
  fold (message_timestamps range keys) in Hperm.
  eapply (collect_results_spec _ (fun ts m => exists b st,
      kv_view s !! (thread_dict_name t, message_key ts) = Some b /\
      from_slice b = Ok st /\ into_content st = Ok m)) in Hm as [Hv2 HF]; [| |exact Hv].
  2:{ intros ts z r z' Hz Hr. unfold load_message, backend_get_json_required in Hr.
      apply mbind_inv in Hr as [(st & z1 & Hg & Hr)|(e & Hg & ->)].
      - apply mbind_inv_ok in Hg as (v & z2 & Hg & Hd). apply kv_get_law in Hg as [Hv3 Hval].
        specialize (Hval _ eq_refl). subst v. rewrite Hz in *.
        destruct (kv_view s !! _) as [b|]; [|done]. unfold mlift in Hd, Hr.
        destruct (from_slice b) as [st'|] eqn:Hb; [|done]. injection Hd as <- <-. injection Hr as <- <-.
        split; [done|]. intros m Hi. eauto.
      - split; [|by intros]. apply mbind_inv in Hg as [(v & z2 & Hg & Hd)|(e2 & Hg & _)];
          apply kv_get_law in Hg as [Hv3 _]; [|congruence].
        destruct v; [unfold mlift in Hd|]; injection Hd as _ <-; congruence. }
  split; [done|]. exists (message_timestamps range keys). split; [apply Sorted_merge_sort; apply _|].
  assert (Hcanon : forall k, k ∈ keys -> exists ts, (ts <= u64_max)%N /\ k = message_key ts /\ parse_u64_hex k = Some ts).
  { intros k Hk. apply Hmem in Hk. apply Hkeys in Hk as (ts & Hts & ->). exists ts.
    split; [done|]. split; [done|]. by apply message_key_parse. }
  split; [|split; [|done]].
  - rewrite Hperm. apply NoDup_filter, NoDup_omap_inj; [|done].
    intros k1 k2 z Hk1 Hk2 Hz1 Hz2.
    destruct (Hcanon k1 Hk1) as (ts1 & _ & -> & Hp1). destruct (Hcanon k2 Hk2) as (ts2 & _ & -> & Hp2).
    congruence.
  - intros ts. rewrite <- range_contains_within, Hperm, list_elem_of_filter, list_elem_of_omap. split.
    + intros [Hr (k & Hk & Hp)]. pose proof Hk as Hk2. apply Hcanon in Hk as (ts2 & Hts & -> & Hp2).
      rewrite Hp in Hp2. injection Hp2 as ->. split; [done|]. split; [done|]. by apply Hmem.
    + intros (Hts & Hr & Hin). split; [done|]. exists (message_key ts).
      split; [by apply Hmem|]. by apply message_key_parse.
Qed.
End properties.
