(* ===== verification/Store.v ===== *)
(** * Account state and the whole-store operations
    ([presage-store-pddb/src/state.rs], [store.rs], [lib.rs])

    The state dictionary, [Store::clear], the stale-store probe
    [has_account_state], and the layout theorem: every entry the store puts has
    a place of its own, with a dictionary name and a key short enough for the wire. *)
From Stdlib Require Import Ascii.
From S2P Require Import Prelude Codec Utf8 Kv Wire Protocol Sessions Contents.

(** ** State ([state.rs]) *)
Definition KEY_REGISTRATION : string := "registration".
Definition KEY_ACI_IDENTITY_KEY_PAIR : string := "aci_identity_key_pair".
Definition KEY_PNI_IDENTITY_KEY_PAIR : string := "pni_identity_key_pair".
Definition KEY_SENDER_CERTIFICATE : string := "sender_certificate".
Definition KEY_MASTER_KEY : string := "master_key".

(** [MasterKey::from_slice] and [master_key.inner]; [RegistrationData]'s fields
    the store reads. *)
Class MasterKeyBytes (MasterKey : Type) : Type := {
  master_key_from_slice : bytes -> result MasterKey string;
  master_key_inner : MasterKey -> bytes
}.
Class RegistrationId (RegistrationData : Type) : Type := registration_id : RegistrationData -> N.

Section state.
Context `{!SignalMisc} {St RegistrationData IdentityKeyPair SenderCertificate MasterKey : Type}
  `{!KvBackend St} `{!Json RegistrationData} `{!RegistrationId RegistrationData}
  `{!KeyBytes IdentityKeyPair} `{!WireRecord SenderCertificate} `{!MasterKeyBytes MasterKey}.

Definition load_registration_data : M St Error (option RegistrationData) :=
  backend_get_json STATE_DICT KEY_REGISTRATION.

Definition set_aci_identity_key_pair (key_pair : IdentityKeyPair) : M St Error unit :=
  kv_put STATE_DICT KEY_ACI_IDENTITY_KEY_PAIR (key_serialize key_pair).
Definition set_pni_identity_key_pair (key_pair : IdentityKeyPair) : M St Error unit :=
  kv_put STATE_DICT KEY_PNI_IDENTITY_KEY_PAIR (key_serialize key_pair).

Definition save_registration_data (state : RegistrationData) : M St Error unit :=
  backend_put_json STATE_DICT KEY_REGISTRATION state.

(** [?] on a [SignalProtocolError] is [Error::Protocol]. *)
Definition from_protocol {A} (r : result A SignalProtocolError) : result A Error :=
  map_err (fun e => Kv.Protocol (protocol_error_to_string e)) r.

Definition sender_certificate : M St Error (option SenderCertificate) :=
  let* v := kv_get STATE_DICT KEY_SENDER_CERTIFICATE in
  match v with
  | Some b => let* c := mlift (from_protocol (rec_deserialize b)) in mok (Some c)
  | None => mok None
  end.
Definition save_sender_certificate (c : SenderCertificate) : M St Error unit :=
  let* b := mlift (from_protocol (rec_serialize c)) in
  kv_put STATE_DICT KEY_SENDER_CERTIFICATE b.

(** [load().await.ok().flatten().is_some()]. *)
Definition is_registered (s : St) : bool * St :=
  let '(r, s') := load_registration_data s in
  (match r with Ok (Some _) => true | _ => false end, s').

Definition clear_registration : M St Error unit := kv_delete_dict STATE_DICT.

Definition fetch_master_key : M St Error (option MasterKey) :=
  let* v := kv_get STATE_DICT KEY_MASTER_KEY in
  match v with
  | Some b => match master_key_from_slice b with
              | Ok k => mok (Some k)
              | Err e => merr (Decode ("master key length: " +:+ e))
              end
  | None => mok None
  end.
Definition store_master_key (k : option MasterKey) : M St Error unit :=
  match k with
  | Some k => kv_put STATE_DICT KEY_MASTER_KEY (master_key_inner k)
  | None => kv_delete STATE_DICT KEY_MASTER_KEY
  end.

(** [identity_key_store.rs]. *)
Definition get_local_registration_id : M St SignalProtocolError N :=
  let* d := mmap_err (fun e => InvalidState "get_local_registration_id" (error_to_string e))
              load_registration_data in
  match d with
  | Some d => mok (registration_id d)
  | None => merr (InvalidState "get_local_registration_id" "no registration data")
  end.
End state.

(** ** [Store::clear] and [has_account_state] *)
Definition protocol_dicts (i : IdentityType) : list string :=
  [dict_session i; dict_identity i; dict_prekey_bundle i; dict_signed_prekey i; dict_kyber_prekey i;
   dict_kyber_meta i; dict_sender_key i].

Section whole_store.
Context {St SessionRecord : Type} `{!KvBackend St}.
Abbreviation P := (PddbStore St SessionRecord).

(** [if let Ok(mut g) = lock() { g.clear() }], for the cache and the dirty set. *)
Definition clear_cache (p : P) : P :=
  let p1 := if cache_poisoned p then p else set_cache ∅ p in
  if dirty_poisoned p1 then p1 else set_dirty ∅ p1.

Definition clear : M P Error unit :=
  on_backend clear_registration ;*
  (on_backend clear_contents ;*
   (on_backend (mfor (protocol_dicts Aci) kv_delete_dict) ;*
    (on_backend (mfor (protocol_dicts Pni) kv_delete_dict) ;*
     mmodify clear_cache))).

(** A dictionary whose listing fails counts as empty. *)
Fixpoint any_keys (dicts : list string) (s : St) : bool * St :=
  match dicts with
  | [] => (false, s)
  | d :: dicts' =>
      match kv_list_keys d s with
      | (Ok (_ :: _), s') => (true, s')
      | (_, s') => any_keys dicts' s'
      end
  end.

Definition account_dicts : list string := STATE_DICT :: protocol_dicts Aci ++ protocol_dicts Pni.

Definition has_account_state (p : P) : bool * P :=
  let '(r, s) := any_keys account_dicts (backend p) in (r, set_backend s p).
End whole_store.

(** ** Properties *)
Definition contents_dicts : list string :=
  [DICT_CONTACTS; DICT_GROUPS; DICT_GROUP_AVATARS; DICT_PROFILES; DICT_PROFILE_KEYS; DICT_PROFILE_AVATARS].

(** Every fixed dictionary name of the store. *)
Definition all_dicts : list string := account_dicts ++ contents_dicts ++ [DICT_STICKER_PACKS].

Section clear_props.
Context {St SessionRecord ServiceId : Type} `{KvLaws St} `{!WireRecord SessionRecord} `{!Digests}
  `{!ServiceIdText ServiceId}.
Abbreviation P := (PddbStore St SessionRecord).

Definition drop_dicts (ds : list string) (m : kv_map) : kv_map := foldl (fun m d => drop_dict d m) m ds.

Lemma lookup_drop_dicts ds m d k :
  drop_dicts ds m !! (d, k) = if decide (d ∈ ds) then None else m !! (d, k).
Proof.
  unfold drop_dicts. revert m. induction ds as [|d0 ds IH]; intros m; cbn [foldl].
  { case_decide as Hd; [by apply elem_of_nil in Hd|done]. }
  rewrite IH, lookup_drop_dict. repeat case_decide; rewrite ?elem_of_cons in *; naive_solver.
Qed.

Lemma delete_dicts_spec ds (s s' : St) u :
  mfor ds kv_delete_dict s = (Ok u, s') -> kv_view s' = drop_dicts ds (kv_view s).
Proof.
  unfold drop_dicts. revert s. induction ds as [|d ds IH]; intros s Hr; simpl in *; mstep_all; [done|].
  apply kv_delete_dict_ok in Hrun. apply IH in Hr. by rewrite Hr, Hrun.
Qed.

Lemma clear_contents_spec (s s' : St) u :
  clear_contents s = (Ok u, s') -> kv_view s' = drop_dicts contents_dicts (kv_view s).
Proof.
  unfold clear_contents, clear_profiles. intros Hr. mstep_all.
  repeat match goal with Hd : kv_delete_dict _ _ = (Ok _, _) |- _ => apply kv_delete_dict_ok in Hd end.
  unfold drop_dicts. simpl. congruence.
Qed.

Lemma drop_dicts_app ds1 ds2 m : drop_dicts (ds1 ++ ds2) m = drop_dicts ds2 (drop_dicts ds1 m).
Proof. apply foldl_app. Qed.

Lemma clear_view (p p' : P) u :
  clear p = (Ok u, p') ->
  kv_view (backend p') = drop_dicts (account_dicts ++ contents_dicts) (kv_view (backend p)) /\
  exists s, p' = clear_cache (set_backend s p).
Proof.
  unfold clear. intros Hr.
  apply mbind_inv_ok in Hr as (u1 & p1 & H1 & Hr). apply on_backend_inv in H1 as (s1 & H1 & ->).
  apply mbind_inv_ok in Hr as (u2 & p2 & H2 & Hr). apply on_backend_inv in H2 as (s2 & H2 & ->).
  apply mbind_inv_ok in Hr as (u3 & p3 & H3 & Hr). apply on_backend_inv in H3 as (s3 & H3 & ->).
  apply mbind_inv_ok in Hr as (u4 & p4 & H4 & Hr). apply on_backend_inv in H4 as (s4 & H4 & ->).
  injection Hr as _ <-. cbn [backend set_backend] in H1, H2, H3, H4.
  apply kv_delete_dict_ok in H1. apply clear_contents_spec in H2.
  apply delete_dicts_spec in H3. apply delete_dicts_spec in H4.
  split; [|by exists s4].
  assert (Hb : backend (clear_cache (set_backend s4 (set_backend s3 (set_backend s2 (set_backend s1 p))))) = s4).
  { unfold clear_cache. by destruct (cache_poisoned _), (dirty_poisoned _). }
  rewrite Hb, H4, H3, H2, H1. apply map_eq. intros [d k].
  rewrite !lookup_drop_dicts, lookup_drop_dict.
  unfold account_dicts. repeat case_decide; rewrite ?elem_of_app, ?elem_of_cons, ?elem_of_app in *; naive_solver.
Qed.

Lemma thread_not_fixed (t : Thread ServiceId) : thread_dict_name t ∉ all_dicts.
Proof.
  unfold thread_dict_name, all_dicts, account_dicts, contents_dicts, protocol_dicts.
  rewrite !elem_of_app, !elem_of_cons, !elem_of_app, !elem_of_cons, !elem_of_nil.
  unfold THREAD_DICT_PREFIX, dict_session, dict_identity, dict_prekey_bundle, dict_signed_prekey,
    dict_kyber_prekey, dict_kyber_meta, dict_sender_key. simpl as_str.
  intros Hin. repeat destruct Hin as [Hin|Hin]; try done; vm_compute in Hin; discriminate.
Qed.

(** The probe finds nothing in empty account dictionaries. *)
Lemma any_keys_none ds (s : St) :
  (forall d k, d ∈ ds -> kv_view s !! (d, k) = None) -> (any_keys ds s).1 = false.
Proof.
  revert s. induction ds as [|d ds IH]; intros s Hs; [done|]. simpl.
  destruct (kv_list_keys d s) as [r s1] eqn:Hl. apply kv_list_keys_law in Hl as [Hv1 Hks].
  assert (Hrest : (any_keys ds s1).1 = false).
  { apply IH. intros d' k Hd'. rewrite Hv1. apply Hs. by right. }
  destruct r as [[|k ks]|]; [done| |done]. destruct (Hks _ eq_refl) as [_ Hmem].
  destruct (proj1 (Hmem k)) as [v Hk]; [left|]. rewrite Hs in Hk; [done|left].
Qed.

Lemma has_account_state_none (p : P) :
  (forall d k, d ∈ account_dicts -> kv_view (backend p) !! (d, k) = None) -> (has_account_state p).1 = false.
Proof.
  intros Hp%any_keys_none. unfold has_account_state. by destruct (any_keys account_dicts (backend p)).
Qed.

Lemma any_keys_view ds (s : St) : kv_view (any_keys ds s).2 = kv_view s.
Proof.
  revert s. induction ds as [|d ds IH]; intros s; [done|]. simpl.
  destruct (kv_list_keys d s) as [r s1] eqn:Hl. apply kv_list_keys_law in Hl as [Hv1 _].
  destruct r as [[|k ks]|]; simpl; rewrite ?IH; done.
Qed.

Lemma clear_gone (p p' : P) u d k :
  clear p = (Ok u, p') -> d ∈ account_dicts ++ contents_dicts -> kv_view (backend p') !! (d, k) = None.
Proof. intros [-> _]%clear_view Hd. rewrite lookup_drop_dicts. by rewrite decide_True. Qed.

(** C23: what a successful [clear] removes, and what it leaves. Every key of the
    state dictionary, of the fourteen protocol dictionaries and of the contact,
    group and profile dictionaries is gone, the session cache and dirty set are
    empty (so a later flush writes nothing), and the account-state probe finds
    nothing; the sticker packs and the messages of every thread are left exactly
    as they were. *)
Theorem clear_wipes_account (p p' : P) u :
  clear p = (Ok u, p') ->
  (forall d k, d ∈ account_dicts ++ contents_dicts -> kv_view (backend p') !! (d, k) = None) /\
  (cache_poisoned p = false -> session_cache p' = ∅) /\
  (dirty_poisoned p = false -> session_dirty p' = ∅) /\
  (has_account_state p').1 = false /\
  (forall k, kv_view (backend p') !! (DICT_STICKER_PACKS, k) = kv_view (backend p) !! (DICT_STICKER_PACKS, k)) /\
  (forall (t : Thread ServiceId) k,
     kv_view (backend p') !! (thread_dict_name t, k) = kv_view (backend p) !! (thread_dict_name t, k)).
Proof.
  intros Hr. pose proof (fun d k => clear_gone p p' u d k Hr) as Hgone.
  apply clear_view in Hr as [Hv [s Hp]]. split; [done|]. split; [|split; [|split; [|split]]].
  - intros Hc. rewrite Hp. unfold clear_cache. simpl. rewrite Hc. simpl. by destruct (dirty_poisoned p).
  - intros Hd. rewrite Hp. unfold clear_cache. simpl. destruct (cache_poisoned p); simpl; by rewrite Hd.
  - apply has_account_state_none. intros d k Hd. apply Hgone, elem_of_app. by left.
  - intros k. rewrite Hv, lookup_drop_dicts. case_decide as Hd; [|done]. exfalso. revert Hd.
    apply (bool_decide_unpack _). vm_compute. exact I.
  - intros t k. rewrite Hv, lookup_drop_dicts. case_decide as Hd; [|done]. exfalso.
    apply (thread_not_fixed t). unfold all_dicts. rewrite app_assoc. apply elem_of_app. by left.
Qed.

(** The stale-store probe. It changes nothing; it answers [true] only when
    some account dictionary holds a key, and when every listing succeeds it
    answers [true] exactly then. *)
Theorem has_account_state_spec (p p' : P) r :
  has_account_state p = (r, p') ->
  kv_view (backend p') = kv_view (backend p) /\
  (r = true -> exists d k, d ∈ account_dicts /\ is_Some (kv_view (backend p) !! (d, k))) /\
  ((forall d (s : St), is_ok (kv_list_keys d s).1 = true) ->
     r = true <-> exists d k, d ∈ account_dicts /\ is_Some (kv_view (backend p) !! (d, k))).
Proof.
  unfold has_account_state. destruct (any_keys account_dicts (backend p)) as [r0 s'] eqn:Ha.
  intros [= <- <-]. simpl. revert Ha. generalize account_dicts. generalize (backend p). clear p.
  intros s ds. revert s. induction ds as [|d ds IH]; intros s Ha; simpl in Ha.
  { injection Ha as <- <-. split; [done|]. split; [done|]. intros _. split; [done|].
    by intros (d & k & Hd%elem_of_nil & _). }
  destruct (kv_list_keys d s) as [rl s1] eqn:Hl. pose proof Hl as Hl2.
  apply kv_list_keys_law in Hl as [Hv1 Hks].
  assert (Hhit : forall k ks, rl = Ok (k :: ks) -> is_Some (kv_view s !! (d, k))).
  { intros k ks ->. destruct (Hks _ eq_refl) as [_ Hmem]. apply Hmem. left. }
  assert (Hrec : any_keys ds s1 = (r0, s') -> (rl = Ok [] \/ exists e, rl = Err e) ->
    kv_view s' = kv_view s /\
    (r0 = true -> exists d' k, d' ∈ d :: ds /\ is_Some (kv_view s !! (d', k))) /\
    ((forall d (s : St), is_ok (kv_list_keys d s).1 = true) ->
       r0 = true <-> exists d' k, d' ∈ d :: ds /\ is_Some (kv_view s !! (d', k)))).
  { intros Ha2 Hrl. apply IH in Ha2 as (Hv2 & Hs & Hiff). rewrite Hv1 in *. split; [done|]. split.
    - intros Hr. destruct (Hs Hr) as (d' & k & Hd & Hk). exists d', k. split; [by right|done].
    - intros Hok. rewrite (Hiff Hok). split.
      + intros (d' & k & Hd & Hk). exists d', k. split; [by right|done].
      + intros (d' & k & [->|Hd]%elem_of_cons & Hk); [|by exists d', k].
        destruct Hrl as [-> | [e ->]].
        * destruct (Hks _ eq_refl) as [_ Hmem]. apply Hmem in Hk. by apply elem_of_nil in Hk.
        * specialize (Hok d s). by rewrite Hl2 in Hok. }
  destruct rl as [[|k ks]|e].
  - apply Hrec; [done|by left].
  - injection Ha as <- <-. split; [done|]. specialize (Hhit k ks eq_refl).
    split; [intros _; exists d, k; split; [left|done]|]. intros _. split; [|done]. intros _.
    exists d, k. split; [left|done].
  - apply Hrec; [done|]. right. by eexists.
Qed.
End clear_props.

(** ** The layout of the store *)

(** Splitting at the last separator is unique. *)
Lemma sapp_last_sep_inj (sep : ascii) s1 s2 t1 t2 :
  string_forall (fun c => negb (Ascii.eqb c sep)) t1 = true ->
  string_forall (fun c => negb (Ascii.eqb c sep)) t2 = true ->
  s1 +:+ String sep t1 = s2 +:+ String sep t2 -> s1 = s2 /\ t1 = t2.
Proof.
  assert (Hno : forall s t, string_forall (fun c => negb (Ascii.eqb c sep)) (s +:+ String sep t) = true -> False).
  { intros s t. rewrite string_forall_app. cbn [string_forall]. by rewrite Ascii.eqb_refl, andb_false_r. }
  intros Ht1 Ht2. revert s2. induction s1 as [|c s1 IH]; intros [|c2 s2]; rewrite ?sapp_nil_l, ?sapp_cons.
  - by intros [= ->].
  - intros [= _ ->]. by apply Hno in Ht1.
  - intros [= _ <-]. by apply Hno in Ht2.
  - intros [= -> H]. by apply IH in H as [-> ->].
Qed.

Lemma pretty_no_dot n : string_forall (fun c => negb (Ascii.eqb c "."%char)) (pretty (n : N)) = true.
Proof.
  eapply string_forall_impl; [|apply pretty_digits].
  intros c Hc. destruct (Ascii.eqb_spec c "."%char) as [->|]; [done|reflexivity].
Qed.

Lemma pretty_N_go_length n k s :
  (n < 10 ^ N.of_nat k)%N -> slen (pretty_N_go n s) <= k + slen s.
Proof.
  revert n s. induction k as [|k IH]; intros n s Hn.
  { simpl in Hn. assert (n = 0%N) as -> by lia. by rewrite pretty_N_go_0. }
  destruct (decide (n = 0)%N) as [->|Hz]; [rewrite pretty_N_go_0; lia|].
  rewrite pretty_N_go_step by lia. etrans; [apply IH|unfold slen; simpl; lia].
  rewrite Nat2N.inj_succ, N.pow_succ_r' in Hn. apply N.Div0.div_lt_upper_bound; lia.
Qed.

(** A [u32] has at most ten digits. *)
Lemma pretty_u32_length n : (n <= u32_max)%N -> slen (pretty n) <= 10.
Proof.
  intros Hn. unfold pretty, pretty_N. case_decide; [unfold slen; simpl; lia|].
  pose proof (pretty_N_go_length n 10 "") as Hl. unfold slen at 2 in Hl. simpl String.length in Hl.
  assert (n < 10 ^ N.of_nat 10)%N; [|specialize (Hl ltac:(done)); lia].
  change (10 ^ N.of_nat 10)%N with 10000000000%N. unfold u32_max in Hn. lia.
Qed.

(** Dictionary names that fit the wire's cap, and keys that fit theirs. *)
Definition dict_fits (d : string) : Prop := 0 < slen d < DICT_NAME_LEN.
Definition key_fits (k : string) : Prop := 0 < slen k < KEY_NAME_LEN.

(** What the crates behind the keys promise: a digest has 64 hexadecimal
    characters; a simple uuid has 32 characters, none a dot, a hyphenated one 36,
    and 16 bytes; texts and bytes determine what they are made of. *)
Class LayoutLaws (ServiceId Uuid ProfileKey : Type) `{!Digests} `{!ServiceIdText ServiceId} `{!UuidText Uuid}
    `{!UuidBytes Uuid} `{!ProfileKeyBytes ProfileKey} : Prop := {
  sha256_hex_length x : slen (sha256_hex x) = 64;
  uuid_simple_length (u : Uuid) : slen (uuid_simple u) = 32;
  uuid_simple_no_dot (u : Uuid) : string_forall (fun c => negb (Ascii.eqb c "."%char)) (uuid_simple u) = true;
  uuid_hyphenated_length (u : Uuid) : slen (uuid_hyphenated u) = 36;
  uuid_bytes_length (u : Uuid) : length (uuid_as_bytes u) = 16;
  uuid_simple_inj :: Inj (=) (=) (uuid_simple (Uuid := Uuid));
  uuid_hyphenated_inj :: Inj (=) (=) (uuid_hyphenated (Uuid := Uuid));
  uuid_bytes_inj :: Inj (=) (=) (uuid_as_bytes (Uuid := Uuid));
  profile_key_inj :: Inj (=) (=) (profile_key_bytes (ProfileKey := ProfileKey));
  service_id_inj :: Inj (=) (=) (service_id_string (ServiceId := ServiceId));
  base64_inj :: Inj (=) (=) base64_encode
}.

(** What the store keeps: one constructor for each kind of entry it puts, with
    what its operations are given. *)
Inductive Entry (ServiceId Uuid ProfileKey : Type) : Type :=
| AtState (k : string)
| AtSessions (i : IdentityType) (nm : string)
| AtIdentity (i : IdentityType) (a : ProtocolAddress)
| AtPreKeys (i : IdentityType)
| AtSignedPreKey (i : IdentityType) (id : N)
| AtKyberPreKey (i : IdentityType) (id : N)
| AtKyberMeta (i : IdentityType) (id ec : N)
| AtSenderKey (i : IdentityType) (a : ProtocolAddress) (u : Uuid)
| AtContact (u : Uuid)
| AtGroup (mk : bytes)
| AtGroupAvatar (mk : bytes)
| AtProfile (u : Uuid) (pk : ProfileKey)
| AtProfileAvatar (u : Uuid) (pk : ProfileKey)
| AtProfileKey (u : Uuid)
| AtStickerPack (id : bytes)
| AtMessage (t : Thread ServiceId) (ts : N).
Arguments AtState {ServiceId Uuid ProfileKey} k.
Arguments AtSessions {ServiceId Uuid ProfileKey} i nm.
Arguments AtIdentity {ServiceId Uuid ProfileKey} i a.
Arguments AtPreKeys {ServiceId Uuid ProfileKey} i.
Arguments AtSignedPreKey {ServiceId Uuid ProfileKey} i id.
Arguments AtKyberPreKey {ServiceId Uuid ProfileKey} i id.
Arguments AtKyberMeta {ServiceId Uuid ProfileKey} i id ec.
Arguments AtSenderKey {ServiceId Uuid ProfileKey} i a u.
Arguments AtContact {ServiceId Uuid ProfileKey} u.
Arguments AtGroup {ServiceId Uuid ProfileKey} mk.
Arguments AtGroupAvatar {ServiceId Uuid ProfileKey} mk.
Arguments AtProfile {ServiceId Uuid ProfileKey} u pk.
Arguments AtProfileAvatar {ServiceId Uuid ProfileKey} u pk.
Arguments AtProfileKey {ServiceId Uuid ProfileKey} u.
Arguments AtStickerPack {ServiceId Uuid ProfileKey} id.
Arguments AtMessage {ServiceId Uuid ProfileKey} t ts.

Section layout.
Context {ServiceId Uuid ProfileKey : Type} `{LayoutLaws ServiceId Uuid ProfileKey}.
Abbreviation E := (Entry ServiceId Uuid ProfileKey).
Implicit Types e : E.

Definition state_keys : list string :=
  [KEY_REGISTRATION; KEY_ACI_IDENTITY_KEY_PAIR; KEY_PNI_IDENTITY_KEY_PAIR; KEY_SENDER_CERTIFICATE; KEY_MASTER_KEY].

(** The dictionary and the key an entry is put under. *)
Definition entry_at e : string * string :=
  match e with
  | AtState k => (STATE_DICT, k)
  | AtSessions i nm => (dict_session i, nm)
  | AtIdentity i a => (dict_identity i, identity_key a)
  | AtPreKeys i => (dict_prekey_bundle i, PREKEY_BUNDLE_KEY)
  | AtSignedPreKey i id => (dict_signed_prekey i, pretty id)
  | AtKyberPreKey i id => (dict_kyber_prekey i, pretty id)
  | AtKyberMeta i id ec => (dict_kyber_meta i, meta_key id ec)
  | AtSenderKey i a u => (dict_sender_key i, sender_key_key a u)
  | AtContact u => (DICT_CONTACTS, uuid_hyphenated u)
  | AtGroup mk => (DICT_GROUPS, group_key mk)
  | AtGroupAvatar mk => (DICT_GROUP_AVATARS, group_key mk)
  | AtProfile u pk => (DICT_PROFILES, profile_dict_key u pk)
  | AtProfileAvatar u pk => (DICT_PROFILE_AVATARS, profile_dict_key u pk)
  | AtProfileKey u => (DICT_PROFILE_KEYS, uuid_hyphenated u)
  | AtStickerPack id => (DICT_STICKER_PACKS, sticker_pack_key id)
  | AtMessage t ts => (thread_dict_name t, message_key ts)
  end.

(** Signal's values: an address name is a service id of at most 40 bytes, device
    and prekey ids are [u32], timestamps [u64], master keys 32 bytes. A sticker
    pack's id is the caller's, of any length: up to 47 bytes it fits. *)
Definition name_ok (nm : string) : Prop := 0 < slen nm <= 40.
Definition entry_ok e : Prop :=
  match e with
  | AtState k => k ∈ state_keys
  | AtSessions _ nm => name_ok nm
  | AtIdentity _ a | AtSenderKey _ a _ => name_ok (name a) /\ (device_id a <= u32_max)%N
  | AtSignedPreKey _ id | AtKyberPreKey _ id => (id <= u32_max)%N
  | AtKyberMeta _ id ec => (id <= u32_max)%N /\ (ec <= u32_max)%N
  | AtGroup mk | AtGroupAvatar mk => length mk = 32
  | AtStickerPack id => 0 < length id <= 47
  | AtMessage _ ts => (ts <= u64_max)%N
  | AtPreKeys _ | AtContact _ | AtProfile _ _ | AtProfileAvatar _ _ | AtProfileKey _ => True
  end.

(** What SHA-256 is applied to for the key or the dictionary. *)
Definition hashed e : bytes :=
  match e with
  | AtProfile u pk | AtProfileAvatar u pk => uuid_as_bytes u ++ profile_key_bytes pk
  | AtMessage (ThreadContact s) _ => as_bytes ("contact:" +:+ service_id_string s)
  | AtMessage (ThreadGroup mk) _ => as_bytes ("group:" +:+ base64_encode mk)
  | _ => []
  end.

Lemma dotted_pretty_inj n1 n2 d1 d2 : n1 +:+ "." +:+ pretty (d1 : N) = n2 +:+ "." +:+ pretty (d2 : N) -> n1 = n2 /\ d1 = d2.
Proof.
  intros Heq. apply (sapp_last_sep_inj "."%char) in Heq as [-> Hp]; [|apply pretty_no_dot..].
  by apply pretty_N_inj in Hp.
Qed.

Lemma identity_key_inj a b : identity_key a = identity_key b -> a = b.
Proof. intros [Hn Hd]%dotted_pretty_inj. destruct a, b. simpl in *. by subst. Qed.

Lemma sender_key_key_inj a b (u v : Uuid) : sender_key_key a u = sender_key_key b v -> a = b /\ u = v.
Proof.
  unfold sender_key_key. intros Heq. rewrite <- !(sapp_assoc "."), <- !sapp_assoc in Heq.
  rewrite !(sapp_assoc _ "." (uuid_simple _)) in Heq.
  apply (sapp_last_sep_inj "."%char) in Heq as [Hl Hu]; [|apply uuid_simple_no_dot..].
  apply (inj uuid_simple) in Hu. rewrite !sapp_assoc in Hl. by apply identity_key_inj in Hl.
Qed.

Lemma meta_key_inj id1 ec1 id2 ec2 : meta_key id1 ec1 = meta_key id2 ec2 -> id1 = id2 /\ ec1 = ec2.
Proof. intros [Hp ->]%dotted_pretty_inj. by apply pretty_N_inj in Hp as ->. Qed.

Lemma message_key_inj ts1 ts2 : (ts1 <= u64_max)%N -> (ts2 <= u64_max)%N -> message_key ts1 = message_key ts2 -> ts1 = ts2.
Proof. intros H1%message_key_parse H2%message_key_parse Hk. rewrite Hk, H2 in H1. by injection H1. Qed.

Lemma hex_encode_inj x y : hex_encode x = hex_encode y -> x = y.
Proof.
  revert y. induction x as [|b x IH]; intros [|c y] Hxy; [done|..];
    try (apply (f_equal slen) in Hxy; cbn [hex_encode] in Hxy; rewrite slen_app, hex_fixed_length in Hxy;
         unfold slen in Hxy; simpl in Hxy; lia).
  cbn [hex_encode] in Hxy. apply sapp_inj_len in Hxy as [Hb Hr]; [|by rewrite !hex_fixed_length].
  apply IH in Hr as ->. f_equal. apply hex_fixed_inj in Hb; [|change (16 ^ N.of_nat 2)%N with 256%N..];
    [|pose proof (Byte.to_N_bounded b); lia|pose proof (Byte.to_N_bounded c); lia].
  apply (f_equal Byte.of_N) in Hb. rewrite !Byte.of_to_N in Hb. by injection Hb.
Qed.

Lemma profile_hashed_inj (u v : Uuid) (p q : ProfileKey) :
  uuid_as_bytes u ++ profile_key_bytes p = uuid_as_bytes v ++ profile_key_bytes q -> u = v /\ p = q.
Proof. intros [Hu%(inj uuid_as_bytes) Hp%(inj profile_key_bytes)]%app_inj_1; [done|by rewrite !uuid_bytes_length]. Qed.

Lemma thread_hashed_inj (t1 t2 : Thread ServiceId) ts1 ts2 :
  hashed (AtMessage t1 ts1) = hashed (AtMessage t2 ts2) -> t1 = t2.
Proof.
  destruct t1 as [s1|m1], t2 as [s2|m2]; simpl; intros Hh; try discriminate;
    apply (inj as_bytes) in Hh; simpl in Hh; injection Hh as Hh;
    [apply (inj service_id_string) in Hh|apply (inj base64_encode) in Hh]; by subst.
Qed.

Lemma profile_key_hashed_inj (u v : Uuid) (p q : ProfileKey) :
  (sha256_hex (uuid_as_bytes u ++ profile_key_bytes p) = sha256_hex (uuid_as_bytes v ++ profile_key_bytes q) ->
   uuid_as_bytes u ++ profile_key_bytes p = uuid_as_bytes v ++ profile_key_bytes q) ->
  profile_dict_key u p = profile_dict_key v q -> u = v /\ p = q.
Proof. intros Hc Hk. by apply profile_hashed_inj, Hc. Qed.

(** Every entry is in a fixed dictionary or is a message. *)
Lemma entry_dict_fixed e : (exists t ts, e = AtMessage t ts) \/ (entry_at e).1 ∈ all_dicts.
Proof.
  destruct e as [k|i nm|i a|i|i id|i id|i id ec|i a u|u|mk|mk|u pk|u pk|u|id|t ts]; [..|by left; eauto]; right;
    try destruct i; cbn [entry_at fst]; apply (bool_decide_unpack _); vm_compute; exact I.
Qed.

Lemma all_dicts_fit : Forall dict_fits all_dicts.
Proof. unfold dict_fits. apply (bool_decide_unpack _). vm_compute. exact I. Qed.

Lemma thread_dict_fits (t : Thread ServiceId) : dict_fits (thread_dict_name t).
Proof.
  unfold dict_fits, thread_dict_name. rewrite slen_app, sha256_hex_length.
  unfold THREAD_DICT_PREFIX, DICT_NAME_LEN, slen. simpl. lia.
Qed.

Lemma state_keys_fit : Forall key_fits state_keys.
Proof. unfold key_fits. apply (bool_decide_unpack _). vm_compute. exact I. Qed.

Lemma entry_fits e : entry_ok e -> dict_fits (entry_at e).1 /\ key_fits (entry_at e).2.
Proof.
  intros He. split.
  { destruct (entry_dict_fixed e) as [(t & ts & ->)|Hin]; [apply thread_dict_fits|].
    revert Hin. apply Forall_forall, all_dicts_fit. }
  assert (H32 : forall n, (n <= u32_max)%N -> 0 < slen (pretty n) <= 10)
    by (intros n Hn; split; [apply pretty_N_pos|by apply pretty_u32_length]).
  destruct e as [k|i nm|i a|i|i id|i id|i id ec|i a u|u|mk|mk|u pk|u pk|u|id|t ts]; cbn [entry_ok entry_at snd] in *;
    unfold name_ok in He; unfold key_fits, KEY_NAME_LEN.
  - exact (proj1 (Forall_forall _ _) state_keys_fit k He).
  - lia.
  - destruct He as [Hn Hd%H32]. unfold identity_key. rewrite !slen_app. change (slen ".") with 1. lia.
  - unfold slen. simpl. lia.
  - apply H32 in He. lia.
  - apply H32 in He. lia.
  - destruct He as [Hi%H32 Hc%H32]. unfold meta_key. rewrite !slen_app. change (slen ".") with 1. lia.
  - destruct He as [Hn Hd%H32]. unfold sender_key_key. rewrite !slen_app, uuid_simple_length. change (slen ".") with 1. lia.
  - rewrite uuid_hyphenated_length. lia.
  - unfold group_key. rewrite hex_encode_length. lia.
  - unfold group_key. rewrite hex_encode_length. lia.
  - unfold profile_dict_key. rewrite sha256_hex_length. lia.
  - unfold profile_dict_key. rewrite sha256_hex_length. lia.
  - rewrite uuid_hyphenated_length. lia.
  - unfold sticker_pack_key. rewrite hex_encode_length. lia.
  - unfold message_key. rewrite hex_fixed_length. lia.
Qed.

Lemma entry_at_inj e1 e2 :
  entry_ok e1 -> entry_ok e2 -> (sha256_hex (hashed e1) = sha256_hex (hashed e2) -> hashed e1 = hashed e2) ->
  entry_at e1 = entry_at e2 -> e1 = e2.
Proof.
  intros He1 He2 Hc Heq. pose proof (f_equal fst Heq) as Hd. pose proof (f_equal snd Heq) as Hk. clear Heq.
  destruct (entry_dict_fixed e1) as [(t1 & ts1 & ->)|Hf1], (entry_dict_fixed e2) as [(t2 & ts2 & ->)|Hf2].
  - simpl in *. apply message_key_inj in Hk as ->; [|done..]. f_equal.
    apply (thread_hashed_inj t1 t2 ts2 ts2), Hc. unfold thread_dict_name in Hd. apply (inj _) in Hd.
    destruct t1, t2; exact Hd.
  - exfalso. rewrite <- Hd in Hf2. by apply thread_not_fixed in Hf2.
  - exfalso. rewrite Hd in Hf1. by apply thread_not_fixed in Hf1.
  - clear Hf2.
    destruct e1 as [k|i nm|i a|i|i id|i id|i id ec|i a u|u|mk|mk|u pk|u pk|u|id|t ts];
      destruct e2 as [k'|i' nm'|i' a'|i'|i' id'|i' id'|i' id' ec'|i' a' u'|u'|mk'|mk'|u' pk'|u' pk'|u'|id'|t' ts'];
      cbn [entry_at fst snd] in Hd, Hk; try (exfalso; repeat destruct i; repeat destruct i'; vm_compute in Hd; discriminate Hd).
    all: try (assert (i = i') as <- by (destruct i, i'; first [reflexivity|vm_compute in Hd; discriminate Hd])).
    + by rewrite Hk.
    + by rewrite Hk.
    + by apply identity_key_inj in Hk as ->.
    + done.
    + by apply pretty_N_inj in Hk as ->.
    + by apply pretty_N_inj in Hk as ->.
    + by apply meta_key_inj in Hk as [-> ->].
    + by apply sender_key_key_inj in Hk as [-> ->].
    + by apply (inj uuid_hyphenated) in Hk as ->.
    + by apply hex_encode_inj in Hk as ->.
    + by apply hex_encode_inj in Hk as ->.
    + by apply profile_key_hashed_inj in Hk as [-> ->].
    + by apply profile_key_hashed_inj in Hk as [-> ->].
    + by apply (inj uuid_hyphenated) in Hk as ->.
    + by apply hex_encode_inj in Hk as ->.
    + by apply thread_not_fixed in Hf1.
Qed.

(** C33: the layout of the store. The twenty-two fixed dictionaries are pairwise
    distinct and no thread dictionary is one of them. Every entry the store puts,
    in whichever table, has a dictionary name and a key below the wire's length caps,
    when Signal's own values go into it; a sticker pack's key depends on the pack id
    the caller chose and fits up to 47 bytes. And no two entries share a place: if two
    entries have the same dictionary and the same key they are the same entry, the
    same address, device, prekey ids, distribution id, group, contact, profile,
    thread and timestamp, provided that SHA-256 does not collide on the two texts that
    are hashed for them. *)
Theorem store_layout_sound e1 e2 (t : Thread ServiceId) :
  NoDup all_dicts /\ (thread_dict_name t ∉ all_dicts) /\
  (entry_ok e1 -> dict_fits (entry_at e1).1 /\ key_fits (entry_at e1).2) /\
  (entry_ok e1 -> entry_ok e2 -> (sha256_hex (hashed e1) = sha256_hex (hashed e2) -> hashed e1 = hashed e2) ->
   entry_at e1 = entry_at e2 -> e1 = e2).
Proof.
  split; [apply (bool_decide_unpack _); vm_compute; exact I|]. split; [apply thread_not_fixed|].
  split; [apply entry_fits|apply entry_at_inj].
Qed.
End layout.

(** ** Witnesses *)
From S2P Require Import Buffering Concrete.

#[local] Existing Instance canonical_order.

#[local] Instance zero_digests : Digests := {|
  sha256_hex := fun _ : bytes => hex_fixed 64 0; base64_encode := fun b : bytes => hex_encode b
|}.
#[local] Instance bool_uuid : UuidText bool := {|
  uuid_simple := fun b : bool => hex_fixed 32 (if b then 1 else 0);
  uuid_hyphenated := fun b : bool => hex_fixed 36 (if b then 1 else 0)
|}.
#[local] Instance bool_uuid_bytes : UuidBytes bool := fun b : bool => replicate 16 (if b then x01 else x00).
#[local] Instance bytes_profile_key : ProfileKeyBytes bytes := fun b => b.
#[local] Instance bytes_content : ContentCodec string bool bytes bytes := {|
  body_encode := fun b => b;
  proto_decode := fun b => Ok b;
  body_from_proto := fun b _ => Ok b;
  parse_service_id := fun s => Some s;
  uuid_parse := fun s => if bool_decide (s = hex_fixed 36 1) then Some true
                         else if bool_decide (s = hex_fixed 36 0) then Some false else None;
  device_id_error := fun _ => "device"
|}.
#[local] Instance bytes_content_laws : ContentCodecLaws string bool bytes bytes.
Proof. split; [intros b md; by exists b|done|by intros []]. Qed.

(** A stored message is written field by field, the body last. *)
Definition stored_tuple (s : StoredMessage) :=
  (sm_sender s, sm_destination s, sm_sender_device s, sm_server_guid s, sm_timestamp s,
   (sm_needs_receipt s, sm_unidentified_sender s, sm_was_plaintext s), sm_body_proto s).
#[local] Instance stored_eq_dec : EqDecision StoredMessage.
Proof. solve_decision. Defined.
#[local] Program Instance stored_countable : Countable StoredMessage :=
  inj_countable' stored_tuple
    (fun '(a, b, c, d, e, (f, g, h), i) => mkStored a b c d e f g h i) _.
Next Obligation. by intros []. Qed.
#[local] Instance stored_json : Json StoredMessage := countable_json _.
#[local] Instance stored_json_laws : JsonLaws StoredMessage := countable_json_laws _.

Definition hello : Content string bool bytes :=
  mkContent (mkMetadata "a" "b" 1 (Some true) 77 false true false) [x68].
Definition alice_thread : Thread string := ThreadContact "a".
Definition hello_bytes : bytes :=
  match to_vec (from_content (Proto := bytes) hello) with Ok b => b | Err _ => [] end.
Definition with_hello : MockBackend :=
  mkMock {[ (thread_dict_name alice_thread, message_key 77) := hello_bytes ]} false.

Lemma message_and_group_key_roundtrip_witness : parse_hex_master_key (group_key (replicate 32 xa5)) = Some (Ok (replicate 32 xa5)).
Proof.
  assert (Hs : save_message (Proto := bytes) alice_thread hello mock_new = (Ok tt, with_hello))
    by (vm_compute; reflexivity).
  assert (Hm : message (Body := bytes) (Proto := bytes) (Uuid := bool) alice_thread 77 with_hello
    = (Ok (Some hello), with_hello)) by (vm_compute; reflexivity).
  exact (proj2 (message_and_group_key_roundtrip alice_thread hello mock_new with_hello with_hello tt
    (Some hello) (replicate 32 xa5) eq_refl Hs Hm eq_refl)).
Defined.

Lemma messages_answer_range_witness :
  exists tss, Sorted N.le tss /\ (77%N ∈ tss) /\ length tss = 1.
Proof.
  assert (Hm : messages (Body := bytes) (Proto := bytes) (Uuid := bool) alice_thread (Included 70, Excluded 80) with_hello
      = (Ok [Ok hello], with_hello)) by (vm_compute; reflexivity).
  assert (Hkeys : forall k, is_Some (kv_view with_hello !! (thread_dict_name alice_thread, k)) ->
     exists ts, (ts <= u64_max)%N /\ k = message_key ts).
  { intros k [b Hb]. change (mock_inner with_hello !! (thread_dict_name alice_thread, k) = Some b) in Hb.
    unfold with_hello in Hb; cbn [mock_inner] in Hb. apply lookup_singleton_Some in Hb as [Hk _].
    exists 77%N. split; [discriminate|]. by apply (f_equal snd) in Hk. }
  destruct (messages_answer_range alice_thread (Included 70, Excluded 80)
    with_hello with_hello _ Hm Hkeys) as (_ & tss & Hs & _ & Hin & HF).
  exists tss. split; [exact Hs|]. split; [|exact (Forall2_length _ _ _ HF)].
  apply Hin. split; [discriminate|]. split; [split; [discriminate|reflexivity]|].
  exists hello_bytes.
  change (mock_inner with_hello !! (thread_dict_name alice_thread, message_key 77) = Some hello_bytes).
  unfold with_hello; cbn [mock_inner]. apply lookup_singleton_eq.
Defined.

Definition linked_store : PddbStore MockBackend bytes :=
  store_new (mkMock {[ (STATE_DICT, KEY_REGISTRATION) := [x01]; (DICT_STICKER_PACKS, "p") := [x02] ]} false) Trust.

Definition cleared_store : PddbStore MockBackend bytes :=
  store_new (mkMock {[ (DICT_STICKER_PACKS, "p") := [x02] ]} false) Trust.

Lemma clear_wipes_account_witness : kv_view (backend cleared_store) !! (DICT_STICKER_PACKS, "p") = Some [x02].
Proof.
  assert (Hc : clear linked_store = (Ok tt, cleared_store)) by (vm_compute; reflexivity).
  etransitivity.
  { exact (proj1 (proj2 (proj2 (proj2 (proj2 (clear_wipes_account (ServiceId := string)
      linked_store cleared_store tt Hc))))) "p"). }
  vm_compute. reflexivity.
Defined.

Lemma has_account_state_spec_witness :
  exists d k, d ∈ account_dicts /\ is_Some (kv_view (backend linked_store) !! (d, k)).
Proof.
  assert (Hr : has_account_state linked_store = (true, (has_account_state linked_store).2))
    by (vm_compute; reflexivity).
  exact (proj1 (proj2 (has_account_state_spec _ _ _ Hr)) eq_refl).
Defined.

Lemma store_layout_laws : LayoutLaws string bool bytes.
Proof.
  split; try (intros []; vm_compute; reflexivity).
  - intros [] [] Hb; try reflexivity; vm_compute in Hb; discriminate.
  - intros [] [] Hb; try reflexivity; vm_compute in Hb; discriminate.
  - intros [] [] Hb; try reflexivity; vm_compute in Hb; discriminate.
  - intros x y Hxy. exact Hxy.
  - intros x y Hxy. exact Hxy.
  - intros x y. apply hex_encode_inj.
Qed.

(** An identity, and two replay records whose ids differ only by where the dot is. *)
Lemma store_layout_sound_witness :
  identity_key bob = "5b4e1f9c.2" /\ key_fits (identity_key bob) /\ meta_key 1 23 <> meta_key 12 3.
Proof.
  split; [vm_compute; reflexivity|].
  destruct (store_layout_sound (H0 := store_layout_laws) (AtIdentity Aci bob : Entry string bool bytes)
    (AtPreKeys Aci) alice_thread) as (_ & _ & Hf & _).
  split; [apply Hf; vm_compute; repeat split; lia || discriminate|]. intros Hm.
  destruct (store_layout_sound (H0 := store_layout_laws) (AtKyberMeta Aci 1 23 : Entry string bool bytes)
    (AtKyberMeta Aci 12 3) alice_thread) as (_ & _ & _ & Hi).
  assert (He : (AtKyberMeta Aci 1 23 : Entry string bool bytes) = AtKyberMeta Aci 12 3); [|discriminate].
  apply Hi; [split; discriminate|split; discriminate|reflexivity|]. unfold entry_at. by rewrite Hm.
Defined.
