(* ===== verification/Text.v ===== *)
(** * Text operations of Rust's [str]

    What the worker and the app use of [str] beyond UTF-8 itself: trimming,
    prefix and substring search, ASCII case folding. Strings are UTF-8 bytes
    ([Prelude]), characters are byte groups ([Utf8.chars]). *)
From Stdlib Require Import Ascii Strings.String.
From S2P Require Import Prelude Codec Utf8.

(** ** Characters by code point *)
Definition byte_char (n : N) : ascii := ascii_of_N n.

(** UTF-8 encoding of one scalar value. *)
Definition utf8_char (cp : N) : string :=
  if (cp <? 128)%N then String (byte_char cp) ""
  else if (cp <? 2048)%N then
    String (byte_char (192 + cp / 64)) (String (byte_char (128 + cp mod 64)) "")
  else if (cp <? 65536)%N then
    String (byte_char (224 + cp / 4096))
      (String (byte_char (128 + (cp / 64) mod 64)) (String (byte_char (128 + cp mod 64)) ""))
  else
    String (byte_char (240 + cp / 262144))
      (String (byte_char (128 + (cp / 4096) mod 64))
         (String (byte_char (128 + (cp / 64) mod 64)) (String (byte_char (128 + cp mod 64)) ""))).

(** [char::is_whitespace]: the code points with property White_Space. *)
Definition white_space : list string :=
  utf8_char <$> [9; 10; 11; 12; 13; 32; 133; 160; 5760; 8192; 8193; 8194; 8195; 8196; 8197; 8198; 8199;
                 8200; 8201; 8202; 8232; 8233; 8239; 8287; 12288]%N.
Definition is_whitespace (c : string) : bool := bool_decide (c ∈ white_space).

(** ** Trimming *)
Fixpoint skip_while {A} (p : A -> bool) (l : list A) : list A :=
  match l with
  | x :: l' => if p x then skip_while p l' else l
  | [] => []
  end.

(** [str::trim]. *)
Definition trim (s : string) : string :=
  collect (rev (skip_while is_whitespace (rev (skip_while is_whitespace (chars s))))).

(** ** Search *)
Definition starts_with (s p : string) : bool := String.prefix p s.

(** [str::contains] with a string pattern. *)
Fixpoint contains (s p : string) : bool :=
  String.prefix p s || match s with String _ s' => contains s' p | EmptyString => false end.

(** [split_once] at a one-byte separator. *)
Fixpoint split_once (sep : ascii) (s : string) : option (string * string) :=
  match s with
  | EmptyString => None
  | String c s' =>
      if bool_decide (c = sep) then Some ("", s')
      else '(a, b) ← split_once sep s'; Some (String c a, b)
  end.

(** [str::to_lowercase], as far as it can produce ASCII: the ASCII letters, the
    Kelvin sign (to [k]) and the dotted capital I (to [i] and a combining dot).
    Every other character lowercases to non-ASCII characters and is kept, so a
    search for an ASCII pattern answers as on the full mapping. *)
Definition lower_ascii (c : ascii) : ascii :=
  let n := N_of_ascii c in
  if (65 <=? n)%N && (n <=? 90)%N then byte_char (n + 32) else c.
Definition lower_char (c : string) : string :=
  match c with
  | String a "" => String (lower_ascii a) ""
  | _ => if bool_decide (c = utf8_char 8490) then "k"
         else if bool_decide (c = utf8_char 304) then "i" +:+ utf8_char 775
         else c
  end.
Definition to_lowercase (s : string) : string := collect (lower_char <$> chars s).

(** ** Lemmas *)
Lemma prefix_app p s : String.prefix p (p +:+ s) = true.
Proof. induction p as [|c p IH]; simpl; [by destruct s|]. by destruct (ascii_dec c c). Qed.

Lemma starts_with_app p s : starts_with (p +:+ s) p = true.
Proof. apply prefix_app. Qed.

Lemma contains_prefix s p : String.prefix p s = true -> contains s p = true.
Proof. intros H. destruct s; simpl in *; by rewrite H. Qed.

Lemma contains_app a p b : contains (a +:+ p +:+ b) p = true.
Proof.
  induction a as [|c a IH]; [exact (contains_prefix _ _ (prefix_app p b))|]. simpl. rewrite IH. apply orb_true_r.
Qed.

Lemma skip_while_suffix {A} (p : A -> bool) l : exists k, l = k ++ skip_while p l.
Proof.
  induction l as [|x l [k Hk]]; [by exists []|]. simpl. destruct (p x); [|by exists []].
  exists (x :: k). simpl. by f_equal.
Qed.

Lemma skip_while_none {A} (p : A -> bool) l : forallb (fun x => negb (p x)) l = true -> skip_while p l = l.
Proof. destruct l as [|x l]; [done|]. simpl. by intros [->%negb_true_iff _]%andb_true_iff. Qed.

Lemma forallb_rev {A} (p : A -> bool) l : forallb p (rev l) = forallb p l.
Proof.
  induction l as [|x l IH]; [done|]. simpl. rewrite forallb_app, IH. simpl.
  rewrite andb_true_r. apply andb_comm.
Qed.

(** A string without white space is its own trimming. *)
Lemma trim_id s : forallb (fun c => negb (is_whitespace c)) (chars s) = true -> trim s = s.
Proof.
  intros Hs. unfold trim. rewrite (skip_while_none _ (chars s)) by done.
  rewrite skip_while_none by (by rewrite forallb_rev). rewrite rev_involutive. apply collect_chars.
Qed.

(** ** Character groups

    [chars] cuts a string into groups of one leading byte and continuation
    bytes; a run of such groups is cut back into itself. *)
Definition is_group (g : string) : bool :=
  match g with String _ t => string_forall ascii_cont t | EmptyString => false end.
Definition leads (s : string) : bool :=
  match s with String c _ => negb (ascii_cont c) | EmptyString => true end.
Definition groups_ok (gs : list string) : bool := forallb is_group gs && forallb leads (tail gs).

Lemma groups_ok_cons g gs :
  groups_ok (g :: gs) = true <-> is_group g = true /\ forallb is_group gs = true /\ forallb leads gs = true.
Proof. unfold groups_ok. simpl. rewrite !andb_true_iff. tauto. Qed.

Lemma chars_groups_ok s : groups_ok (chars s) = true.
Proof.
  induction s as [|c s IH]; [done|]. simpl.
  destruct (chars s) as [|[|c' g] gs]; [done| |].
  - apply groups_ok_cons in IH as [? _]. done.
  - apply groups_ok_cons in IH as (Hg & Hgs & Hl). destruct (ascii_cont c') eqn:Hc; apply groups_ok_cons.
    + simpl in Hg |- *. by rewrite Hc, Hg.
    + simpl in Hg |- *. by rewrite Hc, Hg.
Qed.

Lemma chars_app s t : leads t = true -> chars (s +:+ t) = chars s ++ chars t.
Proof.
  intros Ht. induction s as [|c s IH]; [done|]. rewrite sapp_cons. simpl. rewrite IH.
  destruct (chars s) as [|[|c' g] gs] eqn:Hs; simpl.
  - destruct t as [|c' t]; [done|]. simpl in Ht |- *.
    assert (Hh : exists g gs, chars (String c' t) = String c' g :: gs).
    { clear. simpl. destruct (chars t) as [|[|c2 g] gs]; eauto. destruct (ascii_cont c2); eauto. }
    simpl in Hh. destruct Hh as (g & gs & Hh). rewrite Hh.
    apply negb_true_iff in Ht. by rewrite Ht.
  - done.
  - by destruct (ascii_cont c').
Qed.

Lemma chars_group g : is_group g = true -> chars g = [g].
Proof.
  destruct g as [|c t]; [done|]. simpl. revert c. induction t as [|c' t IH]; intros c; [done|].
  cbn [string_forall]. intros [Hc Ht]%andb_true_iff. specialize (IH c' Ht). simpl in IH |- *.
  rewrite IH. by rewrite Hc.
Qed.

Lemma leads_collect gs : forallb is_group gs = true -> forallb leads gs = true -> leads (collect gs) = true.
Proof.
  destruct gs as [|[|c t] gs]; [done|done|]. simpl. by rewrite !andb_true_iff; intros _ [? _].
Qed.

Lemma chars_collect gs : groups_ok gs = true -> chars (collect gs) = gs.
Proof.
  induction gs as [|g gs IH]; [done|]. intros (Hg & Hgs & Hl)%groups_ok_cons. cbn [collect foldr].
  rewrite chars_app by (by apply leads_collect). rewrite chars_group by done. cbn [app]. f_equal. apply IH.
  unfold groups_ok. rewrite Hgs. destruct gs as [|g' gs]; [done|]. simpl in Hl |- *.
  by apply andb_true_iff in Hl as [_ ->].
Qed.

Lemma groups_ok_take n gs : groups_ok gs = true -> groups_ok (take n gs) = true.
Proof.
  unfold groups_ok. rewrite !andb_true_iff, !forallb_forall. intros [Hg Hl]. split; intros x Hx.
  - apply Hg. rewrite <- (take_drop n gs). apply in_or_app. by left.
  - apply Hl. destruct gs as [|g gs]; [by destruct n|]. destruct n as [|n]; [done|]. simpl in *.
    rewrite <- (take_drop n gs). apply in_or_app. by left.
Qed.

Lemma groups_ok_drop n gs : groups_ok gs = true -> groups_ok (drop n gs) = true.
Proof.
  revert gs. induction n as [|n IH]; intros [|g gs]; [done..|]. intros (_ & Hg & Hl)%groups_ok_cons. apply IH.
  unfold groups_ok. rewrite Hg. destruct gs; [done|]. simpl in *. by apply andb_true_iff in Hl as [_ ->].
Qed.

(** [s.chars().take(n).collect::<String>()] has the first characters of [s]. *)
Lemma chars_take n s : chars (collect (take n (chars s))) = take n (chars s).
Proof. apply chars_collect, groups_ok_take, chars_groups_ok. Qed.

Lemma chars_skip n s : chars (collect (drop n (chars s))) = drop n (chars s).
Proof. apply chars_collect, groups_ok_drop, chars_groups_ok. Qed.

Lemma char_count_app s t : leads t = true -> char_count (s +:+ t) = char_count s + char_count t.
Proof. intros Ht. unfold char_count. by rewrite chars_app, length_app. Qed.

(** ** More of [str] *)
(** [str::repeat]. *)
Fixpoint repeat_str (s : string) (n : nat) : string :=
  match n with O => "" | S n' => s +:+ repeat_str s n' end.

(** [{:<w}] and [{:>w}]: padding to [w] characters. *)
Definition pad_right (w : nat) (s : string) : string := s +:+ repeat_str " " (w - char_count s).
Definition pad_left (w : nat) (s : string) : string := repeat_str " " (w - char_count s) +:+ s.

(** [char::is_ascii_digit], [char::is_ascii_hexdigit], [char::is_ascii_alphanumeric]
    on a character kept as its bytes. *)
Definition ascii_char (p : N -> bool) (c : string) : bool :=
  match c with String a "" => p (N_of_ascii a) | _ => false end.
Definition digit_code (n : N) : bool := ((48 <=? n) && (n <=? 57))%N.
Definition hexdigit_code (n : N) : bool :=
  digit_code n || ((65 <=? n) && (n <=? 70))%N || ((97 <=? n) && (n <=? 102))%N.
Definition alpha_code (n : N) : bool := ((65 <=? n) && (n <=? 90))%N || ((97 <=? n) && (n <=? 122))%N.
Definition alphanumeric_code (n : N) : bool := digit_code n || alpha_code n.

Lemma char_count_repeat_space n : char_count (repeat_str " " n) = n.
Proof.
  induction n as [|n IH]; [done|]. cbn [repeat_str]. rewrite char_count_app; [by rewrite IH|]. by destruct n.
Qed.

Lemma char_count_pad_right w s : char_count (pad_right w s) = Nat.max w (char_count s).
Proof.
  unfold pad_right. rewrite char_count_app; [rewrite char_count_repeat_space; lia|]. by destruct (w - char_count s).
Qed.

Lemma char_count_pad_left w s : leads s = true -> char_count (pad_left w s) = Nat.max w (char_count s).
Proof. intros Hs. unfold pad_left. rewrite char_count_app by done. rewrite char_count_repeat_space. lia. Qed.
