(* ===== verification/Redact.v ===== *)
(** * What reaches the log ([presage-store-pddb/src/redact.rs],
      [xous-app-signal/src/log_filter.rs])

    Redaction of account identifiers, the filter on upstream crates and the
    bounded record the hardware logger fills. *)
From Stdlib Require Import Ascii Strings.String.
From S2P Require Import Prelude Codec Utf8 Text.

(** ** [redact.rs] *)
Definition redact_id (s : string) : string :=
  let KEEP := 4 in
  let n := char_count s in
  if bool_decide (n <= KEEP) then s else ".." +:+ collect (drop (n - KEEP) (chars s)).

(** Feature [verbose-pii]. *)
Definition log_id (verbose_pii : bool) (s : string) : string := if verbose_pii then s else redact_id s.

(** ** [log_filter.rs] *)
Definition MUFFLED : list string :=
  ["presage"; "libsignal"; "libsignal_service"; "libsignal_protocol"; "zkgroup"].

(** [str::strip_prefix]. *)
Definition strip_prefix (s p : string) : option string :=
  if String.prefix p s then Some (String.substring (slen p) (slen s - slen p) s) else None.

Definition muffled (target : string) : bool :=
  existsb (fun c => bool_decide (target = c)
                    || from_option (fun rest => starts_with rest "::") false (strip_prefix target c)) MUFFLED.

(** [log::Level], from most to least severe, with the numbering of [as u32]. *)
Inductive Level : Type := LError | LWarn | LInfo | LDebug | LTrace.
Definition level_code (l : Level) : N := match l with LError => 1 | LWarn => 2 | LInfo => 3 | LDebug => 4 | LTrace => 5 end%N.

Record LogMetadata : Type := mkMetadata { md_level : Level; md_target : string }.
Definition enabled (verbose_upstream_logs : bool) (md : LogMetadata) : bool :=
  if verbose_upstream_logs then true
  else negb ((level_code LInfo <=? level_code (md_level md))%N && muffled (md_target md)).

(** [ArgsWriter]: the buffer and how much of it is used. *)
Record ArgsWriter : Type := mkArgs { aw_buf : bytes; aw_len : nat }.
Definition write_byte (w : ArgsWriter) (b : byte) : ArgsWriter :=
  if bool_decide (length (aw_buf w) <= aw_len w) then w
  else mkArgs (<[aw_len w := b]> (aw_buf w)) (S (aw_len w)).
(** The loop stops at the first byte that does not fit; from then on none does. *)
Definition write_str (w : ArgsWriter) (s : string) : ArgsWriter := foldl write_byte w (as_bytes s).

(** [copy_bounded(dest, src)]: the new destination and the count, [as u32]. *)
Definition copy_bounded (dest src : bytes) : bytes * N :=
  let n := length src `min` length dest in
  (take n src ++ drop n dest, wrap32 (N.of_nat n)).

(** The fields of [api::LogRecord] the logger fills. *)
Record LogRecord : Type := mkRecord {
  lr_line : N;
  lr_level : N;
  lr_file : bytes;
  lr_file_length : N;
  lr_module : bytes;
  lr_module_length : N;
  lr_args : bytes;
  lr_args_length : N
}.

Record LogCall : Type := mkLog {
  rec_metadata : LogMetadata;
  rec_line : option N;
  rec_file : option string;
  rec_module : option string;
  rec_args : list string   (* the pieces [write!] hands over *)
}.

(** [log]: [None] when nothing is sent. [default_record] is
    [LogRecord::default()], of fixed buffer sizes. *)
Definition log (verbose : bool) (cid : N) (default_record : LogRecord) (r : LogCall) : option LogRecord :=
  if negb (enabled verbose (rec_metadata r)) then None
  else if (cid =? 0)%N then None
  else
    let '(file, file_length) := copy_bounded (lr_file default_record) (as_bytes (default "" (rec_file r))) in
    let '(module, module_length) := copy_bounded (lr_module default_record) (as_bytes (default "" (rec_module r))) in
    let writer := foldl write_str (mkArgs (lr_args default_record) 0) (rec_args r) in
    Some (mkRecord (default 0%N (rec_line r)) (level_code (md_level (rec_metadata r)))
            file file_length module module_length (aw_buf writer) (wrap32 (N.of_nat (aw_len writer)))).

(** ** Installing the filter: the log server's connection, [CONN] and the [log]
    crate's logger and level. *)
Class LogServer (X : Type) : Type := {
  log_connect : X -> option N * X;
  log_set_logger : X -> bool * X;
  log_set_max_level : Level -> X -> X
}.
Definition init {X} `{!LogServer X} (conn : N) (x : X) : result unit unit * N * X :=
  let '(r, x) := log_connect x in
  match r with
  | None => (Err tt, conn, x)
  | Some cid =>
      let '(fresh, x) := log_set_logger x in
      if fresh then (Ok tt, cid, log_set_max_level LInfo x) else (Err tt, cid, x)
  end.

(** ** Lemmas *)
Lemma redact_chars s :
  chars (redact_id s) = if bool_decide (char_count s <= 4) then chars s
                        else "." :: "." :: drop (char_count s - 4) (chars s).
Proof.
  unfold redact_id. cbv zeta. case_bool_decide as Hn; [done|].
  rewrite chars_app; [by rewrite chars_skip|].
  pose proof (chars_groups_ok s) as Hok. unfold char_count in *.
  destruct (chars s) as [|g gs]; [simpl in Hn; lia|].
  apply groups_ok_cons in Hok as (_ & Hg & Hl).
  destruct (length (g :: gs) - 4) as [|n] eqn:He; [simpl in *; lia|]. cbn [drop].
  apply leads_collect.
  - rewrite forallb_forall in *. intros x Hx. apply Hg. rewrite <- (take_drop n gs). apply in_or_app. by right.
  - rewrite forallb_forall in *. intros x Hx. apply Hl. rewrite <- (take_drop n gs). apply in_or_app. by right.
Qed.

(** An identifier longer than four characters is logged as a function of its
    last four, in six characters. *)
Lemma redact_hides s t :
  4 < char_count s -> 4 < char_count t ->
  drop (char_count s - 4) (chars s) = drop (char_count t - 4) (chars t) ->
  redact_id s = redact_id t /\ char_count (redact_id s) = 6.
Proof.
  intros Hs Ht Heq. split.
  - unfold redact_id. cbv zeta. rewrite !bool_decide_false by lia. by rewrite Heq.
  - unfold char_count at 1. rewrite redact_chars, bool_decide_false by lia. cbn [length].
    rewrite length_drop. unfold char_count. fold (char_count s). unfold char_count in *. lia.
Qed.

Lemma write_byte_len w b : length (aw_buf (write_byte w b)) = length (aw_buf w).
Proof. unfold write_byte. case_bool_decide; [done|]. cbn [aw_buf]. apply length_insert. Qed.

(** The writer holds the longest prefix that fits, and its length. *)
Definition written (w : ArgsWriter) (cap : nat) (bs : bytes) : Prop :=
  length (aw_buf w) = cap /\ aw_len w = Nat.min cap (length bs) /\ take (aw_len w) (aw_buf w) = take cap bs.

Lemma write_byte_written w cap bs b : written w cap bs -> written (write_byte w b) cap (bs ++ [b]).
Proof.
  intros (Hl & Hn & Ht). unfold write_byte. rewrite Hl. case_bool_decide as Hf.
  - split_and!; [done| |].
    + rewrite length_app. simpl. lia.
    + rewrite Ht, take_app_le by lia. done.
  - split_and!; cbn [aw_buf aw_len]; [by rewrite length_insert| |].
    + rewrite length_app. simpl. lia.
    + rewrite take_S_r with (x := b) by (apply list_lookup_insert_eq; lia).
      rewrite take_insert_ge by lia. rewrite Ht. rewrite !take_ge; [done|rewrite length_app; simpl; lia|lia].
Qed.

Lemma write_str_written w cap bs s : written w cap bs -> written (write_str w s) cap (bs ++ as_bytes s).
Proof.
  unfold write_str. generalize (as_bytes s) as l. intros l. revert w bs.
  induction l as [|b l IH]; intros w bs Hw; [by rewrite app_nil_r|]. cbn [foldl].
  replace (bs ++ b :: l) with ((bs ++ [b]) ++ l) by (by rewrite <- app_assoc). by apply IH, write_byte_written.
Qed.

Lemma writes_written pieces w cap bs :
  written w cap bs -> written (foldl write_str w pieces) cap (bs ++ mjoin (as_bytes <$> pieces)).
Proof.
  revert w bs. induction pieces as [|p ps IH]; intros w bs Hw; [by rewrite app_nil_r|].
  cbn [foldl]. rewrite fmap_cons. cbn [mjoin list_join]. rewrite app_assoc. by apply IH, write_str_written.
Qed.

Lemma prefix_split p s : String.prefix p s = true -> exists r, s = p +:+ r.
Proof.
  revert s. induction p as [|c p IH]; intros s Hp; [by exists s|]. destruct s as [|c' s]; [done|].
  simpl in Hp. destruct (ascii_dec c c') as [->|]; [|done]. destruct (IH s Hp) as [r ->]. by exists r.
Qed.

Lemma substring_all r : String.substring 0 (String.length r) r = r.
Proof. induction r as [|c r IH]; [done|]. simpl. by rewrite IH. Qed.

Lemma substring_after p r : String.substring (slen p) (slen (p +:+ r) - slen p) (p +:+ r) = r.
Proof.
  rewrite slen_app. replace (slen p + slen r - slen p) with (slen r) by lia. unfold slen.
  induction p as [|c p IH]; [|exact IH].
  apply substring_all.
Qed.

Lemma strip_prefix_spec s p r : strip_prefix s p = Some r <-> s = p +:+ r.
Proof.
  unfold strip_prefix. split.
  - destruct (String.prefix p s) eqn:Hp; [|done]. destruct (prefix_split _ _ Hp) as [r' ->].
    rewrite substring_after. by intros [= ->].
  - intros ->. by rewrite prefix_app, substring_after.
Qed.

(** The filter cuts whole crate names only. *)
Lemma muffled_spec t :
  muffled t = true <-> exists c, c ∈ MUFFLED /\ (t = c \/ exists r, t = c +:+ "::" +:+ r).
Proof.
  unfold muffled. rewrite existsb_exists. setoid_rewrite <- list_elem_of_In. split.
  - intros (c & Hc & [Ht%bool_decide_eq_true|Ht]%orb_true_iff); exists c; split; eauto. right.
    destruct (strip_prefix t c) as [rest|] eqn:Hs; [|done]. apply strip_prefix_spec in Hs as ->.
    destruct (prefix_split _ _ Ht) as [r ->]. eauto.
  - intros (c & Hc & [->|[r ->]]); exists c; split; try done.
    + by rewrite bool_decide_true.
    + rewrite (proj2 (strip_prefix_spec (c +:+ "::" +:+ r) c ("::" +:+ r)) eq_refl). cbn [from_option].
      rewrite starts_with_app. apply orb_true_r.
Qed.

Example our_store_is_not_muffled : muffled "presage_store_pddb::backend_pddb" = false.
Proof. reflexivity. Qed.

(** What the hardware log receives: nothing from a muffled crate at info level or
    below, else the longest prefix of the message that fits the record. *)
Lemma log_spec cid dr r :
  (log false cid dr r = None <->
     cid = 0%N \/ ((3 <= level_code (md_level (rec_metadata r)))%N /\ muffled (md_target (rec_metadata r)) = true)) /\
  (forall lr, log false cid dr r = Some lr ->
     length (lr_args lr) = length (lr_args dr) /\
     let said := mjoin (as_bytes <$> rec_args r) in
     take (length (lr_args dr) `min` length said) (lr_args lr) = take (length (lr_args dr)) said).
Proof.
  assert (He : enabled false (rec_metadata r) = false <->
    (3 <= level_code (md_level (rec_metadata r)))%N /\ muffled (md_target (rec_metadata r)) = true).
  { unfold enabled. by rewrite negb_false_iff, andb_true_iff, N.leb_le. }
  unfold log. split.
  - rewrite <- He. destruct (enabled false (rec_metadata r)); cbn [negb]; [|by split; [right|]].
    destruct (N.eqb_spec cid 0) as [->|]; [by split; [left|]|]. unfold copy_bounded. split; [done|].
    by intros [?|?].
  - intros lr. destruct (negb _); [done|]. destruct (cid =? 0)%N; [done|].
    unfold copy_bounded. intros [= <-]. cbn [lr_args].
    destruct (writes_written (rec_args r) (mkArgs (lr_args dr) 0) (length (lr_args dr)) []) as (Hl & Hn & Ht).
    + split_and!; [done|by rewrite Nat.min_0_r|by rewrite take_nil].
    + simpl in Hn, Ht. split; [done|]. cbv zeta. by rewrite <- Hn.
Qed.
