(* ===== verification/Tls.v ===== *)
(** * TLS connections ([xous-net-bridge/src/tls.rs])

    The counting session store, the process-wide counter behind every client
    configuration, the pinned roots and the connection set-up. rustls, its
    session cache and the sockets are parameters; a handshake reaches the store
    through the calls of [ClientSessionStore] only, and is given as the calls it
    makes. *)
From Stdlib Require Import Strings.String.
From S2P Require Import Prelude Codec.

(** ** rustls and the sockets *)
Class TlsLib (X Cache Name Ticket Group Session Roots Cert : Type) : Type := {
  (* ClientSessionMemoryCache *)
  cache_new : nat -> Cache;
  cache_set_kx_hint : Name -> Group -> Cache -> Cache;
  cache_kx_hint : Name -> Cache -> option Group;
  cache_set_tls12_session : Name -> Session -> Cache -> Cache;
  cache_tls12_session : Name -> Cache -> option Session * Cache;
  cache_remove_tls12_session : Name -> Cache -> Cache;
  cache_insert_tls13_ticket : Name -> Ticket -> Cache -> Cache;
  cache_take_tls13_ticket : Name -> Cache -> option Ticket * Cache;
  (* RootCertStore, rustls_pemfile::certs *)
  roots_empty : Roots;
  roots_add : Cert -> Roots -> result Roots string;
  pem_certs : bytes -> list (result Cert string);
  (* ServerName::try_from, TcpStream *)
  server_name : string -> result Name string;
  tcp_connect : string -> N -> X -> result unit string * X;
  tcp_set_read_timeout : N -> X -> result unit string * X;
  tcp_set_write_timeout : N -> X -> result unit string * X
}.

(** What a handshake asks of the session store. *)
Inductive StoreCall (Name Ticket Group Session : Type) : Type :=
| SetKxHint (n : Name) (g : Group)
| KxHint (n : Name)
| SetTls12 (n : Name) (v : Session)
| Tls12 (n : Name)
| RemoveTls12 (n : Name)
| InsertTicket (n : Name) (t : Ticket)
| TakeTicket (n : Name).
Arguments SetKxHint {Name Ticket Group Session}. Arguments KxHint {Name Ticket Group Session}.
Arguments SetTls12 {Name Ticket Group Session}. Arguments Tls12 {Name Ticket Group Session}.
Arguments RemoveTls12 {Name Ticket Group Session}. Arguments InsertTicket {Name Ticket Group Session}.
Arguments TakeTicket {Name Ticket Group Session}.

(** [ClientConnection]: its construction and its handshake, as the calls it makes
    on a store with this cache, the outcome and the effect on the outside. *)
Class Handshakes (X Cache Name Ticket Group Session Roots : Type) : Type := {
  client_connection_new : Roots -> list bytes -> Name -> result unit string;
  complete_io : Roots -> list bytes -> Name -> Cache -> X ->
    list (StoreCall Name Ticket Group Session) * result unit string * X
}.

Section tls.
Context {X Cache Name Ticket Group Session Roots Cert : Type}
  `{TL : !TlsLib X Cache Name Ticket Group Session Roots Cert}
  `{HS : !Handshakes X Cache Name Ticket Group Session Roots}.

(** ** The counting store *)
Record CountingResumptionStore : Type := mkCounting { inner : Cache; take_some_count : N }.
Implicit Types (s : CountingResumptionStore) (c : Cache) (n : Name).

Definition counting_new (size : nat) : CountingResumptionStore := mkCounting (cache_new size) 0.

(** The forwards. [AtomicUsize] is 32 bits wide on the device and wraps. *)
Definition set_kx_hint n g s := mkCounting (cache_set_kx_hint n g (inner s)) (take_some_count s).
Definition kx_hint n s : option Group := cache_kx_hint n (inner s).
Definition set_tls12_session n v s := mkCounting (cache_set_tls12_session n v (inner s)) (take_some_count s).
Definition tls12_session n s : option Session * CountingResumptionStore :=
  let '(v, c) := cache_tls12_session n (inner s) in (v, mkCounting c (take_some_count s)).
Definition remove_tls12_session n s := mkCounting (cache_remove_tls12_session n (inner s)) (take_some_count s).
Definition insert_tls13_ticket n v s := mkCounting (cache_insert_tls13_ticket n v (inner s)) (take_some_count s).
Definition take_tls13_ticket n s : option Ticket * CountingResumptionStore :=
  let '(v, c) := cache_take_tls13_ticket n (inner s) in
  (v, mkCounting c (match v with Some _ => wrap32 (take_some_count s + 1) | None => take_some_count s end)).

Definition serve_call (call : StoreCall Name Ticket Group Session) s : CountingResumptionStore :=
  match call with
  | SetKxHint n g => set_kx_hint n g s
  | KxHint n => s
  | SetTls12 n v => set_tls12_session n v s
  | Tls12 n => snd (tls12_session n s)
  | RemoveTls12 n => remove_tls12_session n s
  | InsertTicket n t => insert_tls13_ticket n t s
  | TakeTicket n => snd (take_tls13_ticket n s)
  end.
Definition serve_calls calls s : CountingResumptionStore := foldl (fun s call => serve_call call s) s calls.

(** ** Configurations *)

(** [Arc<ClientConfig>]: the roots and protocols; its resumption store is the
    process's counter, which the state below holds. *)
Record ClientConfig : Type := mkConfig { cfg_roots : Roots; cfg_alpn : list bytes }.

(** The process: [ACTIVE_COUNTER] and the outside. *)
Record NetProcess : Type := mkNetProcess { active_counter : option CountingResumptionStore; net : X }.
Abbreviation op := (M NetProcess string).

(** [ACTIVE_COUNTER.get_or_init(..)]. *)
Definition get_or_init (p : NetProcess) : CountingResumptionStore :=
  match active_counter p with Some s => s | None => counting_new 8 end.

Definition build_tls_config (roots : Roots) (alpn : list bytes) : op ClientConfig :=
  fun p => (Ok (mkConfig roots alpn), mkNetProcess (Some (get_or_init p)) (net p)).

Definition active_counter_for_tests (p : NetProcess) : option CountingResumptionStore := active_counter p.

(** ** Roots *)
Fixpoint add_certs (certs : list (result Cert string)) (store : Roots) : result Roots string :=
  match certs with
  | [] => Ok store
  | Err e :: _ => Err e
  | Ok cert :: certs' =>
      match roots_add cert store with
      | Err e => Err e
      | Ok store => add_certs certs' store
      end
  end.
Definition parse_pem_roots (pem : bytes) : result Roots string := add_certs (pem_certs pem) roots_empty.

(** [.expect(..)]: [None] is the panic on a bundle that does not parse. *)
Definition bundled_roots (pem : bytes) : option Roots :=
  match parse_pem_roots pem with Ok r => Some r | Err _ => None end.

(** ** Connecting *)
Definition on_net {A} (f : X -> result A string * X) : op A :=
  fun p => let '(r, x) := f (net p) in (r, mkNetProcess (active_counter p) x).

(** The handshake, against the store of the process. *)
Definition drive_handshake (config : ClientConfig) n : op unit :=
  fun p =>
    let s := get_or_init p in
    let '(calls, r, x) := complete_io (cfg_roots config) (cfg_alpn config) n (inner s) (net p) in
    (r, mkNetProcess (match active_counter p with Some _ => Some (serve_calls calls s) | None => None end) x).

(** The value of [was_resumed] in the log line. *)
Definition was_resumed (before : option N) (p : NetProcess) : string :=
  match before, active_counter p with
  | Some before, Some c => if (before <? take_some_count c)%N then "true" else "false"
  | _, _ => "unknown"
  end.

(** The answer carries the logged [was_resumed]; timings are not modelled. *)
Definition tls_connect_with_config (host : string) (port : N) (config : ClientConfig) : op string :=
  let* n := mlift (server_name host) in
  let* _ := mlift (client_connection_new (cfg_roots config) (cfg_alpn config) n) in
  let* _ := on_net (tcp_connect host port) in
  let* _ := on_net (tcp_set_read_timeout 5000) in
  let* _ := on_net (tcp_set_write_timeout 30000) in
  let* p := mget in
  let counter_before := take_some_count <$> active_counter p in
  let* _ := drive_handshake config n in
  let* p := mget in
  mok (was_resumed counter_before p).

Definition tls_connect (host : string) (port : N) (roots : Roots) (alpn : list bytes) : op string :=
  let* config := build_tls_config roots alpn in
  tls_connect_with_config host port config.

(** ** The wrapper is transparent and counts the tickets taken *)

(** The same calls on the cache alone, and how many of them took a ticket. *)
Definition cache_call (call : StoreCall Name Ticket Group Session) c : Cache :=
  match call with
  | SetKxHint n g => cache_set_kx_hint n g c
  | KxHint n => c
  | SetTls12 n v => cache_set_tls12_session n v c
  | Tls12 n => snd (cache_tls12_session n c)
  | RemoveTls12 n => cache_remove_tls12_session n c
  | InsertTicket n t => cache_insert_tls13_ticket n t c
  | TakeTicket n => snd (cache_take_tls13_ticket n c)
  end.
Definition takes (call : StoreCall Name Ticket Group Session) c : nat :=
  match call with
  | TakeTicket n => match fst (cache_take_tls13_ticket n c) with Some _ => 1 | None => 0 end
  | _ => 0
  end.
Fixpoint tickets_taken (calls : list (StoreCall Name Ticket Group Session)) c : nat :=
  match calls with
  | [] => 0
  | call :: calls' => takes call c + tickets_taken calls' (cache_call call c)
  end.

Lemma wrap32_add a b : wrap32 (wrap32 a + b) = wrap32 (a + b).
Proof. unfold wrap32. apply N.Div0.add_mod_idemp_l. Qed.

Lemma serve_calls_spec calls s :
  (take_some_count s <= u32_max)%N ->
  inner (serve_calls calls s) = foldl (fun c call => cache_call call c) (inner s) calls /\
  take_some_count (serve_calls calls s) =
    wrap32 (take_some_count s + N.of_nat (tickets_taken calls (inner s))).
Proof.
  revert s. induction calls as [|call calls IH]; intros s Hs.
  - split; [done|]. simpl. unfold wrap32, u32_max in *. rewrite N.mod_small; lia.
  - cbn [serve_calls foldl tickets_taken]. fold (serve_calls calls (serve_call call s)).
    assert (Hc : inner (serve_call call s) = cache_call call (inner s)).
    { destruct call; try done; simpl; unfold tls12_session, take_tls13_ticket.
      - by destruct (cache_tls12_session n (inner s)).
      - by destruct (cache_take_tls13_ticket n (inner s)). }
    assert (Hn : take_some_count (serve_call call s) = wrap32 (take_some_count s + N.of_nat (takes call (inner s)))).
    { assert (H0 : take_some_count s = wrap32 (take_some_count s + 0)).
      { unfold wrap32, u32_max in *. rewrite N.mod_small; lia. }
      destruct call; try exact H0; simpl; unfold tls12_session, take_tls13_ticket.
      - by destruct (cache_tls12_session n (inner s)).
      - destruct (cache_take_tls13_ticket n (inner s)) as [[t|] c']; [done|exact H0]. }
    destruct (IH (serve_call call s)) as [Hi Hk].
    { rewrite Hn. unfold wrap32, u32_max. pose proof (N.mod_lt (take_some_count s + N.of_nat (takes call (inner s))) 4294967296). lia. }
    rewrite Hi, Hk, Hc, Hn, wrap32_add. split; [done|]. f_equal. lia.
Qed.

(** The log line says [true] exactly when the handshake took a ticket, as long as
    the counter does not wrap. *)
Lemma was_resumed_spec config n p r p' s :
  active_counter p = Some s ->
  drive_handshake config n p = (r, p') ->
  let calls := fst (fst (complete_io (cfg_roots config) (cfg_alpn config) n (inner s) (net p))) in
  (take_some_count s + N.of_nat (tickets_taken calls (inner s)) <= u32_max)%N ->
  was_resumed (Some (take_some_count s)) p' = if bool_decide (0 < tickets_taken calls (inner s)) then "true" else "false".
Proof.
  intros Hs Hrun calls Hb. unfold drive_handshake, get_or_init in Hrun. rewrite Hs in Hrun. subst calls.
  destruct (complete_io _ _ n (inner s) (net p)) as [[calls r'] x]. cbn [fst] in *.
  injection Hrun as <- <-. unfold was_resumed. cbn [active_counter].
  destruct (serve_calls_spec calls s ltac:(lia)) as [_ ->].
  replace (wrap32 _) with (take_some_count s + N.of_nat (tickets_taken calls (inner s)))%N
    by (unfold wrap32; rewrite N.mod_small; unfold u32_max in *; lia).
  case_bool_decide; [rewrite (proj2 (N.ltb_lt _ _)) by lia|rewrite (proj2 (N.ltb_ge _ _)) by lia]; done.
Qed.

(** A second configuration shares the first one's store: connections through
    [tls_connect] resume each other's sessions. *)
Lemma configs_share_store roots1 alpn1 roots2 alpn2 p :
  let '(_, p1) := build_tls_config roots1 alpn1 p in
  let '(_, p2) := build_tls_config roots2 alpn2 p1 in
  active_counter p2 = active_counter p1 /\ active_counter p1 <> None.
Proof. done. Qed.
End tls.
