(* ===== verification/Http.v ===== *)
(** * The HTTP/1.1 client ([xous-net-bridge/src/http.rs])

    Request building, the exchange on a one-shot thread, and the response
    parser. The [http], [url] and [base64] crates and the TLS stream are
    parameters; a slice out of range and a dead thread are values. *)
From Stdlib Require Import Ascii Strings.String.
From S2P Require Import Prelude Codec Utf8 Text Tls.

(** ** Bytes of the wire *)
Definition CR : ascii := "013".
Definition LF : ascii := "010".
Definition crlf : string := String CR (String LF "").
Definition terminator : bytes := as_bytes (crlf +:+ crlf).

(** [w == b"\r\n\r\n"] on the window that starts here. *)
Definition at_terminator (raw : bytes) : bool := bool_decide (take 4 raw = terminator).

(** [raw.windows(4).position(..)]. *)
Fixpoint find_header_end (raw : bytes) : option nat :=
  if at_terminator raw then Some 0
  else match raw with
       | [] => None
       | _ :: raw' => S <$> find_header_end raw'
       end.

(** [raw[i..]]: [None] is the panic past the end. *)
Definition slice_from (i : nat) (raw : bytes) : option bytes :=
  if i <=? length raw then Some (drop i raw) else None.

(** [str::split("\r\n")]. *)
Fixpoint split_crlf (s : string) : list string :=
  match s with
  | EmptyString => [""]
  | String c s' =>
      let here := match split_crlf s' with p :: ps => String c p :: ps | [] => [String c ""] end in
      match s' with
      | String d s'' => if bool_decide (c = CR) && bool_decide (d = LF) then "" :: split_crlf s'' else here
      | EmptyString => here
      end
  end.

(** [str::splitn(n, sep)]. *)
Fixpoint splitn (n : nat) (sep : ascii) (s : string) : list string :=
  match n with
  | O => []
  | S O => [s]
  | S n' => match split_once sep s with Some (a, b) => a :: splitn n' sep b | None => [s] end
  end.

(** [parse::<u16>()] with the messages of [ParseIntError]. *)
Fixpoint parse_u16_go (acc : N) (s : string) : result N string :=
  match s with
  | EmptyString => Ok acc
  | String c s' =>
      match to_digit 10 c with
      | None => Err "invalid digit found in string"
      | Some d =>
          let acc := (acc * 10 + d)%N in
          if (acc <=? u16_max)%N then parse_u16_go acc s' else Err "number too large to fit in target type"
      end
  end.
Definition parse_u16 (s : string) : result N string :=
  match s with
  | EmptyString => Err "cannot parse integer from empty string"
  | String c EmptyString =>
      if bool_decide (c = "+"%char \/ c = "-"%char) then Err "invalid digit found in string" else parse_u16_go 0 s
  | String c s' => if bool_decide (c = "+"%char) then parse_u16_go 0 s' else parse_u16_go 0 s
  end.

(** ** The crates *)

(** [http] and [url]; a [HeaderValue] reads back as text if it is visible ASCII. *)
Class HttpCrates (Url Method Name Value Map Status : Type) : Type := {
  host_str : Url -> option string;
  port_or_known_default : Url -> option N;
  url_path : Url -> string;
  url_query : Url -> option string;
  method_str : Method -> string;
  header_name_try_from : string -> option Name;
  header_value_try_from : string -> option Value;
  name_as_str : Name -> string;
  value_to_str : Value -> option string;
  header_map_new : Map;
  header_map_insert : Name -> Value -> Map -> Map;
  header_map_get : Name -> Map -> option Value;
  header_map_iter : Map -> list (Name * Value);
  status_from_u16 : N -> result Status string;
  base64_standard : bytes -> string
}.

(** [HeaderMap::insert] replaces every value of the name. *)
Class HeaderMapLaws {Url Method Name Value Map Status} `{EqDecision Name}
    (HC : HttpCrates Url Method Name Value Map Status) : Prop := {
  get_new n : header_map_get n header_map_new = None;
  get_insert n n' v h :
    header_map_get n (header_map_insert n' v h) = if decide (n = n') then Some v else header_map_get n h
}.

(** The stream a handshake leaves open, and the thread of a request. *)
Class HttpStream (X : Type) : Type := {
  stream_set_read_timeout : N -> X -> result unit string * X;
  stream_set_write_timeout : N -> X -> result unit string * X;
  stream_write_all : bytes -> X -> result unit string * X;
  stream_flush : X -> result unit string * X;
  stream_read_to_end : X -> result bytes string * X;
  spawn_thread : string -> X -> result unit string * X
}.

(** [libsignal_service::transport]. *)
Inductive HttpError : Type :=
| Network (msg : string)
| Encode (msg : string)
| InvalidUrl (msg : string)
| Decode (msg : string).

Record BasicAuth : Type := mkAuth { username : string; password : string }.

Section http.
Context {X Cache Ticket Group Session Roots Cert ServerName Url Method Name Value Map Status : Type}
  `{TL : !TlsLib X Cache ServerName Ticket Group Session Roots Cert}
  `{HS : !Handshakes X Cache ServerName Ticket Group Session Roots}
  `{HC : !HttpCrates Url Method Name Value Map Status} `{ST : !HttpStream X}.

Record HttpRequest : Type := mkRequest {
  req_method : Method; req_url : Url; req_headers : Map; req_body : option bytes;
  req_auth : option BasicAuth; req_timeout : option N
}.
Record HttpResponse : Type := mkResponse { status : Status; headers : Map; body : bytes }.

(** ** The response parser *)
Definition parse_status_line (status_line : string) : result Status HttpError :=
  match splitn 3 " " status_line with
  | _ :: code :: _ =>
      match parse_u16 code with
      | Err e => Err (Decode e)
      | Ok code => map_err Decode (status_from_u16 code)
      end
  | _ => Err (Decode "missing status code")
  end.

Definition parse_header_line (h : Map) (line : string) : Map :=
  if bool_decide (line = "") then h else
  match split_once ":" line with
  | Some (name, value) =>
      match header_name_try_from (trim name), header_value_try_from (trim value) with
      | Some n, Some v => header_map_insert n v h
      | _, _ => h
      end
  | None => h
  end.

(** [None] is the panic of a slice. *)
Definition parse_http_response (raw : bytes) : option (result HttpResponse HttpError) :=
  match find_header_end raw with
  | None => Some (Err (Decode "no header terminator"))
  | Some header_end =>
      body ← slice_from (header_end + 4) raw;
      Some match from_utf8 (take header_end raw) with
           | None => Err (Decode "non-UTF-8 header")
           | Some header_text =>
               match split_crlf header_text with
               | [] => Err (Decode "missing status line")
               | status_line :: lines =>
                   match parse_status_line status_line with
                   | Err e => Err e
                   | Ok status => Ok (mkResponse status (foldl parse_header_line header_map_new lines) body)
                   end
               end
           end
  end.

(** ** The request *)
Definition request_path (u : Url) : string :=
  match url_query u with
  | Some q => url_path u +:+ "?" +:+ q
  | None => url_path u
  end.

Definition basic_credentials (auth : BasicAuth) : string :=
  base64_standard (as_bytes (username auth +:+ ":" +:+ password auth)).

Fixpoint header_lines (hs : list (Name * Value)) : result string HttpError :=
  match hs with
  | [] => Ok ""
  | (name, value) :: hs' =>
      match value_to_str value with
      | None => Err (Encode "header value not ASCII")
      | Some v =>
          match header_lines hs' with
          | Err e => Err e
          | Ok rest => Ok (name_as_str name +:+ ": " +:+ v +:+ crlf +:+ rest)
          end
      end
  end.

(** Writing to the buffer cannot fail. *)
Definition request_bytes (req : HttpRequest) (host user_agent : string) : result bytes HttpError :=
  match header_lines (header_map_iter (req_headers req)) with
  | Err e => Err e
  | Ok hs =>
      let body := default [] (req_body req) in
      Ok (as_bytes
            (method_str (req_method req) +:+ " " +:+ request_path (req_url req) +:+ " HTTP/1.1" +:+ crlf +:+
             "Host: " +:+ host +:+ crlf +:+
             "User-Agent: " +:+ user_agent +:+ crlf +:+
             "Connection: close" +:+ crlf +:+
             "Accept: */*" +:+ crlf +:+
             match req_auth req with
             | Some auth => "Authorization: Basic " +:+ basic_credentials auth +:+ crlf
             | None => ""
             end +:+
             hs +:+
             "Content-Length: " +:+ pretty (N.of_nat (length body)) +:+ crlf +:+
             crlf) ++ body)
  end.

(** ** The exchange *)

(** How the thread ends other than with a response. *)
Inductive Failure : Type := Failed (e : HttpError) | ThreadPanicked.
Abbreviation exchange := (M (NetProcess (X := X) (Cache := Cache)) Failure).

Definition stream {A} (what : string) (f : X -> result A string * X) : exchange A :=
  mmap_err (fun e => Failed (Network (what +:+ ": " +:+ e))) (on_net f).
(** A failure that is only logged. *)
Definition tolerate (f : X -> result unit string * X) : exchange unit :=
  let* _ := mtry (on_net f) in mok tt.

Definition sync_execute (req : HttpRequest) (config : ClientConfig (Roots := Roots)) (user_agent : string)
    (timeout : N) : exchange HttpResponse :=
  match host_str (req_url req) with
  | None => merr (Failed (InvalidUrl "missing host"))
  | Some host =>
      let port := default 443%N (port_or_known_default (req_url req)) in
      let* _ := mmap_err (fun e => Failed (Network ("tls connect: " +:+ e)))
                  (tls_connect_with_config host port config) in
      tolerate (stream_set_read_timeout timeout) ;*
      tolerate (stream_set_write_timeout timeout) ;*
      let* request := mlift (map_err Failed (request_bytes req host user_agent)) in
      stream "write" (stream_write_all request) ;*
      stream "flush" stream_flush ;*
      let* raw := stream "read" stream_read_to_end in
      match parse_http_response raw with
      | None => merr ThreadPanicked
      | Some resp => mlift (map_err Failed resp)
      end
  end.

(** ** The client *)
Record SyncHttpClient : Type := mkClient { config : ClientConfig (Roots := Roots); user_agent : string; timeout : N }.

Definition http_client_new (roots : Roots) (user_agent : string) : M (NetProcess (X := X)) string SyncHttpClient :=
  let* config := build_tls_config roots [as_bytes "http/1.1"] in
  mok (mkClient config user_agent 65000).

(** [HttpClient::execute]: the thread's panic shows as its channel closing. *)
Definition execute (c : SyncHttpClient) (req : HttpRequest) : M NetProcess HttpError HttpResponse :=
  mmap_err (fun e => Network ("thread spawn: " +:+ e)) (on_net (spawn_thread "xous-net-bridge-http")) ;*
  mmap_err (fun f => match f with
                     | Failed e => e
                     | ThreadPanicked => Network "HTTP worker thread died"
                     end)
    (sync_execute req (config c) (user_agent c) (default (timeout c) (req_timeout req))).
End http.

(** ** Finding the end of the head *)
Lemma as_bytes_app s t : as_bytes (s +:+ t) = as_bytes s ++ as_bytes t.
Proof.
  unfold as_bytes, list_byte_of_string. induction s as [|c s IH]; [done|].
  rewrite sapp_cons. simpl. by rewrite IH.
Qed.

Lemma find_header_end_some raw i :
  find_header_end raw = Some i ->
  take 4 (drop i raw) = terminator /\ forall j, j < i -> take 4 (drop j raw) <> terminator.
Proof.
  revert i. induction raw as [|b raw IH]; intros i; cbn [find_header_end]; unfold at_terminator;
    case_bool_decide as Ht; intros H; simplify_eq; [by split; [|lia]..|].
  destruct (find_header_end raw) as [i'|]; simplify_eq/=. destruct (IH i' eq_refl) as [H1 H2].
  split; [done|]. intros [|j] Hj; [done|]. apply H2. lia.
Qed.

Lemma find_header_end_none raw :
  (forall j, take 4 (drop j raw) <> terminator) -> find_header_end raw = None.
Proof.
  induction raw as [|b raw IH]; [done|]. intros Hj. cbn [find_header_end]. unfold at_terminator.
  rewrite bool_decide_false by apply (Hj 0). rewrite IH; [done|]. intros j. apply (Hj (S j)).
Qed.

Lemma find_header_end_bound raw i : find_header_end raw = Some i -> i + 4 <= length raw.
Proof.
  intros [Ht _]%find_header_end_some. apply (f_equal length) in Ht.
  rewrite length_take, length_drop in Ht. change (length terminator) with 4 in Ht. lia.
Qed.

(** A head cut anywhere before its end has no end. *)
Lemma find_header_end_cut raw i k : find_header_end raw = Some i -> k < i + 4 -> find_header_end (take k raw) = None.
Proof.
  intros [_ Hmin]%find_header_end_some Hk. apply find_header_end_none. intros j Ht.
  assert (Hl : length (take 4 (drop j (take k raw))) = 4) by (by rewrite Ht).
  rewrite length_take, length_drop, length_take in Hl.
  apply (Hmin j); [lia|]. rewrite <- Ht, skipn_firstn_comm, take_take. f_equal. lia.
Qed.

(** ** Lines *)
Definition no_cr (s : string) : bool := string_forall (fun c => negb (Ascii.eqb c CR)) s.

Lemma not_at_terminator b r : b <> x0d -> at_terminator (b :: r) = false.
Proof. intros Hb. apply bool_decide_false. by intros [=]. Qed.

Lemma find_skip a r :
  no_cr a = true -> find_header_end (as_bytes a ++ r) = (fun i => slen a + i) <$> find_header_end r.
Proof.
  induction a as [|c a IH]; cbn [no_cr string_forall].
  - intros _. cbn. by destruct (find_header_end r).
  - intros [Hc Ha]%andb_true_iff. change (as_bytes (String c a)) with (byte_of_ascii c :: as_bytes a).
    cbn [app find_header_end]. rewrite not_at_terminator.
    + rewrite IH by done. by destruct (find_header_end r).
    + intros Hb. apply (f_equal ascii_of_byte) in Hb. rewrite ascii_of_byte_of_ascii in Hb. by subst.
Qed.

(** A status line and its header lines. *)
Fixpoint head_text (l : string) (ls : list string) : string :=
  match ls with
  | [] => l
  | l' :: ls' => l +:+ crlf +:+ head_text l' ls'
  end.

Lemma find_head l ls r :
  forallb no_cr (l :: ls) = true -> forallb (fun l => negb (bool_decide (l = ""))) ls = true ->
  find_header_end (as_bytes (head_text l ls) ++ terminator ++ r) = Some (slen (head_text l ls)).
Proof.
  revert l. induction ls as [|l' ls IH]; intros l; cbn [forallb head_text].
  - intros [Hl _]%andb_true_iff _. rewrite find_skip by done. cbn [find_header_end]. assert (Hz : find_header_end (terminator ++ r) = Some 0) by (by cbn). rewrite Hz. cbn. f_equal. apply Nat.add_0_r.
  - intros [Hl Hls]%andb_true_iff [Hne Hnes]%andb_true_iff. specialize (IH l' Hls Hnes).
    assert (Hl' : no_cr l' = true) by (cbn [forallb] in Hls; by apply andb_true_iff in Hls as [? _]).
    apply negb_true_iff, bool_decide_eq_false in Hne.
    rewrite as_bytes_app, <- (assoc_L (++)), find_skip, as_bytes_app, <- (assoc_L (++)) by done.
    assert (Hstep : find_header_end (as_bytes crlf ++ as_bytes (head_text l' ls) ++ terminator ++ r) =
                    (fun i => 2 + i) <$> find_header_end (as_bytes (head_text l' ls) ++ terminator ++ r)).
    { assert (Hh : exists c t, head_text l' ls = String c t /\ c <> CR).
      { destruct l' as [|c t]; [done|]. cbn [no_cr string_forall] in Hl'. apply andb_true_iff in Hl' as [Hc _].
        assert (Hcc : c <> CR) by (intros ->; done).
        destruct ls as [|l2 ls]; [by exists c, t|]. cbn [head_text]. rewrite sapp_cons. eauto. }
      destruct Hh as (c & t & -> & Hc). change (as_bytes (String c t)) with (byte_of_ascii c :: as_bytes t).
      change (as_bytes crlf) with [x0d; x0a]. cbn [app].
      set (q := byte_of_ascii c :: as_bytes t ++ terminator ++ r).
      assert (Hq : at_terminator (x0d :: x0a :: q) = false).
      { apply bool_decide_false. intros [= Hb]. apply (f_equal ascii_of_byte) in Hb.
        rewrite ascii_of_byte_of_ascii in Hb. by subst. }
      cbn [find_header_end]. rewrite Hq. fold (find_header_end q). rewrite (not_at_terminator x0a) by done.
      by destruct (find_header_end q). }
    rewrite Hstep, IH. cbn. rewrite !slen_app. done.
Qed.

Lemma split_crlf_line a r p ps :
  no_cr a = true -> split_crlf r = p :: ps -> split_crlf (a +:+ r) = (a +:+ p) :: ps.
Proof.
  intros Ha Hr. induction a as [|c a IH]; [done|]. cbn [no_cr string_forall] in Ha.
  apply andb_true_iff in Ha as [Hc Ha]. rewrite !sapp_cons. cbn [split_crlf]. rewrite IH by done.
  rewrite (bool_decide_false (c = CR)) by (by intros ->). by destruct (a +:+ r).
Qed.

Lemma split_head l ls : forallb no_cr (l :: ls) = true -> split_crlf (head_text l ls) = l :: ls.
Proof.
  revert l. induction ls as [|l' ls IH]; intros l; cbn [forallb head_text].
  - intros [Hl _]%andb_true_iff. rewrite <- (sapp_nil_r l) at 1.
    rewrite (split_crlf_line _ _ "" []) by done. by rewrite sapp_nil_r.
  - intros [Hl Hls]%andb_true_iff. rewrite (split_crlf_line _ _ "" (l' :: ls)); [by rewrite sapp_nil_r|done|].
    unfold crlf. rewrite !sapp_cons, sapp_nil_l. cbn [split_crlf].
    rewrite !(bool_decide_true _) by done. cbn [andb]. by rewrite IH.
Qed.

(** ** Texts of a head *)
Lemma utf8_first_ascii b r : in_range 0 127 b = true -> utf8_first (b :: r) = Some 1.
Proof. intros Hb. cbn [utf8_first]. by rewrite Hb. Qed.

Lemma from_utf8_ascii s : string_forall is_ascii_byte s = true -> from_utf8 (as_bytes s) = Some s.
Proof.
  intros Hs. unfold from_utf8. replace (utf8_valid (as_bytes s)) with true; [by rewrite of_as_bytes|].
  unfold utf8_valid. induction s as [|c s IH]; [done|]. cbn [string_forall] in Hs.
  apply andb_true_iff in Hs as [Hc Hs]. change (as_bytes (String c s)) with (byte_of_ascii c :: as_bytes s).
  cbn [length utf8_valid_go]. rewrite utf8_first_ascii by done. by apply IH.
Qed.

Lemma split_once_app sep a b :
  string_forall (fun c => negb (Ascii.eqb c sep)) a = true -> split_once sep (a +:+ String sep b) = Some (a, b).
Proof.
  induction a as [|c a IH]; cbn [string_forall].
  - intros _. rewrite sapp_nil_l. cbn [split_once]. by rewrite bool_decide_true.
  - intros [Hc Ha]%andb_true_iff. rewrite sapp_cons. cbn [split_once].
    rewrite (bool_decide_false (c = sep)); [by rewrite IH|]. intros ->. by rewrite Ascii.eqb_refl in Hc.
Qed.

Lemma parse_u16_go_ok acc s n : radix_go u16_max 10 acc s = Some n -> parse_u16_go acc s = Ok n.
Proof.
  revert acc. induction s as [|c s IH]; intros acc; cbn [radix_go parse_u16_go]; [by intros [= ->]|].
  destruct (to_digit 10 c) as [d|]; [|done]. cbn. case_match; [apply IH|done].
Qed.

Lemma parse_u16_pretty n : (n <= u16_max)%N -> parse_u16 (pretty n) = Ok n.
Proof.
  intros Hn%from_str_radix_pretty. unfold from_str_radix, parse_u16 in *.
  destruct (pretty n) as [|c [|c' s]]; [done|..]; case_bool_decide; try done; by apply parse_u16_go_ok.
Qed.

Lemma trim_space v : leads v = true -> trim (" " +:+ v) = trim v.
Proof.
  intros Hv. unfold trim. rewrite chars_app by done. change (chars " ") with [" "]. cbn [app skip_while].
  replace (is_whitespace " ") with true by (by vm_compute). done.
Qed.

(** A text a head may hold: ASCII without a carriage return. *)
Definition head_char (c : ascii) : bool := is_ascii_byte c && negb (Ascii.eqb c CR).
Definition plain (s : string) : bool := string_forall head_char s.
Definition without (sep : ascii) (s : string) : bool := string_forall (fun c => negb (Ascii.eqb c sep)) s.

Lemma plain_no_cr s : plain s = true -> no_cr s = true.
Proof. apply string_forall_impl. unfold head_char. by intros c [_ H]%andb_true_iff. Qed.

Lemma plain_ascii s : plain s = true -> string_forall is_ascii_byte s = true.
Proof. apply string_forall_impl. unfold head_char. by intros c [H _]%andb_true_iff. Qed.

Lemma plain_leads s : plain s = true -> leads s = true.
Proof.
  destruct s as [|c s]; [done|]. intros [Hc _]%plain_ascii%andb_true_iff. cbn.
  by rewrite ascii_not_cont.
Qed.

Lemma plain_app s t : plain (s +:+ t) = plain s && plain t.
Proof. apply string_forall_app. Qed.

Lemma digit_cases c : is_ascii_digit c = true -> head_char c = true /\ negb (Ascii.eqb c " ") = true.
Proof. destruct c as [[] [] [] [] [] [] [] []]; by intros H; vm_compute in H |- *. Qed.

Lemma plain_pretty (n : N) : plain (pretty n) = true /\ without " " (pretty n) = true.
Proof. split; (eapply string_forall_impl; [|apply pretty_digits]); intros c Hc; by apply digit_cases. Qed.

Lemma head_ascii l ls : forallb plain (l :: ls) = true -> string_forall is_ascii_byte (head_text l ls) = true.
Proof.
  revert l. induction ls as [|l' ls IH]; intros l; cbn [forallb head_text]; intros [Hl Hls]%andb_true_iff;
    [by apply plain_ascii|].
  rewrite !string_forall_app, (plain_ascii l), IH by done. done.
Qed.

Section roundtrip.
Context {Url Method Name Value Map Status : Type} `{EqDecision Name}
  {HC : HttpCrates Url Method Name Value Map Status} `{HL : !HeaderMapLaws HC}.
Abbreviation parse := (parse_http_response (Url := Url) (Method := Method) (Name := Name) (Value := Value) (Map := Map) (Status := Status)).

(** ** Responses as a server writes them *)
Record Field : Type := mkField { field_name : string; field_value : string; field_key : Name; field_val : Value }.

Definition field_ok (f : Field) : Prop :=
  plain (field_name f) = true /\ without ":" (field_name f) = true /\ trim (field_name f) = field_name f /\
  plain (field_value f) = true /\ trim (field_value f) = field_value f /\
  header_name_try_from (field_name f) = Some (field_key f) /\
  header_value_try_from (field_value f) = Some (field_val f).

Definition field_line (f : Field) : string := field_name f +:+ ": " +:+ field_value f.
Definition status_line (version : string) (code : N) (reason : string) : string :=
  version +:+ " " +:+ pretty code +:+ " " +:+ reason.
Definition render_response (version : string) (code : N) (reason : string) (fields : list Field) (body : bytes) : bytes :=
  as_bytes (head_text (status_line version code reason) (field_line <$> fields)) ++ terminator ++ body.

(** The last field of a name is the one that stays. *)
Fixpoint last_field (n : Name) (fields : list Field) : option Value :=
  match fields with
  | [] => None
  | f :: fields' =>
      match last_field n fields' with
      | Some v => Some v
      | None => if decide (n = field_key f) then Some (field_val f) else None
      end
  end.

Lemma field_line_plain f : field_ok f -> plain (field_line f) = true.
Proof.
  intros (Hn & _ & _ & Hv & _). unfold field_line. by rewrite !plain_app, Hn, Hv.
Qed.

Lemma field_line_nonempty f : negb (bool_decide (field_line f = "")) = true.
Proof.
  apply negb_true_iff, bool_decide_false. unfold field_line. intros H.
  apply (f_equal slen) in H. rewrite !slen_app in H. cbn in H. lia.
Qed.

Lemma parse_header_line_field h f :
  field_ok f -> parse_header_line h (field_line f) = header_map_insert (field_key f) (field_val f) h.
Proof.
  intros Hf. pose proof (field_line_nonempty f) as Hne. apply negb_true_iff in Hne.
  destruct Hf as (Hn & Hc & Htn & Hv & Htv & Hkey & Hval). unfold parse_header_line. rewrite Hne.
  unfold field_line. change (": " +:+ field_value f) with (String ":" (" " +:+ field_value f)).
  rewrite split_once_app by done. rewrite trim_space by (by apply plain_leads).
  by rewrite Htn, Htv, Hkey, Hval.
Qed.

Lemma parse_fields fields h n :
  Forall field_ok fields ->
  header_map_get n (foldl parse_header_line h (field_line <$> fields)) =
    match last_field n fields with Some v => Some v | None => header_map_get n h end.
Proof.
  intros Hf. revert h. induction Hf as [|f fields Hf _ IH]; intros h; [done|].
  cbn [fmap list_fmap foldl last_field]. rewrite IH, parse_header_line_field, get_insert by done.
  by destruct (last_field n fields), (decide (n = field_key f)).
Qed.

Lemma parse_status_line_render version code reason st :
  without " " version = true -> (code <= u16_max)%N -> status_from_u16 code = Ok st ->
  parse_status_line (status_line version code reason) = Ok st.
Proof.
  intros Hv Hc Hst. unfold parse_status_line, status_line. destruct (plain_pretty code) as [_ Hp].
  cbn [splitn]. change (" " +:+ pretty code +:+ " " +:+ reason) with (String " " (pretty code +:+ String " " reason)).
  by rewrite !split_once_app, parse_u16_pretty, Hst.
Qed.

(** What the parser finds in any input that has an end of its head. *)
Lemma parse_total raw : parse raw <> None.
Proof.
  unfold parse_http_response. destruct (find_header_end raw) as [i|] eqn:Hi; [|done].
  apply find_header_end_bound in Hi. unfold slice_from.
  rewrite (proj2 (Nat.leb_le _ _)) by done. done.
Qed.

Lemma parse_cut raw i k :
  find_header_end raw = Some i -> k < i + 4 -> parse (take k raw) = Some (Err (Decode "no header terminator")).
Proof. intros Hi Hk. unfold parse_http_response. by rewrite (find_header_end_cut raw i k). Qed.

Lemma parse_at head body :
  find_header_end (as_bytes head ++ terminator ++ body) = Some (slen head) ->
  string_forall is_ascii_byte head = true ->
  parse (as_bytes head ++ terminator ++ body) =
    Some match split_crlf head with
         | [] => Err (Decode "missing status line")
         | l :: ls => match parse_status_line l with
                      | Err e => Err e
                      | Ok st => Ok (mkResponse st (foldl parse_header_line header_map_new ls) body)
                      end
         end.
Proof.
  intros Hi Ha. unfold parse_http_response. rewrite Hi. unfold slice_from.
  assert (Hl : length (as_bytes head) = slen head) by apply as_bytes_length.
  rewrite (proj2 (Nat.leb_le _ _)) by (rewrite !length_app, Hl; change (length terminator) with 4; lia).
  rewrite take_app_length' by done. rewrite <- Hl, <- drop_drop, drop_app_length.
  change 4 with (length terminator). rewrite drop_app_length. cbn [mbind option_bind].
  by rewrite from_utf8_ascii.
Qed.

(** C39: The response parser never slices out of bounds; it reads back what a
    server renders (status, the last value of every header, the body to the end of
    the input whatever length a header declares), and a response cut anywhere in
    its head is an error, never a partial answer. *)
Theorem http_response_roundtrip :
  (forall raw, parse raw <> None) /\
  forall version code reason fields st body,
    plain version = true -> without " " version = true -> plain reason = true ->
    (code <= u16_max)%N -> status_from_u16 code = Ok st -> Forall field_ok fields ->
    let raw := render_response version code reason fields body in
    (exists h, parse raw = Some (Ok (mkResponse st h body)) /\
               forall n, header_map_get n h = last_field n fields) /\
    (forall k, k < length raw - length body ->
               parse (take k raw) = Some (Err (Decode "no header terminator"))).
Proof.
  split; [apply parse_total|]. intros version code reason fields st body Hv Hvs Hr Hc Hst Hf raw.
  set (l := status_line version code reason). set (ls := field_line <$> fields).
  assert (Hp : forallb plain (l :: ls) = true).
  { cbn [forallb]. apply andb_true_iff. split.
    - unfold l, status_line. by rewrite !plain_app, Hv, Hr, (proj1 (plain_pretty code)).
    - unfold ls. clear -Hf. induction Hf as [|f fs Hf _ IH]; [done|]. cbn. by rewrite field_line_plain. }
  assert (Hcr : forallb no_cr (l :: ls) = true).
  { clear -Hp. induction (l :: ls) as [|x xs IH]; [done|]. cbn in *.
    apply andb_true_iff in Hp as [Hx Hp]. by rewrite plain_no_cr, IH. }
  assert (Hi : find_header_end raw = Some (slen (head_text l ls))).
  { apply find_head; [done|]. unfold ls. clear. induction fields as [|f fs IH]; [done|].
    cbn. by rewrite field_line_nonempty. }
  split.
  - exists (foldl parse_header_line header_map_new ls). split.
    + unfold raw, render_response. rewrite parse_at by (done || by apply head_ascii).
      rewrite split_head by done. unfold l. by rewrite (parse_status_line_render version code reason st).
    + intros n. unfold ls. rewrite parse_fields, get_new by done. by destruct (last_field n fields).
  - intros k Hk. apply (parse_cut _ _ _ Hi). revert Hk. unfold raw, render_response.
    rewrite !length_app, as_bytes_length. change (length terminator) with 4. fold l ls. lia.
Qed.
End roundtrip.

Section exchange.
Context {X Cache Ticket Group Session Roots Cert ServerName Url Method Name Value Map Status : Type}
  `{TL : !TlsLib X Cache ServerName Ticket Group Session Roots Cert}
  `{HS : !Handshakes X Cache ServerName Ticket Group Session Roots}
  `{HC : !HttpCrates Url Method Name Value Map Status} `{ST : !HttpStream X} `{EqDecision Name}.

(** The thread of a request never panics: its channel always brings an answer. *)
Lemma sync_execute_survives req config ua timeout p p' :
  sync_execute (TL := TL) (HS := HS) (HC := HC) (ST := ST) req config ua timeout p <> (Err ThreadPanicked, p').
Proof.
  unfold sync_execute. destruct (host_str (req_url req)) as [host|]; [|done].
  intros H. repeat match type of H with
    | mbind _ _ _ = _ =>
        let e := fresh "e" in
        apply mbind_inv in H as [(? & ? & _ & H)|(e & H & ?)]; [|
          revert H; unfold stream, tolerate, mmap_err, mtry, mlift, mbind, on_net, map_err; repeat case_match; naive_solver]
    end.
  revert H. destruct (parse_http_response _) as [[?|?]|] eqn:Hp; [done..|]. by apply parse_total in Hp.
Qed.

(** One connection, one request, the bytes of [request_bytes] in one write, and the
    answer parsed from everything the server sent. *)
Lemma sync_execute_exchange req cfg ua timeout host raw resumed request p p1 x1 x2 x3 x4 x5 r1 r2 :
  host_str (req_url req) = Some host ->
  tls_connect_with_config host (default 443%N (port_or_known_default (req_url req))) cfg p = (Ok resumed, p1) ->
  stream_set_read_timeout timeout (net p1) = (r1, x1) -> stream_set_write_timeout timeout x1 = (r2, x2) ->
  request_bytes req host ua = Ok request ->
  stream_write_all request x2 = (Ok tt, x3) -> stream_flush x3 = (Ok tt, x4) -> stream_read_to_end x4 = (Ok raw, x5) ->
  exists resp, parse_http_response (HC := HC) raw = Some resp /\
    sync_execute req cfg ua timeout p = (map_err Failed resp, mkNetProcess (active_counter p1) x5).
Proof.
  intros Hh Ht H1 H2 Hb H3 H4 H5. destruct (parse_http_response (HC := HC) raw) as [resp|] eqn:Hp; [|by apply parse_total in Hp].
  exists resp. split; [done|]. unfold sync_execute. rewrite Hh.
  unfold stream, tolerate, mtry, mmap_err, on_net, mlift, mbind, mok. rewrite Ht. cbn [net active_counter].
  rewrite H1. cbn [net active_counter]. rewrite H2. cbn [net active_counter]. rewrite Hb. cbn [map_err net active_counter].
  rewrite H3. cbn [map_err net active_counter]. rewrite H4. cbn [map_err net active_counter]. rewrite H5.
  cbn [map_err net active_counter]. by rewrite Hp.
Qed.
End exchange.

(** ** A concrete instance *)
Module HttpExample.
Definition crates : HttpCrates unit unit string string (list (string * string)) N := {|
  host_str _ := Some "chat.signal.org"; port_or_known_default _ := None; url_path _ := "/v1"; url_query _ := Some "q=1";
  method_str _ := "GET";
  header_name_try_from s := if bool_decide (s = "") then None else Some (to_lowercase s);
  header_value_try_from s := Some s; name_as_str n := n; value_to_str v := Some v;
  header_map_new := [];
  header_map_insert n v h := (n, v) :: h;
  header_map_get n h := option_map (fun e => e.2.2) (list_find (fun e => e.1 = n) h);
  header_map_iter h := h;
  status_from_u16 c := if (100 <=? c)%N && (c <=? 999)%N then Ok c else Err "invalid status code";
  base64_standard b := of_bytes b
|}.

#[global] Instance crates_laws : HeaderMapLaws crates.
Proof.
  split; [done|]. intros n n' v h. cbn. destruct (decide (n' = n)) as [->|Hne].
  - by rewrite decide_True.
  - rewrite decide_False by done. by destruct (list_find _ h) as [[? []]|].
Qed.

Definition fields : list (Field (Name := string) (Value := string)) :=
  [mkField "Content-Type" "text/html; a=b" "content-type" "text/html; a=b";
   mkField "Content-Length" "99" "content-length" "99"].
Definition answer : bytes := render_response "HTTP/1.1" 200 "OK" fields (as_bytes "hi").

(** The declared length is not looked at. *)
Example answer_parsed :
  parse_http_response (HC := crates) answer =
    Some (Ok (mkResponse 200%N [("content-length", "99"); ("content-type", "text/html; a=b")] (as_bytes "hi"))).
Proof. vm_compute. reflexivity. Qed.

Lemma fields_ok : Forall (field_ok (HC := crates)) fields.
Proof. repeat constructor. Qed.

Lemma http_response_roundtrip_witness :
  exists h, parse_http_response (HC := crates) answer = Some (Ok (mkResponse 200%N h (as_bytes "hi"))) /\
            header_map_get (HttpCrates := crates) "content-length" h = Some "99".
Proof.
  destruct (http_response_roundtrip (HC := crates)) as [_ H].
  destruct (H "HTTP/1.1" 200%N "OK" fields 200%N (as_bytes "hi") eq_refl eq_refl eq_refl ltac:(done) eq_refl fields_ok)
    as [(h & Hp & Hg) _].
  exists h. split; [exact Hp|]. rewrite Hg. reflexivity.
Defined.
End HttpExample.
