(* ===== verification/Pump.v ===== *)
(** * The WebSocket pump ([xous-net-bridge/src/ws_pump.rs], [ws.rs])

    Connecting, and the three threads behind a connection: setup, reader and
    writer, the mutex they share and the two bounded channels to the caller. A
    thread's step up to its next blocking call is one action; a run is any
    interleaving of the actions of the threads, the socket and the caller.
    tungstenite is a parameter: a read or a send returns whatever the action says. *)
From Stdlib Require Import Strings.String.
From S2P Require Import Prelude Codec Tls Http.

(** ** Frames *)

(** [libsignal_service::transport::WsFrame]. *)
Inductive WsFrame : Type :=
| Binary (b : bytes)
| Text (s : string)
| Ping (b : bytes)
| Pong (b : bytes)
| Close (code : N) (reason : string).

(** [tungstenite::protocol]. *)
Record CloseFrame (Code : Type) : Type := mkCloseFrame { cf_code : Code; cf_reason : string }.
Arguments mkCloseFrame {Code}. Arguments cf_code {Code}. Arguments cf_reason {Code}.

Inductive Message (Code : Type) : Type :=
| MsgBinary (b : bytes)
| MsgText (s : string)
| MsgPing (b : bytes)
| MsgPong (b : bytes)
| MsgClose (frame : option (CloseFrame Code))
| MsgFrame (raw : bytes).
Arguments MsgBinary {Code}. Arguments MsgText {Code}. Arguments MsgPing {Code}.
Arguments MsgPong {Code}. Arguments MsgClose {Code}. Arguments MsgFrame {Code}.

Inductive IoKind : Type := WouldBlock | TimedOut | OtherKind.
Inductive WsError : Type :=
| ConnectionClosed
| AlreadyClosed
| Io (kind : IoKind) (msg : string)
| OtherError (msg : string).

(** Close codes as 16-bit numbers, and the display of an error. *)
Class Tungstenite (Code : Type) : Type := {
  code_into : Code -> N;
  code_from : N -> Code;
  error_string : WsError -> string
}.

Section pump.
Context {Code : Type} `{TU : !Tungstenite Code}.
Abbreviation Msg := (Message Code).
Abbreviation Item := (result WsFrame HttpError).

Definition FRAME_CHANNEL_CAPACITY : nat := 16.

(** ** The state

    A thread that has ended is [RExited], [WExited] or [SExited], however it
    ended. [lock] is the holder of the mutex. *)
Inductive Reader : Type :=
| RUnspawned
| RLock
| RRead
| RGot (m : result Msg WsError)
| RSend (item : Item) (last : bool)
| RExited.

Inductive Writer : Type :=
| WUnspawned
| WRecv
| WLock (f : WsFrame)
| WWrite (f : WsFrame)
| WExited.

Inductive Setup : Type := SSpawnReader | SSpawnWriter | SJoin | SExited.
Inductive Side : Type := ReaderSide | WriterSide.

Record Pump : Type := mkPump {
  setup : Setup; reader : Reader; writer : Writer;
  lock : option Side; poisoned : bool;
  in_q : list Item; in_receiver : bool;
  out_q : list WsFrame; out_sender : bool
}.

(** The channels right after the handshake. *)
Definition pump_start : Pump := mkPump SSpawnReader RUnspawned WUnspawned None false [] true [] true.

Definition reader_to (r : Reader) (k : option Side) (p : Pump) : Pump :=
  mkPump (setup p) r (writer p) k (poisoned p) (in_q p) (in_receiver p) (out_q p) (out_sender p).
Definition writer_to (w : Writer) (k : option Side) (p : Pump) : Pump :=
  mkPump (setup p) (reader p) w k (poisoned p) (in_q p) (in_receiver p) (out_q p) (out_sender p).
Definition setup_to (s : Setup) (r : Reader) (w : Writer) (p : Pump) : Pump :=
  mkPump s r w (lock p) (poisoned p) (in_q p) (in_receiver p) (out_q p) (out_sender p).
Definition set_in (q : list Item) (open : bool) (p : Pump) : Pump :=
  mkPump (setup p) (reader p) (writer p) (lock p) (poisoned p) q open (out_q p) (out_sender p).
Definition set_out (q : list WsFrame) (open : bool) (p : Pump) : Pump :=
  mkPump (setup p) (reader p) (writer p) (lock p) (poisoned p) (in_q p) (in_receiver p) q open.
Definition poison (p : Pump) : Pump :=
  mkPump (setup p) (reader p) (writer p) None true (in_q p) (in_receiver p) (out_q p) (out_sender p).

(** ** The reader *)

(** What a read forwards to the caller. *)
Definition forward_item (m : result Msg WsError) : option Item :=
  match m with
  | Ok (MsgBinary b) => Some (Ok (Binary b))
  | Ok (MsgText s) => Some (Ok (Text s))
  | Ok (MsgPing b) => Some (Ok (Ping b))
  | Ok (MsgPong b) => Some (Ok (Pong b))
  | Ok (MsgClose (Some frame)) => Some (Ok (Close (code_into (cf_code frame)) (cf_reason frame)))
  | Ok (MsgClose None) => Some (Ok (Close 1005 ""))
  | Ok (MsgFrame _) => None
  | Err ConnectionClosed | Err AlreadyClosed => None
  | Err (Io WouldBlock _) | Err (Io TimedOut _) => None
  | Err e => Some (Err (Network ("ws read: " +:+ error_string e)))
  end.

(** [reader_loop], from a read's outcome to the next blocking call. *)
Definition reader_handle (tx_closed : bool) (m : result Msg WsError) : Reader :=
  match m with
  | Ok (MsgClose (Some frame)) => RSend (Ok (Close (code_into (cf_code frame)) (cf_reason frame))) true
  | Ok (MsgClose None) => RSend (Ok (Close 1005 "")) true
  | Ok (MsgFrame _) => RLock
  | Err ConnectionClosed | Err AlreadyClosed => RExited
  | Err (Io WouldBlock _) | Err (Io TimedOut _) => if tx_closed then RExited else RLock
  | Err e => RSend (Err (Network ("ws read: " +:+ error_string e))) false
  | Ok (MsgBinary b) => RSend (Ok (Binary b)) false
  | Ok (MsgText s) => RSend (Ok (Text s)) false
  | Ok (MsgPing b) => RSend (Ok (Ping b)) false
  | Ok (MsgPong b) => RSend (Ok (Pong b)) false
  end.

(** [tx.send_blocking(..)] and what follows it; [None] while it blocks. *)
Definition reader_send (item : Item) (last : bool) (p : Pump) : option Pump :=
  if negb (in_receiver p) then Some (reader_to RExited (lock p) p)
  else if bool_decide (length (in_q p) < FRAME_CHANNEL_CAPACITY) then
    Some (reader_to (if last then RExited else RLock) (lock p) (set_in (in_q p ++ [item]) true p))
  else None.

(** [ws.lock()]: what each side does with the guard, or with the poison. *)
Definition acquire (p : Pump) (granted refused : Pump) : option Pump :=
  match lock p with
  | Some _ => None
  | None => Some (if poisoned p then refused else granted)
  end.

(** ** The writer *)
Definition to_message (f : WsFrame) : Msg :=
  match f with
  | Binary b => MsgBinary b
  | Text s => MsgText s
  | Ping b => MsgPing b
  | Pong b => MsgPong b
  | Close code reason => MsgClose (Some (mkCloseFrame (code_from code) reason))
  end.

(** [rx.recv_blocking()]. *)
Definition writer_recv (p : Pump) : option Pump :=
  match out_q p with
  | f :: q => Some (writer_to (WLock f) (lock p) (set_out q (out_sender p) p))
  | [] => if out_sender p then None else Some (writer_to WExited (lock p) p)
  end.

(** ** Actions *)
Inductive Act : Type :=
| SpawnReader (ok : bool)
| SpawnWriter (ok : bool)
| Join
| ReaderLock
| ReaderRead (m : result Msg WsError)
| ReaderPanic
| ReaderHandle
| ReaderSend
| WriterRecv
| WriterLock
| WriterSend (r : result unit WsError)
| WriterPanic
| CallerSend (f : WsFrame)
| CallerRecv
| DropIncoming
| DropOutgoing.

(** One action; [None] where it is not possible or blocks. A spawn that fails
    panics the setup thread, which then drops its channel ends. A channel whose
    receiver is gone is closed: sends to it fail ([observe]: nothing is accepted),
    and what was queued stays in its buffer, unseen by anybody, for as long as the
    sender lives; [in_q] and [out_q] are these buffers. *)
Definition ws_step (a : Act) (p : Pump) : option Pump :=
  match a, setup p, reader p, writer p with
  | SpawnReader true, SSpawnReader, _, _ => Some (setup_to SSpawnWriter RLock (writer p) p)
  | SpawnReader false, SSpawnReader, _, _ => Some (setup_to SExited RExited WExited p)
  | SpawnWriter true, SSpawnWriter, _, _ => Some (setup_to SJoin (reader p) WRecv p)
  | SpawnWriter false, SSpawnWriter, _, _ => Some (setup_to SExited (reader p) WExited p)
  | Join, SJoin, RExited, WExited => Some (setup_to SExited RExited WExited p)
  | ReaderLock, _, RLock, _ => acquire p (reader_to RRead (Some ReaderSide) p) (reader_to RExited None p)
  | ReaderRead m, _, RRead, _ => Some (reader_to (RGot m) None p)
  | ReaderPanic, _, RRead, _ => Some (poison (reader_to RExited None p))
  | ReaderHandle, _, RGot m, _ => Some (reader_to (reader_handle (negb (in_receiver p)) m) (lock p) p)
  | ReaderSend, _, RSend item last, _ => reader_send item last p
  | WriterRecv, _, _, WRecv => writer_recv p
  | WriterLock, _, _, WLock f => acquire p (writer_to (WWrite f) (Some WriterSide) p) (writer_to WExited None p)
  | WriterSend (Ok _), _, _, WWrite f => Some (writer_to WRecv None p)
  | WriterSend (Err _), _, _, WWrite f => Some (writer_to WExited None p)
  | WriterPanic, _, _, WWrite f => Some (poison (writer_to WExited None p))
  | CallerSend f, _, _, w =>
      if negb (out_sender p) then None
      else match w with
           | WExited => Some p
           | _ => if bool_decide (length (out_q p) < FRAME_CHANNEL_CAPACITY) then Some (set_out (out_q p ++ [f]) true p) else None
           end
  | CallerRecv, _, _, _ =>
      if negb (in_receiver p) then None
      else match in_q p with
           | x :: q => Some (set_in q true p)
           | [] => match setup p, reader p with SExited, RExited => Some p | _, _ => None end
           end
  | DropIncoming, _, _, _ => Some (set_in (in_q p) false p)
  | DropOutgoing, _, _, _ => Some (set_out (out_q p) false p)
  | _, _, _, _ => None
  end.

(** What an action shows: a read of the socket, a frame on the wire, a frame the
    caller's channel took, an item the caller got. *)
Inductive Obs : Type :=
| DidRead (m : result Msg WsError)
| DidWrite (m : Msg)
| Accepted (f : WsFrame)
| Received (x : Item).

Definition observe (a : Act) (p : Pump) : list Obs :=
  match a, writer p, in_q p with
  | ReaderRead m, _, _ => [DidRead m]
  | WriterSend (Ok _), WWrite f, _ => [DidWrite (to_message f)]
  | CallerSend f, WExited, _ => []
  | CallerSend f, _, _ => [Accepted f]
  | CallerRecv, _, x :: _ => [Received x]
  | _, _, _ => []
  end.

Fixpoint pump_run (acts : list Act) (p : Pump) : option (list Obs * Pump) :=
  match acts with
  | [] => Some ([], p)
  | a :: acts' =>
      p1 ← ws_step a p;
      '(obs, p2) ← pump_run acts' p1;
      Some (observe a p ++ obs, p2)
  end.

(** ** The histories of a run *)
Definition reads (o : list Obs) : list (result Msg WsError) :=
  omap (fun x => match x with DidRead m => Some m | _ => None end) o.
Definition wrote (o : list Obs) : list Msg := omap (fun x => match x with DidWrite m => Some m | _ => None end) o.
Definition accepted (o : list Obs) : list WsFrame := omap (fun x => match x with Accepted f => Some f | _ => None end) o.
Definition received (o : list Obs) : list Item := omap (fun x => match x with Received x => Some x | _ => None end) o.

(** What is between the socket and a channel. *)
Definition reader_holds (r : Reader) : list Item :=
  match r with RGot m => option_list (forward_item m) | RSend x _ => [x] | _ => [] end.
Definition writer_holds (w : Writer) : list WsFrame := match w with WLock f | WWrite f => [f] | _ => [] end.

(** A read after which the reader stops. *)
Definition ends (m : result Msg WsError) : bool :=
  match m with Ok (MsgClose _) | Err ConnectionClosed | Err AlreadyClosed => true | _ => false end.
Definition stopping (r : Reader) : bool :=
  match r with RGot m => ends m | RSend _ last => last | RExited => true | _ => false end.

(** ** Invariants *)
Definition spawned_ok (p : Pump) : Prop :=
  (reader p = RUnspawned <-> setup p = SSpawnReader) /\
  (writer p = WUnspawned <-> setup p = SSpawnReader \/ setup p = SSpawnWriter).
Definition lock_ok (p : Pump) : Prop :=
  match lock p with
  | Some ReaderSide => reader p = RRead /\ (forall f, writer p <> WWrite f)
  | Some WriterSide => (exists f, writer p = WWrite f) /\ reader p <> RRead
  | None => reader p <> RRead /\ (forall f, writer p <> WWrite f)
  end.
Definition queues_ok (p : Pump) : Prop :=
  length (in_q p) <= FRAME_CHANNEL_CAPACITY /\ length (out_q p) <= FRAME_CHANNEL_CAPACITY.

Definition inbound_ok (o : list Obs) (p : Pump) : Prop :=
  exists lost, omap forward_item (reads o) = received o ++ in_q p ++ reader_holds (reader p) ++ lost /\
    (lost = [] \/ in_receiver p = false /\ reader p = RExited /\ exists x, lost = [x]).
Definition outbound_ok (o : list Obs) (p : Pump) : Prop :=
  exists lost, to_message <$> accepted o = wrote o ++ (to_message <$> writer_holds (writer p) ++ lost ++ out_q p) /\
    (lost = [] \/ writer p = WExited /\ exists f, lost = [f]).
Definition reads_ok (o : list Obs) (p : Pump) : Prop :=
  existsb ends (removelast (reads o)) = false /\ (existsb ends (reads o) = true -> stopping (reader p) = true).

(** One case per action and per branch of its code. *)
Ltac pump_cases H :=
  unfold ws_step, acquire, reader_send, writer_recv in H; repeat case_match; repeat case_bool_decide; simplify_eq/=.

Lemma reader_handle_cases closed m :
  match reader_handle closed m with RUnspawned | RRead | RGot _ => False | _ => True end.
Proof. unfold reader_handle. by repeat case_match. Qed.

Ltac handled :=
  repeat match goal with
  | |- context [reader_handle ?c ?m] =>
      let H := fresh "Hh" in pose proof (reader_handle_cases c m) as H; destruct (reader_handle c m)
  end.

Lemma spawned_step a p p' : ws_step a p = Some p' -> spawned_ok p -> spawned_ok p'.
Proof. intros Hs [Hr Hw]. unfold spawned_ok. destruct p. cbn in *. pump_cases Hs; handled; naive_solver. Qed.

Lemma lock_step a p p' : ws_step a p = Some p' -> spawned_ok p -> lock_ok p -> lock_ok p'.
Proof.
  unfold lock_ok. intros Hs [Hr Hw] Hl. destruct p. cbn in *. pump_cases Hs; handled; try naive_solver; intuition congruence.
Qed.

Lemma queues_step a p p' : ws_step a p = Some p' -> queues_ok p -> queues_ok p'.
Proof.
  unfold queues_ok, FRAME_CHANNEL_CAPACITY. intros Hs Hq. destruct p. cbn in *.
  pump_cases Hs; rewrite ?length_app; unfold FRAME_CHANNEL_CAPACITY in *; cbn in *; lia.
Qed.

(** The histories grow by what an action shows. *)
Lemma reads_app o o' : reads (o ++ o') = reads o ++ reads o'.
Proof. apply omap_app. Qed.
Lemma wrote_app o o' : wrote (o ++ o') = wrote o ++ wrote o'.
Proof. apply omap_app. Qed.
Lemma accepted_app o o' : accepted (o ++ o') = accepted o ++ accepted o'.
Proof. apply omap_app. Qed.
Lemma received_app o o' : received (o ++ o') = received o ++ received o'.
Proof. apply omap_app. Qed.

Lemma handle_holds closed m : reader_holds (reader_handle closed m) = option_list (forward_item m).
Proof. unfold reader_handle, forward_item. by repeat case_match. Qed.

Lemma handle_stopping closed m : ends m = true -> stopping (reader_handle closed m) = true.
Proof. unfold reader_handle, ends. by repeat case_match. Qed.

(** Close a history: the two sides are the same frames in the same order. *)
Ltac same_history :=
  cbn; rewrite ?handle_holds, ?fmap_app, ?app_nil_r, <- ?(assoc_L (++)); cbn; rewrite ?app_nil_r; done.
Ltac none_lost := exists []; split; [same_history|by left].
Ltac one_lost x := exists [x]; split; [same_history|right; by eauto].

Lemma inbound_step a o p p' :
  ws_step a p = Some p' -> spawned_ok p -> inbound_ok o p -> inbound_ok (o ++ observe a p) p'.
Proof.
  intros Hs [Hr _] (lost & Ho & Hlost). unfold inbound_ok. rewrite reads_app, received_app, omap_app, Ho. clear Ho.
  destruct p. cbn in *.
  pump_cases Hs; destruct Hlost as [->|(? & ? & y & ->)]; simplify_eq/=; try none_lost;
    try (rewrite (proj2 Hr eq_refl) in * ); simplify_eq/=; try none_lost; try (one_lost y);
    try (by destruct Hr as [_ Hr]; discriminate (Hr eq_refl)).
  match goal with H : negb _ = true |- _ => apply negb_true_iff in H end. one_lost item.
Qed.

Lemma outbound_step a o p p' :
  ws_step a p = Some p' -> spawned_ok p -> outbound_ok o p -> outbound_ok (o ++ observe a p) p'.
Proof.
  intros Hs [_ Hw] (lost & Ho & Hlost). unfold outbound_ok. rewrite accepted_app, wrote_app, fmap_app, Ho. clear Ho.
  destruct p. cbn in *.
  pump_cases Hs; destruct Hlost as [->|(? & y & ->)]; simplify_eq/=; try none_lost; try (one_lost y);
    try (rewrite (proj2 Hw (or_introl eq_refl)) in * ); try (rewrite (proj2 Hw (or_intror eq_refl)) in * );
    simplify_eq/=; try none_lost; try (by destruct Hw as [_ Hw]; discriminate (Hw (or_intror eq_refl))); one_lost f.
Qed.

Lemma reads_step a o p p' :
  ws_step a p = Some p' -> spawned_ok p -> reads_ok o p -> reads_ok (o ++ observe a p) p'.
Proof.
  intros Hs [Hr _] [Hinit Hstop]. unfold reads_ok. rewrite reads_app. destruct p. cbn in *.
  pump_cases Hs; rewrite ?app_nil_r; (split; [try exact Hinit|try exact Hstop]);
    try (intros H; specialize (Hstop H); try done; try (rewrite (proj2 Hr eq_refl) in Hstop); try done; by apply handle_stopping).
  all: assert (Hno : existsb ends (reads o) = false) by (destruct (existsb ends (reads o)); [by discriminate Hstop|done]).
  - by rewrite removelast_last.
  - rewrite existsb_app, Hno. cbn. by rewrite orb_false_r.
Qed.

(** ** Runs *)
Record PumpInv (o : list Obs) (p : Pump) : Prop := mkInv {
  inv_spawned : spawned_ok p; inv_lock : lock_ok p; inv_queues : queues_ok p;
  inv_inbound : inbound_ok o p; inv_outbound : outbound_ok o p; inv_reads : reads_ok o p
}.

Lemma inv_start : PumpInv [] pump_start.
Proof.
  split; [unfold spawned_ok; cbn; naive_solver|by split|unfold queues_ok, FRAME_CHANNEL_CAPACITY; cbn; lia|exists []|exists []|done];
    (split; [done|by left]).
Qed.

Lemma inv_run acts o p o' p' : PumpInv o p -> pump_run acts p = Some (o', p') -> PumpInv (o ++ o') p'.
Proof.
  revert o p o'. induction acts as [|a acts IH]; intros o p o' Hi; cbn [pump_run].
  - intros [= <- <-]. by rewrite app_nil_r.
  - destruct (ws_step a p) as [p1|] eqn:Hs; cbn; [|done].
    destruct (pump_run acts p1) as [[o1 p2]|] eqn:Hrun; cbn; [|done]. intros [= <- <-].
    rewrite (assoc_L (++)). apply (IH _ p1); [|done]. destruct Hi.
    split; eauto using spawned_step, lock_step, queues_step, inbound_step, outbound_step, reads_step.
Qed.

(** ** Teardown of an abandoned pump *)

(** Actions of the threads and the socket; tungstenite never returns a raw frame
    from a read. *)
Definition thread_act (a : Act) : bool :=
  match a with
  | CallerSend _ | CallerRecv | DropIncoming | DropOutgoing | ReaderRead (Ok (MsgFrame _)) => false
  | _ => true
  end.

Definition abandoned (p : Pump) : Prop := in_receiver p = false /\ out_sender p = false.
(** Nothing holds the socket or a channel end any more. *)
Definition torn_down (p : Pump) : Prop := setup p = SExited /\ reader p = RExited /\ writer p = WExited.

(** The steps each thread can still make before it ends. *)
Definition setup_work (s : Setup) : nat := match s with SSpawnReader => 3 | SSpawnWriter => 2 | SJoin => 1 | SExited => 0 end.
Definition reader_work (r : Reader) : nat :=
  match r with
  | RGot (Ok (MsgFrame _)) => 5
  | RUnspawned | RLock => 4
  | RRead => 3
  | RGot _ => 2
  | RSend _ _ => 1
  | RExited => 0
  end.
Definition writer_work (w : Writer) (queued : nat) : nat :=
  match w with
  | WExited => 0
  | WUnspawned | WRecv => 3 * queued + 1
  | WLock _ => 3 * queued + 3
  | WWrite _ => 3 * queued + 2
  end.
Definition work (p : Pump) : nat :=
  setup_work (setup p) + reader_work (reader p) + writer_work (writer p) (length (out_q p)).

Lemma handle_work m : reader_work (reader_handle true m) < reader_work (RGot m).
Proof. unfold reader_handle. repeat case_match; cbn; lia. Qed.

Lemma teardown_step a p p' :
  ws_step a p = Some p' -> thread_act a = true -> spawned_ok p -> abandoned p -> abandoned p' /\ work p' < work p.
Proof.
  intros Hs Ha [[_ Hr] [_ Hw]] [Hin Hout]. unfold abandoned, work. destruct p. cbn in *. subst.
  pump_cases Hs; try rewrite (Hr eq_refl) in *; try rewrite (Hw (or_introl eq_refl)) in *;
    try specialize (Hw (or_intror eq_refl)); try done; (split; [done|]); try pose proof (handle_work m); subst; cbn in *; try lia.
  destruct m as [[]|]; try done; lia.
Qed.

Lemma teardown_run acts o p o' p' :
  PumpInv o p -> abandoned p -> forallb thread_act acts = true -> pump_run acts p = Some (o', p') ->
  abandoned p' /\ length acts + work p' <= work p.
Proof.
  revert o p o'. induction acts as [|a acts IH]; intros o p o' Hi Hab; cbn [forallb pump_run length].
  - intros _ [= _ <-]. split; [done|lia].
  - intros [Ha Hacts]%andb_true_iff. destruct (ws_step a p) as [p1|] eqn:Hs; cbn; [|done].
    destruct (pump_run acts p1) as [[o1 p2]|] eqn:Hrun; cbn; [|done]. intros [= _ <-].
    destruct (teardown_step a p p1) as [Hab1 Hw]; [done|done|apply Hi|done|].
    assert (Hi1 : PumpInv (o ++ observe a p) p1) by (apply (inv_run [a] o p); [done|cbn; by rewrite Hs, app_nil_r]).
    destruct (IH _ p1 o1 Hi1 Hab1 Hacts Hrun). split; [done|lia].
Qed.

(** No abandoned pump is stuck: some thread can go on, or all have ended. *)
Lemma teardown_progress o p :
  PumpInv o p -> abandoned p -> torn_down p \/ exists a, thread_act a = true /\ ws_step a p <> None.
Proof.
  intros [[[Hr _] [Hw _]] Hl _ _ _ _] [Hin Hout]. unfold lock_ok in Hl. unfold torn_down.
  destruct p as [s r w k po iq ir oq os]. cbn in *. subst.
  destruct s; [right; by exists (SpawnReader true)|right; by exists (SpawnWriter true)|..].
  all: destruct r as [| | |m|x last|]; [by discriminate (Hr eq_refl)| |right; by exists ReaderPanic|right; by exists ReaderHandle|
    right; by exists ReaderSend|].
  all: destruct w as [| |f|f|]; [by destruct (Hw eq_refl)| | |right; by exists WriterPanic|].
  all: try (right; exists WriterRecv; split; [done|]; cbn; unfold writer_recv; cbn; by destruct oq).
  all: destruct k as [[]|]; try (by destruct Hl); try (by destruct Hl as [[? ?] _]).
  all: try (right; exists ReaderLock; split; [done|]; cbn; unfold acquire; cbn; by destruct po).
  all: try (right; exists WriterLock; split; [done|]; cbn; unfold acquire; cbn; by destruct po).
  - right. by exists Join.
  - by left.
Qed.

Lemma work_bound o p : PumpInv o p -> work p <= 59.
Proof.
  intros [_ _ [_ Hq] _ _ _]. unfold work, FRAME_CHANNEL_CAPACITY in *.
  assert (setup_work (setup p) <= 3) by (destruct (setup p); cbn; lia).
  assert (reader_work (reader p) <= 5) by (destruct (reader p) as [| | |[[]|]| |]; cbn; lia).
  assert (writer_work (writer p) (length (out_q p)) <= 51) by (destruct (writer p); cbn; lia).
  lia.
Qed.

(** C40: On every interleaving of the threads, the socket and the caller: the
    channels hold at most 16 frames and the socket is used by one thread at a time;
    the caller gets what was read and the wire gets what was accepted, in order and
    without loss except one frame in the hands of a thread that ends and what is
    still queued then; nothing is
    read after a close; and once the caller has dropped both ends, the threads are
    never stuck and within 59 steps all have ended, so the socket is closed. *)
Theorem ws_pump_correct acts o p :
  pump_run acts pump_start = Some (o, p) ->
  (length (in_q p) <= 16 /\ length (out_q p) <= 16 /\ forall f, ~ (reader p = RRead /\ writer p = WWrite f)) /\
  (exists lost, omap forward_item (reads o) = received o ++ in_q p ++ reader_holds (reader p) ++ lost /\
     (lost = [] \/ in_receiver p = false /\ reader p = RExited /\ exists x, lost = [x])) /\
  (exists lost, to_message <$> accepted o = wrote o ++ (to_message <$> writer_holds (writer p) ++ lost ++ out_q p) /\
     (lost = [] \/ writer p = WExited /\ exists f, lost = [f])) /\
  (forall before m after, reads o = before ++ m :: after -> ends m = true -> after = []) /\
  (abandoned p -> forall acts' o' p', forallb thread_act acts' = true -> pump_run acts' p = Some (o', p') ->
     length acts' <= 59 /\ (torn_down p' \/ exists a, thread_act a = true /\ ws_step a p' <> None)).
Proof.
  intros Hrun. pose proof (inv_run acts [] _ _ _ inv_start Hrun) as Hi. cbn [app] in Hi.
  split; [|split; [apply Hi|split; [apply Hi|split]]].
  - destruct Hi as [_ Hl [Hq1 Hq2] _ _ _]. split; [done|split; [done|]]. intros f [Hr Hw].
    unfold lock_ok in Hl. destruct (lock p) as [[]|]; naive_solver.
  - intros before m after Hreads Hm. destruct (inv_reads _ _ Hi) as [Hinit _]. rewrite Hreads in Hinit.
    destruct after as [|x after]; [done|]. rewrite removelast_app in Hinit by done.
    rewrite existsb_app in Hinit. apply orb_false_iff in Hinit as [_ Hinit]. cbn in Hinit. by rewrite Hm in Hinit.
  - intros Hab acts' o' p' Hacts Hrun'. pose proof (work_bound _ _ Hi).
    destruct (teardown_run acts' o p o' p' Hi Hab Hacts Hrun') as [Hab' Hw]. split; [lia|].
    eapply teardown_progress; [|done]. by eapply inv_run.
Qed.

(** ** Where the loops differ from their descriptions *)

(** After the peer's close the reader is gone, but the connection is not: as long
    as the caller keeps its sending end and sends nothing, no thread moves and the
    inbound channel stays open. *)
Lemma close_waits_for_writer a p :
  setup p = SJoin -> reader p = RExited -> writer p = WRecv -> out_q p = [] -> out_sender p = true -> in_q p = [] ->
  in_receiver p = true -> thread_act a = true \/ a = CallerRecv -> ws_step a p = None.
Proof.
  intros Hs Hr Hw Hq Ho Hi Hrx Ha. destruct p. cbn in *. subst.
  destruct a as [[]|[]| | | | | | | | |[]| | | | |]; cbn; try done; by destruct Ha.
Qed.

(** A read error other than a timeout or a close is forwarded and reading goes on. *)
Lemma read_error_goes_on closed msg p :
  let item := Err (Network ("ws read: " +:+ error_string (OtherError msg))) in
  reader_handle closed (Err (OtherError msg)) = RSend item false /\
  (in_receiver p = true -> length (in_q p) < FRAME_CHANNEL_CAPACITY ->
   option_map reader (reader_send item false p) = Some RLock).
Proof.
  intros item. split; [done|]. intros Hrx Hq. unfold reader_send. by rewrite Hrx, bool_decide_true.
Qed.
End pump.

(** ** Connecting *)

(** tungstenite's client: the request built from a URL and the upgrade. *)
Class WsClient (X Url Name Value Map Request Response : Type) : Type := {
  url_as_str : Url -> string;
  into_client_request : string -> result Request string;
  request_insert : Name -> Value -> Request -> Request;
  AUTHORIZATION : Name;
  ws_client : Request -> X -> result Response string * X
}.

Section connect.
Context {X Cache Ticket Group Session Roots Cert ServerName Url Method Name Value Map Status Request Response Code : Type}
  `{TL : !TlsLib X Cache ServerName Ticket Group Session Roots Cert}
  `{HS : !Handshakes X Cache ServerName Ticket Group Session Roots}
  `{HC : !HttpCrates Url Method Name Value Map Status} `{ST : !HttpStream X}
  `{WC : !WsClient X Url Name Value Map Request Response}.
Abbreviation op := (M (NetProcess (X := X) (Cache := Cache)) HttpError).

(** The headers of the caller, then the credentials, each replacing what was there. *)
Definition merge_headers (headers : Map) (auth : option BasicAuth) (request : Request) : Request :=
  let request := foldl (fun r e => request_insert e.1 e.2 r) request (header_map_iter headers) in
  match auth with
  | None => request
  | Some auth =>
      match header_value_try_from ("Basic " +:+ basic_credentials (HC := HC) auth) with
      | Some v => request_insert AUTHORIZATION v request
      | None => request
      end
  end.

Definition handshake (config : ClientConfig (Roots := Roots)) (url : Url) (headers : Map) (auth : option BasicAuth) : op unit :=
  match host_str url with
  | None => merr (InvalidUrl "missing host")
  | Some host =>
      let port := default 443%N (port_or_known_default url) in
      let* _ := mmap_err (fun e => Network ("tls connect: " +:+ e)) (tls_connect_with_config host port config) in
      let* request := mlift (map_err (fun e => Network ("ws client_request: " +:+ e)) (into_client_request (url_as_str url))) in
      let* _ := mmap_err (fun e => Network ("ws handshake: " +:+ e)) (on_net (ws_client (merge_headers headers auth request))) in
      mok tt
  end.

(** The caller resumes once the handshake is done; the threads are started after. *)
Definition connect_websocket (config : ClientConfig (Roots := Roots)) (url : Url) (headers : Map) (auth : option BasicAuth)
    : op (Pump (Code := Code)) :=
  mmap_err (fun e => Network ("ws setup thread spawn: " +:+ e)) (on_net (spawn_thread "xous-net-bridge-ws-setup")) ;*
  handshake config url headers auth ;*
  mok pump_start.

(** [ws.rs]: the single-shot helper. *)
Definition ws_connect (host : string) (port : N) (path : string) (roots : Roots) : M (NetProcess (X := X)) string Response :=
  let url := "wss://" +:+ host +:+ ":" +:+ pretty port +:+ path in
  let* request := mlift (into_client_request url) in
  let* _ := tls_connect host port roots [as_bytes "http/1.1"] in
  on_net (ws_client request).
End connect.

(** ** A concrete run *)
Module PumpExample.
Definition codes : Tungstenite N := {|
  code_into n := n; code_from n := n; error_string e := match e with Io _ m | OtherError m => m | _ => "closed" end |}.

(** A frame each way, then the caller walks away from an idle connection. *)
Definition acts : list (Act (Code := N)) :=
  [SpawnReader true; CallerSend (Text "up"); SpawnWriter true; WriterRecv; WriterLock; WriterSend (Ok tt);
   ReaderLock; ReaderRead (Ok (MsgBinary [x01])); ReaderHandle; ReaderSend; CallerRecv; ReaderLock;
   DropIncoming; DropOutgoing].
Definition after : Pump (Code := N) := mkPump SJoin RRead WRecv (Some ReaderSide) false [] false [] false.
Definition seen : list (Obs (Code := N)) :=
  [Accepted (Text "up"); DidWrite (MsgText "up"); DidRead (Ok (MsgBinary [x01])); Received (Ok (Binary [x01]))].

Lemma ws_pump_correct_witness :
  pump_run (TU := codes) acts pump_start = Some (seen, after) /\
  forall acts' o' p', forallb thread_act acts' = true -> pump_run (TU := codes) acts' after = Some (o', p') ->
    length acts' <= 59 /\ (torn_down p' \/ exists a, thread_act a = true /\ ws_step (TU := codes) a p' <> None).
Proof.
  assert (Hrun : pump_run (TU := codes) acts pump_start = Some (seen, after)) by reflexivity.
  split; [exact Hrun|]. destruct (ws_pump_correct (TU := codes) acts seen after Hrun) as (_ & _ & _ & _ & Ht).
  apply Ht. split; reflexivity.
Defined.

(** The idle reader's next timeout ends the connection. *)
Example torn_down_at_timeout :
  option_map snd (pump_run (TU := codes) [ReaderRead (Err (Io TimedOut "")); ReaderHandle; WriterRecv; Join] after) =
    Some (mkPump SExited RExited WExited None false [] false [] false).
Proof. reflexivity. Qed.
End PumpExample.
