(* ===== verification/Startup.v ===== *)
(** * Entry points and device self-tests ([xous-app-signal/src/main.rs],
      [presage-store-pddb/src/put_truncate_smoke.rs])

    The random-number shim of the device, the choice of the store, the logger, the
    transport the worker thread installs, and the probes: key truncation, batching
    and the loopback echo. The hardware services are parameters. *)
From Stdlib Require Import Strings.String.
From S2P Require Import Prelude Kv Buffering PddbClient Redact Tls Http.

(** ** [__getrandom_v03_custom] *)

(** [Trng::fill_buf] on that many words. *)
Class Trng (X : Type) : Type := { trng_fill : nat -> X -> result (list N) unit * X }.

(** A word's bytes in memory, least significant first. *)
Definition word_bytes (w : N) : bytes :=
  (fun i => default x00 (Byte.of_N ((w / 256 ^ N.of_nat i) mod 256))) <$> seq 0 4.

(** [copy_nonoverlapping(src, dest.add(at), n)]. *)
Definition copy_at (dest src : bytes) (at_pos n : nat) : bytes :=
  take at_pos dest ++ take n src ++ drop (at_pos + n) dest.

Definition TRNG_WORDS : nat := 1020.

Section trng.
Context {X : Type} `{!Trng X}.

(** The buffer is the caller's memory; what it holds when an error comes stays. *)
Definition fill_words (at_pos chunk n : nat) (dest : bytes) (x : X) : result unit unit * bytes * X :=
  let '(r, x) := trng_fill chunk x in
  match r with
  | Err _ => (Err tt, dest, x)
  | Ok ws => (Ok tt, copy_at dest (ws ≫= word_bytes) at_pos n, x)
  end.

Fixpoint fill_prefix (fuel at_pos remaining_words : nat) (dest : bytes) (x : X) : result nat unit * bytes * X :=
  match fuel, remaining_words with
  | S fuel', S _ =>
      let chunk := Nat.min remaining_words TRNG_WORDS in
      let '(r, dest, x) := fill_words at_pos chunk (chunk * 4) dest x in
      match r with
      | Err e => (Err e, dest, x)
      | Ok _ => fill_prefix fuel' (at_pos + chunk * 4) (remaining_words - chunk) dest x
      end
  | _, _ => (Ok at_pos, dest, x)
  end.

(** [Err] is [Error::UNSUPPORTED]. *)
Definition getrandom_custom (dest : bytes) (len : nat) (x : X) : result unit unit * bytes * X :=
  if len =? 0 then (Ok tt, dest, x)
  else
    let words := len / 4 in
    let '(r, dest, x) := fill_prefix words 0 words dest x in
    match r with
    | Err e => (Err e, dest, x)
    | Ok filled =>
        let tail := len - filled in
        if 0 <? tail then fill_words filled 1 tail dest x else (Ok tt, dest, x)
    end.
End trng.

(** ** [smoke_put_truncates] *)
Definition DICT : string := "xas.put_truncate_smoke".
Definition KEY : string := "buffer".
Definition LARGE_LEN : N := 50000.
Definition SMALL_LEN : N := 10000.
Definition LARGE_MARKER : byte := xaa.
Definition SMALL_MARKER : byte := x55.

Inductive SmokeResult : Type :=
| Pass
| Fail_ (expected_len actual_len : N) (sample_tail : bytes)
| SmokeError (msg : string).

Definition nlen (v : bytes) : N := N.of_nat (length v).

Section smoke.
Context {St : Type} `{!KvBackend St}.

Definition smoke_delete (s : St) : St := snd (kv_delete DICT KEY s).
Definition smoke_judge (got : bytes) : SmokeResult :=
  if bool_decide (nlen got = SMALL_LEN) && forallb (fun b => bool_decide (b = SMALL_MARKER)) got then Pass
  else Fail_ SMALL_LEN (nlen got) (drop (length got - 16) got).

Definition smoke_small (s : St) : SmokeResult * St :=
  match kv_put DICT KEY (replicate (N.to_nat SMALL_LEN) SMALL_MARKER) s with
  | (Err e, s) => (SmokeError ("put(SMALL): " +:+ error_to_string e), smoke_delete s)
  | (Ok _, s) =>
      match kv_get DICT KEY s with
      | (Ok (Some got), s) => (smoke_judge got, smoke_delete s)
      | (Ok None, s) => (SmokeError "get(SMALL) returned None", s)
      | (Err e, s) => (SmokeError ("get(SMALL): " +:+ error_to_string e), smoke_delete s)
      end
  end.

Definition smoke_put_truncates (s : St) : SmokeResult * St :=
  match kv_put DICT KEY (replicate (N.to_nat LARGE_LEN) LARGE_MARKER) s with
  | (Err e, s) => (SmokeError ("put(LARGE): " +:+ error_to_string e), s)
  | (Ok _, s) =>
      match kv_get DICT KEY s with
      | (Ok (Some v), s) =>
          if bool_decide (nlen v = LARGE_LEN) then smoke_small s
          else (SmokeError ("LARGE round-trip len=" +:+ pretty (nlen v) +:+ ", want " +:+ pretty LARGE_LEN), smoke_delete s)
      | (Ok None, s) => (SmokeError "get(LARGE) returned None", s)
      | (Err e, s) => (SmokeError ("get(LARGE): " +:+ error_to_string e), smoke_delete s)
      end
  end.
End smoke.

(** [XAS_PDDB_TRUNCATE_TEST] of [main]: the exit code. *)
Definition truncate_test {Sv} `{!PddbServer Sv} `{!LoopFuel} (connect : result (PddbBackend Sv) string) : N :=
  match connect with
  | Err _ => 1
  | Ok b =>
      let run (b : PddbBackend Sv) : N := match fst (smoke_put_truncates b) with Pass => 0 | _ => 1 end%N in
      let '(mounted, b) := backend_is_mounted b in
      if mounted then run b
      else match backend_try_mount b with
           | (Ok true, b) => run b
           | (Ok false, _) | (Err _, _) => 1
           end
  end%N.

(** ** [probe_send_batch]

    A [warn!] that ends the probe is [Err]; so is the panic of an [unwrap]. *)
Section send_batch.
Context `{HashOrder}.
Abbreviation probe := (M (BufferingBackend MockBackend) string).

Definition unwrap {A} (m : M (BufferingBackend MockBackend) Error A) : probe A := mmap_err (fun _ => "panic") m.
Definition require (ok : bool) (msg : string) : probe unit := if ok then mok tt else merr ("FAIL: " +:+ msg).
Definition holds (v : option bytes) (s : string) : bool := bool_decide (v = Some (as_bytes s)).
(** A guard that goes out of scope without a commit. *)
Definition drop_probe_guard : probe unit := fun b => (Ok tt, guard_drop false b).

Definition probe_send_batch : probe nat :=
  mmap_err (fun e => "FAIL: begin_batch error: " +:+ error_to_string e) begin_batch ;*
  (let* b := mget in
   require (is_batching b) "is_batching false after begin") ;*
  unwrap (kv_put "signal.protocol.aci.identity" "peer.1" (as_bytes "identity-bytes")) ;*
  unwrap (kv_put "signal.state" "sender_certificate" (as_bytes "sender-cert-bytes")) ;*
  unwrap (kv_put "signal.contents.thread.peer" "00000000000186A0" (as_bytes "hello world")) ;*
  (let* b := mget in
   require (buffered_len b =? 3) ("expected 3 buffered, got " +:+ pretty (buffered_len b))) ;*
  (let* read := unwrap (kv_get "signal.protocol.aci.identity" "peer.1") in
   require (holds read "identity-bytes") "intra-batch read mismatch") ;*
  let* n := mmap_err (fun e => "FAIL: commit error: " +:+ error_to_string e) guard_commit in
  (let* b := mget in
   require (negb (is_batching b)) "still batching after commit") ;*
  (let* r1 := unwrap (kv_get "signal.protocol.aci.identity" "peer.1") in
   let* r2 := unwrap (kv_get "signal.state" "sender_certificate") in
   let* r3 := unwrap (kv_get "signal.contents.thread.peer" "00000000000186A0") in
   require (holds r1 "identity-bytes" && holds r2 "sender-cert-bytes" && holds r3 "hello world")
     "post-commit read mismatch") ;*
  unwrap begin_batch ;*
  unwrap (kv_put "signal.state" "sender_certificate" (as_bytes "transient-cert")) ;*
  drop_probe_guard ;*
  (let* after_abort := unwrap (kv_get "signal.state" "sender_certificate") in
   require (holds after_abort "sender-cert-bytes") "abort didn't restore inner") ;*
  mok n.
End send_batch.

(** ** Start-up of [main] and of the worker thread *)

(** [build_store]: the real backend under [pddb-real], unless connecting fails. *)
Inductive Chosen (B : Type) : Type :=
| RealStore (b : BufferingBackend B)
| MockStore (b : MockBackend).
Arguments RealStore {B}. Arguments MockStore {B}.

Definition build_store {B} `{HashOrder} (pddb_real : bool) (connect : result B Error) : Chosen B :=
  if pddb_real then
    match connect with
    | Ok b => RealStore (buffering_new b)
    | Err _ => MockStore mock_new
    end
  else MockStore mock_new.

(** [init_logger] on the device: the filter, else the plain logger. *)
Definition init_logger {X} `{!LogServer X} (init_wait : X -> X) (conn : N) (x : X) : N * X :=
  let '(r, conn, x) := init conn x in
  match r with Ok _ => (conn, x) | Err _ => (conn, init_wait x) end.

Definition CHAN_CAP : nat := 16.
Definition WORKER_STACK_BYTES : N := 2097152.

(** The transport [worker_main] installs; [None] is the panic of the bundled roots. *)
Definition worker_transport {X Cache Ticket Group Session Roots Cert ServerName}
    `{TL : !TlsLib X Cache ServerName Ticket Group Session Roots Cert}
    (pem : bytes) (version : string) (p : NetProcess (X := X) (Cache := Cache))
    : option (result SyncHttpClient string * NetProcess) :=
  (fun roots => http_client_new roots ("xas/" +:+ version) p) <$> bundled_roots pem.

(** ** [probe_echo] *)

(** A case's exchange runs a writer thread beside the reader: both outcomes come
    from the network. *)
Class EchoNet (X : Type) : Type := {
  echo_bind : X -> result unit string * X;
  echo_connect : X -> result unit string * X;
  echo_set_read_timeout : X -> result unit string * X;
  echo_set_write_timeout : X -> result unit string * X;
  echo_exchange : bytes -> X -> result (result unit string) string * result bytes string * X;
  echo_warmup_over : X -> bool * X
}.

Section echo.
Context {X : Type} `{!EchoNet X}.

(** [echoed.iter().zip(payload.iter()).position(|(a, b)| a != b)]. *)
Fixpoint first_bad (echoed payload : bytes) : option nat :=
  match echoed, payload with
  | a :: echoed', b :: payload' => if bool_decide (a = b) then S <$> first_bad echoed' payload' else Some 0
  | _, _ => None
  end.

Definition say (what : string) (f : X -> result unit string * X) : M X string unit :=
  mmap_err (fun e => what +:+ ": " +:+ e) f.

Definition run_echo_case (payload : bytes) : M X string unit :=
  say "connect" echo_connect ;*
  say "set_read_timeout" echo_set_read_timeout ;*
  say "set_write_timeout" echo_set_write_timeout ;*
  fun x =>
    let '(joined, read, x) := echo_exchange payload x in
    match joined, read with
    | Err _, _ => (Err "writer thread panicked", x)
    | Ok (Err e), _ => (Err ("write: " +:+ e), x)
    | Ok (Ok _), Err e => (Err ("read: " +:+ e), x)
    | Ok (Ok _), Ok echoed =>
        if bool_decide (echoed = payload) then (Ok tt, x)
        else (Err ("payload mismatch (" +:+ pretty (length payload) +:+ " bytes, first differing offset " +:+
                   match first_bad echoed payload with Some i => "Some(" +:+ pretty i +:+ ")" | None => "None" end +:+ ")"), x)
    end.

Definition bulk_byte (i : N) : byte := default x00 (Byte.of_N (wrap32 (wrap32 (i * 31) + 7) mod 256)%N).
Definition echo_cases : list (string * bytes) :=
  [("msg-1", as_bytes "xas-echo-1: the quick brown fox jumps over the lazy dog");
   ("msg-2", as_bytes "xas-echo-2: 0123456789 abcdefghijklmnopqrstuvwxyz");
   ("msg-3", as_bytes "xas-echo-3: ZYXWVUTSRQPONMLKJIHGFEDCBA 9876543210");
   ("bulk-8k", (fun i => bulk_byte (N.of_nat i)) <$> seq 0 (N.to_nat 8192))].

(** The warm-up retries until a case passes or its budget is over. *)
Fixpoint warm_up (fuel : nat) (x : X) : bool * X :=
  match fuel with
  | O => (false, x)
  | S fuel' =>
      let '(over, x) := echo_warmup_over x in
      if over then (false, x)
      else match run_echo_case (as_bytes "xas-echo-warmup") x with
           | (Ok _, x) => (true, x)
           | (Err _, x) => warm_up fuel' x
           end
  end.

Fixpoint run_cases (cases : list (string * bytes)) (pass fail : nat) (x : X) : nat * nat * X :=
  match cases with
  | [] => (pass, fail, x)
  | (_, payload) :: cases' =>
      match run_echo_case payload x with
      | (Ok _, x) => run_cases cases' (S pass) fail x
      | (Err _, x) => run_cases cases' pass (S fail) x
      end
  end.

(** The counts of the [XAS-ECHO DONE] line. *)
Definition probe_echo (fuel : nat) (x : X) : nat * nat * X :=
  match echo_bind x with
  | (Err _, x) => (0, length echo_cases, x)
  | (Ok _, x) => let '(_, x) := warm_up fuel x in run_cases echo_cases 0 0 x
  end.
End echo.

(** ** The shim fills exactly the buffer it is given *)
Section trng_spec.
Context {X : Type} `{!Trng X}.
(** The service fills the whole slice or fails. *)
Hypothesis trng_len : forall n x ws x', trng_fill n x = (Ok ws, x') -> length ws = n.

Lemma word_bytes_length ws : length (ws ≫= word_bytes) = 4 * length ws.
Proof. induction ws as [|w ws IH]; [done|]. rewrite bind_cons, length_app, IH. cbn [length]. change (length (word_bytes w)) with 4. lia. Qed.

Lemma copy_at_filled dest src at_pos n :
  at_pos + n <= length dest -> n <= length src ->
  let dest' := copy_at dest src at_pos n in
  length dest' = length dest /\ take (at_pos + n) dest' = take at_pos dest ++ take n src /\
  forall len, at_pos + n <= len -> drop len dest' = drop len dest.
Proof.
  intros Hd Hs dest'. unfold dest', copy_at.
  assert (Hl : length (take at_pos dest ++ take n src) = at_pos + n) by (rewrite length_app, !length_take; lia).
  rewrite (assoc_L (++)). split_and!.
  - rewrite length_app, Hl, length_drop. lia.
  - by rewrite take_app_length'.
  - intros len Hle. rewrite drop_app_ge, Hl, drop_drop by lia. f_equal. lia.
Qed.

Lemma fill_words_filled dest0 len chunk n at_pos dest x r dest' x' :
  at_pos + n <= len -> len <= length dest0 -> n <= 4 * chunk ->
  (exists ws, 4 * length ws = at_pos /\ take at_pos dest = ws ≫= word_bytes) ->
  length dest = length dest0 -> drop len dest = drop len dest0 ->
  fill_words at_pos chunk n dest x = (r, dest', x') ->
  length dest' = length dest0 /\ drop len dest' = drop len dest0 /\
  forall u, r = Ok u -> exists ws, 4 * length ws = at_pos + 4 * chunk /\
    take (at_pos + n) dest' = take (at_pos + n) (ws ≫= word_bytes).
Proof.
  intros Hn Hlen Hc (ws0 & Hws0 & Ht) Hl Hd. unfold fill_words.
  destruct (trng_fill chunk x) as [[ws|e] x1] eqn:Hf; [|by intros [= <- <- <-]]. apply trng_len in Hf.
  intros [= <- <- <-]. pose proof (word_bytes_length ws) as Hw.
  destruct (copy_at_filled dest (ws ≫= word_bytes) at_pos n) as (Hl' & Ht' & Hd'); [lia..|].
  split_and!; [lia| |].
  - rewrite Hd' by lia. done.
  - intros _ _. exists (ws0 ++ ws). split; [rewrite length_app; lia|].
    rewrite Ht', Ht, bind_app, take_app_ge by (rewrite word_bytes_length; lia).
    rewrite word_bytes_length. do 2 f_equal. lia.
Qed.

Lemma fill_prefix_spec dest0 len fuel at_pos rest dest x r dest' x' :
  at_pos + 4 * rest <= len -> len <= length dest0 -> rest <= fuel ->
  (exists ws, 4 * length ws = at_pos /\ take at_pos dest = ws ≫= word_bytes) ->
  length dest = length dest0 -> drop len dest = drop len dest0 ->
  fill_prefix fuel at_pos rest dest x = (r, dest', x') ->
  length dest' = length dest0 /\ drop len dest' = drop len dest0 /\
  forall filled, r = Ok filled -> filled = at_pos + 4 * rest /\
    exists ws, 4 * length ws = filled /\ take filled dest' = ws ≫= word_bytes.
Proof.
  revert at_pos rest dest x. induction fuel as [|fuel IH]; intros at_pos rest dest x Hr Hlen Hf Hws Hl Hd.
  { destruct rest; [|lia]. intros [= <- <- <-]. split_and!; [done..|]. intros ? [= <-]. split; [lia|done]. }
  destruct rest as [|rest]; cbn [fill_prefix].
  { intros [= <- <- <-]. split_and!; [done..|]. intros ? [= <-]. split; [lia|done]. }
  set (chunk := Nat.min (S rest) TRNG_WORDS).
  assert (Hchunk : 1 <= chunk <= S rest) by (unfold chunk, TRNG_WORDS; lia).
  destruct (fill_words at_pos chunk (chunk * 4) dest x) as [[r1 dest1] x1] eqn:Hfill.
  eapply (fill_words_filled dest0 len) in Hfill as (Hl1 & Hd1 & Ht1); [|lia|lia|lia|done..].
  destruct r1 as [u|e]; [|by intros [= <- <- <-]]. destruct (Ht1 u eq_refl) as (ws & Hws1 & Htake).
  intros Hrun. apply IH in Hrun as (Hl' & Hd' & Hok); try done; try lia.
  - split_and!; [done..|]. intros filled ->. destruct (Hok filled eq_refl) as [-> Hw]. split; [lia|done].
  - exists ws. split; [lia|]. rewrite Htake. apply take_ge. rewrite word_bytes_length. lia.
Qed.

(** Whatever the outcome, nothing outside the caller's [len] bytes is written; on
    success all of them come from the service. *)
Lemma getrandom_spec dest len x r dest' x' :
  len <= length dest -> getrandom_custom dest len x = (r, dest', x') ->
  length dest' = length dest /\ drop len dest' = drop len dest /\
  forall u, r = Ok u -> exists ws, len <= 4 * length ws /\ take len dest' = take len (ws ≫= word_bytes).
Proof.
  intros Hlen. unfold getrandom_custom. destruct (Nat.eqb_spec len 0) as [->|Hne].
  { intros [= <- <- <-]. split_and!; [done..|]. intros _ _. exists []. split; [lia|by rewrite take_0]. }
  pose proof (Nat.div_mod_eq len 4) as Hdm. pose proof (Nat.mod_upper_bound len 4 ltac:(lia)) as Hm.
  destruct (fill_prefix (len / 4) 0 (len / 4) dest x) as [[r1 dest1] x1] eqn:Hp.
  apply (fill_prefix_spec dest len) in Hp as (Hl1 & Hd1 & Hok); [|lia|lia|lia|by exists []|done|done].
  destruct r1 as [filled|e]; [|by intros [= <- <- <-]]. destruct (Hok filled eq_refl) as [-> (ws & Hws & Ht)].
  cbn [Nat.add] in *. destruct (Nat.ltb_spec 0 (len - 4 * (len / 4))) as [Htail|Htail].
  - intros Hf. eapply (fill_words_filled dest len) in Hf as (Hl' & Hd' & Hw); [|lia|lia|lia|by exists ws|done|done].
    split_and!; [done..|]. intros u Hu. destruct (Hw u Hu) as (ws' & Hlw & Htw). exists ws'. split; [lia|].
    by replace (4 * (len / 4) + (len - 4 * (len / 4))) with len in Htw by lia.
  - intros [= <- <- <-]. split_and!; [done..|]. intros _ _. exists ws. split; [lia|].
    replace len with (4 * (len / 4)) by lia. rewrite Ht at 1. rewrite take_ge; [done|]. rewrite word_bytes_length. lia.
Qed.
End trng_spec.

(** ** The truncation test on a lawful backend *)
Section smoke_spec.
Context {St : Type} `{KvLaws St}.

Lemma forallb_replicate (b : byte) n : forallb (fun c => bool_decide (c = b)) (replicate n b) = true.
Proof. induction n as [|n IH]; [done|]. cbn. by rewrite bool_decide_true. Qed.

Lemma judge_small : smoke_judge (replicate (N.to_nat SMALL_LEN) SMALL_MARKER) = Pass.
Proof.
  unfold smoke_judge, nlen. rewrite length_replicate, N2Nat.id, bool_decide_true by done.
  by rewrite forallb_replicate.
Qed.

(** The test blames the backend for errors only, never for the contents. *)
Lemma smoke_never_fails s : match fst (smoke_put_truncates s) with Fail_ _ _ _ => False | _ => True end.
Proof.
  unfold smoke_put_truncates. destruct (kv_put DICT KEY _ s) as [[[]|e] s1]; [|done].
  destruct (kv_get DICT KEY s1) as [[[v|]|e] s2]; [|done..]. case_bool_decide; [|done].
  unfold smoke_small. destruct (kv_put DICT KEY _ s2) as [[[]|e] s3] eqn:Hp; [|done].
  destruct (kv_get DICT KEY s3) as [[[got|]|e] s4] eqn:Hg; [|done..].
  apply kv_put_ok in Hp. apply kv_get_law in Hg as [_ Hg]. specialize (Hg _ eq_refl).
  rewrite Hp, lookup_insert_eq in Hg. apply (inj Some) in Hg as ->. by rewrite judge_small.
Qed.
End smoke_spec.

(** ** The batch probe and the echo probe pass *)
Section probes.
#[local] Existing Instance canonical_order.

Example probe_send_batch_passes : fst (probe_send_batch (buffering_new mock_new)) = Ok 3.
Proof. vm_compute. reflexivity. Qed.
End probes.

Section echo_spec.
Context {X : Type} `{!EchoNet X}.

Lemma first_bad_none echoed payload :
  length echoed = length payload -> (first_bad echoed payload = None <-> echoed = payload).
Proof.
  revert payload. induction echoed as [|a e IH]; intros [|b p]; try done. cbn. intros [= Hl].
  case_bool_decide as Hab; [subst|split; [done|congruence]]. specialize (IH p Hl).
  destruct (first_bad e p); naive_solver.
Qed.

Lemma run_cases_total cases pass fail x :
  let '(p, f, _) := run_cases cases pass fail x in p + f = pass + fail + length cases.
Proof.
  revert pass fail x. induction cases as [|[n payload] cases IH]; intros pass fail x; cbn [run_cases length]; [lia|].
  destruct (run_echo_case payload x) as [[[]|e] x']; specialize (IH) as IH'.
  - specialize (IH' (S pass) fail x'). destruct (run_cases _ _ _ _) as [[p f] ?]. lia.
  - specialize (IH' pass (S fail) x'). destruct (run_cases _ _ _ _) as [[p f] ?]. lia.
Qed.

(** A case passes only on the payload itself. *)
Lemma run_echo_case_ok payload x x' :
  run_echo_case payload x = (Ok tt, x') ->
  exists x1, echo_exchange payload x1 = (Ok (Ok tt), Ok payload, x').
Proof.
  unfold run_echo_case. intros (u1 & x1 & _ & H)%mbind_inv_ok. apply mbind_inv_ok in H as (u2 & x2 & _ & H).
  apply mbind_inv_ok in H as (u3 & x3 & _ & H). exists x3.
  destruct (echo_exchange payload x3) as [[[[[]|e]|e] [echoed|e2]] x4]; try done.
  revert H. case_bool_decide as Heq; [|done]. intros [= <-]. by rewrite Heq.
Qed.
End echo_spec.
