(* ===== verification/Probes.v ===== *)
(** * The remaining probes and the order of [main] ([xous-app-signal/src/main.rs])

    The reachability probe, the mount-poller probe, the server side of the echo
    probe, and what [main] starts in which order. The network, the name server and
    the mount poller are parameters. *)
From Stdlib Require Import Strings.String.
From S2P Require Import Prelude Kv PddbClient Startup.

(** ** [probe_network] *)

(** What is logged of a target, after its label. *)
Inductive Reach (Addr : Type) : Type :=
| ResolveFail (e : string)
| ResolveEmpty
| ConnectOk (addr : Addr)
| ConnectFail (addr : Addr) (e : string).
Arguments ResolveFail {Addr}. Arguments ResolveEmpty {Addr}. Arguments ConnectOk {Addr}. Arguments ConnectFail {Addr}.

Class ReachNet (X Addr : Type) : Type := {
  to_socket_addrs : string -> X -> result (list Addr) string * X;
  connect_timeout : Addr -> N -> X -> result unit string * X
}.

Definition PROBE_TIMEOUT_MS : N := 10000.
Definition probe_targets : list (string * string * bool) :=
  [("google-dns", "8.8.8.8:53", false); ("cloudflare-https", "1.1.1.1:443", false);
   ("signal-prod", "chat.signal.org:443", true)].

Section network.
Context {X Addr : Type} `{!ReachNet X Addr}.

Definition probe_target (target : string) (x : X) : Reach Addr * X :=
  match to_socket_addrs target x with
  | (Err e, x) => (ResolveFail e, x)
  | (Ok [], x) => (ResolveEmpty, x)
  | (Ok (addr :: _), x) =>
      match connect_timeout addr PROBE_TIMEOUT_MS x with
      | (Ok _, x) => (ConnectOk addr, x)
      | (Err e, x) => (ConnectFail addr e, x)
      end
  end.

Fixpoint probe_all (probes : list (string * string * bool)) (x : X) : list (string * Reach Addr) * X :=
  match probes with
  | [] => ([], x)
  | (label, target, _) :: probes' =>
      let '(r, x) := probe_target target x in
      let '(rs, x) := probe_all probes' x in ((label, r) :: rs, x)
  end.
Definition probe_network : X -> list (string * Reach Addr) * X := probe_all probe_targets.

(** One verdict for every target, in their order, whatever failed before it. *)
Lemma probe_network_labels x : ((probe_network x).1).*1 = (fun p => p.1.1) <$> probe_targets.
Proof.
  unfold probe_network. generalize probe_targets. intros ps. revert x.
  induction ps as [|[[label target] dns] ps IH]; intros x; [done|]. cbn [probe_all].
  destruct (probe_target target x) as [r x1]. specialize (IH x1). destruct (probe_all ps x1) as [rs x2].
  cbn in *. by rewrite IH.
Qed.
End network.

(** ** [probe_pddb] *)
Inductive PollReply : Type := Scalar1 (v : N) | OtherReply.
Inductive PollVerdict : Type :=
| NamesFail (e : string)
| ConnectionFail (e : string)
| PollOk (is_mounted : bool)
| PollUnexpected
| PollFail (e : string).

Class MountPoller (X Conn : Type) : Type := {
  xous_names_new : X -> result unit string * X;
  request_connection_blocking : string -> X -> result Conn string * X;
  send_blocking_scalar : Conn -> N -> X -> result PollReply string * X
}.

Definition probe_pddb {X Conn} `{!MountPoller X Conn} (x : X) : PollVerdict * X :=
  match xous_names_new x with
  | (Err e, x) => (NamesFail e, x)
  | (Ok _, x) =>
      match request_connection_blocking "_PDDB Mount Poller_" x with
      | (Err e, x) => (ConnectionFail e, x)
      | (Ok conn, x) =>
          match send_blocking_scalar conn 0 x with
          | (Ok (Scalar1 v), x) => (PollOk (negb (v =? 0)%N), x)
          | (Ok OtherReply, x) => (PollUnexpected, x)
          | (Err e, x) => (PollFail e, x)
          end
      end
  end.

(** ** The server of [probe_echo] *)

(** A connection, by what its reads give and how its writes go: the bytes written
    back. [Ok []] is the end of the stream, a read gives 1024 bytes at most; a
    stream that is still open waits. *)
Fixpoint echo_connection (reads : list (result bytes string)) (writes : list (result unit string)) : bytes :=
  match reads with
  | [] | Ok [] :: _ | Err _ :: _ => []
  | Ok chunk :: reads' =>
      match writes with
      | Ok _ :: writes' => chunk ++ echo_connection reads' writes'
      | _ => []
      end
  end.

(** The accept loop serves every connection until one cannot be accepted. *)
Fixpoint echo_server (accepts : list (result (list (result bytes string) * list (result unit string)) string)) : list bytes :=
  match accepts with
  | Ok (reads, writes) :: accepts' => echo_connection reads writes :: echo_server accepts'
  | _ => []
  end.

(** What comes back is what was sent, from its start; all of it if nothing failed
    before the stream ended. *)
Lemma echo_connection_prefix (chunks : list bytes) reads writes :
  reads = Ok <$> chunks -> echo_connection reads writes `prefix_of` concat chunks.
Proof.
  intros ->. revert writes. induction chunks as [|[|b chunk] chunks IH]; intros writes; [done|apply prefix_nil|].
  cbn. destruct writes as [|[] writes]; try apply prefix_nil. apply (prefix_app (b :: chunk)), IH.
Qed.

Lemma echo_connection_whole (chunks : list bytes) writes rest :
  Forall (fun c => c <> []) chunks -> length chunks <= length writes -> Forall (fun w => w = Ok tt) writes ->
  echo_connection ((Ok <$> chunks) ++ Ok [] :: rest) writes = concat chunks.
Proof.
  intros Hc. revert writes. induction Hc as [|[|b chunk] chunks Hne _ IH]; intros writes Hl Hw; [done|done|].
  destruct Hw as [|w writes -> Hw]; [simpl in Hl; lia|]. cbn. rewrite IH; [done|simpl in Hl; lia|done].
Qed.

(** ** The order of [main] *)

(** The features that add a step; [on_xous]: the target is the device. *)
Record Features : Type := mkFeatures {
  feature_probe_flow : bool;
  feature_probe_pddb : bool;
  feature_probe_send_batch : bool;
  feature_probe_echo : bool;
  feature_pddb_real : bool;
  on_xous : bool
}.
Inductive MainStage : Type :=
| LoggerInstalled | StoreBuilt | WorkerStarted | ProbedNetwork | ProbedPddb | ProbedSendBatch | ProbedEcho
| TruncateTested | AppRan | WorkerJoined.
#[export] Instance main_stage_eq_dec : EqDecision MainStage.
Proof. solve_decision. Defined.
Inductive MainEnd : Type := ExitCode (code : N) | MainErr (e : string) | MainOk.
#[export] Instance main_end_eq_dec : EqDecision MainEnd.
Proof. solve_decision. Defined.

Definition stage (enabled : bool) (s : MainStage) : list MainStage := if enabled then [s] else [].

(** [test]: the exit code of the truncation test, if the environment asks for it
    ([truncate_test]); [app]: how the app's loop ends. *)
Definition main (f : Features) (test : option N) (app : result unit string) : list MainStage * MainEnd :=
  let started :=
    [LoggerInstalled; StoreBuilt; WorkerStarted]
    ++ stage (feature_probe_flow f) ProbedNetwork
    ++ stage (feature_probe_pddb f && on_xous f) ProbedPddb
    ++ stage (feature_probe_send_batch f && on_xous f) ProbedSendBatch
    ++ stage (feature_probe_echo f) ProbedEcho in
  match (if feature_pddb_real f then test else None) with
  | Some code => (started ++ [TruncateTested], ExitCode code)
  | None =>
      match app with
      | Err e => (started ++ [AppRan], MainErr e)
      | Ok _ => (started ++ [AppRan; WorkerJoined], MainOk)
      end
  end.

(** The device test never lets the app run, the worker is joined only after the app
    has ended well, and no step happens twice. *)
Lemma main_order f test app :
  let '(stages, e) := main f test app in
  NoDup stages /\ [LoggerInstalled; StoreBuilt; WorkerStarted] `prefix_of` stages /\
  (TruncateTested ∈ stages -> AppRan ∉ stages) /\
  (WorkerJoined ∈ stages <-> e = MainOk) /\
  (forall code, e = ExitCode code <-> feature_pddb_real f = true /\ test = Some code).
Proof.
  destruct (main f test app) as [stages e] eqn:Hmain. revert Hmain.
  destruct f as [[] [] [] [] [] []], test as [code|], app as [[]|e0]; intros [= <- <-];
    (split; [apply (bool_decide_unpack _); vm_compute; exact I|]); (split; [by eexists|]);
    (split; [apply (bool_decide_unpack _); vm_compute; exact I|]);
    (split; [apply (bool_decide_unpack _); vm_compute; exact I|]);
    cbn; intros code'; split; intros Hc; destruct_and?; congruence || (split; congruence).
Qed.
