(* ===== verification/Batch.v ===== *)
(** * The batch scope around a send

    [begin_send_batch] with its guard, as [handle_send] uses it, and what any
    sequence of key-value operations does to an open scope: it stays open and
    nothing reaches the wrapped backend ([kv_run_scope]). *)
From S2P Require Import Prelude Codec Kv Buffering Protocol Sessions Contents.

(** ** The batch scope of the store *)
Section batch_scope.
Context `{HashOrder} {St SessionRecord : Type} `{!KvBackend St}.
Abbreviation P := (PddbStore (StoreBackend St) SessionRecord).

(** [store.begin_send_batch()]: [true] stands for [Some(guard)]. *)
Definition begin_send_batch : M P Error bool := on_backend store_begin_batch.

(** [g.commit()] and the drop of an uncommitted guard, on the wrapper the guard
    borrows. *)
Definition store_commit : M (StoreBackend St) Error nat :=
  fun sb => match sb with
            | Plain _ => (Ok 0, sb)
            | Buffered b => let '(r, b') := guard_commit b in (r, Buffered b')
            end.
Definition store_drop (sb : StoreBackend St) : StoreBackend St :=
  match sb with
  | Plain s => Plain s
  | Buffered b => Buffered (guard_drop false b)
  end.
Definition guard_commit_store : M P Error nat := on_backend store_commit.
Definition drop_guard_store (p : P) : P := set_backend (store_drop (backend p)) p.
End batch_scope.

(** ** Runs of key-value operations *)
Section runs.
Context {S : Type} `{!KvBackend S}.

Definition kv_step (ok : KvSpec.op -> bool) (s s' : S) : Prop :=
  exists o r, ok o = true /\ KvSpec.exec o s = (r, s').
Abbreviation kv_run ok := (rtc (kv_step ok)).

(** [m] acts on the backend only through operations in [ok]. *)
Definition only_kv {Er A} (ok : KvSpec.op -> bool) (m : M S Er A) : Prop :=
  forall s r s', m s = (r, s') -> kv_run ok s s'.

Definition op_reads (o : KvSpec.op) : bool :=
  match o with KvSpec.Get _ _ | KvSpec.ListKeys _ => true | _ => false end.

Lemma kv_run_weaken (ok1 ok2 : KvSpec.op -> bool) s s' :
  (forall o, ok1 o = true -> ok2 o = true) -> kv_run ok1 s s' -> kv_run ok2 s s'.
Proof. intros Hok. apply rtc_subrel. intros x y (o & r & Ho & He). exists o, r. split; [by apply Hok|done]. Qed.

Context (ok : KvSpec.op -> bool).

Lemma only_kv_mok {Er A} (a : A) : only_kv ok (mok (Er := Er) a).
Proof. by intros s r s' [= _ <-]. Qed.
Lemma only_kv_merr {Er A} (e : Er) : only_kv ok (merr (A := A) e).
Proof. by intros s r s' [= _ <-]. Qed.
Lemma only_kv_mlift {Er A} (x : result A Er) : only_kv ok (mlift x).
Proof. by intros s r s' [= _ <-]. Qed.
Lemma only_kv_mbind {Er A B} (m : M S Er A) (k : A -> M S Er B) :
  only_kv ok m -> (forall a, only_kv ok (k a)) -> only_kv ok (mbind m k).
Proof.
  intros Hm Hk s r s' [(a & s1 & H1 & H2)|(e & H1 & _)]%mbind_inv; [|by eapply Hm].
  etrans; [by eapply Hm|by eapply Hk].
Qed.
Lemma only_kv_mtry {Er Fr A} (m : M S Er A) : only_kv ok m -> only_kv ok (mtry (Fr := Fr) m).
Proof. intros Hm s r s'. unfold mtry. destruct (m s) as [r0 s0] eqn:He. intros [= _ <-]. by eapply Hm. Qed.
Lemma only_kv_mmap_err {Er Fr A} (f : Er -> Fr) (m : M S Er A) : only_kv ok m -> only_kv ok (mmap_err f m).
Proof. intros Hm s r s' (r0 & He & _)%mmap_err_inv. by eapply Hm. Qed.

Lemma only_kv_exec {A} (o : KvSpec.op) (m : M S Error A) :
  ok o = true -> (forall s, (KvSpec.exec o s).2 = (m s).2) -> only_kv ok m.
Proof.
  intros Ho Hm s r s' He. apply rtc_once. exists o, (KvSpec.exec o s).1. split; [done|].
  specialize (Hm s). rewrite He in Hm. simpl in Hm. subst s'. by destruct (KvSpec.exec o s).
Qed.
Lemma only_kv_get d k : ok (KvSpec.Get d k) = true -> only_kv ok (kv_get d k).
Proof. intros Ho. apply (only_kv_exec _ _ Ho). intros s. simpl. unfold mbind. by destruct (kv_get d k s) as [[]]. Qed.
Lemma only_kv_put d k v : ok (KvSpec.Put d k v) = true -> only_kv ok (kv_put d k v).
Proof. intros Ho. apply (only_kv_exec _ _ Ho). intros s. simpl. unfold mbind. by destruct (kv_put d k v s) as [[]]. Qed.
Lemma only_kv_list d : ok (KvSpec.ListKeys d) = true -> only_kv ok (kv_list_keys d).
Proof. intros Ho. apply (only_kv_exec _ _ Ho). intros s. simpl. unfold mbind. by destruct (kv_list_keys d s) as [[]]. Qed.
End runs.
Abbreviation kv_run ok := (rtc (kv_step ok)).

Create HintDb only_kv.
#[export] Hint Resolve only_kv_mok only_kv_merr only_kv_mlift only_kv_get only_kv_put only_kv_list : only_kv.
(** Split a computation along its binds and matches. *)
Ltac only_kv :=
  lazymatch goal with
  | |- only_kv _ (mbind _ _) => apply only_kv_mbind; [only_kv|intros ?; only_kv]
  | |- only_kv _ (mtry _) => apply only_kv_mtry; only_kv
  | |- only_kv _ (mmap_err _ _) => apply only_kv_mmap_err; only_kv
  | |- only_kv _ (match ?x with _ => _ end) => destruct x; only_kv
  | |- _ => auto with only_kv
  end.

(** ** The operations of a send as runs *)
Section send_runs.
Context `{HashOrder} `{SignalMisc} {S Contact : Type} `{!KvBackend S} `{!Bincode SessionBundle}
  `{!Json SessionBundle} `{!Json Contact}.

Lemma flush_groups_run gs n : only_kv op_no_delete_dict (flush_groups (St := S) gs n).
Proof.
  revert n. induction gs as [|[[i nm] es] gs IH]; intros n; simpl; [only_kv|].
  unfold flush_group, backend_get_session_bundle, backend_put_session_bundle. only_kv.
Qed.

Lemma flush_sessions_run {R} `{!WireRecord R} (p p' : PddbStore S R) r :
  flush_sessions p = (r, p') -> kv_run op_no_delete_dict (backend p) (backend p').
Proof.
  unfold flush_sessions. intros Hr. destruct (dirty_poisoned p); [by simplify_eq|].
  case_decide; [by simplify_eq|]. destruct (cache_poisoned p); [by simplify_eq|].
  apply mbind_inv in Hr as [(gs & p1 & Hg & Hr)|(e & Hg & _)]; injection Hg as Hg <-; [|done].
  apply mbind_inv in Hr as [(n & p1 & Hf & Hr)|(e & Hf & _)]; apply on_backend_inv in Hf as (s' & Hf & ->).
  - injection Hr as _ <-. simpl. by eapply flush_groups_run.
  - by eapply flush_groups_run.
Qed.

Lemma contacts_reads : only_kv op_reads (contacts (St := S) (Contact := Contact)).
Proof.
  unfold contacts. apply only_kv_mbind; [only_kv|]. intros keys.
  induction keys as [|k keys IH]; simpl; [only_kv|].
  unfold backend_get_json_required. only_kv.
Qed.
End send_runs.

(** ** Open and closed scopes *)
Section scope.
Context `{HashOrder} {St : Type} `{KvLaws St}.
Abbreviation SB := (StoreBackend St).

(** No batch is open and nothing is left of an earlier one. *)
Definition idle (sb : SB) : Prop :=
  match sb with
  | Plain _ => True
  | Buffered b => batching b = false /\ buffer_poisoned b = false /\ buffer b = ∅
  end.

(** The scope of [guard] is open; the wrapped backend holds [V]. *)
Definition in_scope (V : kv_map) (guard : bool) (sb : SB) : Prop :=
  match sb with
  | Plain _ => guard = false
  | Buffered b => guard = true /\ batching b = true /\ buffer_poisoned b = false /\ kv_view (inner b) = V
  end.

Lemma exec_plain o (s : St) r sb' :
  KvSpec.exec o (Plain s) = (r, sb') -> exists s', sb' = Plain s'.
Proof.
  assert (Hm : forall A (f : M St Error A) g q sb1, on_store_backend f g (Plain s) = (q, sb1) -> exists s', sb1 = Plain s').
  { intros A f g q sb1. unfold on_store_backend. destruct (f s) as [q1 s1]. intros [= _ <-]. by exists s1. }
  destruct o; simpl; intros [(a & s1 & H1 & H2)|(e & H1 & _)]%mbind_inv; apply Hm in H1 as [s2 ->];
    try (injection H2 as _ <-); by exists s2.
Qed.

Lemma exec_buffered o (b : BufferingBackend St) r sb' :
  KvSpec.exec o (Buffered b) = (r, sb') -> exists b', sb' = Buffered b' /\ KvSpec.exec o b = (r, b').
Proof.
  assert (Hm : forall A (f : M St Error A) (g : M (BufferingBackend St) Error A) (k : A -> KvSpec.out),
    mbind (on_store_backend f g) (fun x => mok (k x)) (Buffered b) = (r, sb') ->
    exists b', sb' = Buffered b' /\ mbind g (fun x => mok (k x)) b = (r, b')).
  { intros A f g k. unfold mbind, on_store_backend. destruct (g b) as [[a|e] b1]; intros [= <- <-]; eauto. }
  destruct o as [d k|d k v|es|d k|d|d].
  - exact (Hm _ _ _ KvSpec.OBytes).
  - exact (Hm _ _ _ (fun _ => KvSpec.OUnit)).
  - exact (Hm _ _ _ (fun _ => KvSpec.OUnit)).
  - exact (Hm _ _ _ (fun _ => KvSpec.OUnit)).
  - exact (Hm _ _ _ (fun _ => KvSpec.OUnit)).
  - exact (Hm _ _ _ (fun ks => KvSpec.OKeys (list_to_set ks))).
Qed.

Definition is_buffered (sb : SB) : bool := match sb with Plain _ => false | Buffered _ => true end.

Lemma in_scope_buffered V g (sb : SB) : in_scope V g sb -> is_buffered sb = g.
Proof. destruct sb; simpl; naive_solver. Qed.

Lemma begin_idle (sb : SB) :
  idle sb -> exists g sb', store_begin_batch sb = (Ok g, sb') /\ in_scope (kv_view sb) g sb' /\
    is_buffered sb = g /\ kv_view sb' = kv_view sb.
Proof.
  destruct sb as [s|b]; [by exists false, (Plain s)|]. intros (Hb & Hp & He).
  assert (Hv : kv_view (Buffered b) = kv_view (inner b)).
  { cbn. unfold buffering_view. by rewrite Hb. }
  rewrite Hv. exists true, (Buffered (set_batching true b)). split; [|split; [done|split; [done|]]].
  - unfold store_begin_batch, begin_batch. by rewrite Hb.
  - cbn. unfold buffering_view. cbn. rewrite Hp, He. apply overlay_empty.
Qed.

Lemma kv_run_buffered ok (sb sb' : SB) : kv_run ok sb sb' -> is_buffered sb' = is_buffered sb.
Proof.
  induction 1 as [|sb1 sb2 sb3 (o & r & Ho & He) _ ->]; [done|]. destruct sb1.
  - by apply exec_plain in He as [s' ->].
  - by apply exec_buffered in He as (b' & -> & _).
Qed.

Lemma in_scope_run V g (sb sb' : SB) :
  kv_run op_no_delete_dict sb sb' -> in_scope V g sb -> in_scope V g sb'.
Proof.
  induction 1 as [|sb1 sb2 sb3 (o & r & Ho & He) _ IH]; [done|]. intros Hs. apply IH. clear IH.
  destruct sb1 as [s|b].
  - apply exec_plain in He as [s' ->]. done.
  - apply exec_buffered in He as (b' & -> & He). apply exec_scope in He as [[Hb Hp] Hi].
    destruct Hs as (Hg & Hb1 & Hp1 & Hv). simpl. rewrite Hb, Hp, Hi by done. done.
Qed.

(** Outside a batch every operation is the wrapped backend's. *)
Definition passes {A} (m : M (BufferingBackend St) Error A) : Prop :=
  forall b r b', batching b = false -> m b = (r, b') -> b' = set_inner (inner b') b.

Lemma passes_inner {A} (m : M St Error A) : passes (on_inner m).
Proof. intros b r b' _ (s' & _ & ->)%on_inner_inv. done. Qed.

Lemma passes_mbind {A B} (m : M (BufferingBackend St) Error A) (k : A -> M (BufferingBackend St) Error B) :
  passes m -> (forall a, passes (k a)) -> passes (mbind m k).
Proof.
  intros Hm Hk b r b' Hb [(a & b1 & H1 & H2)|(e & H1 & _)]%mbind_inv; [|by eapply Hm].
  apply Hm in H1 as H1'; [|done]. assert (Hb1 : batching b1 = false) by (by rewrite H1').
  apply Hk in H2; [|done]. rewrite H2 at 1. rewrite H1'. done.
Qed.

Lemma passes_mok {A} (a : A) : passes (mok a).
Proof. intros b r b' _ [= _ <-]. by destruct b. Qed.

Lemma passes_if {A} (m1 : M (BufferingBackend St) Error A) (m2 : M St Error A) :
  passes (fun b => if batching b then m1 b else on_inner m2 b).
Proof. intros b r b' Hb. rewrite Hb. by apply passes_inner. Qed.

Lemma passes_exec o : passes (KvSpec.exec o).
Proof.
  assert (Hput : forall d k v, passes (buffering_put d k v)).
  { intros d k v. apply passes_if. }
  destruct o as [d k|d k v|es|d k|d|d]; simpl; (apply passes_mbind; [|intros ?; apply passes_mok]).
  - intros b r b' Hb. unfold buffering_get, is_batching. rewrite Hb. by apply passes_inner.
  - apply Hput.
  - unfold put_batch_default. induction es as [|[[d k] v] es IH]; simpl; [apply passes_mok|].
    apply passes_mbind; [apply Hput|by intros _].
  - apply passes_if.
  - intros b r b' Hb. unfold buffering_delete_dict, is_batching. rewrite Hb. by apply passes_inner.
  - apply passes_mbind; [apply passes_inner|]. intros ks b r b' Hb. unfold is_batching. rewrite Hb. apply passes_mok. done.
Qed.

Lemma idle_run ok (sb sb' : SB) : kv_run ok sb sb' -> idle sb -> idle sb'.
Proof.
  induction 1 as [|sb1 sb2 sb3 (o & r & Ho & He) _ IH]; [done|]. intros Hs. apply IH. clear IH.
  destruct sb1 as [s|b].
  - by apply exec_plain in He as [s' ->].
  - apply exec_buffered in He as (b' & -> & He). destruct Hs as (Hb & Hp & Hbuf).
    by apply passes_exec in He as ->.
Qed.

Lemma reads_view (sb sb' : SB) : kv_run op_reads sb sb' -> kv_view sb' = kv_view sb.
Proof.
  induction 1 as [|sb1 sb2 sb3 (o & r & Ho & He) _ IH]; [done|]. etrans; [exact IH|].
  assert (Hm : forall A (m : M SB Error A) (k : A -> KvSpec.out), mbind m (fun x => mok (k x)) sb1 = (r, sb2) ->
    exists r0, m sb1 = (r0, sb2)).
  { intros A m k [(a & s1 & H1 & [= _ <-])|(e & H1 & _)]%mbind_inv; by eexists. }
  destruct o as [d k|d k v|es|d k|d|d]; try done; apply Hm in He as [r0 He].
  - by apply kv_get_law in He as [Hv _].
  - by apply kv_list_keys_law in He as [Hv _].
Qed.

Lemma idle_reads (sb sb' : SB) :
  kv_run op_reads sb sb' -> idle sb -> idle sb' /\ kv_view sb' = kv_view sb.
Proof.
  intros Hr Hs. split; [by eapply idle_run|by apply reads_view].
Qed.

(** Dropping the guard brings the contents at the opening of the scope back. *)
Lemma drop_in_scope V (sb : SB) : in_scope V true sb -> idle (store_drop sb) /\ kv_view (store_drop sb) = V.
Proof.
  destruct sb as [s|b]; [done|]. intros (_ & Hb & Hp & Hv). unfold store_drop, guard_drop, abort_internal. rewrite Hp.
  split; [done|]. cbn. unfold buffering_view. cbn. done.
Qed.

(** Committing closes the scope; a commit that succeeds keeps what was read in it. *)
Lemma commit_in_scope V (sb sb' : SB) r :
  in_scope V true sb -> store_commit sb = (r, sb') ->
  idle sb' /\ (forall n, r = Ok n -> kv_view sb' = kv_view sb).
Proof.
  destruct sb as [s|b]; [done|]. intros (_ & Hb & Hp & Hv). unfold store_commit, guard_commit.
  destruct (commit_internal b) as [r0 b'] eqn:Hc. intros [= <- <-].
  apply commit_internal_inv in Hc as [Hb' Hr]; [|done]. split; [by rewrite Hb'|].
  intros n ->. destruct Hr as [_ Hview]. rewrite Hb'. cbn. unfold buffering_view. cbn. by rewrite Hb, Hp, Hview.
Qed.

(** What a failed commit still promises: keys that were not buffered are as
    they were when the scope was opened. *)
Definition buffered_key (sb : SB) (p : kv_key) : Prop :=
  match sb with Plain _ => False | Buffered b => is_Some (buffer b !! p) end.

Lemma commit_error_agrees V (sb sb' : SB) e :
  in_scope V true sb -> store_commit sb = (Err e, sb') -> agree_off (buffered_key sb) (kv_view sb') V.
Proof.
  destruct sb as [s|b]; [done|]. intros (_ & Hb & Hp & <-). unfold store_commit, guard_commit.
  destruct (commit_internal b) as [r0 b'] eqn:Hc. intros [= -> <-].
  apply commit_internal_inv in Hc as [Hb' Hr]; [|done]. rewrite Hb'. exact Hr.
Qed.

Lemma idle_unguarded V (sb : SB) : in_scope V false sb -> idle sb.
Proof. destruct sb; [done|]. by intros [? _]. Qed.
End scope.
