(* ===== verification/Worker.v ===== *)
(** * The worker's vocabulary and world ([xous-signal-worker/src/cmd.rs],
    [xous-signal-worker/src/lib.rs])

    The commands and events that cross the channel, the presage [Manager] as a
    parameter, and the world a worker task runs in: the store, the manager, the
    clock, the events sent so far and the deferred sends. *)
From S2P Require Import Prelude Codec Kv Buffering Protocol Sessions.

(** ** [cmd.rs] *)
Inductive Cmd : Type :=
| Hello
| GetWhoami
| LinkDevice (device_name : string)
| LinkCancel
| StartReceive
| SendMessage (recipient body : string) (timestamp : N)
| GetAccountInfo
| SyncContacts
| Logout
| ResolveUsername (input : string)
| Shutdown.

Record AccountInfoData : Type := mkAccountInfo {
  device_name : string;
  aci : string;
  phone : string
}.

Inductive Event (Uuid : Type) : Type :=
| Pong
| Whoami (r : result string string)
| LinkUrl (url : string)
| LinkComplete (device_name aci phone : string)
| LinkError (reason : string)
| StaleStoreDetected
| AccountInfo (r : result AccountInfoData string)
| ReceiveStarted
| Message (sender : string) (sender_phone sender_name : option string) (body : string) (timestamp : N)
    (group_master_key : option bytes)
| ReceiveError (reason : string)
| SendComplete (timestamp : N)
| SendError (reason : string) (timestamp : option N)
| ContactResolved (aci_uuid : Uuid) (name : string)
| SyncComplete
| SyncError (reason : string)
| LoggedOut
| SignalAuthExpired (reason : string)
| SignalConflictingDevice (reason : string)
| UsernameResolveResult (r : result (option Uuid) string)
| ShuttingDown.
Arguments Pong {Uuid}.
Arguments Whoami {Uuid} r.
Arguments LinkUrl {Uuid} url.
Arguments LinkComplete {Uuid} device_name aci phone.
Arguments LinkError {Uuid} reason.
Arguments StaleStoreDetected {Uuid}.
Arguments AccountInfo {Uuid} r.
Arguments ReceiveStarted {Uuid}.
Arguments Message {Uuid} sender sender_phone sender_name body timestamp group_master_key.
Arguments ReceiveError {Uuid} reason.
Arguments SendComplete {Uuid} timestamp.
Arguments SendError {Uuid} reason timestamp.
Arguments ContactResolved {Uuid} aci_uuid name.
Arguments SyncComplete {Uuid}.
Arguments SyncError {Uuid} reason.
Arguments LoggedOut {Uuid}.
Arguments SignalAuthExpired {Uuid} reason.
Arguments SignalConflictingDevice {Uuid} reason.
Arguments UsernameResolveResult {Uuid} r.
Arguments ShuttingDown {Uuid}.

(** ** Operations forwarded to the manager task *)
Record InnerSend : Type := mkInnerSend {
  is_recipient : string;
  is_body : string;
  is_timestamp : N
}.

Inductive WorkerOp : Type :=
| OpStartReceive
| OpSend (s : InnerSend)
| OpSyncContacts
| OpResolveUsername (input : string).

(** ** What the worker uses of libsignal-service and presage *)

(** The fields of [DataMessage] the worker reads or sets; [group_v2] is the
    context's [master_key]. *)
Record DataMessage : Type := mkData {
  dm_body : option string;
  dm_timestamp : option N;
  dm_group_v2 : option (option bytes);
  dm_profile_key : option bytes
}.

(** How [send_message] ended: [catch_unwind] turns a panic into its payload. *)
Inductive PanicPayload : Type :=
| PayloadStr (s : string)
| PayloadString (s : string)
| PayloadOther.
Inductive SendOutcome : Type :=
| Sent
| SendFailed (display : string)
| SendPanicked (payload : PanicPayload).

(** [ProfileName], [Contact] and the identifiers, as far as they are read. *)
Record ProfileName : Type := mkProfileName {
  given_name : string;
  family_name : option string
}.
Class WorkerIds (ServiceId Uuid : Type) : Type := {
  parse_uuid : string -> option Uuid;
  aci_service_id : Uuid -> ServiceId;
  service_id_aci : ServiceId -> option Uuid
}.
Class ContactFields (Contact Uuid : Type) : Type := {
  c_uuid : Contact -> Uuid;
  c_name : Contact -> string;
  c_phone_e164 : Contact -> option string
}.
(** [format!("{:?}", s)] on a string. *)
Class RustDebug : Type := str_debug : string -> string.

(** [presage::Manager<PddbStore, Registered>]: every call may change the
    manager and the store it shares, takes some milliseconds and answers. *)
Class Presage (P Mgr ServiceId Uuid : Type) : Type := {
  send_message : ServiceId -> DataMessage -> N -> Mgr * P -> N * SendOutcome * (Mgr * P);
  request_contacts : Mgr * P -> N * result unit string * (Mgr * P);
  lookup_username : string -> Mgr * P -> N * result (option Uuid) string * (Mgr * P);
  retrieve_profile_by_uuid : Uuid -> bytes -> Mgr * P -> N * result (option ProfileName) string * (Mgr * P);
  receive_messages : Mgr * P -> N * result unit string * (Mgr * P);
  last_identified_close_code : Mgr -> option N
}.

(** ** The world of a task *)
Record World (P Mgr Uuid : Type) : Type := mkWorld {
  w_store : P;
  w_manager : Mgr;
  w_now : N;
  w_events : list (Event Uuid);
  w_open : bool;
  w_pending : gmap N N
}.
Arguments mkWorld {P Mgr Uuid} _ _ _ _ _ _.
Arguments w_store {P Mgr Uuid} _.
Arguments w_manager {P Mgr Uuid} _.
Arguments w_now {P Mgr Uuid} _.
Arguments w_events {P Mgr Uuid} _.
Arguments w_open {P Mgr Uuid} _.
Arguments w_pending {P Mgr Uuid} _.

Section world.
Context {P Mgr Uuid : Type}.
Abbreviation W := (World P Mgr Uuid).

Definition set_store (s : P) (w : W) : W :=
  mkWorld s (w_manager w) (w_now w) (w_events w) (w_open w) (w_pending w).
Definition set_pending (m : gmap N N) (w : W) : W :=
  mkWorld (w_store w) (w_manager w) (w_now w) (w_events w) (w_open w) m.
Definition delay (ms : N) (w : W) : W :=
  mkWorld (w_store w) (w_manager w) (w_now w + ms) (w_events w) (w_open w) (w_pending w).

(** [event_tx.send(e).await.is_ok()]: nothing is sent once the receiver is gone. *)
Definition emit (e : Event Uuid) (w : W) : bool * W :=
  if w_open w then
    (true, mkWorld (w_store w) (w_manager w) (w_now w) (w_events w ++ [e]) true (w_pending w))
  else (false, w).
(** [let _ = event_tx.send(e).await]. *)
Definition emit_ (e : Event Uuid) (w : W) : W := (emit e w).2.

Definition on_store {Er A} (m : M P Er A) : M W Er A := zoom w_store set_store m.

(** One call of the manager. *)
Definition manager_call {A} (f : Mgr * P -> N * A * (Mgr * P)) (w : W) : A * W :=
  let '(ms, a, (mgr, s)) := f (w_manager w, w_store w) in
  (a, mkWorld s mgr (w_now w + ms) (w_events w) (w_open w) (w_pending w)).

(** Everything but the channel and the deferred sends may differ. *)
Definition says (w w' : W) (es : list (Event Uuid)) : Prop :=
  w_open w' = w_open w /\ w_events w' = w_events w ++ (if w_open w then es else []).

Lemma says_nil w : says w w [].
Proof. split; [done|]. destruct (w_open w); by rewrite app_nil_r. Qed.

Lemma says_trans w1 w2 w3 es fs : says w1 w2 es -> says w2 w3 fs -> says w1 w3 (es ++ fs).
Proof.
  intros [Ho He] [Ho' He']. split; [congruence|]. rewrite He', He, Ho.
  destruct (w_open w1); by rewrite <- ?app_assoc, ?app_nil_r.
Qed.

Lemma says_emit e w : says w (emit_ e w) [e].
Proof. unfold emit_, emit, says. destruct (w_open w) eqn:Ho; simpl; [done|]. by rewrite Ho, app_nil_r. Qed.

Lemma says_quiet w w' : w_open w' = w_open w -> w_events w' = w_events w -> says w w' [].
Proof. intros Ho He. split; [done|]. rewrite He. destruct (w_open w); by rewrite app_nil_r. Qed.

Lemma on_store_inv {Er A} (m : M P Er A) w r w' :
  on_store m w = (r, w') -> exists p', m (w_store w) = (r, p') /\ w' = set_store p' w.
Proof. unfold on_store, zoom. destruct (m (w_store w)) as [r0 p0]. intros [= <- <-]. eauto. Qed.

Lemma manager_call_inv {A} (f : Mgr * P -> N * A * (Mgr * P)) w a w' :
  manager_call f w = (a, w') ->
  exists ms, f (w_manager w, w_store w) = (ms, a, (w_manager w', w_store w')) /\
    w_now w' = (w_now w + ms)%N /\ says w w' [] /\ w_pending w' = w_pending w.
Proof.
  unfold manager_call. destruct (f _) as [[ms a0] [m' p']]. intros [= <- <-]. exists ms.
  split; [done|]. split; [done|]. split; [|done]. by apply says_quiet.
Qed.

Lemma emit_store e w : w_store (emit_ e w) = w_store w.
Proof. unfold emit_, emit. by destruct (w_open w). Qed.
Lemma emit_pending e w : w_pending (emit_ e w) = w_pending w.
Proof. unfold emit_, emit. by destruct (w_open w). Qed.
Lemma emit_now e w : w_now (emit_ e w) = w_now w.
Proof. unfold emit_, emit. by destruct (w_open w). Qed.

(** ** How the world evolves

    [evolves w w' es]: the step sent [es], and a deferred send is forgotten only
    when one of them reports it. *)
Definition reports (ts : N) (e : Event Uuid) : Prop :=
  e = SendComplete ts \/ exists reason, e = SendError reason (Some ts).

Definition evolves (w w' : W) (es : list (Event Uuid)) : Prop :=
  says w w' es /\
  (w_open w = true -> forall ts, is_Some (w_pending w !! ts) ->
     is_Some (w_pending w' !! ts) \/ Exists (reports ts) es).

Lemma evolves_trans w1 w2 w3 es fs : evolves w1 w2 es -> evolves w2 w3 fs -> evolves w1 w3 (es ++ fs).
Proof.
  intros [Hs1 Hp1] [Hs2 Hp2]. split; [by eapply says_trans|]. intros Ho ts Hts. rewrite Exists_app.
  destruct (Hp1 Ho ts Hts) as [Hts2|]; [|by right; left].
  destruct Hs1 as [Ho1 _]. destruct (Hp2 ltac:(congruence) ts Hts2); [by left|by right; right].
Qed.

Lemma evolves_quiet w w' :
  says w w' [] -> (forall ts, is_Some (w_pending w !! ts) -> is_Some (w_pending w' !! ts)) -> evolves w w' [].
Proof. intros Hs Hp. split; [done|]. intros _ ts Hts. left. by apply Hp. Qed.

Lemma evolves_refl w : evolves w w [].
Proof. apply evolves_quiet; [apply says_nil|done]. Qed.

Lemma evolves_store s w : evolves w (set_store s w) [].
Proof. apply evolves_quiet; [by apply says_quiet|done]. Qed.

Lemma evolves_delay ms w : evolves w (delay ms w) [].
Proof. apply evolves_quiet; [by apply says_quiet|done]. Qed.

Lemma evolves_emit e w : evolves w (emit_ e w) [e].
Proof. split; [apply says_emit|]. intros _ ts Hts. left. by rewrite emit_pending. Qed.

Lemma evolves_call {A} (f : Mgr * P -> N * A * (Mgr * P)) w a w' :
  manager_call f w = (a, w') -> evolves w w' [].
Proof. intros (ms & _ & _ & Hs & Hp)%manager_call_inv. apply evolves_quiet; [done|]. by rewrite Hp. Qed.

Lemma evolves_on_store {Er A} (m : M P Er A) w r w' : on_store m w = (r, w') -> evolves w w' [].
Proof. intros (p' & _ & ->)%on_store_inv. apply evolves_store. Qed.

(** A deferred send leaves with the event that reports it. *)
Lemma evolves_settle ts e w :
  reports ts e -> evolves w (emit_ e (set_pending (delete ts (w_pending w)) w)) [e].
Proof.
  intros He. split.
  - apply (says_trans w (set_pending (delete ts (w_pending w)) w) _ [] _); [by apply says_quiet|apply says_emit].
  - intros _ t Ht. rewrite emit_pending. simpl. destruct (decide (t = ts)) as [->|Hne].
    + right. by left.
    + left. by rewrite lookup_delete_ne.
Qed.

(** Events that are neither an outage banner nor the end of the session. *)
Definition ordinary (e : Event Uuid) : Prop :=
  match e with
  | ReceiveError _ | SignalAuthExpired _ | SignalConflictingDevice _ => False
  | _ => True
  end.

(** A step of the task's helpers: it sends ordinary events only. *)
Definition ordinary_step (w w' : W) : Prop := exists es, evolves w w' es /\ Forall ordinary es.

#[global] Instance ordinary_step_refl : Reflexive ordinary_step.
Proof. intros w. exists []. split; [apply evolves_refl|constructor]. Qed.
#[global] Instance ordinary_step_trans : Transitive ordinary_step.
Proof.
  intros w1 w2 w3 (es & He & Hq) (fs & Hf & Hr). exists (es ++ fs).
  split; [by eapply evolves_trans|by apply Forall_app].
Qed.

Lemma ordinary_quiet w w' : evolves w w' [] -> ordinary_step w w'.
Proof. intros He. by exists []. Qed.
Lemma ordinary_emit e w : ordinary e -> ordinary_step w (emit_ e w).
Proof. intros He. exists [e]. split; [apply evolves_emit|by constructor]. Qed.

(** ** Answering a send

    [settles ts w w' es]: the step reported the send [ts] or left it deferred. *)
Definition settles (ts : N) (w w' : W) (es : list (Event Uuid)) : Prop :=
  evolves w w' es /\ (is_Some (w_pending w' !! ts) \/ Exists (reports ts) es).

Lemma settles_after ts w w1 w2 es fs : evolves w w1 es -> settles ts w1 w2 fs -> settles ts w w2 (es ++ fs).
Proof.
  intros He [Hf Hts]. split; [by eapply evolves_trans|]. rewrite Exists_app.
  destruct Hts; [by left|by right; right].
Qed.

Lemma settles_before ts w w1 w2 es fs :
  w_open w = true -> settles ts w w1 es -> evolves w1 w2 fs -> settles ts w w2 (es ++ fs).
Proof.
  intros Ho [He Hts] Hf. split; [by eapply evolves_trans|]. rewrite Exists_app.
  destruct Hts as [Hts|]; [|by right; left]. destruct He as [[Ho1 _] _], Hf as [_ Hp].
  destruct (Hp ltac:(congruence) ts Hts); [by left|by right; right].
Qed.

Lemma settles_emit ts e w : reports ts e -> settles ts w (emit_ e w) [e].
Proof. intros He. split; [apply evolves_emit|]. right. by left. Qed.

Definition answers (ts : N) (w w' : W) : Prop := exists es, settles ts w w' es.

Lemma answers_after ts w w1 w2 : ordinary_step w w1 -> answers ts w1 w2 -> answers ts w w2.
Proof. intros (es & He & _) (fs & Hf). exists (es ++ fs). by eapply settles_after. Qed.

Lemma answers_before ts w w1 w2 :
  w_open w = true -> answers ts w w1 -> ordinary_step w1 w2 -> answers ts w w2.
Proof. intros Ho (es & He) (fs & Hf & _). exists (es ++ fs). by eapply settles_before. Qed.

Lemma answers_emit ts e w : reports ts e -> answers ts w (emit_ e w).
Proof. intros He. exists [e]. by apply settles_emit. Qed.
End world.
