(* ===== verification/Send.v ===== *)
(** * Sending a message ([handle_send] of [xous-signal-worker/src/lib.rs])

    Recipient resolution, the retry loop with its write batch, and the deferral
    of sends whose fate only a delivery receipt can tell. *)
From S2P Require Import Prelude Codec Utf8 Text Kv Buffering Protocol Sessions Contents Batch Worker.

Definition SEND_MAX_ATTEMPTS : N := 6.

(** Seconds before the attempt after [next_attempt]. *)
Definition backoff_for (next_attempt : N) : N := N.shiftl 1 (N.min next_attempt 5).

(** [for attempt in 1..=SEND_MAX_ATTEMPTS]. *)
Definition attempt_numbers : list N := [1; 2; 3; 4; 5; 6]%N.

Definition is_retryable (msg : string) : bool := contains (to_lowercase msg) "websocket closing".

Definition panic_message (p : PanicPayload) : string :=
  match p with
  | PayloadStr s => s
  | PayloadString s => s
  | PayloadOther => "unknown panic payload"
  end.

Section send.
Context `{HashOrder} `{SignalMisc} `{!RustDebug}
  {St SessionRecord Mgr ServiceId Uuid Contact : Type} `{!KvBackend St}
  `{!WireRecord SessionRecord} `{!Bincode SessionBundle} `{!Json SessionBundle} `{!Json Contact}
  `{!WorkerIds ServiceId Uuid} `{!ContactFields Contact Uuid}
  `{!Presage (PddbStore (StoreBackend St) SessionRecord) Mgr ServiceId Uuid}.
Abbreviation P := (PddbStore (StoreBackend St) SessionRecord).
Abbreviation W := (World P Mgr Uuid).

(** The first contact with this number; unreadable contacts and contacts
    without a number are skipped. *)
Fixpoint find_e164 (target : string) (items : list (result Contact Error)) : option Uuid :=
  match items with
  | [] => None
  | Ok c :: items' =>
      if bool_decide (c_phone_e164 c = Some target) then Some (c_uuid c) else find_e164 target items'
  | Err _ :: items' => find_e164 target items'
  end.

Definition resolve_recipient (raw : string) : M W string ServiceId :=
  match parse_uuid (trim raw) with
  | Some uuid => mok (aci_service_id uuid)
  | None =>
      if starts_with (trim raw) "+" then
        let* items := mtry (on_store (on_backend (contacts (Contact := Contact)))) in
        match items with
        | Err _ => merr "couldn't read contacts store"
        | Ok items =>
            match find_e164 (trim raw) items with
            | None => merr ("phone " +:+ trim raw +:+
                " not in contacts (receive a message from them first, or use their ACI UUID)")
            | Some uuid => mok (aci_service_id uuid)
            end
        end
      else merr ("recipient must be ACI UUID or +e164 phone number; got " +:+ str_debug raw)
  end.

Definition drop_guard (guard : bool) (w : W) : W :=
  if guard then set_store (drop_guard_store (w_store w)) w else w.

(** One successful attempt: flush into the open batch, commit it, report. *)
Definition finish_send (guard : bool) (timestamp : N) (w : W) : W :=
  let w1 := (on_store flush_sessions w).2 in
  let w2 := if guard then (on_store guard_commit_store w1).2 else w1 in
  emit_ (SendComplete timestamp) w2.

(** The guard of a failed attempt is dropped when the loop body is left, after
    the back-off sleep or the error event. *)
Fixpoint send_loop (recipient : ServiceId) (content_body : DataMessage) (timestamp pending_grace : N)
    (attempts : list N) (last_err : option string) (w : W) : W :=
  match attempts with
  | [] =>
      emit_ (SendError ("retried " +:+ pretty SEND_MAX_ATTEMPTS +:+ " times: " +:+
               default "send retry loop exhausted" last_err) (Some timestamp)) w
  | attempt :: attempts' =>
      match on_store begin_send_batch w with
      | (Err e, w1) =>
          emit_ (SendError ("internal: begin_send_batch: " +:+ error_to_string e) (Some timestamp)) w1
      | (Ok guard, w1) =>
          let '(outcome, w2) := manager_call (send_message recipient content_body timestamp) w1 in
          match outcome with
          | Sent => finish_send guard timestamp w2
          | SendFailed msg =>
              if is_retryable msg && (attempt <? SEND_MAX_ATTEMPTS)%N then
                send_loop recipient content_body timestamp pending_grace attempts' (Some msg)
                  (drop_guard guard (delay (1000 * backoff_for attempt) w2))
              else if is_retryable msg then
                drop_guard guard
                  (set_pending (<[timestamp := (w_now w2 + pending_grace)%N]> (w_pending w2)) w2)
              else drop_guard guard (emit_ (SendError msg (Some timestamp)) w2)
          | SendPanicked p =>
              drop_guard guard (emit_ (SendError ("panic in send: " +:+ panic_message p) (Some timestamp)) w2)
          end
      end
  end.

Definition handle_send (send : InnerSend) (pending_grace : N) (w : W) : W :=
  let timestamp := is_timestamp send in
  match resolve_recipient (is_recipient send) w with
  | (Err reason, w1) => emit_ (SendError reason (Some timestamp)) w1
  | (Ok recipient, w1) =>
      send_loop recipient (mkData (Some (is_body send)) (Some timestamp) None None) timestamp pending_grace
        attempt_numbers None w1
  end.

(** ** What a send says *)
Lemma drop_guard_ordinary guard w : ordinary_step w (drop_guard guard w).
Proof. destruct guard; [apply ordinary_quiet, evolves_store|done]. Qed.

Lemma finish_send_ordinary guard ts w : ordinary_step w (finish_send guard ts w).
Proof.
  unfold finish_send. destruct (on_store flush_sessions w) as [r1 w1] eqn:Hf.
  etrans; [apply ordinary_quiet; by eapply evolves_on_store|]. cbn [snd].
  etrans; [|by apply ordinary_emit]. destruct guard; [|done].
  destruct (on_store guard_commit_store w1) as [r2 w2] eqn:Hc. apply ordinary_quiet. by eapply evolves_on_store.
Qed.

Lemma send_loop_ordinary sid content ts g attempts last w :
  ordinary_step w (send_loop sid content ts g attempts last w).
Proof.
  revert last w. induction attempts as [|a attempts IH]; intros last w; simpl; [by apply ordinary_emit|].
  destruct (on_store begin_send_batch w) as [r w1] eqn:Hb.
  assert (Hw1 : ordinary_step w w1) by (apply ordinary_quiet; by eapply evolves_on_store).
  destruct r as [guard|e]; [|etrans; [exact Hw1|by apply ordinary_emit]].
  destruct (manager_call _ w1) as [o w2] eqn:Hc.
  assert (Hw2 : ordinary_step w1 w2) by (apply ordinary_quiet; by eapply evolves_call).
  etrans; [exact Hw1|]. etrans; [exact Hw2|]. clear Hw1 Hw2.
  destruct o as [|msg|p]; [apply finish_send_ordinary| |etrans; [|apply drop_guard_ordinary]; by apply ordinary_emit].
  destruct (is_retryable msg); simpl; [|etrans; [|apply drop_guard_ordinary]; by apply ordinary_emit].
  destruct (a <? SEND_MAX_ATTEMPTS)%N.
  - etrans; [|apply IH]. etrans; [apply ordinary_quiet, evolves_delay|apply drop_guard_ordinary].
  - etrans; [|apply drop_guard_ordinary]. apply ordinary_quiet, evolves_quiet; [by apply says_quiet|].
    intros t Ht. simpl. destruct (decide (t = ts)) as [->|]; [by rewrite lookup_insert_eq|by rewrite lookup_insert_ne].
Qed.

Lemma resolve_reads (raw : string) (w w' : W) r :
  resolve_recipient raw w = (r, w') ->
  exists p', w' = set_store p' w /\ kv_run op_reads (backend (w_store w)) (backend p').
Proof.
  intros Hr. assert (Hsame : exists p', w = set_store p' w /\ kv_run op_reads (backend (w_store w)) (backend p')).
  { exists (w_store w). split; [by destruct w|done]. }
  unfold resolve_recipient in Hr. destruct (parse_uuid (trim raw)); [by injection Hr as _ <-|].
  destruct (starts_with (trim raw) "+"); [|by injection Hr as _ <-].
  assert (Hl : exists r0, on_store (on_backend (contacts (Contact := Contact))) w = (r0, w')).
  { unfold mbind, mtry in Hr. destruct (on_store _ w) as [r0 w0]. exists r0.
    destruct r0 as [items|e]; [destruct (find_e164 _ items)|]; by injection Hr as _ <-. }
  destruct Hl as [r0 Hl]. apply on_store_inv in Hl as (p' & Hl & ->). exists p'. split; [done|].
  apply on_backend_inv in Hl as (s' & Hl & ->). by eapply contacts_reads.
Qed.

Lemma handle_send_ordinary send g w : ordinary_step w (handle_send send g w).
Proof.
  unfold handle_send. destruct (resolve_recipient _ w) as [r w1] eqn:Hr.
  apply resolve_reads in Hr as (p' & -> & _).
  etrans; [apply ordinary_quiet, (evolves_store p')|]. destruct r; [apply send_loop_ordinary|by apply ordinary_emit].
Qed.

(** ** Every send is reported or deferred *)
Lemma reports_error reason ts : reports (Uuid := Uuid) ts (SendError reason (Some ts)).
Proof. right. by eexists. Qed.
#[local] Hint Resolve reports_error : core.

Lemma ordinary_open_same (w w' : W) : ordinary_step w w' -> w_open w' = w_open w.
Proof. by intros (es & [[Ho _] _] & _). Qed.

Lemma send_loop_answers sid content ts g attempts last w :
  w_open w = true -> answers ts w (send_loop sid content ts g attempts last w).
Proof.
  revert last w. induction attempts as [|a attempts IH]; intros last w Ho; simpl; [by apply answers_emit|].
  destruct (on_store begin_send_batch w) as [r w1] eqn:Hb.
  assert (Hw1 : ordinary_step w w1) by (apply ordinary_quiet; by eapply evolves_on_store).
  destruct r as [guard|e]; [|apply (answers_after _ _ w1); [done|by apply answers_emit]].
  destruct (manager_call _ w1) as [o w2] eqn:Hc.
  assert (Hw2 : ordinary_step w w2) by (etrans; [exact Hw1|]; apply ordinary_quiet; by eapply evolves_call).
  clear Hw1 Hb Hc. pose proof (ordinary_open_same _ _ Hw2) as Ho2. rewrite Ho in Ho2.
  assert (Herr : forall reason, answers ts w2 (drop_guard guard (emit_ (SendError reason (Some ts)) w2))).
  { intros reason. eapply answers_before; [done|by apply answers_emit|apply drop_guard_ordinary]. }
  apply (answers_after _ _ w2); [done|]. destruct o as [|msg|p]; [|destruct (is_retryable msg); simpl|]; try apply Herr.
  - unfold finish_send. eapply answers_after; [|apply answers_emit; by left].
    destruct (on_store flush_sessions w2) as [r1 w3] eqn:Hf. cbn [snd].
    etrans; [apply ordinary_quiet; by eapply evolves_on_store|]. destruct guard; [|done].
    destruct (on_store guard_commit_store w3) as [r2 w4] eqn:Hc. apply ordinary_quiet. by eapply evolves_on_store.
  - destruct (a <? SEND_MAX_ATTEMPTS)%N.
    + assert (Hw3 : ordinary_step w2 (drop_guard guard (delay (1000 * backoff_for a) w2))).
      { etrans; [apply ordinary_quiet, evolves_delay|apply drop_guard_ordinary]. }
      eapply answers_after; [exact Hw3|]. apply IH. by rewrite (ordinary_open_same _ _ Hw3).
    + eapply answers_before; [done| |apply drop_guard_ordinary]. exists []. split.
      * apply evolves_quiet; [by apply says_quiet|]. intros t Ht. simpl.
        destruct (decide (t = ts)) as [->|]; [by rewrite lookup_insert_eq|by rewrite lookup_insert_ne].
      * left. simpl. by rewrite lookup_insert_eq.
Qed.

Lemma handle_send_answers send g w : w_open w = true -> answers (is_timestamp send) w (handle_send send g w).
Proof.
  intros Ho. unfold handle_send. destruct (resolve_recipient _ w) as [r w1] eqn:Hr.
  apply resolve_reads in Hr as (p' & -> & _). apply (answers_after _ _ (set_store p' w)); [apply ordinary_quiet, evolves_store|].
  destruct r; [by apply send_loop_answers|by apply answers_emit].
Qed.

(** ** How a send ends *)

(** Presage reaches the backend only through the store's key-value operations,
    and a send deletes no whole dictionary. *)
Class PresageSendLaws : Prop :=
  send_message_run sid content ts (m m' : Mgr) (p p' : P) ms o :
    send_message sid content ts (m, p) = (ms, o, (m', p')) ->
    kv_run op_no_delete_dict (backend p) (backend p').
Context `{!KvLaws St} `{!WireRecordLaws SessionRecord} `{!BincodeLaws SessionBundle} `{!JsonLaws SessionBundle}
  `{!PresageSendLaws}.

Abbreviation w_backend w := (backend (w_store w)).

(** Nothing but the store, the manager and the clock moved; a buffered backend
    reads as before. *)
Definition no_trace (w w' : W) : Prop :=
  is_buffered (w_backend w) = true -> kv_view (w_backend w') = kv_view (w_backend w).

(** The three ways a send to [sid] ends. *)
Inductive settled (sid : ServiceId) (content : DataMessage) (ts pending_grace : N) (w w' : W) : Prop :=
| settled_complete st :
    (send_message sid content ts st).1.2 = Sent ->
    says w w' [SendComplete ts] -> w_pending w' = w_pending w ->
    settled sid content ts pending_grace w w'
| settled_error st reason :
    (send_message sid content ts st).1.2 = SendFailed reason /\ is_retryable reason = false \/
    (exists p, (send_message sid content ts st).1.2 = SendPanicked p /\
       reason = "panic in send: " +:+ panic_message p) ->
    says w w' [SendError reason (Some ts)] -> w_pending w' = w_pending w -> no_trace w w' ->
    settled sid content ts pending_grace w w'
| settled_deferred st msg :
    (send_message sid content ts st).1.2 = SendFailed msg -> is_retryable msg = true ->
    says w w' [] -> w_pending w' = <[ts := (w_now w' + pending_grace)%N]> (w_pending w) -> no_trace w w' ->
    settled sid content ts pending_grace w w'.

Lemma settled_after sid content ts g w w1 w2 :
  says w w1 [] -> w_pending w1 = w_pending w -> no_trace w w1 -> is_buffered (w_backend w1) = is_buffered (w_backend w) ->
  settled sid content ts g w1 w2 -> settled sid content ts g w w2.
Proof.
  intros Hs Hp Hn Hb Hset.
  assert (Hnt : no_trace w1 w2 -> no_trace w w2).
  { intros Hx Hw. rewrite Hx, Hn; [done..|congruence]. }
  destruct Hset as [st Ho Hs2 Hp2|st reason Ho Hs2 Hp2 Hn2|st msg Ho Hr Hs2 Hp2 Hn2].
  - eapply settled_complete; [done|by apply (says_trans _ _ _ _ _ Hs)|congruence].
  - eapply settled_error; [done|by apply (says_trans _ _ _ _ _ Hs)|congruence|auto].
  - eapply settled_deferred; [done..|by apply (says_trans _ _ _ _ _ Hs)|congruence|auto].
Qed.

(** Opening the scope and calling presage. *)
Lemma attempt_inv sid content ts (w : W) :
  idle (w_backend w) ->
  exists guard w1 o w2, on_store begin_send_batch w = (Ok guard, w1) /\
    manager_call (send_message sid content ts) w1 = (o, w2) /\
    in_scope (kv_view (w_backend w)) guard (w_backend w2) /\ is_buffered (w_backend w) = guard /\
    says w w2 [] /\ w_pending w2 = w_pending w /\
    exists st, (send_message sid content ts st).1.2 = o /\ w_now w2 = (w_now w + (send_message sid content ts st).1.1)%N.
Proof.
  intros Hi. destruct (begin_idle _ Hi) as (guard & sb1 & Hb & Hs & Hbuf & _).
  exists guard, (set_store (set_backend sb1 (w_store w)) w).
  destruct (manager_call (send_message sid content ts) (set_store (set_backend sb1 (w_store w)) w)) as [o w2] eqn:Hc.
  exists o, w2. split.
  { unfold on_store, zoom, begin_send_batch, on_backend, zoom. by rewrite Hb. }
  split; [done|]. apply manager_call_inv in Hc as (ms & Hc & Hnow & Hsay & Hp).
  split; [by eapply in_scope_run; [eapply send_message_run|]|]. split; [done|].
  split; [done|]. split; [done|]. eexists. rewrite Hc. by rewrite Hnow.
Qed.

(** Dropping the guard of a failed attempt. *)
Lemma drop_guard_inv V guard (w : W) :
  in_scope V guard (w_backend w) ->
  idle (w_backend (drop_guard guard w)) /\ (guard = true -> kv_view (w_backend (drop_guard guard w)) = V) /\
  is_buffered (w_backend (drop_guard guard w)) = guard /\
  says w (drop_guard guard w) [] /\ w_now (drop_guard guard w) = w_now w /\
  w_pending (drop_guard guard w) = w_pending w.
Proof.
  intros Hs. pose proof (in_scope_buffered _ _ _ Hs) as Hb. destruct guard; simpl.
  - apply drop_in_scope in Hs as [Hi Hv]. split; [done|]. split; [done|].
    split; [by destruct (w_backend w)|]. split; [by apply says_quiet|done].
  - apply idle_unguarded in Hs. split; [done|]. split; [done|]. split; [done|]. split; [by apply says_nil|done].
Qed.

(** A successful attempt reports completion and closes the scope, whatever the
    flush and the commit answered. *)
Lemma finish_send_inv V guard ts (w : W) :
  in_scope V guard (w_backend w) ->
  idle (w_backend (finish_send guard ts w)) /\ says w (finish_send guard ts w) [SendComplete ts] /\
  w_now (finish_send guard ts w) = w_now w /\ w_pending (finish_send guard ts w) = w_pending w.
Proof.
  intros Hs. unfold finish_send.
  destruct (on_store flush_sessions w) as [r1 w1] eqn:Hf. apply on_store_inv in Hf as (p1 & Hf & ->). simpl.
  assert (Hs1 : in_scope V guard (backend p1)).
  { eapply in_scope_run; [by eapply flush_sessions_run|done]. }
  assert (Hcl : exists p2, (if guard then (on_store guard_commit_store (set_store p1 w)).2 else set_store p1 w)
      = set_store p2 w /\ idle (backend p2)).
  { destruct guard; [|exists p1; split; [done|by eapply idle_unguarded]].
    destruct (on_store guard_commit_store (set_store p1 w)) as [r2 w2] eqn:Hc.
    apply on_store_inv in Hc as (p2 & Hc & ->). exists p2. split; [done|].
    unfold guard_commit_store in Hc. apply on_backend_inv in Hc as (s' & Hc & ->).
    by apply (commit_in_scope _ _ _ _ Hs1 Hc). }
  destruct Hcl as (p2 & -> & Hi).
  rewrite emit_store, emit_pending, emit_now. split; [done|]. split; [|done].
  apply (says_trans _ (set_store p2 w) _ [] _); [by apply says_quiet|apply says_emit].
Qed.

Fixpoint counts_to_max (attempts : list N) : Prop :=
  match attempts with
  | [] => False
  | [a] => a = SEND_MAX_ATTEMPTS
  | a :: attempts' => (a < SEND_MAX_ATTEMPTS)%N /\ counts_to_max attempts'
  end.

(** Milliseconds slept at most over these attempts. *)
Definition total_backoff (attempts : list N) : N :=
  foldr (fun a n => (if (a <? SEND_MAX_ATTEMPTS)%N then 1000 * backoff_for a + n else n)%N) 0%N attempts.

(** A failed attempt that is reported at once. *)
Lemma send_error_settles V T sid content ts g guard st reason (w w2 : W) :
  in_scope V guard (w_backend w2) -> V = kv_view (w_backend w) -> is_buffered (w_backend w) = guard ->
  says w w2 [] -> w_pending w2 = w_pending w -> (w_now w2 <= T)%N ->
  ((send_message sid content ts st).1.2 = SendFailed reason /\ is_retryable reason = false \/
   (exists p, (send_message sid content ts st).1.2 = SendPanicked p /\
      reason = "panic in send: " +:+ panic_message p)) ->
  let w' := drop_guard guard (emit_ (SendError reason (Some ts)) w2) in
  settled sid content ts g w w' /\ idle (w_backend w') /\ (w_now w' <= T)%N.
Proof.
  intros Hs -> Hbuf Hsay Hp HT Ho. simpl. rewrite <- (emit_store (SendError reason (Some ts)) w2) in Hs.
  apply drop_guard_inv in Hs as (Hi & Hv & Hbuf' & Hsay' & Hnow' & Hp').
  rewrite emit_now in Hnow'. rewrite emit_pending in Hp'. split; [|split; [done|by rewrite Hnow']].
  eapply settled_error; [exact Ho| |congruence|].
  - apply (says_trans _ _ _ [] _ Hsay). apply (says_trans _ _ _ [_] [] (says_emit _ _) Hsay').
  - intros Hw. apply Hv. congruence.
Qed.

(** A failed last attempt whose fate a receipt may still tell. *)
Lemma send_deferred_settles V T sid content ts g guard st msg (w w2 : W) :
  in_scope V guard (w_backend w2) -> V = kv_view (w_backend w) -> is_buffered (w_backend w) = guard ->
  says w w2 [] -> w_pending w2 = w_pending w -> (w_now w2 <= T)%N ->
  (send_message sid content ts st).1.2 = SendFailed msg -> is_retryable msg = true ->
  let w' := drop_guard guard (set_pending (<[ts := (w_now w2 + g)%N]> (w_pending w2)) w2) in
  settled sid content ts g w w' /\ idle (w_backend w') /\ (w_now w' <= T)%N.
Proof.
  intros Hs -> Hbuf Hsay Hp HT Ho Hr.
  destruct (drop_guard_inv _ _ (set_pending (<[ts := (w_now w2 + g)%N]> (w_pending w2)) w2) Hs)
    as (Hi & Hv & Hbuf' & Hsay' & Hnow' & Hp').
  split; [|split; [done|by rewrite Hnow']]. eapply settled_deferred; [exact Ho|done| | |].
  - apply (says_trans _ _ _ [] [] Hsay). eapply (says_trans _ _ _ [] []); [|exact Hsay']. by apply says_quiet.
  - rewrite Hp', Hnow'. simpl. by rewrite Hp.
  - intros Hw. apply Hv. congruence.
Qed.

Lemma send_loop_settles T sid content ts g attempts :
  counts_to_max attempts ->
  (forall st, ((send_message sid content ts st).1.1 <= T)%N) ->
  forall last (w : W), idle (w_backend w) ->
  let w' := send_loop sid content ts g attempts last w in
  settled sid content ts g w w' /\ idle (w_backend w') /\
  (w_now w' <= w_now w + N.of_nat (length attempts) * T + total_backoff attempts)%N.
Proof.
  intros Hc HT. induction attempts as [|a attempts IH]; [done|]. intros last w Hi. simpl.
  destruct (attempt_inv sid content ts w Hi) as
    (guard & w1 & o & w2 & Hb & Hcall & Hs & Hbuf & Hsay & Hpend & st & Ho & Hnow).
  rewrite Hb, Hcall. pose proof (HT st) as HTst.
  assert (Hlen : (w_now w2 <= w_now w + N.of_nat (S (length attempts)) * T)%N) by nia.
  assert (Hquiet : forall w3 e, says w2 w3 [e] -> says w w3 [e]) by (intros w3 e; apply (says_trans _ _ _ [] [e] Hsay)).
  destruct o as [|msg|p].
  - apply (finish_send_inv _ _ ts) in Hs as (Hi' & Hsay' & Hnow' & Hp'). split; [|split; [done|rewrite Hnow'; lia]].
    eapply settled_complete; [done|by apply Hquiet|congruence].
  - destruct (is_retryable msg) eqn:Hr; simpl; [destruct (a <? SEND_MAX_ATTEMPTS)%N eqn:Ha|].
    + assert (Hc' : counts_to_max attempts).
      { destruct attempts; [simpl in Hc; subst a; done|]. by destruct Hc. }
      apply (drop_guard_inv _ _ (delay (1000 * backoff_for a) w2)) in Hs as (Hi' & Hv & Hbuf' & Hsay' & Hnow' & Hp').
      destruct (IH Hc' (Some msg) _ Hi') as (Hset & Hidle & Hle). split; [|split; [done|]].
      * eapply settled_after; [| | | |exact Hset].
        -- apply (says_trans _ _ _ [] [] Hsay). eapply (says_trans _ _ _ [] []); [|exact Hsay']. by apply says_quiet.
        -- rewrite Hp'. exact Hpend.
        -- intros Hw. apply Hv. congruence.
        -- congruence.
      * rewrite Hnow' in Hle. simpl in Hle. lia.
    + eapply send_deferred_settles; try done. lia.
    + eapply send_error_settles; try done; [lia|]. by left.
  - eapply send_error_settles; try done; [lia|]. right. by exists p.
Qed.

(** A send leaves no batch open. *)
Lemma send_loop_idle sid content ts g attempts last (w : W) :
  idle (w_backend w) -> idle (w_backend (send_loop sid content ts g attempts last w)).
Proof.
  revert last w. induction attempts as [|a attempts IH]; intros last w Hi; simpl; [by rewrite emit_store|].
  destruct (attempt_inv sid content ts w Hi) as (guard & w1 & o & w2 & Hb & Hcall & Hs & _).
  rewrite Hb, Hcall. destruct o as [|msg|p].
  - by apply (finish_send_inv _ _ ts) in Hs as [Hi' _].
  - destruct (is_retryable msg); simpl; [destruct (a <? SEND_MAX_ATTEMPTS)%N|].
    + apply IH. eapply drop_guard_inv. exact Hs.
    + eapply drop_guard_inv. exact Hs.
    + eapply drop_guard_inv. rewrite emit_store. exact Hs.
  - eapply drop_guard_inv. rewrite emit_store. exact Hs.
Qed.

Lemma handle_send_idle send g (w : W) : idle (w_backend w) -> idle (w_backend (handle_send send g w)).
Proof.
  intros Hi. unfold handle_send. destruct (resolve_recipient _ w) as [r w1] eqn:Hr.
  apply resolve_reads in Hr as (p' & -> & Hrun). apply idle_run in Hrun; [|done].
  destruct r; [by apply send_loop_idle|by rewrite emit_store].
Qed.

(** What [handle_send] sends: the text and the client's timestamp. *)
Definition text_message (send : InnerSend) : DataMessage :=
  mkData (Some (is_body send)) (Some (is_timestamp send)) None None.

(** C3: every send is settled, once. Started with no batch open, [handle_send]
    ends after at most six calls of presage and 62 seconds of back-off, the write
    batch closed again. Either it reports exactly one event for the message:
    [SendComplete] only after a call of presage that succeeded, [SendError] with
    the reason of the resolution or of the failed call (the two other error
    events of the code cannot occur); or it reports nothing and records the
    timestamp as deferred, its deadline the grace period after the last of six
    retryable failures. Unless a call succeeded, no write of the attempts
    reaches the wrapped backend. *)
Theorem handle_send_settles T (send : InnerSend) (pending_grace : N) (w : W) :
  (forall sid content ts st, ((send_message sid content ts st).1.1 <= T)%N) ->
  idle (w_backend w) ->
  let w' := handle_send send pending_grace w in
  idle (w_backend w') /\ (w_now w' <= w_now w + 6 * T + 62000)%N /\
  match (resolve_recipient (is_recipient send) w).1 with
  | Err reason =>
      says w w' [SendError reason (Some (is_timestamp send))] /\ w_pending w' = w_pending w /\
      kv_view (w_backend w') = kv_view (w_backend w)
  | Ok sid => settled sid (text_message send) (is_timestamp send) pending_grace w w'
  end.
Proof.
  intros HT Hi. unfold handle_send.
  destruct (resolve_recipient (is_recipient send) w) as [r w1] eqn:Hr.
  apply resolve_reads in Hr as (p' & -> & Hrun).
  pose proof (kv_run_buffered _ _ _ Hrun) as Hb. apply idle_reads in Hrun as [Hi1 Hv]; [|done].
  destruct r as [sid|reason]; simpl.
  - assert (Hc : counts_to_max attempt_numbers) by (repeat split).
    destruct (send_loop_settles T sid (text_message send) (is_timestamp send) pending_grace attempt_numbers
      Hc (HT _ _ _) None (set_store p' w) Hi1) as (Hset & Hidle & Hle).
    split; [done|]. split; [exact Hle|].
    apply (settled_after _ _ _ _ w (set_store p' w)); [by apply says_quiet|done|by intros _|exact Hb|exact Hset].
  - rewrite emit_store, emit_now, emit_pending. split; [done|]. split; [simpl; lia|].
    split; [|done]. apply (says_trans _ (set_store p' w) _ [] _); [by apply says_quiet|apply says_emit].
Qed.

(** C21: what completion promises. When the flush into the batch succeeded,
    [SendComplete] is reported and the dirty set is empty; if the commit succeeded
    too, the record of every session that was dirty, hence the ratchet step of
    the message just sent, is durable first. If the commit failed, [SendComplete]
    is reported all the same, with nothing promised but that the keys outside the
    batch are untouched. *)
Theorem send_complete_durability V ts n (w w1 : W) :
  in_scope V true (w_backend w) ->
  on_store flush_sessions w = (Ok n, w1) ->
  let w' := finish_send true ts w in
  says w w' [SendComplete ts] /\ session_dirty (w_store w') = ∅ /\
  match (on_store guard_commit_store w1).1 with
  | Ok _ => forall k rec, k ∈ session_dirty (w_store w) -> session_cache (w_store w) !! k = Some rec ->
      durable (kv_view (w_backend w')) k = Some rec
  | Err _ => agree_off (buffered_key (w_backend w1)) (kv_view (w_backend w')) V
  end.
Proof.
  intros Hs Hf. pose proof (finish_send_inv V true ts w Hs) as (_ & Hsay & _). split; [done|].
  unfold finish_send. rewrite Hf. cbn [snd]. rewrite emit_store.
  apply on_store_inv in Hf as (p1 & Hf & ->).
  assert (Hs1 : in_scope V true (backend p1)).
  { eapply in_scope_run; [by eapply flush_sessions_run|done]. }
  apply flush_sessions_ok in Hf as (Hd & _ & Hdur & _).
  destruct (on_store guard_commit_store (set_store p1 w)) as [r2 w2] eqn:Hc.
  apply on_store_inv in Hc as (p2 & Hc & ->). unfold guard_commit_store in Hc.
  apply on_backend_inv in Hc as (s' & Hc & ->). simpl. split; [done|].
  destruct r2 as [m|e].
  - intros k rec Hk Hrec. destruct (commit_in_scope _ _ _ _ Hs1 Hc) as [_ Hv].
    assert (Hg : durable (kv_view s') k = Some rec) by (rewrite (Hv m eq_refl); by apply Hdur). exact Hg.
  - by apply (commit_error_agrees V) in Hc.
Qed.
End send.

(** ** Witnesses *)
From S2P Require Import Concrete.

#[local] Existing Instance canonical_order.
#[local] Instance plain_debug : RustDebug := fun s => s.
#[local] Instance string_ids : WorkerIds string string := {|
  parse_uuid := fun s => if starts_with s "+" then None else Some s;
  aci_service_id := fun s => s;
  service_id_aci := fun s => Some s
|}.
#[local] Instance string_contact : ContactFields string string := {|
  c_uuid := fun s => s; c_name := fun s => s; c_phone_e164 := fun s => Some s
|}.
#[local] Instance string_json : Json string := countable_json _.

Section scripted.
Context {St : Type} `{!KvBackend St}.
Abbreviation P := (PddbStore (StoreBackend St) bytes).

(** A manager that writes one sender key and then answers from a script; once
    the script is over the socket keeps closing. *)
#[local] Instance scripted_presage : Presage P (list SendOutcome) string string := {|
  send_message _ _ _ := fun '(outs, p) =>
    let p' := set_backend (kv_put "signal.aci.sender_key" "k" [x01] (backend p)).2 p in
    match outs with
    | o :: outs' => (5%N, o, (outs', p'))
    | [] => (5%N, SendFailed "WebSocket closing", ([], p'))
    end;
  request_contacts st := (0%N, Ok tt, st);
  lookup_username _ st := (0%N, Ok None, st);
  retrieve_profile_by_uuid _ _ st := (0%N, Ok None, st);
  receive_messages st := (0%N, Ok tt, st);
  last_identified_close_code _ := None
|}.

Lemma scripted_send_laws : PresageSendLaws (St := St) (SessionRecord := bytes) (Mgr := list SendOutcome).
Proof.
  intros sid content ts m m' p p' ms o.
  assert (Hk : kv_run op_no_delete_dict (backend p) (kv_put "signal.aci.sender_key" "k" [x01] (backend p)).2).
  { destruct (kv_put "signal.aci.sender_key" "k" [x01] (backend p)) as [r s'] eqn:Hr. by eapply only_kv_put. }
  simpl. destruct m; intros Hs; simplify_eq; exact Hk.
Qed.
End scripted.

Definition hello_send : InnerSend := mkInnerSend " u1" "hello" 77.
Definition mock_world : World (PddbStore (StoreBackend MockBackend) bytes) (list SendOutcome) string :=
  mkWorld (store_new (Buffered (buffering_new mock_new)) Trust) [] 0 [] true ∅.

Lemma handle_send_settles_witness :
  let w' := handle_send (Contact := string) (Presage0 := scripted_presage) hello_send 30000 mock_world in
  w_events w' = [] /\ w_pending w' !! 77%N = Some 92030%N /\ (w_now w' <= 62030)%N.
Proof.
  assert (HT : forall sid content ts st,
    ((send_message (Presage := scripted_presage) sid content ts st).1.1 <= 5)%N).
  { intros sid content ts [outs p]. simpl. by destruct outs. }
  assert (Hi : idle (backend (w_store mock_world))) by (split; [reflexivity|split; reflexivity]).
  pose proof (handle_send_settles (Presage0 := scripted_presage) (H2 := scripted_send_laws) (Contact := string)
    5 hello_send 30000 mock_world HT Hi) as (_ & Hnow & _).
  split; [vm_compute; reflexivity|]. split; [vm_compute; reflexivity|exact Hnow].
Defined.

(** A backend that reads but has lost its ability to write. *)
#[local] Instance read_only_backend : KvBackend kv_map := {|
  kv_get d k := fun m => (Ok (m !! (d, k)), m);
  kv_put d k v := fun m => (Err (Backend "read only"), m);
  kv_put_batch es := fun m => (Err (Backend "read only"), m);
  kv_delete d k := fun m => (Err (Backend "read only"), m);
  kv_delete_dict d := fun m => (Err (Backend "read only"), m);
  kv_list_keys d := fun m => (Ok (snd <$> filter (fun p => p.1 = d) (hash_keys m)), m)
|}.
#[local] Program Instance read_only_laws : KvLaws kv_map := {| kv_view := fun m => m |}.
Solve Obligations with try solve [intros; simpl in *; simplify_eq; naive_solver].
Next Obligation.
  intros m d r m' Hr. simpl in Hr. simplify_eq. split; [done|].
  intros ks [= <-]. exact (proj2 (kv_list_keys_law (mkMock m' false) d (Ok _) (mkMock m' false) eq_refl) _ eq_refl).
Qed.

Definition ratchet : SessionKey := (Aci, "5b4e1f9c", 2%N).
Definition read_only_world : World (PddbStore (StoreBackend kv_map) bytes) unit string :=
  mkWorld (mkStore (Buffered (mkBuffering ∅ true ∅ false)) {[ ratchet := [x07] ]} {[ ratchet ]} Trust false false)
    tt 0 [] true ∅.

(** The message is reported complete although its ratchet step never became
    durable: the only copy left is the cache of the running process. *)
Lemma send_complete_durability_witness :
  let w' := finish_send true 77 read_only_world in
  w_events w' = [SendComplete 77] /\ session_dirty (w_store w') = ∅ /\
  durable (kv_view (backend (w_store w'))) ratchet = None.
Proof.
  assert (Hf : on_store flush_sessions read_only_world = (Ok 1, (on_store flush_sessions read_only_world).2))
    by (vm_compute; reflexivity).
  assert (Hs : in_scope ∅ true (backend (w_store read_only_world))) by (repeat split; reflexivity).
  destruct (send_complete_durability ∅ 77 1 read_only_world _ Hs Hf) as (Hsay & Hd & _).
  split; [exact (proj2 Hsay)|]. split; [exact Hd|]. vm_compute. reflexivity.
Defined.
