(* ===== verification/Receive.v ===== *)
(** * Receiving ([process_received], [sweep_expired_pending_sends] and the other
    manager operations of [xous-signal-worker/src/lib.rs]) *)
From S2P Require Import Prelude Codec Utf8 Text Kv Buffering Protocol Sessions Contents Batch Worker Send.

(** ** What presage's stream delivers *)
Inductive ContentBody : Type :=
| NullMessage
| BodyDataMessage (dm : DataMessage)
| SynchronizeMessage (sent : option (option DataMessage))
| CallMessage
| ReceiptMessage (rtype : option Z) (timestamps : list N)
| TypingMessage
| DecryptionErrorMessage
| StoryMessage
| PniSignatureMessage
| EditMessage.

Inductive Received (ServiceId Uuid : Type) : Type :=
| ReceivedContent (c : Content ServiceId Uuid ContentBody)
| QueueEmpty
| ReceivedContacts.
Arguments ReceivedContent {ServiceId Uuid} c.
Arguments QueueEmpty {ServiceId Uuid}.
Arguments ReceivedContacts {ServiceId Uuid}.

(** [RType::try_from(rm.type.unwrap_or_default()).unwrap_or(RType::Delivery)]. *)
Inductive RType : Type := Delivery | Read | Viewed.
Definition receipt_type (t : option Z) : RType :=
  match default 0%Z t with
  | 1%Z => Read
  | 2%Z => Viewed
  | _ => Delivery
  end.

(** [group_of], and the text and group of a body: [None] is skipped outright. *)
Definition group_of (dm : DataMessage) : option bytes := default [] <$> dm_group_v2 dm.
Definition text_of (dm : DataMessage) : string * option bytes := (default "" (dm_body dm), group_of dm).
Definition body_text (b : ContentBody) : option (string * option bytes) :=
  match b with
  | BodyDataMessage dm => Some (text_of dm)
  | SynchronizeMessage sent =>
      match sent with
      | Some (Some dm) => Some (text_of dm)
      | _ => Some ("", None)
      end
  | _ => None
  end.

Section receive.
Context `{HashOrder} `{SignalMisc} `{!RustDebug}
  {St SessionRecord Mgr ServiceId Uuid Contact : Type} `{!KvBackend St}
  `{!WireRecord SessionRecord} `{!Bincode SessionBundle} `{!Json SessionBundle} `{!Json Contact}
  `{!ServiceIdText ServiceId}
  `{!WorkerIds ServiceId Uuid} `{!ContactFields Contact Uuid}
  `{!Presage (PddbStore (StoreBackend St) SessionRecord) Mgr ServiceId Uuid}.
Abbreviation P := (PddbStore (StoreBackend St) SessionRecord).
Abbreviation W := (World P Mgr Uuid).
Abbreviation Fetches := (list (Uuid * bytes)).

(** The receipt loop: [false] once the event channel is closed. *)
Fixpoint confirm_receipts (timestamps : list N) (w : W) : bool * W :=
  match timestamps with
  | [] => (true, w)
  | ts :: rest =>
      match w_pending w !! ts with
      | None => confirm_receipts rest w
      | Some _ =>
          let '(sent, w1) := emit (SendComplete ts) (set_pending (delete ts (w_pending w)) w) in
          if sent then confirm_receipts rest w1 else (false, w1)
      end
  end.

(** [(sender_phone, sender_name)] from the contacts store. *)
Definition sender_info (sid : ServiceId) (w : W) : option string * option string * W :=
  match on_store (on_backend (contact_by_id (Contact := Contact) sid)) w with
  | (Ok (Some c), w1) =>
      (c_phone_e164 c, if bool_decide (c_name c = "") then None else Some (c_name c), w1)
  | (_, w1) => (None, None, w1)
  end.

(** The first-touch profile fetch of an unknown sender. *)
Definition profile_fetch (sid : ServiceId) (b : ContentBody) (sender_name : option string) : Fetches :=
  match sender_name, b with
  | None, BodyDataMessage dm =>
      match dm_profile_key dm, service_id_aci sid with
      | Some key, Some uuid => if decide (length key = 32) then [(uuid, key)] else []
      | _, _ => []
      end
  | _, _ => []
  end.

(** The text of [c], reported with what the contacts store knows of its sender. *)
Definition report_text (c : Content ServiceId Uuid ContentBody) (txt : string) (group_master_key : option bytes)
    (fetches : Fetches) (w : W) : bool * Fetches * W :=
  let sender_sid := sender (metadata c) in
  let '(sender_phone, sender_name, w1) := sender_info sender_sid w in
  let '(alive, w2) :=
    emit (Message (service_id_string sender_sid) sender_phone sender_name txt
            (timestamp (metadata c)) group_master_key) w1 in
  (alive, fetches ++ profile_fetch sender_sid (body c) sender_name, w2).

Definition process_content (c : Content ServiceId Uuid ContentBody) (fetches : Fetches) (w : W)
    : bool * Fetches * W :=
  match body c with
  | ReceiptMessage rtype timestamps =>
      match receipt_type rtype with
      | Delivery => let '(alive, w1) := confirm_receipts timestamps w in (alive, fetches, w1)
      | _ => (true, fetches, w)
      end
  | b =>
      match body_text b with
      | None => (true, fetches, w)
      | Some (txt, group_master_key) =>
          if bool_decide (txt = "") then (true, fetches, w)
          else report_text c txt group_master_key fetches w
      end
  end.

Definition process_received (item : Received ServiceId Uuid) (fetches : Fetches) (w : W)
    : bool * Fetches * W :=
  match item with
  | ReceivedContent c => process_content c fetches w
  | QueueEmpty => (true, fetches, (on_store flush_sessions w).2)
  | ReceivedContacts => (true, fetches, w)
  end.

(** ** Deferred sends *)
Definition GRACE_EXPIRED : string :=
  "WebSocket closed during send and no delivery receipt arrived within the grace window — recipient probably did not receive this message".

Definition expired_sends (now : N) (pending : gmap N N) : list N :=
  omap (fun '(ts, deadline) => if (deadline <=? now)%N then Some ts else None) (hash_iter pending).

Definition sweep_expired_pending_sends (w : W) : W :=
  foldl (fun w ts => emit_ (SendError GRACE_EXPIRED (Some ts)) (set_pending (delete ts (w_pending w)) w))
    w (expired_sends (w_now w) (w_pending w)).

(** ** The other operations *)
Definition handle_sync_contacts (w : W) : W :=
  match manager_call request_contacts w with
  | (Ok _, w1) => emit_ SyncComplete w1
  | (Err e, w1) => emit_ (SyncError e) w1
  end.

Definition handle_resolve_username (input : string) (w : W) : W :=
  let '(r, w1) := manager_call (lookup_username input) w in emit_ (UsernameResolveResult r) w1.

Definition run_manager_op (op : WorkerOp) (pending_grace : N) (w : W) : W :=
  match op with
  | OpStartReceive => w
  | OpSend send => handle_send (Contact := Contact) send pending_grace w
  | OpSyncContacts => handle_sync_contacts w
  | OpResolveUsername input => handle_resolve_username input w
  end.

(** ** What the steps say *)
Lemma confirm_receipts_ordinary tss (w : W) : ordinary_step w (confirm_receipts tss w).2.
Proof.
  revert w. induction tss as [|t tss IH]; intros w; simpl; [done|].
  destruct (w_pending w !! t) as [d|]; [|apply IH].
  assert (Hs : ordinary_step w (emit_ (SendComplete t) (set_pending (delete t (w_pending w)) w))).
  { exists [SendComplete t]. split; [apply evolves_settle; by left|by constructor]. }
  unfold emit_ in Hs. destruct (emit _ _) as [[] w1]; [|exact Hs]. etrans; [exact Hs|apply IH].
Qed.

Lemma sender_info_ordinary sid (w w1 : W) ph nm : sender_info sid w = (ph, nm, w1) -> ordinary_step w w1.
Proof.
  unfold sender_info. destruct (on_store _ w) as [r w0] eqn:Hr. intros Hs.
  assert (w1 = w0) as -> by (repeat case_match; simplify_eq; done).
  apply ordinary_quiet. by eapply evolves_on_store.
Qed.

Lemma process_received_ordinary (item : Received ServiceId Uuid) fetches (w w' : W) alive fetches' :
  process_received item fetches w = (alive, fetches', w') -> ordinary_step w w'.
Proof.
  destruct item as [c| |]; simpl.
  - unfold process_content.
    assert (Htext : forall txt group, report_text c txt group fetches w = (alive, fetches', w') -> ordinary_step w w').
    { intros txt group. unfold report_text. destruct (sender_info _ w) as [[ph nm] w1] eqn:Hi. intros Hr.
      apply sender_info_ordinary in Hi. etrans; [exact Hi|].
      pose proof (ordinary_emit (Message (service_id_string (sender (metadata c))) ph nm txt (timestamp (metadata c)) group) w1 I) as Hm.
      unfold emit_ in Hm. destruct (emit _ w1) as [b w2]. by injection Hr as _ _ <-. }
    assert (Hbody : (match body_text (body c) with
      | None => (true, fetches, w)
      | Some (txt, group) => if bool_decide (txt = "") then (true, fetches, w) else report_text c txt group fetches w
      end = (alive, fetches', w')) -> ordinary_step w w').
    { destruct (body_text (body c)) as [[txt group]|]; [case_bool_decide; [|apply Htext]|]; by intros [= _ _ <-]. }
    destruct (body c) as [|dm|sent| |rtype tss| | | | |]; try exact Hbody. clear Htext Hbody.
    destruct (receipt_type rtype); [|by intros [= _ _ <-]..].
    pose proof (confirm_receipts_ordinary tss w) as Hc. destruct (confirm_receipts tss w). by intros [= _ _ <-].
  - intros [= _ _ <-]. destruct (on_store flush_sessions w) as [r w1] eqn:Hf.
    apply ordinary_quiet. by eapply evolves_on_store.
  - by intros [= _ _ <-].
Qed.

Lemma sweep_ordinary (w : W) : ordinary_step w (sweep_expired_pending_sends w).
Proof.
  unfold sweep_expired_pending_sends. generalize (expired_sends (w_now w) (w_pending w)). intros es. revert w.
  induction es as [|t es IH]; intros w; simpl; [done|]. etrans; [|apply IH].
  exists [SendError GRACE_EXPIRED (Some t)]. split; [apply evolves_settle; right; by eexists|by constructor].
Qed.

Lemma run_manager_op_ordinary op g (w : W) : ordinary_step w (run_manager_op op g w).
Proof.
  destruct op as [|send| |input]; simpl; [done|apply handle_send_ordinary| |].
  - unfold handle_sync_contacts. destruct (manager_call request_contacts w) as [r w1] eqn:Hc.
    apply evolves_call in Hc. etrans; [by apply ordinary_quiet|]. destruct r; by apply ordinary_emit.
  - unfold handle_resolve_username. destruct (manager_call _ w) as [r w1] eqn:Hc.
    apply evolves_call in Hc. etrans; [by apply ordinary_quiet|]. by apply ordinary_emit.
Qed.

(** ** Properties *)
Lemma decide_elem_cons {A B} `{EqDecision A} (x y : A) l (a b : B) :
  x <> y -> (if decide (x ∈ y :: l) then a else b) = if decide (x ∈ l) then a else b.
Proof.
  intros Hne. assert (Hiff : x ∈ y :: l <-> x ∈ l) by (rewrite elem_of_cons; naive_solver).
  destruct (decide (x ∈ l)) as [Hin|Hin]; [rewrite decide_True|rewrite decide_False]; rewrite ?Hiff; done.
Qed.

(** The receipts settle the deferred sends they name, each once. *)
Lemma confirm_receipts_spec tss (w : W) :
  w_open w = true ->
  exists cs w', confirm_receipts tss w = (true, w') /\ says w w' (SendComplete <$> cs) /\ NoDup cs /\
    w_store w' = w_store w /\
    (forall ts, ts ∈ cs <-> ts ∈ tss /\ is_Some (w_pending w !! ts)) /\
    (forall ts, w_pending w' !! ts = if decide (ts ∈ tss) then None else w_pending w !! ts).
Proof.
  revert w. induction tss as [|t tss IH]; intros w Ho.
  { exists [], w. split; [done|]. split; [apply says_nil|]. split; [constructor|]. split; [done|].
    split; intros ts; [rewrite elem_of_nil; naive_solver|]. rewrite decide_False; [done|apply not_elem_of_nil]. }
  simpl.
  destruct (w_pending w !! t) as [d|] eqn:Hd.
  - pose proof (says_emit (SendComplete t) (set_pending (delete t (w_pending w)) w)) as Hsay.
    unfold emit_ in Hsay. unfold emit in *. simpl. simpl in Hsay. rewrite Ho in *. simpl in Hsay.
    set (w1 := mkWorld _ _ _ _ _ _) in *. destruct (IH w1 eq_refl) as (cs & w' & Hc & Hs & Hnd & Hst & Hin & Hp).
    exists (t :: cs), w'. split; [exact Hc|]. split; [|split; [|split; [exact Hst|split]]].
    + rewrite fmap_cons. change (?x :: ?l) with ([x] ++ l). eapply says_trans; [exact Hsay|exact Hs].
    + constructor; [|done]. intros [_ Ht]%Hin. simpl in Ht. rewrite lookup_delete_eq in Ht. by destruct Ht.
    + intros ts. rewrite elem_of_cons, Hin, elem_of_cons. simpl. destruct (decide (ts = t)) as [->|Hne].
      * rewrite Hd. naive_solver.
      * rewrite lookup_delete_ne by done. naive_solver.
    + intros ts. rewrite Hp. simpl. destruct (decide (ts = t)) as [->|Hne].
      * rewrite (decide_True (P := t ∈ t :: tss)) by left. case_decide; [done|]. by rewrite lookup_delete_eq.
      * by rewrite decide_elem_cons, lookup_delete_ne by done.
  - destruct (IH w Ho) as (cs & w' & Hc & Hs & Hnd & Hst & Hin & Hp). exists cs, w'.
    split; [done|]. split; [done|]. split; [done|]. split; [done|]. split.
    + intros ts. rewrite Hin, elem_of_cons. split; [naive_solver|]. intros [[->|?] Hts]; [|done].
      rewrite Hd in Hts. by destruct Hts.
    + intros ts. rewrite Hp. destruct (decide (ts = t)) as [->|Hne].
      * rewrite (decide_True (P := t ∈ t :: tss)) by left. case_decide; congruence.
      * by rewrite decide_elem_cons by done.
Qed.

Lemma elem_of_expired now (pending : gmap N N) ts :
  ts ∈ expired_sends now pending <-> exists d, pending !! ts = Some d /\ (d <= now)%N.
Proof.
  unfold expired_sends. rewrite list_elem_of_omap. split.
  - intros ([t d] & Hin%elem_of_hash_iter & Ht). destruct (N.leb_spec d now); [|done]. injection Ht as ->. eauto.
  - intros (d & Hd & Hle). exists (ts, d). split; [by apply elem_of_hash_iter|].
    by rewrite (proj2 (N.leb_le d now)).
Qed.

Lemma NoDup_expired now (pending : gmap N N) : NoDup (expired_sends now pending).
Proof.
  unfold expired_sends. pose proof (NoDup_hash_keys pending) as Hnd. unfold hash_keys in Hnd.
  induction (hash_iter pending) as [|[t d] l IH]; [constructor|]. simpl in *.
  apply NoDup_cons in Hnd as [Hn Hnd]. destruct (d <=? now)%N; [|by apply IH].
  constructor; [|by apply IH]. intros ([t' d'] & Hin & Ht)%list_elem_of_omap.
  destruct (d' <=? now)%N; [|done]. injection Ht as ->. apply Hn. apply list_elem_of_fmap. by exists (t, d').
Qed.

Lemma sweep_fold es (w : W) :
  let w' := foldl (fun w ts => emit_ (SendError GRACE_EXPIRED (Some ts)) (set_pending (delete ts (w_pending w)) w)) w es in
  says w w' ((fun ts => SendError GRACE_EXPIRED (Some ts)) <$> es) /\ w_store w' = w_store w /\
  forall ts, w_pending w' !! ts = if decide (ts ∈ es) then None else w_pending w !! ts.
Proof.
  revert w. induction es as [|t es IH]; intros w.
  { split; [apply says_nil|]. split; [done|]. intros ts. rewrite decide_False; [done|apply not_elem_of_nil]. }
  simpl.
  destruct (IH (emit_ (SendError GRACE_EXPIRED (Some t)) (set_pending (delete t (w_pending w)) w))) as (Hs & Hst & Hp).
  split; [|split].
  - change (?x :: ?l) with ([x] ++ l). eapply says_trans; [|exact Hs].
    apply (says_trans w (set_pending (delete t (w_pending w)) w) _ [] _); [by apply says_quiet|apply says_emit].
  - rewrite Hst. by rewrite emit_store.
  - intros ts. rewrite Hp, emit_pending. simpl. destruct (decide (ts = t)) as [->|Hne].
    + rewrite (decide_True (P := t ∈ t :: es)) by left. case_decide; [done|]. by rewrite lookup_delete_eq.
    + by rewrite decide_elem_cons, lookup_delete_ne by done.
Qed.

(** With the channel open the receive loop goes on. *)
Lemma process_received_alive (item : Received ServiceId Uuid) fetches (w : W) :
  w_open w = true -> (process_received item fetches w).1.1 = true.
Proof.
  intros Ho. destruct item as [c| |]; [|done..]. simpl. unfold process_content.
  assert (Htext : forall txt group, (report_text c txt group fetches w).1.1 = true).
  { intros txt group. unfold report_text. destruct (sender_info _ w) as [[ph nm] w1] eqn:Hi.
    apply sender_info_ordinary in Hi as (es & [[Ho1 _] _] & _). unfold emit. by rewrite Ho1, Ho. }
  assert (Hbody : (match body_text (body c) with
      | None => (true, fetches, w)
      | Some (txt, group) => if bool_decide (txt = "") then (true, fetches, w) else report_text c txt group fetches w
      end).1.1 = true).
  { destruct (body_text (body c)) as [[txt group]|]; [|done]. by destruct (bool_decide _). }
  destruct (body c) as [|dm|sent| |rtype tss| | | | |]; try exact Hbody. destruct (receipt_type rtype); [|done..].
  destruct (confirm_receipts_spec tss w Ho) as (cs & w1 & Hc & _). by rewrite Hc.
Qed.

Context `{!KvLaws St}.
Abbreviation w_backend w := (backend (w_store w)).

Lemma sender_info_reads sid (w w1 : W) ph nm :
  sender_info sid w = (ph, nm, w1) ->
  says w w1 [] /\ w_pending w1 = w_pending w /\ w_open w1 = w_open w /\
  kv_view (w_backend w1) = kv_view (w_backend w).
Proof.
  unfold sender_info. destruct (on_store _ w) as [r w0] eqn:Hr. intros Hs.
  assert (w1 = w0) as -> by (repeat case_match; simplify_eq; done).
  apply on_store_inv in Hr as (p' & Hr & ->). apply on_backend_inv in Hr as (s' & Hr & ->).
  split; [by apply says_quiet|]. split; [done|]. split; [done|].
  assert (Ho : only_kv op_reads (contact_by_id (St := StoreBackend St) (Contact := Contact) sid)).
  { unfold contact_by_id, backend_get_json. only_kv. }
  exact (reads_view _ _ (Ho _ _ _ Hr)).
Qed.

Definition reported (c : Content ServiceId Uuid ContentBody) txt group (fetches fetches' : Fetches) (w w' : W) : Prop :=
  exists ph nm,
    says w w' [Message (service_id_string (sender (metadata c))) ph nm txt (timestamp (metadata c)) group] /\
    fetches' = fetches ++ profile_fetch (sender (metadata c)) (body c) nm.

Lemma report_text_spec (c : Content ServiceId Uuid ContentBody) txt group fetches (w : W) :
  w_open w = true ->
  exists fetches' w', report_text c txt group fetches w = (true, fetches', w') /\
    kv_view (w_backend w') = kv_view (w_backend w) /\ w_pending w' = w_pending w /\
    reported c txt group fetches fetches' w w'.
Proof.
  intros Ho. unfold report_text. destruct (sender_info _ w) as [[ph nm] w1] eqn:Hi.
  apply sender_info_reads in Hi as (Hs & Hp & Ho1 & Hv).
  pose proof (says_emit (Message (service_id_string (sender (metadata c))) ph nm txt (timestamp (metadata c)) group) w1) as Hm.
  unfold emit_ in Hm. unfold emit in *. rewrite Ho1, Ho in *. simpl in Hm. eexists _, _. split; [done|].
  split; [done|]. split; [done|]. exists ph, nm. split; [|done]. exact (says_trans _ _ _ [] _ Hs Hm).
Qed.

Lemma receipts_spec rtype tss (fetches : Fetches) (w : W) :
  w_open w = true ->
  exists fetches' w',
    match receipt_type rtype with
    | Delivery => let '(alive, w1) := confirm_receipts tss w in (alive, fetches, w1)
    | _ => (true, fetches, w)
    end = (true, fetches', w') /\
    kv_view (w_backend w') = kv_view (w_backend w) /\
    exists cs, says w w' (SendComplete <$> cs) /\ NoDup cs /\
      (forall ts, ts ∈ cs <-> receipt_type rtype = Delivery /\ ts ∈ tss /\ is_Some (w_pending w !! ts)) /\
      (forall ts, w_pending w' !! ts = if decide (ts ∈ cs) then None else w_pending w !! ts).
Proof.
  intros Ho. destruct (confirm_receipts_spec tss w Ho) as (cs & w1 & Hc & Hs & Hnd & Hst & Hin & Hp).
  assert (Hnone : receipt_type rtype <> Delivery -> exists fetches' w',
    (true, fetches, w) = (true, fetches', w') /\ kv_view (w_backend w') = kv_view (w_backend w) /\
    exists cs, says w w' (SendComplete <$> cs) /\ NoDup cs /\
      (forall ts, ts ∈ cs <-> receipt_type rtype = Delivery /\ ts ∈ tss /\ is_Some (w_pending w !! ts)) /\
      (forall ts, w_pending w' !! ts = if decide (ts ∈ cs) then None else w_pending w !! ts)).
  { intros Hne. exists fetches, w. split; [done|]. split; [done|]. exists []. split; [apply says_nil|].
    split; [constructor|]. split; [|done]. intros ts. rewrite elem_of_nil. naive_solver. }
  destruct (receipt_type rtype); [|by apply Hnone..]. rewrite Hc. exists fetches, w1. split; [done|].
  rewrite Hst. split; [done|]. exists cs. split; [done|]. split; [done|]. split.
  { intros ts. rewrite Hin. naive_solver. }
  intros ts. rewrite Hp. specialize (Hin ts).
  destruct (decide (ts ∈ tss)), (decide (ts ∈ cs)), (w_pending w !! ts) eqn:Hd; try done; naive_solver.
Qed.

(** The message a body carries, and the group it is tagged with: one exactly when
    there is a group context, its master key where the context has one. *)
Definition text_source (b : ContentBody) : option DataMessage :=
  match b with
  | BodyDataMessage dm => Some dm
  | SynchronizeMessage (Some (Some dm)) => Some dm
  | _ => None
  end.
Definition group_tag (context : option (option bytes)) (group : option bytes) : Prop :=
  (group = None <-> context = None) /\ forall key, context = Some (Some key) -> group = Some key.

Lemma group_of_tag dm : group_tag (dm_group_v2 dm) (group_of dm).
Proof. unfold group_tag, group_of. destruct (dm_group_v2 dm) as [[]|]; naive_solver. Qed.

Lemma body_text_source b :
  match text_source b with
  | Some dm => body_text b = Some (default "" (dm_body dm), group_of dm)
  | None => body_text b = None \/ body_text b = Some ("", None)
  end.
Proof. destruct b as [|dm|[[dm|]|]| | | | | | |]; cbn; auto. Qed.

Lemma process_received_spec (item : Received ServiceId Uuid) (fetches : Fetches) (w : W) :
  w_open w = true ->
  exists fetches' w', process_received item fetches w = (true, fetches', w') /\
  match item with
  | QueueEmpty => says w w' [] /\ w_pending w' = w_pending w /\ w_store w' = (flush_sessions (w_store w)).2
  | ReceivedContacts => w' = w
  | ReceivedContent c =>
      kv_view (w_backend w') = kv_view (w_backend w) /\
      match body c with
      | ReceiptMessage rtype timestamps =>
          exists cs, says w w' (SendComplete <$> cs) /\ NoDup cs /\
            (forall ts, ts ∈ cs <->
               receipt_type rtype = Delivery /\ ts ∈ timestamps /\ is_Some (w_pending w !! ts)) /\
            (forall ts, w_pending w' !! ts = if decide (ts ∈ cs) then None else w_pending w !! ts)
      | _ =>
          w_pending w' = w_pending w /\
          match body_text (body c) with
          | None => says w w' []
          | Some (txt, group) =>
              if decide (txt = "") then says w w' []
              else reported c txt group fetches fetches' w w'
          end
      end
  end.
Proof.
  intros Ho. destruct item as [c| |]; simpl.
  - unfold process_content.
    assert (Hskip : exists fetches' w', (true, fetches, w) = (true, fetches', w') /\
      kv_view (w_backend w') = kv_view (w_backend w) /\ w_pending w' = w_pending w /\ says w w' []).
    { exists fetches, w. split; [done|]. split; [done|]. split; [done|apply says_nil]. }
    assert (Hbody : exists fetches' w',
      match body_text (body c) with
      | None => (true, fetches, w)
      | Some (txt, group) => if bool_decide (txt = "") then (true, fetches, w) else report_text c txt group fetches w
      end = (true, fetches', w') /\ kv_view (w_backend w') = kv_view (w_backend w) /\
      w_pending w' = w_pending w /\
      match body_text (body c) with
      | None => says w w' []
      | Some (txt, group) => if decide (txt = "") then says w w' [] else reported c txt group fetches fetches' w w'
      end).
    { destruct (body_text (body c)) as [[txt group]|]; [|done]. case_bool_decide as Ht.
      - destruct Hskip as (f' & w' & Hs). exists f', w'. by rewrite decide_True.
      - destruct (report_text_spec c txt group fetches w Ho) as (f' & w' & Hr). exists f', w'.
        by rewrite decide_False. }
    destruct (body c) as [|dm|sent| |rtype tss| | | | |] eqn:Hb; try (rewrite <- Hb in *; done).
    by apply receipts_spec.
  - exists fetches, (on_store flush_sessions w).2. split; [done|].
    destruct (on_store flush_sessions w) as [r w'] eqn:Hf. apply on_store_inv in Hf as (p' & Hf & ->).
    rewrite Hf. split; [by apply says_quiet|done].
  - by exists fetches, w.
Qed.

(** C17: what an item of the receive stream does. A delivery receipt settles the
    deferred sends it names, each with one [SendComplete], and no other receipt
    does anything; a text (a data message, or the transcript of one sent from the
    phone) is reported by exactly one [Message] carrying the authenticated
    sender, the text and the group key exactly when the message has a group
    context; every other body is silent. Contents are only read; the end of the
    queue flushes the sessions. *)
Theorem inbound_events (item : Received ServiceId Uuid) (fetches : Fetches) (w : W) :
  w_open w = true ->
  exists fetches' w', process_received item fetches w = (true, fetches', w') /\
  match item with
  | QueueEmpty => says w w' [] /\ w_pending w' = w_pending w /\ w_store w' = (flush_sessions (w_store w)).2
  | ReceivedContacts => w' = w
  | ReceivedContent c =>
      kv_view (w_backend w') = kv_view (w_backend w) /\
      match body c with
      | ReceiptMessage rtype timestamps =>
          exists cs, says w w' (SendComplete <$> cs) /\ NoDup cs /\
            (forall ts, ts ∈ cs <->
               receipt_type rtype = Delivery /\ ts ∈ timestamps /\ is_Some (w_pending w !! ts)) /\
            (forall ts, w_pending w' !! ts = if decide (ts ∈ cs) then None else w_pending w !! ts)
      | _ =>
          w_pending w' = w_pending w /\
          match text_source (body c) with
          | None => says w w' []
          | Some dm =>
              let txt := default "" (dm_body dm) in
              if decide (txt = "") then says w w' []
              else exists group, group_tag (dm_group_v2 dm) group /\ reported c txt group fetches fetches' w w'
          end
      end
  end.
Proof.
  intros Ho. destruct (process_received_spec item fetches w Ho) as (fetches' & w' & Hr & Hspec).
  exists fetches', w'. split; [exact Hr|]. destruct item as [c| |]; [|exact Hspec..].
  destruct Hspec as [Hv Hspec]. split; [exact Hv|]. pose proof (body_text_source (body c)) as Hs.
  destruct (body c) eqn:Hb; try exact Hspec; destruct Hspec as [Hp Hspec]; (split; [exact Hp|]);
    (destruct (text_source _) as [d|]; [rewrite Hs in Hspec; cbv zeta|destruct Hs as [Hs|Hs]; rewrite Hs in Hspec; exact Hspec]);
    (destruct (decide _); [exact Hspec|]); exists (group_of d); (split; [apply group_of_tag|exact Hspec]).
Qed.

(** The grace period. A sweep reports exactly the deferred sends whose
    deadline has passed, each with one [SendError], and forgets exactly those; it
    leaves the store alone. *)
Theorem sweep_expires_deferred (w : W) :
  let w' := sweep_expired_pending_sends w in
  w_store w' = w_store w /\
  exists es, says w w' ((fun ts => SendError GRACE_EXPIRED (Some ts)) <$> es) /\ NoDup es /\
    (forall ts, ts ∈ es <-> exists d, w_pending w !! ts = Some d /\ (d <= w_now w)%N) /\
    (forall ts d, w_pending w' !! ts = Some d <-> w_pending w !! ts = Some d /\ (w_now w < d)%N).
Proof.
  unfold sweep_expired_pending_sends.
  destruct (sweep_fold (expired_sends (w_now w) (w_pending w)) w) as (Hs & Hst & Hp). split; [done|].
  exists (expired_sends (w_now w) (w_pending w)). split; [done|]. split; [apply NoDup_expired|].
  split; [intros ts; apply elem_of_expired|]. intros ts d. rewrite Hp.
  destruct (decide (ts ∈ expired_sends (w_now w) (w_pending w))) as [Hin|Hin]; rewrite elem_of_expired in Hin.
  - destruct Hin as (d' & Hd & Hle). split; [done|]. intros [Hd' Hlt]. simplify_eq. lia.
  - split; [|by intros [? _]]. intros Hd. split; [done|]. destruct (N.lt_ge_cases (w_now w) d); [done|]. naive_solver.
Qed.

(** ** No step opens a batch *)
Lemma confirm_receipts_store tss (w : W) : w_store (confirm_receipts tss w).2 = w_store w.
Proof.
  revert w. induction tss as [|t tss IH]; intros w; simpl; [done|].
  destruct (w_pending w !! t); [|apply IH]. unfold emit. simpl. by destruct (w_open w); [rewrite IH|].
Qed.

Lemma process_received_idle (item : Received ServiceId Uuid) fetches (w : W) :
  idle (w_backend w) -> idle (w_backend (process_received item fetches w).2).
Proof.
  intros Hi. destruct item as [c| |]; simpl; [| |done].
  - unfold process_content.
    assert (Htext : forall txt group, idle (w_backend (report_text c txt group fetches w).2)).
    { intros txt group. unfold report_text. destruct (sender_info _ w) as [[ph nm] w1] eqn:Hs.
      assert (Hi1 : idle (w_backend w1)).
      { unfold sender_info in Hs. destruct (on_store _ w) as [r w0] eqn:Hr.
        assert (w1 = w0) as -> by (repeat case_match; simplify_eq; done).
        apply on_store_inv in Hr as (p' & Hr & ->). apply on_backend_inv in Hr as (s' & Hr & ->).
        eapply (idle_run op_reads); [|exact Hi]. revert Hr. unfold contact_by_id, backend_get_json.
        match goal with |- ?m _ = _ -> _ => assert (Ho : only_kv op_reads m) by only_kv end. apply Ho. }
      unfold emit. by destruct (w_open w1). }
    assert (Hbody : idle (w_backend (match body_text (body c) with
      | None => (true, fetches, w)
      | Some (txt, group) => if bool_decide (txt = "") then (true, fetches, w) else report_text c txt group fetches w
      end).2)).
    { destruct (body_text (body c)) as [[txt group]|]; [|done]. destruct (bool_decide _); [done|apply Htext]. }
    destruct (body c) as [|dm|sent| |rtype tss| | | | |]; try exact Hbody. destruct (receipt_type rtype); [|done..].
    pose proof (confirm_receipts_store tss w) as Hc. destruct (confirm_receipts tss w). simpl in *. by rewrite Hc.
  - destruct (on_store flush_sessions w) as [r w1] eqn:Hf. apply on_store_inv in Hf as (p' & Hf & ->).
    eapply (idle_run op_no_delete_dict); [|exact Hi]. by eapply flush_sessions_run.
Qed.
End receive.

(** ** Witnesses *)
From S2P Require Import Concrete.

#[local] Existing Instances canonical_order plain_debug string_ids string_contact string_json.
#[local] Existing Instance scripted_presage.

(** The transcript of a group message sent from the phone. *)
Definition group_transcript : Content string string ContentBody :=
  mkContent (mkMetadata "me" "me" 1 None 77 false false false)
    (SynchronizeMessage (Some (Some (mkData (Some "hi") (Some 77%N) (Some (Some [x07])) None)))).

Lemma inbound_events_witness :
  exists fetches' w', process_received (Contact := string) (ReceivedContent group_transcript) [] mock_world
    = (true, fetches', w') /\ exists ph nm, w_events w' = [Message "me" ph nm "hi" 77 (Some [x07])].
Proof.
  assert (Ho : w_open mock_world = true) by reflexivity.
  destruct (inbound_events (Contact := string) (ReceivedContent group_transcript) [] mock_world Ho)
    as (fetches' & w' & Hr & _ & _ & group & [_ Hg] & ph & nm & [_ He] & _).
  exists fetches', w'. split; [exact Hr|]. exists ph, nm. rewrite (Hg [x07] eq_refl) in He. exact He.
Defined.
