(* ===== verification/Dispatcher.v ===== *)
(** * The command dispatcher ([worker_main] of [xous-signal-worker/src/lib.rs])

    The startup load, the command loop with its guards, the link race with its
    cancellation, and logout. The manager task is seen through its op channel:
    the queue of forwarded ops and whether the task still receives. *)
From S2P Require Import Prelude Codec Utf8 Text Kv Buffering Protocol Sessions Contents Store Batch Worker.

(** ** The registration side of presage *)
Record RegistrationInfo : Type := mkRegistration {
  ri_account : AccountInfoData;
  ri_pni : string
}.
Class PresageLink (P Mgr : Type) : Type := {
  registration_data : Mgr -> RegistrationInfo;
  load_registered : P -> N * result Mgr string * P;
  (** The provisioning URL, if it came, then the outcome. *)
  link_secondary_device : string -> P -> N * (option string * result Mgr string) * P;
  (** The same future dropped before it resolved. *)
  link_dropped : string -> P -> N * option string * P
}.

(** What reaches the dispatcher while a link is in flight, in the order it polls:
    commands, the closing of the command channel; the list ends when the link
    future resolves. *)
Inductive RaceInput : Type :=
| RaceCmd (c : Cmd)
| RaceClosed.

Record OpChannel (Mgr : Type) : Type := mkOps {
  op_manager : Mgr;
  op_queue : list WorkerOp;
  op_alive : bool
}.
Arguments mkOps {Mgr} _ _ _.
Arguments op_manager {Mgr} _.
Arguments op_queue {Mgr} _.
Arguments op_alive {Mgr} _.

Record Dispatcher (P Mgr Uuid : Type) : Type := mkDispatcher {
  d_world : World P unit Uuid;
  d_ops : option (OpChannel Mgr);
  d_cached : option AccountInfoData;
  d_running : bool
}.
Arguments mkDispatcher {P Mgr Uuid} _ _ _ _.
Arguments d_world {P Mgr Uuid} _.
Arguments d_ops {P Mgr Uuid} _.
Arguments d_cached {P Mgr Uuid} _.
Arguments d_running {P Mgr Uuid} _.

Definition NOT_LINKED : string := "not linked yet — send Cmd::LinkDevice first".
Definition TASK_DIED : string := "manager task died".

Section dispatcher.
Context {St SessionRecord Mgr Uuid : Type} `{!KvBackend St}
  `{!PresageLink (PddbStore St SessionRecord) Mgr}.
Abbreviation P := (PddbStore St SessionRecord).
Abbreviation D := (Dispatcher P Mgr Uuid).
Abbreviation W := (World P unit Uuid).

Definition with_dworld (w : W) (d : D) : D := mkDispatcher w (d_ops d) (d_cached d) (d_running d).
Definition with_ops (o : option (OpChannel Mgr)) (d : D) : D := mkDispatcher (d_world d) o (d_cached d) (d_running d).
Definition with_cached (c : option AccountInfoData) (d : D) : D := mkDispatcher (d_world d) (d_ops d) c (d_running d).
Definition stop (d : D) : D := mkDispatcher (d_world d) (d_ops d) (d_cached d) false.
Definition tell (e : Event Uuid) (d : D) : D := with_dworld (emit_ e (d_world d)) d.
(** [if event_tx.send(e).await.is_err() { break; }]. *)
Definition tell_or_stop (e : Event Uuid) (d : D) : D :=
  let '(sent, w) := emit e (d_world d) in
  if sent then with_dworld w d else stop (with_dworld w d).

Definition spawn_manager_task (m : Mgr) : option (OpChannel Mgr) := Some (mkOps m [] true).

(** [AccountInfoData::from_manager] and the [LinkComplete] made of it. *)
Definition from_manager (m : Mgr) : AccountInfoData := ri_account (registration_data m).
Definition link_complete (info : AccountInfoData) : Event Uuid :=
  LinkComplete (device_name info) (aci info) (phone info).

Definition call_load (d : D) : result Mgr string * D :=
  let w := d_world d in
  let '(ms, r, p) := load_registered (w_store w) in
  (r, with_dworld (delay ms (set_store p w)) d).

(** ** Startup *)
Definition NOT_REGISTERED (msg : string) : bool :=
  contains msg "not yet registered" || contains msg "NotYetRegistered".

(** [left] attempts remain; ten in all, half a second apart. *)
Fixpoint load_at_startup (left : nat) (d : D) : D :=
  match left with
  | O => d
  | S left' =>
      match call_load d with
      | (Ok m, d1) =>
          let info := from_manager m in
          with_ops (spawn_manager_task m) (tell (link_complete info) (with_cached (Some info) d1))
      | (Err msg, d1) =>
          if NOT_REGISTERED msg then d1
          else match left' with
               | O => d1
               | _ => load_at_startup left' (with_dworld (delay 500 (d_world d1)) d1)
               end
      end
  end.

Definition LOAD_ATTEMPTS : nat := 10.
Definition worker_start (w : W) : D := load_at_startup LOAD_ATTEMPTS (mkDispatcher w None None true).

(** ** Linking *)
Definition say_url (url : option string) (d : D) : D :=
  match url with Some u => tell (LinkUrl u) d | None => d end.

(** [handle_link_device], run to its end. *)
Definition handle_link_device (name : string) (d : D) : result Mgr unit * D :=
  let w := d_world d in
  let '(ms, (url, r), p) := link_secondary_device name (w_store w) in
  let d1 := say_url url (with_dworld (delay ms (set_store p w)) d) in
  match r with
  | Ok m => (Ok m, tell (link_complete (from_manager m)) d1)
  | Err e => (Err tt, tell (LinkError e) d1)
  end.

(** The link future dropped: on cancellation and when the worker leaves. *)
Definition drop_link (name : string) (d : D) : D :=
  let w := d_world d in
  let '(ms, url, p) := link_dropped name (w_store w) in
  say_url url (with_dworld (delay ms (set_store p w)) d).

(** The race. A cancellation is final unless the link resolves in the poll that
    sees it ([resolved]); other commands are dropped. *)
Fixpoint link_race (name : string) (inputs : list RaceInput) (resolved : bool) (d : D) : result Mgr unit * D :=
  match inputs with
  | [] => handle_link_device name d
  | RaceCmd LinkCancel :: _ =>
      if resolved then handle_link_device name d
      else (Err tt, tell (LinkError "Cancelled") (drop_link name d))
  | RaceCmd Shutdown :: _ => (Err tt, stop (tell ShuttingDown (drop_link name d)))
  | RaceCmd _ :: inputs' => link_race name inputs' resolved d
  | RaceClosed :: _ => (Err tt, stop (drop_link name d))
  end.

Definition probe (d : D) : bool * D :=
  let '(r, p) := has_account_state (w_store (d_world d)) in (r, with_dworld (set_store p (d_world d)) d).

Definition link_device (name : string) (inputs : list RaceInput) (resolved : bool) (d : D) : D :=
  let '(stale, d1) := probe d in
  if stale then tell_or_stop StaleStoreDetected d1
  else
    match link_race name inputs resolved d1 with
    | (Ok m, d2) => with_ops (spawn_manager_task m) (with_cached (Some (from_manager m)) d2)
    | (Err _, d2) => d2
    end.

(** ** Forwarding to the manager task *)
Definition forward (op : WorkerOp) (on_error : string -> Event Uuid) (d : D) : D :=
  match d_ops d with
  | None => tell (on_error NOT_LINKED) d
  | Some ch =>
      if op_alive ch then with_ops (Some (mkOps (op_manager ch) (op_queue ch ++ [op]) true)) d
      else tell (on_error TASK_DIED) (with_ops None d)
  end.

(** ** The other commands *)
Definition handle_whoami (d : D) : result string string * D :=
  match call_load d with
  | (Ok m, d1) =>
      let data := registration_data m in
      (Ok ("phone=" +:+ phone (ri_account data) +:+ " aci=" +:+ aci (ri_account data) +:+ " pni=" +:+ ri_pni data), d1)
  | (Err e, d1) => (Err e, d1)
  end.

Definition get_account_info (d : D) : D :=
  match d_cached d with
  | Some info => tell_or_stop (AccountInfo (Ok info)) d
  | None =>
      match call_load d with
      | (Ok m, d1) =>
          let info := from_manager m in
          let d2 := with_cached (Some info) d1 in
          let d3 := match d_ops d2 with None => with_ops (spawn_manager_task m) d2 | Some _ => d2 end in
          tell_or_stop (AccountInfo (Ok info)) d3
      | (Err msg, d1) => tell_or_stop (AccountInfo (Err msg)) d1
      end
  end.

(** Errors of the wipe are logged, not reported. *)
Definition logout (d : D) : D :=
  let d1 := with_ops None d in
  let w1 := (on_store (on_backend clear_registration) (d_world d1)).2 in
  let w2 := (on_store clear w1).2 in
  tell LoggedOut (with_cached None (with_dworld w2 d1)).

(** One command; a link consumes the race inputs. *)
Definition dispatch (c : Cmd) (inputs : list RaceInput) (resolved : bool) (d : D) : D :=
  match c with
  | Hello => tell_or_stop Pong d
  | GetWhoami => let '(outcome, d1) := handle_whoami d in tell_or_stop (Whoami outcome) d1
  | LinkDevice name => link_device name inputs resolved d
  | LinkCancel => d
  | GetAccountInfo => get_account_info d
  | StartReceive => forward OpStartReceive ReceiveError d
  | SendMessage recipient body timestamp =>
      forward (OpSend (mkInnerSend recipient body timestamp)) (fun r => SendError r (Some timestamp)) d
  | Logout => logout d
  | SyncContacts => forward OpSyncContacts SyncError d
  | ResolveUsername input => forward (OpResolveUsername input) (fun r => UsernameResolveResult (Err r)) d
  | Shutdown => stop (tell ShuttingDown d)
  end.

(** What the command loop receives: a command (with what a link it starts races
    against), the end of the channel, or the death of the manager task. *)
Inductive DispatchInput : Type :=
| DCmd (c : Cmd) (inputs : list RaceInput) (resolved : bool)
| DClosed
| DTaskDied.

Definition dispatch_step (d : D) (i : DispatchInput) : D :=
  if d_running d then
    match i with
    | DCmd c inputs resolved => dispatch c inputs resolved d
    | DClosed => stop d
    | DTaskDied =>
        match d_ops d with
        | Some ch => with_ops (Some (mkOps (op_manager ch) (op_queue ch) false)) d
        | None => d
        end
    end
  else d.

Definition dispatch_run (inputs : list DispatchInput) (d : D) : D := foldl dispatch_step d inputs.

(** ** Properties *)
Abbreviation d_backend d := (backend (w_store (d_world d))).

(** [d'] sent [es] and, unless said otherwise, kept its links. *)
Definition told (d d' : D) (es : list (Event Uuid)) : Prop := says (d_world d) (d_world d') es.

Lemma told_trans d1 d2 d3 es fs : told d1 d2 es -> told d2 d3 fs -> told d1 d3 (es ++ fs).
Proof. apply says_trans. Qed.
Lemma told_tell e d : told d (tell e d) [e].
Proof. apply says_emit. Qed.
Lemma told_nil d d' : w_open (d_world d') = w_open (d_world d) -> w_events (d_world d') = w_events (d_world d) -> told d d' [].
Proof. apply says_quiet. Qed.
Lemma told_url url d : told d (say_url url d) (match url with Some u => [LinkUrl u] | None => [] end).
Proof. destruct url; [apply told_tell|apply says_nil]. Qed.

Lemma tell_or_stop_open e d :
  w_open (d_world d) = true -> tell_or_stop e d = tell e d /\ told d (tell_or_stop e d) [e].
Proof.
  intros Ho. assert (He : tell_or_stop e d = tell e d).
  { unfold tell_or_stop, tell, emit_, emit. by rewrite Ho. }
  rewrite He. split; [done|apply told_tell].
Qed.

Lemma call_load_told d r d' : call_load d = (r, d') ->
  told d d' [] /\ d_ops d' = d_ops d /\ d_cached d' = d_cached d /\ d_running d' = d_running d.
Proof. unfold call_load. destruct (load_registered _) as [[ms r0] p]. intros [= _ <-]. split; [by apply told_nil|done]. Qed.

Definition linked (d : D) (m : Mgr) : Prop :=
  d_ops d = spawn_manager_task m /\ d_cached d = Some (from_manager m).

(** The input that ends a race early: a cancellation, a shutdown, or the closing
    of the command channel. Every other command is dropped. *)
Fixpoint decided_by (inputs : list RaceInput) : option RaceInput :=
  match inputs with
  | [] => None
  | (RaceCmd LinkCancel | RaceCmd Shutdown | RaceClosed) as i :: _ => Some i
  | _ :: inputs' => decided_by inputs'
  end.

(** How a race ends: linked with its [LinkComplete], or not with one [LinkError],
    or, at a shutdown or a closed channel only, the worker left. At most the
    provisioning URL was sent before. *)
Definition race_told (name : string) (inputs : list RaceInput) (resolved : bool) (d : D) (r : result Mgr unit) (d' : D)
    : Prop :=
  exists url, d_ops d' = d_ops d /\ d_cached d' = d_cached d /\ (url = [] \/ exists u, url = [LinkUrl u]) /\
    let answered (out : result Mgr string) :=
      d_running d' = d_running d /\
      match out with
      | Ok m => r = Ok m /\ told d d' (url ++ [link_complete (from_manager m)])
      | Err reason => r = Err tt /\ told d d' (url ++ [LinkError reason])
      end in
    let left_with es := r = Err tt /\ told d d' (url ++ es) /\ d_running d' = false in
    let outcome := (link_secondary_device name (w_store (d_world d))).1.2.2 in
    match decided_by inputs with
    | Some (RaceCmd Shutdown) => left_with [ShuttingDown]
    | Some RaceClosed => left_with []
    | Some _ => answered (if resolved then outcome else Err "Cancelled")
    | None => answered outcome
    end.

Lemma url_list (url : option string) :
  let l := match url with Some u => [LinkUrl u] | None => [] end in
  l = [] \/ exists u, l = [LinkUrl (Uuid := Uuid) u].
Proof. destruct url; [right; by eexists|by left]. Qed.

Lemma drop_link_told name d : exists url, told d (drop_link name d) url /\
  d_ops (drop_link name d) = d_ops d /\ d_cached (drop_link name d) = d_cached d /\
  (url = [] \/ exists u, url = [LinkUrl u]).
Proof.
  unfold drop_link. destruct (link_dropped _ _) as [[ms url] p]. eexists. split; [|split; [|split; [|apply (url_list url)]]].
  - eapply (told_trans _ _ _ []); [|apply told_url]. by apply told_nil.
  - by destruct url.
  - by destruct url.
Qed.

Lemma handle_link_told name d r d' : handle_link_device name d = (r, d') -> race_told name [] false d r d'.
Proof.
  unfold handle_link_device, race_told. destruct (link_secondary_device _ _) as [[ms [url r0]] p]. cbn [fst snd].
  set (d1 := with_dworld _ d). intros Hr.
  assert (H1 : told d (say_url url d1) (match url with Some u => [LinkUrl u] | None => [] end)).
  { eapply (told_trans _ d1 _ []); [by apply told_nil|apply told_url]. }
  exists (match url with Some u => [LinkUrl u] | None => [] end).
  destruct r0 as [m|e]; injection Hr as <- <-; (do 2 (split; [by destruct url|])); (split; [apply url_list|]);
    (split; [by destruct url|]); (split; [done|]); eapply told_trans; [exact H1|apply told_tell|exact H1|apply told_tell].
Qed.

Lemma link_race_told name inputs resolved d r d' :
  link_race name inputs resolved d = (r, d') -> race_told name inputs resolved d r d'.
Proof.
  induction inputs as [|i inputs IH]; simpl; [apply handle_link_told|].
  destruct (drop_link_told name d) as (url & Hu & Ho & Hc & Hl).
  assert (Hrun : d_running (drop_link name d) = d_running d).
  { unfold drop_link. destruct (link_dropped _ _) as [[ms u] p]. by destruct u. }
  assert (Hsay : forall e, told d (tell e (drop_link name d)) (url ++ [e])).
  { intros e. eapply told_trans; [exact Hu|apply told_tell]. }
  assert (Hskip : forall j, decided_by (j :: inputs) = decided_by inputs ->
    link_race name inputs resolved d = (r, d') -> race_told name (j :: inputs) resolved d r d').
  { intros j Hj Hr. specialize (IH Hr). unfold race_told. by rewrite Hj. }
  destruct i as [c|]; [destruct c; try (by apply Hskip)|].
  - destruct resolved; [exact (handle_link_told name d r d')|]. intros [= <- <-]. exists url.
    split; [exact Ho|]. split; [exact Hc|]. split; [done|]. split; [exact Hrun|]. by split.
  - intros [= <- <-]. exists url. split; [exact Ho|]. split; [exact Hc|]. split; [done|]. split; [done|]. split; [exact (Hsay ShuttingDown)|done].
  - intros [= <- <-]. exists url. split; [exact Ho|]. split; [exact Hc|]. split; [done|]. split; [done|].
    rewrite app_nil_r. by split.
Qed.

(** What a race always leaves: the links, and only events more. *)
Lemma link_race_same name inputs resolved d r d' :
  link_race name inputs resolved d = (r, d') ->
  d_ops d' = d_ops d /\ d_cached d' = d_cached d /\ exists es, told d d' es.
Proof.
  intros (url & Ho & Hc & _ & Hr)%link_race_told. do 2 (split; [done|]). cbv zeta in Hr.
  assert (Hany : forall out : result Mgr string, d_running d' = d_running d /\ match out with
      | Ok m => r = Ok m /\ told d d' (url ++ [link_complete (from_manager m)])
      | Err reason => r = Err tt /\ told d d' (url ++ [LinkError reason]) end -> exists es, told d d' es).
  { intros [m|e] (_ & _ & Ht); by eexists. }
  destruct (decided_by inputs) as [[[]|]|]; try (by eapply Hany); destruct Hr as (_ & Ht & _); by eexists.
Qed.

(** *** Links and cached identity *)
Definition ops_cached (d : D) : Prop :=
  forall ch, d_ops d = Some ch -> d_cached d = Some (from_manager (op_manager ch)).

Lemma ops_cached_same d d' : d_ops d' = d_ops d -> d_cached d' = d_cached d -> ops_cached d -> ops_cached d'.
Proof. intros Ho Hc Hd ch. rewrite Ho, Hc. apply Hd. Qed.

Lemma ops_cached_linked d m : d_ops d = spawn_manager_task m -> d_cached d = Some (from_manager m) -> ops_cached d.
Proof. intros Ho Hc ch. rewrite Ho, Hc. by intros [= <-]. Qed.

Lemma tell_or_stop_same e d : d_ops (tell_or_stop e d) = d_ops d /\ d_cached (tell_or_stop e d) = d_cached d.
Proof. unfold tell_or_stop. by destruct (emit e _) as [[] w]. Qed.

Lemma forward_cached op err d : ops_cached d -> ops_cached (forward op err d).
Proof.
  intros Hd. unfold forward. destruct (d_ops d) as [ch|] eqn:Ho; [|by eapply ops_cached_same].
  destruct (op_alive ch); [|by intros ch']. intros ch' [= <-]. simpl. by apply Hd.
Qed.

Lemma get_account_info_cached d : ops_cached d -> ops_cached (get_account_info d).
Proof.
  intros Hd. unfold get_account_info. destruct (d_cached d) as [info|] eqn:Hc.
  { destruct (tell_or_stop_same (AccountInfo (Ok info)) d). by eapply ops_cached_same. }
  assert (Hnone : d_ops d = None).
  { destruct (d_ops d) as [ch|] eqn:Ho; [|done]. specialize (Hd ch Ho). congruence. }
  destruct (call_load d) as [[m|e] d1] eqn:Hl; apply call_load_told in Hl as (_ & Ho & Hca & _).
  - simpl. rewrite Ho, Hnone. destruct (tell_or_stop_same (AccountInfo (Ok (from_manager m)))
      (with_ops (spawn_manager_task m) (with_cached (Some (from_manager m)) d1))) as [Ho2 Hc2].
    by apply (ops_cached_linked _ m); rewrite ?Ho2, ?Hc2.
  - destruct (tell_or_stop_same (AccountInfo (Err e)) d1) as [Ho2 Hc2].
    apply (ops_cached_same d); [congruence|congruence|done].
Qed.

Lemma link_device_cached name inputs resolved d : ops_cached d -> ops_cached (link_device name inputs resolved d).
Proof.
  intros Hd. unfold link_device. unfold probe. destruct (has_account_state _) as [[] p].
  { destruct (tell_or_stop_same StaleStoreDetected (with_dworld (set_store p (d_world d)) d)).
    by eapply ops_cached_same. }
  destruct (link_race _ _ _ _) as [r d2] eqn:Hr. apply link_race_same in Hr as (Ho & Hc & _).
  destruct r as [m|e]; [by eapply ops_cached_linked|by eapply ops_cached_same].
Qed.

Lemma dispatch_step_cached i d : ops_cached d -> ops_cached (dispatch_step d i).
Proof.
  intros Hd. unfold dispatch_step. destruct (d_running d); [|done].
  destruct i as [c inputs resolved| |]; [|by eapply ops_cached_same|].
  2:{ destruct (d_ops d) as [ch|] eqn:Ho; [|done]. intros ch' [= <-]. simpl. by apply Hd. }
  destruct c; simpl; try (by apply forward_cached); try (by eapply ops_cached_same).
  - destruct (tell_or_stop_same Pong d). by eapply ops_cached_same.
  - destruct (handle_whoami d) as [r d1] eqn:Hw. unfold handle_whoami in Hw.
    destruct (call_load d) as [r0 d2] eqn:Hl. apply call_load_told in Hl as (_ & Ho & Hc & _).
    assert (d1 = d2) as -> by (destruct r0; congruence).
    destruct (tell_or_stop_same (Whoami r) d2). apply (ops_cached_same d); [congruence..|done].
  - by apply link_device_cached.
  - by apply get_account_info_cached.
Qed.

Lemma worker_start_cached w : ops_cached (worker_start w).
Proof.
  unfold worker_start. generalize LOAD_ATTEMPTS. intros n.
  assert (Hd : forall d, d_ops d = None -> ops_cached (load_at_startup n d)); [|by apply Hd].
  induction n as [|n IH]; intros d Ho; simpl; [by intros ch; rewrite Ho|].
  destruct (call_load d) as [[m|e] d1] eqn:Hl; apply call_load_told in Hl as (_ & Ho1 & _).
  - by apply (ops_cached_linked _ m).
  - assert (Hn : ops_cached d1) by (intros ch; rewrite Ho1, Ho; done).
    destruct (NOT_REGISTERED e); [done|]. destruct n; [done|]. apply IH. simpl. by rewrite Ho1.
Qed.

(** C31: the dispatcher never answers for an account it does not hold. In every
    reachable state an op channel comes with the cached identity of its own
    manager, so an account query is served from the cache, or, when nothing is
    cached, no channel exists and the manager just loaded is kept; after a logout
    both are gone, [LoggedOut] is reported even if the wipe failed, and if the
    wipe succeeded the stale-store guard lets the next link through. *)
Theorem dispatcher_account_consistent `{!KvLaws St} inputs (w : W) :
  let d := dispatch_run inputs (worker_start w) in
  ops_cached d /\
  (d_cached d = None -> d_ops d = None) /\
  (let d' := logout d in
   d_ops d' = None /\ d_cached d' = None /\ told d d' [LoggedOut] /\
   forall p1 r p2 u, on_backend clear_registration (w_store (d_world d)) = (r, p1) -> clear p1 = (Ok u, p2) ->
     w_store (d_world d') = p2 /\ (has_account_state p2).1 = false).
Proof.
  intros d. assert (Hd : ops_cached d).
  { unfold d, dispatch_run. assert (Hw := worker_start_cached w). revert Hw. generalize (worker_start w).
    induction inputs as [|i inputs IH]; intros d0 Hd; [done|]. by apply IH, dispatch_step_cached. }
  split; [done|]. split.
  { intros Hc. destruct (d_ops d) as [ch|] eqn:Ho; [|done]. specialize (Hd ch Ho). congruence. }
  unfold logout. destruct (on_store (on_backend clear_registration) _) as [r1 w1] eqn:H1. cbn [snd].
  destruct (on_store clear w1) as [r2 w2] eqn:H2. cbn [snd].
  apply on_store_inv in H1 as (q1 & H1 & ->). apply on_store_inv in H2 as (q2 & H2 & ->).
  split; [done|]. split; [done|]. split.
  { eapply (told_trans _ (with_dworld (set_store q2 (set_store q1 (d_world d))) d) _ []); [by apply told_nil|].
    apply (says_emit LoggedOut). }
  intros p1 r p2 u Hc1 Hc2. simpl in H1, H2. rewrite H1 in Hc1. injection Hc1 as <- <-.
  rewrite H2 in Hc2. injection Hc2 as -> <-. split; [simpl; by rewrite emit_store|].
  apply has_account_state_none. intros d' k Hk. eapply clear_gone; [exact H2|]. apply elem_of_app. by left.
Qed.


(** What forwarding an op does. *)
Definition forwarded (op : WorkerOp) (err : string -> Event Uuid) (d d' : D) : Prop :=
  match d_ops d with
  | Some (mkOps m queue true) => d_ops d' = Some (mkOps m (queue ++ [op]) true) /\ told d d' []
  | Some (mkOps m queue false) => d_ops d' = None /\ told d d' [err TASK_DIED]
  | None => d_ops d' = None /\ told d d' [err NOT_LINKED]
  end.

Lemma forward_spec op err d : forwarded op err d (forward op err d).
Proof.
  unfold forwarded, forward. destruct (d_ops d) as [[m queue alive]|] eqn:Ho; simpl.
  - destruct alive; (split; [done|]); [by apply told_nil|].
    exact (told_trans _ (with_ops None d) _ [] _ (told_nil _ _ eq_refl eq_refl) (told_tell (err TASK_DIED) (with_ops None d))).
  - split; [exact Ho|apply told_tell].
Qed.

(** every other command is answered. An operation for the manager joins the
    queue of the living task, in order and without an event, or is answered by
    exactly one error event of its kind, carrying the message's own timestamp in
    the case of a send; a dead task is then forgotten. A query gets exactly one
    reply, a logout and a shutdown their announcements, a stray cancellation
    nothing. *)
Theorem commands_answered c inputs resolved (d : D) :
  w_open (d_world d) = true ->
  let d' := dispatch c inputs resolved d in
  match c with
  | StartReceive => forwarded OpStartReceive ReceiveError d d'
  | SendMessage recipient body ts =>
      forwarded (OpSend (mkInnerSend recipient body ts)) (fun r => SendError r (Some ts)) d d'
  | SyncContacts => forwarded OpSyncContacts SyncError d d'
  | ResolveUsername input => forwarded (OpResolveUsername input) (fun r => UsernameResolveResult (Err r)) d d'
  | Hello => told d d' [Pong]
  | GetWhoami => exists r, told d d' [Whoami r]
  | GetAccountInfo => exists r, told d d' [AccountInfo r] /\ (forall info, d_cached d = Some info -> r = Ok info)
  | Logout => told d d' [LoggedOut]
  | Shutdown => told d d' [ShuttingDown] /\ d_running d' = false
  | LinkCancel => d' = d
  | LinkDevice _ => True
  end.
Proof.
  intros Ho. destruct c; simpl; try apply forward_spec; try done.
  - by apply tell_or_stop_open.
  - destruct (handle_whoami d) as [r d1] eqn:Hw. exists r. unfold handle_whoami in Hw.
    destruct (call_load d) as [r0 d2] eqn:Hl. apply call_load_told in Hl as (Ht & _).
    assert (d1 = d2) as -> by (destruct r0; congruence).
    apply (told_trans _ d2 _ [] _ Ht). apply tell_or_stop_open. destruct Ht as [-> _]. exact Ho.
  - unfold get_account_info. destruct (d_cached d) as [info|].
    { exists (Ok info). split; [by apply tell_or_stop_open|]. by intros i [= ->]. }
    destruct (call_load d) as [r0 d2] eqn:Hl. apply call_load_told in Hl as (Ht & _).
    assert (Ho2 : w_open (d_world d2) = true) by (destruct Ht as [-> _]; exact Ho).
    destruct r0 as [m|e]; eexists; (split; [|done]); apply (told_trans _ d2 _ [] _ Ht).
    + match goal with |- told d2 (tell_or_stop ?e ?d3) _ =>
        assert (Hd3 : d_world d3 = d_world d2) by (by destruct (d_ops (with_cached _ d2))) end.
      unfold told. rewrite <- Hd3. apply tell_or_stop_open. by rewrite Hd3.
    + by apply tell_or_stop_open.
  - unfold logout. match goal with |- told _ (tell LoggedOut ?d1) _ => apply (told_trans _ d1 _ [] [LoggedOut]) end;
      [|apply (says_emit LoggedOut)].
    destruct (on_store (on_backend clear_registration) _) as [r1 w1] eqn:H1. cbn [snd].
    destruct (on_store clear w1) as [r2 w2] eqn:H2.
    apply on_store_inv in H1 as (q1 & _ & ->). apply on_store_inv in H2 as (q2 & _ & ->). by apply told_nil.
  - split; [|done]. apply (says_emit ShuttingDown).
Qed.

Lemma load_at_startup_spec T n (d : D) :
  (forall p, ((load_registered p).1.1 <= T)%N) ->
  0 < n -> d_ops d = None -> d_cached d = None -> d_running d = true ->
  let d' := load_at_startup n d in
  (w_now (d_world d') <= w_now (d_world d) + N.of_nat n * T + 500 * N.of_nat (n - 1))%N /\ d_running d' = true /\
  ((exists m, linked d' m /\ told d d' [link_complete (from_manager m)]) \/
   (d_ops d' = None /\ d_cached d' = None /\ told d d' [])).
Proof.
  intros HT. revert d. induction n as [|n IH]; intros d Hn Ho Hc Hr; [lia|]. simpl.
  destruct (call_load d) as [r d1] eqn:Hl. pose proof (call_load_told _ _ _ Hl) as (Ht & Ho1 & Hc1 & Hr1).
  assert (Hnow : (w_now (d_world d1) <= w_now (d_world d) + T)%N).
  { specialize (HT (w_store (d_world d))). unfold call_load in Hl.
    destruct (load_registered _) as [[ms r0] p]. injection Hl as _ <-. simpl in *. lia. }
  destruct r as [m|e].
  - split; [simpl; rewrite emit_now; lia|]. split; [simpl; congruence|]. left. exists m.
    split; [done|]. apply (told_trans _ d1 _ [] _ Ht). apply (says_emit (link_complete (from_manager m)) (d_world d1)).
  - assert (Hstop : (w_now (d_world d1) <= w_now (d_world d) + N.of_nat (S n) * T + 500 * N.of_nat (S n - 1))%N /\
      d_running d1 = true /\ ((exists m, linked d1 m /\ told d d1 [link_complete (from_manager m)]) \/
      (d_ops d1 = None /\ d_cached d1 = None /\ told d d1 []))).
    { split; [lia|]. split; [congruence|]. right. split; [congruence|]. split; [congruence|done]. }
    destruct (NOT_REGISTERED e); [exact Hstop|]. destruct n as [|n]; [exact Hstop|].
    destruct (IH (with_dworld (delay 500 (d_world d1)) d1)) as (Hle & Hrun & Hres); simpl; try congruence; [lia|].
    assert (Ht2 : told d (with_dworld (delay 500 (d_world d1)) d1) []).
    { apply (told_trans _ d1 _ [] [] Ht). by apply told_nil. }
    split; [simpl in Hle; lia|]. split; [done|]. destruct Hres as [(m & Hm & Htm)|(Hon & Hcn & Htn)].
    + left. exists m. split; [done|]. exact (told_trans _ _ _ [] _ Ht2 Htm).
    + right. split; [done|]. split; [done|]. exact (told_trans _ _ _ [] _ Ht2 Htn).
Qed.

(** The startup load ends after at most ten attempts and four and a half
    seconds of waiting. It announces the account, with one [LinkComplete], exactly
    when a manager was loaded, and then the manager's channel and identity are in
    place; otherwise it says nothing and the worker starts unlinked. *)
Theorem startup_bounded T (w : W) :
  (forall p, ((load_registered p).1.1 <= T)%N) ->
  let d := worker_start w in
  (w_now (d_world d) <= w_now w + 10 * T + 4500)%N /\ d_running d = true /\
  ((exists m, linked d m /\ says w (d_world d) [link_complete (from_manager m)]) \/
   (d_ops d = None /\ d_cached d = None /\ says w (d_world d) [])).
Proof.
  intros HT. unfold worker_start.
  destruct (load_at_startup_spec T LOAD_ATTEMPTS (mkDispatcher w None None true) HT) as (Hle & Hrest); [by apply Nat.lt_0_succ|done..|].
  split; [|exact Hrest]. cbn [d_world] in Hle. change (N.of_nat LOAD_ATTEMPTS) with 10%N in Hle.
  change (N.of_nat (LOAD_ATTEMPTS - 1)) with 9%N in Hle. lia.
Qed.
End dispatcher.

(** ** Witnesses *)
From S2P Require Import Concrete.

(** A presage whose registration always succeeds with one write, and that finds
    nothing at startup. *)
Definition account : RegistrationInfo := mkRegistration (mkAccountInfo "xous" "aci" "+1") "pni".
Definition scripted_link : PresageLink (PddbStore MockBackend bytes) RegistrationInfo := {|
  registration_data m := m;
  load_registered p := (3%N, Err "not yet registered", p);
  link_secondary_device name p :=
    (9%N, (Some "sgnl://link", Ok account), set_backend (mkMock {[ (STATE_DICT, KEY_REGISTRATION) := [x01] ]} false) p);
  link_dropped name p := (1%N, None, p)
|}.
#[local] Existing Instances canonical_order scripted_link.

Definition fresh_world (m : kv_map) : World (PddbStore MockBackend bytes) unit N :=
  mkWorld (store_new (mkMock m false) Trust) tt 0 [] true ∅.
Definition fresh : Dispatcher (PddbStore MockBackend bytes) RegistrationInfo N :=
  mkDispatcher (fresh_world ∅) None None true.
Definition stale : Dispatcher (PddbStore MockBackend bytes) RegistrationInfo N :=
  mkDispatcher (fresh_world {[ (STATE_DICT, KEY_REGISTRATION) := [x01] ]}) None None true.


Lemma commands_answered_witness :
  w_events (d_world (dispatch (SendMessage "u1" "hello" 77) [] false fresh)) = [SendError NOT_LINKED (Some 77%N)].
Proof.
  assert (Ho : w_open (d_world fresh) = true) by reflexivity.
  exact (proj2 (proj2 (commands_answered (SendMessage "u1" "hello" 77) [] false fresh Ho))).
Defined.

Lemma startup_bounded_witness :
  (w_now (d_world (worker_start (Mgr := RegistrationInfo) (fresh_world ∅))) <= 4530)%N.
Proof.
  assert (HT : forall p, ((load_registered (Mgr := RegistrationInfo) p).1.1 <= 3)%N) by (intros p; discriminate).
  exact (proj1 (startup_bounded 3 (fresh_world ∅) HT)).
Defined.
