(* ===== verification/ManagerTask.v ===== *)
(** * The manager task ([manager_task] of [xous-signal-worker/src/lib.rs])

    The task owns the manager and alternates between parking on its op channel,
    opening the receive stream with back-off, and pumping stream items and ops.
    Each [await] on the outside ends with a [Wake]; [task_step] is what the task
    does with it, and a run is a list of wake-ups. When the task returns its locals
    go, the deferred sends with them ([task_return]). *)
From S2P Require Import Prelude Codec Utf8 Text Kv Buffering Protocol Sessions Contents Batch Worker Send Receive.

Definition PENDING_RECEIPT_GRACE : N := 30000.
Definition MAX_CONSECUTIVE_FAILURES : N := 20.
Definition MAX_REAUTH_403S : N := 3.
Definition REAUTH_SETTLING_DELAY_MS : N := 10000.
Definition RECONNECT_THROTTLE_MS : N := 1000.

(** [(1000.0 * 1.5_f64.powi(failures - 1)).min(30_000.0) as u64]: the powers of
    1.5 that occur are exact doubles, the cast rounds down. *)
Definition base_backoff_ms (failures : N) : N :=
  N.min (1000 * 3 ^ (failures - 1) / 2 ^ (failures - 1)) 30000.

Definition extra_delay_ms (prev_close : option N) : N :=
  match prev_close with
  | Some 4401%N => REAUTH_SETTLING_DELAY_MS
  | Some 4409%N => RECONNECT_THROTTLE_MS
  | Some 1001%N => RECONNECT_THROTTLE_MS
  | _ => 0
  end.

(** [u32::saturating_add(1)]. *)
Definition saturating_succ (n : N) : N := N.min (n + 1) u32_max.

(** Where the task waits. *)
Inductive Phase : Type := Parked | Opening | Pumping | Stopped.
#[global] Instance Phase_eq_dec : EqDecision Phase.
Proof. solve_decision. Defined.

(** What it can be woken by, after [waited] milliseconds: an op, the loss of the
    op sender, the one-second timer, a stream item, the end of the stream. *)
Inductive Wake (ServiceId Uuid : Type) : Type :=
| WakeOp (op : WorkerOp)
| WakeClosed
| WakeTick
| WakeItem (item : Received ServiceId Uuid)
| WakeEnd.
Arguments WakeOp {ServiceId Uuid} op.
Arguments WakeClosed {ServiceId Uuid}.
Arguments WakeTick {ServiceId Uuid}.
Arguments WakeItem {ServiceId Uuid} item.
Arguments WakeEnd {ServiceId Uuid}.

Inductive PumpExit : Type :=
| PumpOp (op : WorkerOp)
| Reopen (reason : string)
| PumpShutdown.

Record Task (P Mgr Uuid : Type) : Type := mkTask {
  t_phase : Phase;
  t_announced : bool;
  t_failures : N;
  t_reauth : N;
  t_fetches : list (Uuid * bytes);
  t_fetched : list Uuid;
  t_world : World P Mgr Uuid
}.
Arguments mkTask {P Mgr Uuid} _ _ _ _ _ _ _.
Arguments t_phase {P Mgr Uuid} _.
Arguments t_announced {P Mgr Uuid} _.
Arguments t_failures {P Mgr Uuid} _.
Arguments t_reauth {P Mgr Uuid} _.
Arguments t_fetches {P Mgr Uuid} _.
Arguments t_fetched {P Mgr Uuid} _.
Arguments t_world {P Mgr Uuid} _.

Section task.
Context `{HashOrder} `{SignalMisc} `{!RustDebug}
  {St SessionRecord Mgr ServiceId Uuid Contact : Type} `{!EqDecision Uuid} `{!KvBackend St}
  `{!WireRecord SessionRecord} `{!Bincode SessionBundle} `{!Json SessionBundle} `{!Json Contact}
  `{!ServiceIdText ServiceId}
  `{!WorkerIds ServiceId Uuid} `{!ContactFields Contact Uuid}
  `{!Presage (PddbStore (StoreBackend St) SessionRecord) Mgr ServiceId Uuid}.
Abbreviation P := (PddbStore (StoreBackend St) SessionRecord).
Abbreviation W := (World P Mgr Uuid).
Abbreviation T := (Task P Mgr Uuid).
Abbreviation Fetches := (list (Uuid * bytes)).

Definition with_world (w : W) (t : T) : T :=
  mkTask (t_phase t) (t_announced t) (t_failures t) (t_reauth t) (t_fetches t) (t_fetched t) w.
Definition with_phase (p : Phase) (t : T) : T :=
  mkTask p (t_announced t) (t_failures t) (t_reauth t) (t_fetches t) (t_fetched t) (t_world t).
Definition with_failures (n : N) (t : T) : T :=
  mkTask (t_phase t) (t_announced t) n (t_reauth t) (t_fetches t) (t_fetched t) (t_world t).
Definition with_reauth (n : N) (t : T) : T :=
  mkTask (t_phase t) (t_announced t) (t_failures t) n (t_fetches t) (t_fetched t) (t_world t).
Definition with_fetches (f : Fetches) (seen : list Uuid) (t : T) : T :=
  mkTask (t_phase t) (t_announced t) (t_failures t) (t_reauth t) f seen (t_world t).
Definition say (e : Event Uuid) (t : T) : T := with_world (emit_ e (t_world t)) t.

(** The [return]s of the task and the end of its outer loop: the locals go, the
    deferred sends among them, without a word about any. *)
Definition task_return (t : T) : T :=
  mkTask Stopped (t_announced t) (t_failures t) (t_reauth t) [] [] (set_pending ∅ (t_world t)).

Definition manager_task_new (w : W) : T := mkTask Parked false 0 0 [] [] w.

(** ** Opening the stream *)
Definition backoff_ms (t : T) : N :=
  base_backoff_ms (t_failures t) + extra_delay_ms (last_identified_close_code (w_manager (t_world t))).

Definition announce (t : T) : T :=
  if t_announced t then with_phase Pumping t
  else
    let '(sent, w) := emit ReceiveStarted (t_world t) in
    if sent then mkTask Pumping true (t_failures t) (t_reauth t) (t_fetches t) (t_fetched t) w
    else task_return (with_world w t).

(** The three verdicts on a failed open, in the code's order. *)
Definition open_failed (err_str : string) (t : T) : T :=
  let t := with_failures (saturating_succ (t_failures t)) t in
  let prev_close := last_identified_close_code (w_manager (t_world t)) in
  if bool_decide (prev_close = Some 4409%N) then
    task_return (say (SignalConflictingDevice
      ("Server reported 4409 'Connected elsewhere' — another device or app instance with this Signal account is active. Receive-stream error: " +:+ err_str)) t)
  else
    let banner t := if (t_failures t =? 1)%N then say (ReceiveError ("receive_messages: " +:+ err_str)) t else t in
    if bool_decide (prev_close = Some 4401%N) && contains err_str "403 Forbidden" then
      let t := with_reauth (saturating_succ (t_reauth t)) t in
      if (MAX_REAUTH_403S <=? t_reauth t)%N then
        task_return (say (SignalAuthExpired
          ("Server requested reauthentication (code 4401); refreshed handshake rejected with HTTP 403 after " +:+
           pretty (t_reauth t) +:+ " retries.")) t)
      else banner t
    else banner t.

Definition open_stream (t : T) : T :=
  let t := if (0 <? t_failures t)%N then with_world (delay (backoff_ms t) (t_world t)) t else t in
  if (MAX_CONSECUTIVE_FAILURES <=? t_failures t)%N then
    task_return (say (ReceiveError
      ("receive failed " +:+ pretty (t_failures t) +:+ " times; restart xas to retry")) t)
  else
    match manager_call receive_messages (t_world t) with
    | (Err e, w) => open_failed e (with_world w t)
    | (Ok _, w) => announce (with_world w t)
    end.

(** ** First-touch profile lookups *)
Definition profile_name (name : option ProfileName) : string :=
  match name with
  | Some n =>
      let g := trim (given_name n) in
      let f := trim (default "" (family_name n)) in
      if bool_decide (f = "") then g else g +:+ " " +:+ f
  | None => ""
  end.

Fixpoint drain_fetches (drained : Fetches) (seen : list Uuid) (w : W) : list Uuid * W :=
  match drained with
  | [] => (seen, w)
  | (aci_uuid, key) :: rest =>
      if decide (aci_uuid ∈ seen) then drain_fetches rest seen w
      else
        let w' :=
          match manager_call (retrieve_profile_by_uuid aci_uuid key) w with
          | (Ok name, w1) =>
              if bool_decide (profile_name name = "") then w1
              else emit_ (ContactResolved aci_uuid (profile_name name)) w1
          | (Err _, w1) => w1
          end in
        drain_fetches rest (aci_uuid :: seen) w'
  end.

Definition drain (t : T) : T :=
  let '(seen, w) := drain_fetches (t_fetches t) (t_fetched t) (t_world t) in
  with_world w (with_fetches [] seen t).

(** ** Leaving the pump *)
Definition pump_exit (exit : PumpExit) (t : T) : T :=
  let t := drain t in
  match exit with
  | PumpOp op =>
      with_phase Opening (with_world (run_manager_op (Contact := Contact) op PENDING_RECEIPT_GRACE (t_world t)) t)
  | Reopen reason =>
      let t := with_phase Opening (with_failures (saturating_succ (t_failures t)) t) in
      if (t_failures t =? 1)%N then say (ReceiveError ("receive " +:+ reason +:+ " (auto-retrying)")) t else t
  | PumpShutdown => task_return t
  end.

(** ** One wake-up *)
Definition sweep (t : T) : T := with_world (sweep_expired_pending_sends (t_world t)) t.
Definition wait (ms : N) (t : T) : T := with_world (delay ms (t_world t)) t.

(** Not yet receiving: without a deferred send there is no timer, and there is
    no stream. *)
Definition parked_step (ms : N) (i : Wake ServiceId Uuid) (t : T) : T :=
  let t := sweep t in
  match i with
  | WakeOp OpStartReceive => with_phase Opening (wait ms t)
  | WakeOp op =>
      let t := wait ms t in
      with_world (run_manager_op (Contact := Contact) op PENDING_RECEIPT_GRACE (t_world t)) t
  | WakeClosed => task_return (wait ms t)
  | WakeTick => if decide (w_pending (t_world t) = ∅) then t else wait 1000 t
  | _ => t
  end.

Definition pump_step (ms : N) (i : Wake ServiceId Uuid) (t : T) : T :=
  let t := sweep t in
  match i with
  | WakeItem item =>
      let t := with_reauth 0 (with_failures 0 (wait ms t)) in
      let '(alive, fetches, w) := process_received (Contact := Contact) item (t_fetches t) (t_world t) in
      let t := with_world w (with_fetches fetches (t_fetched t) t) in
      if alive then t else task_return t
  | WakeEnd => pump_exit (Reopen "stream ended") (wait ms t)
  | WakeOp OpStartReceive => wait ms t
  | WakeOp op => pump_exit (PumpOp op) (wait ms t)
  | WakeClosed => pump_exit PumpShutdown (wait ms t)
  | WakeTick => wait 1000 t
  end.

(** Opening needs no input: it is retried until the stream is open or the task
    gives up. [OPEN_FUEL] attempts are enough ([reopening_terminates]). *)
Definition OPEN_FUEL : nat := 21.
Fixpoint open_loop (fuel : nat) (t : T) : T :=
  match t_phase t, fuel with
  | Opening, S fuel' => open_loop fuel' (open_stream t)
  | _, _ => t
  end.

Definition task_step (t : T) (i : N * Wake ServiceId Uuid) : T :=
  match t_phase t with
  | Parked => open_loop OPEN_FUEL (parked_step i.1 i.2 t)
  | Pumping => open_loop OPEN_FUEL (pump_step i.1 i.2 t)
  | Opening => open_loop OPEN_FUEL t
  | Stopped => t
  end.

Definition task_run (inputs : list (N * Wake ServiceId Uuid)) (t : T) : T := foldl task_step t inputs.

(** ** Back-off *)
Lemma base_backoff_bounds n : (1000 <= base_backoff_ms n <= 30000)%N.
Proof.
  unfold base_backoff_ms. split; [|lia]. apply N.min_glb; [|lia].
  apply N.div_le_lower_bound; [apply N.pow_nonzero; lia|].
  rewrite N.mul_comm. apply N.mul_le_mono_l, N.pow_le_mono_l. lia.
Qed.

Lemma base_backoff_mono n m : (n <= m)%N -> (base_backoff_ms n <= base_backoff_ms m)%N.
Proof.
  intros Hnm. unfold base_backoff_ms. apply N.min_le_compat_r.
  set (a := (n - 1)%N). replace (m - 1)%N with (a + (m - 1 - a))%N by (unfold a; lia).
  generalize (m - 1 - a)%N. clear. intros d. rewrite !N.pow_add_r.
  assert (H2 : (2 ^ a <> 0)%N) by (apply N.pow_nonzero; lia).
  assert (H3 : (2 ^ d <> 0)%N) by (apply N.pow_nonzero; lia).
  rewrite <- (N.Div0.div_mul_cancel_r _ _ _ H3). apply N.Div0.div_le_mono.
  rewrite N.mul_assoc. apply N.mul_le_mono_l, N.pow_le_mono_l. lia.
Qed.

(** ** Failures *)
Lemma say_failures e t : t_failures (say e t) = t_failures t.
Proof. done. Qed.

Lemma open_failed_failures e (t : T) :
  (t_failures t < u32_max)%N -> t_failures (open_failed e t) = (t_failures t + 1)%N.
Proof.
  intros Hf. assert (Hs : saturating_succ (t_failures t) = (t_failures t + 1)%N) by (unfold saturating_succ; lia).
  unfold open_failed. rewrite <- Hs. clear. repeat case_match; done.
Qed.

(** A reopening that does not settle is a failure counted. *)
Lemma open_stream_retry (t : T) :
  t_phase (open_stream t) = Opening -> t_phase t = Opening ->
  (t_failures t < MAX_CONSECUTIVE_FAILURES)%N /\ t_failures (open_stream t) = (t_failures t + 1)%N.
Proof.
  unfold open_stream. set (t1 := if (0 <? t_failures t)%N then _ else t).
  assert (Hf : t_failures t1 = t_failures t) by (unfold t1; by destruct (0 <? t_failures t)%N).
  rewrite Hf. destruct (MAX_CONSECUTIVE_FAILURES <=? t_failures t)%N eqn:Hmax; [done|].
  apply N.leb_gt in Hmax. destruct (manager_call _ _) as [[u|e] w].
  - unfold announce. destruct (t_announced _); [done|]. by destruct (emit _ _) as [[] ?].
  - intros _ _. split; [done|]. rewrite open_failed_failures; [by rewrite <- Hf|].
    change (t_failures (with_world w t1)) with (t_failures t1). rewrite Hf. unfold MAX_CONSECUTIVE_FAILURES, u32_max in *. lia.
Qed.

Lemma open_loop_stay fuel (t : T) : t_phase t <> Opening -> open_loop fuel t = t.
Proof. destruct fuel; simpl; by destruct (t_phase t). Qed.

Lemma open_loop_settles fuel (t : T) :
  (MAX_CONSECUTIVE_FAILURES < N.of_nat fuel + N.min (t_failures t) MAX_CONSECUTIVE_FAILURES)%N ->
  t_phase (open_loop fuel t) <> Opening.
Proof.
  revert t. induction fuel as [|fuel IH]; intros t Hf; [lia|].
  destruct (t_phase t) eqn:Hp; simpl; rewrite Hp; try congruence.
  destruct (t_phase (open_stream t)) eqn:Hp2; try (rewrite open_loop_stay; congruence).
  apply IH. destruct (open_stream_retry t Hp2 Hp). lia.
Qed.

(** ** What the steps say

    [ending p es]: the events of a run that is in phase [p] after it. *)
Definition calm (e : Event Uuid) : Prop :=
  match e with SignalAuthExpired _ | SignalConflictingDevice _ => False | _ => True end.

Definition gave_up : string := "receive failed 20 times; restart xas to retry".
Definition fatal (e : Event Uuid) : Prop :=
  match e with
  | SignalAuthExpired _ | SignalConflictingDevice _ => True
  | ReceiveError reason => reason = gave_up
  | _ => False
  end.

Inductive ending : Phase -> list (Event Uuid) -> Prop :=
| ending_running p es : p <> Stopped -> Forall calm es -> ending p es
| ending_stopped es e : Forall calm es -> fatal e -> ending Stopped (es ++ [e]).

Lemma ending_app p es fs : Forall calm es -> ending p fs -> ending p (es ++ fs).
Proof.
  intros Hes Hf. destruct Hf as [p fs Hp Hfs|fs e Hfs He].
  - constructor; [done|by apply Forall_app].
  - rewrite app_assoc. constructor; [by apply Forall_app|done].
Qed.

Lemma ordinary_calm es : Forall ordinary es -> Forall calm es.
Proof. intros Hq. eapply Forall_impl; [exact Hq|]. by intros []. Qed.

(** Outage banners, and how many a task may still show before real progress. *)
Definition is_banner (e : Event Uuid) : bool := match e with ReceiveError _ => true | _ => false end.
Definition banners (es : list (Event Uuid)) : nat := length (filter (fun e => is_banner e = true) es).
Definition banners_left (t : T) : nat :=
  (if (t_failures t =? 0)%N then 1 else 0) + match t_phase t with Stopped => 0 | _ => 1 end.

Lemma banners_app es fs : banners (es ++ fs) = banners es + banners fs.
Proof. unfold banners. by rewrite filter_app, length_app. Qed.

Lemma ordinary_banners es : Forall ordinary es -> banners es = 0.
Proof.
  unfold banners. induction 1 as [|e es He _ IH]; [done|]. rewrite filter_cons. by destruct e.
Qed.

(** What a step of the task does to its world: [evolves], except that a task that
    stops also forgets its deferred sends. *)
Definition task_evolves (t t' : T) (es : list (Event Uuid)) : Prop :=
  says (t_world t) (t_world t') es /\
  (w_open (t_world t) = true -> t_phase t' <> Stopped -> forall ts, is_Some (w_pending (t_world t) !! ts) ->
     is_Some (w_pending (t_world t') !! ts) \/ Exists (reports ts) es).

Lemma evolves_task (t t' : T) es : evolves (t_world t) (t_world t') es -> task_evolves t t' es.
Proof. intros [Hs Hp]. split; [done|]. intros Ho _. by apply Hp. Qed.

Lemma evolves_then (t t1 t' : T) es fs :
  evolves (t_world t) (t_world t1) es -> task_evolves t1 t' fs -> task_evolves t t' (es ++ fs).
Proof.
  intros [Hs Hp] [Hs' Hp']. split; [by eapply says_trans|]. intros Ho Ht ts Hts. rewrite Exists_app.
  destruct (Hp Ho ts Hts) as [Hts1|]; [|by right; left]. destruct Hs as [Ho1 _].
  destruct (Hp' ltac:(congruence) Ht ts Hts1); [by left|by right; right].
Qed.

Lemma task_evolves_trans (t t1 t' : T) es fs :
  t_phase t1 <> Stopped -> task_evolves t t1 es -> task_evolves t1 t' fs -> task_evolves t t' (es ++ fs).
Proof. intros Hn [Hs Hp]. apply evolves_then. split; [done|]. intros Ho. by apply Hp. Qed.

Lemma task_return_evolves e (t : T) : task_evolves t (task_return (say e t)) [e].
Proof. split; [|by intros _ []]. exact (says_emit e (t_world t)). Qed.

(** One step that ends in [t']: its events, how it ended, its banners. *)
Definition step_says (progress : bool) (t t' : T) : Prop :=
  exists es, task_evolves t t' es /\ ending (t_phase t') es /\
    (progress = false -> banners es + banners_left t' <= banners_left t).

(** A step with ordinary events, then a step of the first kind. *)
Lemma step_says_after progress (t t1 t' : T) :
  ordinary_step (t_world t) (t_world t1) ->
  (progress = false -> banners_left t1 <= banners_left t) ->
  step_says progress t1 t' -> step_says progress t t'.
Proof.
  intros (es & He & Hq) Hb (fs & Hf & Hend & Hb'). exists (es ++ fs).
  split; [by eapply evolves_then|]. split; [apply ending_app; [by apply ordinary_calm|done]|].
  intros Hp. rewrite banners_app, ordinary_banners by done. specialize (Hb Hp). specialize (Hb' Hp). lia.
Qed.

Lemma step_says_quiet progress (t t' : T) :
  ordinary_step (t_world t) (t_world t') -> t_phase t' <> Stopped ->
  (progress = false -> banners_left t' <= banners_left t) -> step_says progress t t'.
Proof.
  intros (es & He & Hq) Hp Hb. exists es. split; [by apply evolves_task|].
  split; [apply ending_running; [done|by apply ordinary_calm]|]. intros Hn. rewrite ordinary_banners by done. auto.
Qed.

Lemma step_says_trans progress (t1 t2 t3 : T) :
  t_phase t2 <> Stopped -> step_says progress t1 t2 -> step_says progress t2 t3 -> step_says progress t1 t3.
Proof.
  intros Hp (es & He & Hend & Hb) (fs & Hf & Hend' & Hb'). exists (es ++ fs).
  split; [by eapply task_evolves_trans|]. split.
  - apply ending_app; [|done]. by destruct Hend.
  - intros Hn. rewrite banners_app. specialize (Hb Hn). specialize (Hb' Hn). lia.
Qed.

(** ** Opening *)
Lemma announce_says (t : T) :
  t_phase t = Opening -> w_open (t_world t) = true -> step_says false t (announce t).
Proof.
  intros Hp Ho. unfold announce. destruct (t_announced t).
  - apply step_says_quiet; [done..|]. intros _. unfold banners_left. by rewrite Hp.
  - pose proof (ordinary_emit ReceiveStarted (t_world t) I) as Hs. unfold emit_ in Hs.
    unfold emit in *. rewrite Ho in *. apply step_says_quiet; [exact Hs|done|].
    intros _. unfold banners_left. simpl. by rewrite Hp.
Qed.

(** A fatal event and the stop, after a failure was counted. *)
Lemma stop_says e (t : T) :
  fatal e -> (banners [e] <= banners_left t) -> t_failures t <> 0%N ->
  step_says false t (task_return (say e t)).
Proof.
  intros He Hb Hf. exists [e]. split; [apply task_return_evolves|]. split; [apply (ending_stopped [] e); [constructor|done]|].
  intros _. unfold banners_left in *. simpl. apply N.eqb_neq in Hf. rewrite Hf in *. lia.
Qed.

Lemma open_failed_says e (t : T) :
  t_phase t = Opening -> (t_failures t < MAX_CONSECUTIVE_FAILURES)%N -> step_says false t (open_failed e t).
Proof.
  intros Hp Hf. unfold MAX_CONSECUTIVE_FAILURES in Hf. unfold open_failed.
  assert (Hs : saturating_succ (t_failures t) = (t_failures t + 1)%N) by (unfold saturating_succ, u32_max; lia).
  rewrite Hs. set (t1 := with_failures (t_failures t + 1) t).
  assert (Hf1 : t_failures t1 <> 0%N) by (simpl; lia).
  assert (Hleft : forall t2 : T, t_failures t2 = t_failures t1 -> t_phase t2 = Opening -> banners_left t2 <= banners_left t).
  { intros t2 Hf2 Hp2. apply N.eqb_neq in Hf1. unfold banners_left. rewrite Hf2, Hf1, Hp, Hp2. lia. }
  assert (Hstop : forall ev t2, fatal ev -> banners [ev] = 0 -> t_world t2 = t_world t1 -> t_failures t2 = t_failures t1 ->
    t_phase t2 = Opening -> step_says false t (task_return (say ev t2))).
  { intros ev t2 He Hb Hw Hf2 Hp2. apply (step_says_after _ _ t2).
    - by rewrite Hw.
    - intros _. by apply Hleft.
    - apply stop_says; [done|rewrite Hb; lia|by rewrite Hf2]. }
  assert (Hbanner : forall t2, t_world t2 = t_world t1 -> t_failures t2 = t_failures t1 -> t_phase t2 = Opening ->
    step_says false t (if (t_failures t2 =? 1)%N then say (ReceiveError ("receive_messages: " +:+ e)) t2 else t2)).
  { intros t2 Hw Hf2 Hp2. destruct (t_failures t2 =? 1)%N eqn:Hone.
    - exists [ReceiveError ("receive_messages: " +:+ e)]. split; [apply evolves_task; change (t_world t1) with (t_world t) in Hw; rewrite <- Hw; apply evolves_emit|].
      split; [apply ending_running; [simpl; congruence|by constructor]|].
      intros _. apply N.eqb_eq in Hone. rewrite Hf2 in Hone. simpl in Hone.
      unfold banners_left, banners. simpl. rewrite Hp2, Hp. destruct (t_failures t) eqn:Hz; [|lia].
      apply N.eqb_neq in Hf1. rewrite Hf2. rewrite Hf1. simpl. lia.
    - apply step_says_quiet; [by rewrite Hw|congruence|]. intros _. by apply Hleft. }
  destruct (bool_decide (_ = Some 4409%N)); [by apply Hstop|].
  destruct (bool_decide (_ = Some 4401%N) && _); [|by apply Hbanner].
  destruct (MAX_REAUTH_403S <=? _)%N; [by apply Hstop|by apply Hbanner].
Qed.

Lemma step_says_open progress (t t' : T) : step_says progress t t' -> w_open (t_world t') = w_open (t_world t).
Proof. by intros (es & [[Ho _] _] & _). Qed.

Lemma ordinary_open (w w' : W) : ordinary_step w w' -> w_open w' = w_open w.
Proof. by intros (es & [[Ho _] _] & _). Qed.

Lemma open_stream_says (t : T) :
  t_phase t = Opening -> (t_failures t <= MAX_CONSECUTIVE_FAILURES)%N -> w_open (t_world t) = true ->
  step_says false t (open_stream t).
Proof.
  intros Hp Hf Ho. unfold open_stream. set (t1 := if (0 <? t_failures t)%N then _ else t).
  assert (Ht1 : ordinary_step (t_world t) (t_world t1) /\ t_failures t1 = t_failures t /\ t_phase t1 = Opening).
  { unfold t1. destruct (0 <? t_failures t)%N; [|done]. split; [apply ordinary_quiet, evolves_delay|done]. }
  clearbody t1. destruct Ht1 as (Hw & Hf1 & Hp1). rewrite Hf1.
  assert (Hleft : banners_left t1 <= banners_left t) by (unfold banners_left; by rewrite Hf1, Hp, Hp1).
  apply (step_says_after _ _ t1); [done|by intros _|]. apply ordinary_open in Hw. rewrite Ho in Hw.
  destruct (MAX_CONSECUTIVE_FAILURES <=? t_failures t)%N eqn:Hmax.
  - apply N.leb_le in Hmax. assert (Heq : t_failures t = 20%N) by (unfold MAX_CONSECUTIVE_FAILURES in *; lia).
    rewrite Heq. apply stop_says; [done| |by rewrite Hf1, Heq].
    unfold banners_left, banners. rewrite Hp1. simpl. lia.
  - apply N.leb_gt in Hmax. destruct (manager_call receive_messages (t_world t1)) as [[u|e] w] eqn:Hc;
      apply evolves_call in Hc as He; apply (step_says_after _ _ (with_world w t1)); try (by apply ordinary_quiet);
      try (by intros _; unfold banners_left).
    + apply announce_says; [done|]. destruct He as [[Ho' _] _]. simpl. by rewrite Ho'.
    + apply open_failed_says; [done|]. simpl. by rewrite Hf1.
Qed.

Lemma open_stream_bound (t : T) :
  t_phase t = Opening -> (t_failures t <= MAX_CONSECUTIVE_FAILURES)%N ->
  (t_failures (open_stream t) <= MAX_CONSECUTIVE_FAILURES)%N.
Proof.
  intros Hp Hf. unfold open_stream. set (t1 := if (0 <? t_failures t)%N then _ else t).
  assert (Hf1 : t_failures t1 = t_failures t) by (unfold t1; by destruct (0 <? t_failures t)%N).
  rewrite Hf1. destruct (MAX_CONSECUTIVE_FAILURES <=? t_failures t)%N eqn:Hmax; [by rewrite <- Hf1 in Hf|].
  apply N.leb_gt in Hmax. destruct (manager_call _ _) as [[u|e] w].
  - rewrite <- Hf1 in Hf. unfold announce. destruct (t_announced _); [done|]. by destruct (emit _ _) as [[] ?].
  - rewrite open_failed_failures; simpl; rewrite Hf1; unfold MAX_CONSECUTIVE_FAILURES, u32_max in *; lia.
Qed.

Lemma open_loop_says fuel (t : T) :
  (t_failures t <= MAX_CONSECUTIVE_FAILURES)%N -> w_open (t_world t) = true -> t_phase t <> Stopped ->
  step_says false t (open_loop fuel t) /\ (t_failures (open_loop fuel t) <= MAX_CONSECUTIVE_FAILURES)%N.
Proof.
  assert (Hstay : forall t : T, t_phase t <> Stopped -> step_says false t t).
  { intros t0 Hs. apply step_says_quiet; [done|done|lia]. }
  revert t. induction fuel as [|fuel IH]; intros t Hf Ho Hs.
  { assert (open_loop 0 t = t) as -> by (simpl; by destruct (t_phase t)). split; [by apply Hstay|done]. }
  destruct (t_phase t) eqn:Hp; simpl; rewrite Hp; try (split; [apply Hstay; congruence|done]).
  pose proof (open_stream_says t Hp Hf Ho) as Hstep. pose proof (open_stream_bound t Hp Hf) as Hb.
  destruct (t_phase (open_stream t)) eqn:Hp2; [| | |rewrite open_loop_stay; [done|congruence] ].
  all: destruct (IH (open_stream t)) as [Hs2 Hb2]; [done|by rewrite (step_says_open _ _ _ Hstep)|congruence|].
  all: split; [|done]; apply (step_says_trans _ _ (open_stream t)); [congruence|done..].
Qed.

(** ** Leaving the pump *)
Lemma drain_fetches_ordinary fetches seen (w : W) : ordinary_step w (drain_fetches fetches seen w).2.
Proof.
  revert seen w. induction fetches as [|[aci_uuid key] fetches IH]; intros seen w; simpl; [done|].
  destruct (decide (aci_uuid ∈ seen)); [apply IH|].
  destruct (manager_call (retrieve_profile_by_uuid aci_uuid key) w) as [r w1] eqn:Hc.
  assert (Hw : ordinary_step w w1) by (apply ordinary_quiet; by eapply evolves_call).
  etrans; [|apply IH]. destruct r as [name|e]; [|exact Hw].
  destruct (bool_decide _); [exact Hw|]. etrans; [exact Hw|by apply ordinary_emit].
Qed.

Lemma drain_keeps (t : T) :
  ordinary_step (t_world t) (t_world (drain t)) /\ t_phase (drain t) = t_phase t /\
  t_failures (drain t) = t_failures t /\ t_reauth (drain t) = t_reauth t /\ t_announced (drain t) = t_announced t.
Proof.
  unfold drain. pose proof (drain_fetches_ordinary (t_fetches t) (t_fetched t) (t_world t)) as Hd.
  destruct (drain_fetches _ _ _). by repeat split.
Qed.

Lemma op_says (op : WorkerOp) (t : T) p :
  p <> Stopped -> t_phase t <> Stopped ->
  step_says false t (with_phase p (with_world (run_manager_op op PENDING_RECEIPT_GRACE (t_world t)) t)).
Proof.
  intros Hp Hs. apply step_says_quiet; [apply run_manager_op_ordinary|done|].
  intros _. unfold banners_left. simpl. destruct p, (t_phase t); try done; lia.
Qed.

Lemma reopen_says reason (t : T) :
  t_phase t = Pumping -> (t_failures t <= MAX_CONSECUTIVE_FAILURES)%N ->
  step_says false t (pump_exit (Reopen reason) t).
Proof.
  intros Hp Hf. unfold MAX_CONSECUTIVE_FAILURES in Hf. unfold pump_exit.
  destruct (drain_keeps t) as (Hw & Hp1 & Hf1 & _). set (t1 := drain t) in *. clearbody t1.
  assert (Hs : saturating_succ (t_failures t1) = (t_failures t + 1)%N).
  { rewrite Hf1. unfold saturating_succ, u32_max. lia. }
  rewrite Hs. simpl. apply (step_says_after _ _ t1); [done| |].
  { intros _. unfold banners_left. rewrite Hp1, Hf1. lia. }
  destruct (t_failures t + 1 =? 1)%N eqn:Hone.
  - exists [ReceiveError ("receive " +:+ reason +:+ " (auto-retrying)")]. split; [apply evolves_task, evolves_emit|].
    split; [apply ending_running; [done|by constructor]|]. intros _. apply N.eqb_eq in Hone.
    unfold banners_left, banners. simpl. rewrite Hf1, Hp1, Hp.
    assert (t_failures t = 0%N) as -> by lia. simpl. lia.
  - apply step_says_quiet; [done|done|]. intros _. unfold banners_left. simpl. rewrite Hf1, Hp1, Hp.
    apply N.eqb_neq in Hone. destruct (t_failures t =? 0)%N eqn:Hz; [apply N.eqb_eq in Hz; lia|].
    assert ((t_failures t + 1 =? 0)%N = false) as -> by (apply N.eqb_neq; lia). lia.
Qed.

Lemma pump_op_says op (t : T) : t_phase t = Pumping -> step_says false t (pump_exit (PumpOp op) t).
Proof.
  intros Hp. unfold pump_exit. destruct (drain_keeps t) as (Hw & Hp1 & Hf1 & _).
  apply (step_says_after _ _ (drain t)); [done| |].
  { intros _. unfold banners_left. by rewrite Hf1, Hp1. }
  apply op_says; [done|]. by rewrite Hp1, Hp.
Qed.

(** ** One wake-up *)
Lemma wait_says progress ms (t : T) p :
  p <> Stopped -> t_phase t <> Stopped -> step_says progress t (with_phase p (wait ms t)).
Proof.
  intros Hp Hs. apply step_says_quiet; [apply ordinary_quiet, evolves_delay|done|].
  intros _. unfold banners_left. simpl. destruct p, (t_phase t); try done; lia.
Qed.

Lemma step_says_weaken progress (t t' : T) : step_says false t t' -> step_says progress t t'.
Proof. intros (es & He & Hend & Hb). exists es. split; [done|]. split; [done|]. intros _. by apply Hb. Qed.

Definition is_item (i : Wake ServiceId Uuid) : bool := match i with WakeItem _ => true | _ => false end.

Lemma sweep_keeps (t : T) :
  ordinary_step (t_world t) (t_world (sweep t)) /\ t_phase (sweep t) = t_phase t /\
  t_failures (sweep t) = t_failures t.
Proof. split; [apply sweep_ordinary|done]. Qed.

Lemma parked_step_says ms i (t : T) :
  t_phase t = Parked -> i <> WakeClosed ->
  step_says (is_item i) t (parked_step ms i t) /\ t_phase (parked_step ms i t) <> Stopped /\
  t_failures (parked_step ms i t) = t_failures t.
Proof.
  intros Hp Hi. unfold parked_step. destruct (sweep_keeps t) as (Hw & Hp1 & Hf1).
  rewrite Hp in Hp1. rewrite <- Hf1.
  assert (Hafter : forall t', step_says false (sweep t) t' -> step_says (is_item i) t t').
  { intros t' Hs. apply step_says_weaken. apply (step_says_after _ _ (sweep t)); [done| |done].
    intros _. unfold banners_left. by rewrite Hf1, Hp1, Hp. }
  set (t1 := sweep t) in *. clearbody t1.
  assert (Hwait : step_says false t1 (wait ms t1)).
  { apply step_says_quiet; [apply ordinary_quiet, evolves_delay|simpl; by rewrite Hp1|]. by intros _. }
  assert (Hstay : step_says false t1 t1) by (apply step_says_quiet; [done|by rewrite Hp1|lia]).
  assert (Hop : forall op, step_says false t1
    (with_world (run_manager_op op PENDING_RECEIPT_GRACE (t_world (wait ms t1))) (wait ms t1))).
  { intros op. apply (step_says_trans _ _ (wait ms t1)); [simpl; by rewrite Hp1|done|].
    apply step_says_quiet; [apply run_manager_op_ordinary|simpl; by rewrite Hp1|]. by intros _. }
  destruct i as [op| | |item|]; [|done| | |].
  - destruct op; (split; [apply Hafter|split; [simpl; by rewrite ?Hp1|done]]); try apply Hop.
    by apply wait_says; rewrite ?Hp1.
  - destruct (decide _); (split; [apply Hafter|split; [simpl; by rewrite Hp1|done]]); [done|].
    apply step_says_quiet; [apply ordinary_quiet, evolves_delay|simpl; by rewrite Hp1|]. by intros _.
  - split; [by apply Hafter|by rewrite Hp1].
  - split; [by apply Hafter|by rewrite Hp1].
Qed.

Lemma pump_exit_bound exit (t : T) :
  (t_failures t <= MAX_CONSECUTIVE_FAILURES)%N ->
  match exit with
  | Reopen _ => t_failures (pump_exit exit t) = (t_failures t + 1)%N
  | _ => t_failures (pump_exit exit t) = t_failures t
  end.
Proof.
  intros Hf. unfold pump_exit. destruct (drain_keeps t) as (_ & _ & Hf1 & _).
  destruct exit; simpl; try exact Hf1. rewrite Hf1.
  assert (Hs : saturating_succ (t_failures t) = (t_failures t + 1)%N).
  { unfold saturating_succ, u32_max, MAX_CONSECUTIVE_FAILURES in *. lia. }
  rewrite Hs. by destruct (_ =? 1)%N.
Qed.

Lemma pump_step_says ms i (t : T) :
  t_phase t = Pumping -> i <> WakeClosed -> w_open (t_world t) = true ->
  (t_failures t <= MAX_CONSECUTIVE_FAILURES)%N ->
  step_says (is_item i) t (pump_step ms i t) /\ t_phase (pump_step ms i t) <> Stopped /\
  (t_failures (pump_step ms i t) = 0 \/ t_failures (pump_step ms i t) = t_failures t \/
   t_failures (pump_step ms i t) = t_failures t + 1)%N.
Proof.
  intros Hp Hi Ho Hf. unfold pump_step. destruct (sweep_keeps t) as (Hw & Hp1 & Hf1).
  rewrite Hp in Hp1. rewrite <- Hf1 in Hf |- *. pose proof (ordinary_open _ _ Hw) as Ho1. rewrite Ho in Ho1.
  assert (Hafter : forall b t', step_says b (sweep t) t' -> step_says b t t').
  { intros b t' Hs. apply (step_says_after _ _ (sweep t)); [done| |done].
    intros _. unfold banners_left. by rewrite Hf1, Hp1, Hp. }
  set (t1 := sweep t) in *. clearbody t1.
  assert (Hwait : forall n, step_says false t1 (wait n t1)).
  { intros n. apply step_says_quiet; [apply ordinary_quiet, evolves_delay|simpl; by rewrite Hp1|]. by intros _. }
  assert (Hexit : forall exit, step_says false (wait ms t1) (pump_exit exit (wait ms t1)) ->
    step_says (is_item i) t (pump_exit exit (wait ms t1))).
  { intros exit Hs. apply Hafter, step_says_weaken. apply (step_says_trans _ _ (wait ms t1)); [simpl; by rewrite Hp1|done..]. }
  destruct i as [op| | |item|]; [|done| | |].
  - destruct op as [|send| |input]; [split; [by apply Hafter|split; [simpl; by rewrite Hp1|by right; left]]|..];
      (split; [apply Hexit; by apply pump_op_says|]; split; [done|];
       right; left; apply (pump_exit_bound (PumpOp _) (wait ms t1) Hf)).
  - split; [by apply Hafter|]. split; [simpl; by rewrite Hp1|by right; left].
  - destruct (process_received item _ _) as [[alive fetches] w] eqn:Hr. simpl in Hr.
    pose proof (process_received_alive item (t_fetches t1) (delay ms (t_world t1)) Ho1) as Ha. rewrite Hr in Ha.
    simpl in Ha. subst alive. apply process_received_ordinary in Hr.
    split; [|split; [simpl; by rewrite Hp1|by left]]. apply Hafter.
    apply step_says_quiet; [|simpl; by rewrite Hp1|done]. simpl. etrans; [|exact Hr].
    apply ordinary_quiet, evolves_delay.
  - split; [apply Hexit; by apply reopen_says|]. split.
    + unfold pump_exit. destruct (drain_keeps (wait ms t1)) as (_ & Hpd & _). by destruct (_ =? 1)%N.
    + right; right. apply (pump_exit_bound (Reopen _) (wait ms t1) Hf).
Qed.

(** ** Counters *)
Record task_inv (t : T) : Prop := mkTaskInv {
  inv_failures : (t_failures t <= MAX_CONSECUTIVE_FAILURES)%N;
  inv_reauth : (t_reauth t <= MAX_REAUTH_403S)%N;
  inv_reauth_alive : t_phase t <> Stopped -> (t_reauth t < MAX_REAUTH_403S)%N;
  inv_pumping : t_phase t = Pumping -> (t_failures t < MAX_CONSECUTIVE_FAILURES)%N /\ t_announced t = true
}.

(** A state with the same counters, in the same phase or one that promises less. *)
Lemma task_inv_same (t t' : T) :
  task_inv t -> t_phase t <> Stopped -> t_failures t' = t_failures t -> t_reauth t' = t_reauth t ->
  (t_phase t' = Pumping -> t_phase t = Pumping /\ t_announced t' = t_announced t) -> task_inv t'.
Proof.
  intros [Hf Hr Ha Hpp] Hs Hf' Hr' Hp. specialize (Ha Hs).
  constructor; rewrite ?Hf', ?Hr'; auto. intros Hp2. destruct (Hp Hp2) as [Hp1 ->]. by apply Hpp.
Qed.

Lemma open_failed_inv e (t : T) :
  task_inv t -> t_phase t = Opening -> (t_failures t < MAX_CONSECUTIVE_FAILURES)%N -> task_inv (open_failed e t).
Proof.
  intros [Hf Hr Ha Hpp] Hp Hlt. rewrite Hp in Ha. specialize (Ha ltac:(done)).
  unfold MAX_CONSECUTIVE_FAILURES, MAX_REAUTH_403S in *.
  assert (Hsucc : forall n, (n < 20)%N -> saturating_succ n = (n + 1)%N) by (unfold saturating_succ, u32_max; lia).
  unfold open_failed. rewrite Hsucc by done. set (t1 := with_failures (t_failures t + 1) t).
  assert (Hbase : forall t2, t_failures t2 = t_failures t1 -> t_phase t2 <> Pumping -> (t_reauth t2 <= 3)%N ->
    (t_phase t2 <> Stopped -> (t_reauth t2 < 3)%N) -> task_inv t2).
  { intros t2 Hf2 Hp2 Hr2 Ha2. constructor; try done. rewrite Hf2. simpl. unfold MAX_CONSECUTIVE_FAILURES. lia. }
  assert (Hnp : forall t2 : T, t_phase t2 = Opening -> t_phase t2 <> Pumping) by congruence.
  destruct (bool_decide (_ = Some 4409%N)); [apply Hbase; simpl; done|].
  destruct (bool_decide (_ = Some 4401%N) && _).
  2:{ destruct (_ =? 1)%N; apply Hbase; simpl; rewrite ?Hp; try done; lia. }
  change (t_reauth t1) with (t_reauth t). rewrite Hsucc by lia. unfold MAX_REAUTH_403S. simpl.
  destruct (3 <=? t_reauth t + 1)%N eqn:H3; [apply Hbase; simpl; try done; lia|]. apply N.leb_gt in H3.
  destruct (_ =? 1)%N; apply Hbase; simpl; rewrite ?Hp; try done; lia.
Qed.

Lemma open_stream_inv (t : T) : task_inv t -> t_phase t = Opening -> task_inv (open_stream t).
Proof.
  intros Hi Hp. unfold open_stream. set (t1 := if (0 <? t_failures t)%N then _ else t).
  assert (Ht1 : task_inv t1 /\ t_failures t1 = t_failures t /\ t_phase t1 = Opening).
  { unfold t1. destruct (0 <? t_failures t)%N; [|done]. split; [|done]. eapply task_inv_same; eauto; simpl; congruence. }
  clearbody t1. destruct Ht1 as (Hi1 & Hf1 & Hp1). rewrite Hf1.
  destruct (MAX_CONSECUTIVE_FAILURES <=? t_failures t)%N eqn:Hmax.
  { eapply task_inv_same; [exact Hi1|congruence|done..]. }
  apply N.leb_gt in Hmax. destruct (manager_call _ _) as [[u|e] w].
  - unfold announce. simpl. destruct (t_announced t1) eqn:Han; [|destruct (emit _ _) as [[] w1]].
    3:{ eapply task_inv_same; [exact Hi1|congruence|done..]. }
    all: destruct Hi1 as [Hf Hr Ha Hpp]; rewrite Hp1 in Ha; specialize (Ha ltac:(done)); constructor; simpl; try done;
      intros _; rewrite ?Hf1, ?Han; done.
  - apply open_failed_inv; [|done|simpl; by rewrite Hf1]. eapply task_inv_same; [exact Hi1|congruence|done..|].
    simpl. congruence.
Qed.

Lemma open_loop_inv fuel (t : T) : task_inv t -> task_inv (open_loop fuel t).
Proof.
  revert t. induction fuel as [|fuel IH]; intros t Hi; simpl; destruct (t_phase t) eqn:Hp; try done.
  by apply IH, open_stream_inv.
Qed.

Lemma drain_inv (t : T) : task_inv t -> task_inv (drain t).
Proof.
  intros [Hf Hr Ha Hpp]. destruct (drain_keeps t) as (_ & Hp1 & Hf1 & Hr1 & Ha1).
  constructor; rewrite ?Hp1, ?Hf1, ?Hr1, ?Ha1; done.
Qed.

Lemma pump_exit_inv exit (t : T) : task_inv t -> t_phase t = Pumping -> task_inv (pump_exit exit t).
Proof.
  intros Hi Hp. unfold pump_exit. apply drain_inv in Hi as Hd. destruct (drain_keeps t) as (_ & Hp1 & Hf1 & Hr1 & _).
  assert (Hd1 : t_phase (drain t) <> Stopped) by (by rewrite Hp1, Hp).
  destruct exit as [op|reason|].
  - eapply task_inv_same; [exact Hd|done..].
  - destruct Hd as [Hf Hr Ha Hpp]. specialize (Ha Hd1). rewrite Hp1 in Hpp. destruct (Hpp Hp) as [Hlt _].
    assert (Hs : saturating_succ (t_failures (drain t)) = (t_failures (drain t) + 1)%N).
    { unfold saturating_succ, u32_max, MAX_CONSECUTIVE_FAILURES in *. lia. }
    rewrite Hs. simpl. unfold MAX_CONSECUTIVE_FAILURES in *.
    destruct (_ =? 1)%N; constructor; simpl; try done; unfold MAX_CONSECUTIVE_FAILURES; lia.
  - eapply task_inv_same; [exact Hd|done..].
Qed.

Lemma parked_step_inv ms i (t : T) : task_inv t -> t_phase t = Parked -> task_inv (parked_step ms i t).
Proof.
  intros Hi Hp. assert (Hs : t_phase t <> Stopped) by congruence.
  unfold parked_step. destruct i as [[]| | |item|]; try destruct (decide _);
    (eapply task_inv_same; [exact Hi|done|done|done|]; simpl; congruence).
Qed.

Lemma pump_step_inv ms i (t : T) : task_inv t -> t_phase t = Pumping -> task_inv (pump_step ms i t).
Proof.
  intros Hi Hp. assert (Hs : t_phase t <> Stopped) by congruence.
  assert (Hw : forall n, task_inv (wait n (sweep t)) /\ t_phase (wait n (sweep t)) = Pumping).
  { intros n. split; [|done]. by eapply task_inv_same. }
  unfold pump_step. destruct i as [[]| | |item|]; try (apply pump_exit_inv; by apply Hw); try apply Hw.
  destruct (process_received item _ _) as [[alive fetches] w]. destruct Hi as [Hf Hr Ha Hpp].
  destruct (Hpp Hp) as [_ Han]. 
  assert (Hpos : (0 < MAX_CONSECUTIVE_FAILURES)%N /\ (0 < MAX_REAUTH_403S)%N) by done.
  destruct alive; constructor; simpl; naive_solver lia.
Qed.

Lemma task_step_inv (t : T) i : task_inv t -> task_inv (task_step t i).
Proof.
  intros Hi. unfold task_step. destruct (t_phase t) eqn:Hp; [| | |done]; apply open_loop_inv; [|done|];
    [by apply parked_step_inv|by apply pump_step_inv].
Qed.

Lemma task_run_inv inputs (t : T) : task_inv t -> task_inv (task_run inputs t).
Proof. revert t. induction inputs as [|i inputs IH]; intros t Hi; [done|]. by apply IH, task_step_inv. Qed.

(** ** Runs *)
Lemma step_says_mono (p q : bool) (t t' : T) : (q = false -> p = false) -> step_says p t t' -> step_says q t t'.
Proof. intros Hpq (es & He & Hend & Hb). exists es. auto. Qed.

Lemma task_step_says (t : T) i :
  task_inv t -> t_phase t <> Stopped -> i.2 <> WakeClosed -> w_open (t_world t) = true ->
  step_says (is_item i.2) t (task_step t i).
Proof.
  intros Hi Hs Hc Ho. destruct i as [ms i]. unfold task_step. cbn [fst snd] in *.
  assert (Hloop : forall t1 : T, step_says (is_item i) t t1 -> t_phase t1 <> Stopped -> task_inv t1 ->
    step_says (is_item i) t (open_loop OPEN_FUEL t1)).
  { intros t1 Hs1 Hp1 Hi1. apply (step_says_trans _ _ t1); [done..|]. apply step_says_weaken.
    apply open_loop_says; [by apply inv_failures|by rewrite (step_says_open _ _ _ Hs1)|done]. }
  destruct (t_phase t) eqn:Hp; [| | |done].
  - destruct (parked_step_says ms i t Hp Hc) as (Hs1 & Hp1 & _).
    exact (Hloop _ Hs1 Hp1 (parked_step_inv ms i t Hi Hp)).
  - apply Hloop; [|congruence|done]. apply step_says_quiet; [done|congruence|lia].
  - destruct (pump_step_says ms i t Hp Hc Ho) as (Hs1 & Hp1 & _); [by apply inv_failures|].
    exact (Hloop _ Hs1 Hp1 (pump_step_inv ms i t Hi Hp)).
Qed.

(** *** For a task among others: what any wake-up leaves of the deferred sends *)
Lemma task_return_quiet (t t1 : T) : ordinary_step (t_world t) (t_world t1) ->
  exists es, task_evolves t (task_return t1) es.
Proof.
  intros (es & [Hs _] & _). exists es. split; [|by intros _ []]. exact Hs.
Qed.

Lemma task_step_open_evolves (t1 : T) :
  task_inv t1 -> t_phase t1 <> Stopped -> w_open (t_world t1) = true ->
  exists es, task_evolves t1 (open_loop OPEN_FUEL t1) es.
Proof.
  intros Hi Hs Ho. destruct (open_loop_says OPEN_FUEL t1 (inv_failures _ Hi) Ho Hs) as [(es & He & _) _].
  by exists es.
Qed.

Lemma task_step_evolves (t : T) i :
  task_inv t -> t_phase t <> Stopped -> w_open (t_world t) = true ->
  exists es, task_evolves t (task_step t i) es.
Proof.
  intros Hi Hs Ho. assert (Hc : i.2 = WakeClosed \/ i.2 <> WakeClosed) by (destruct i.2; by (left + right)).
  destruct Hc as [Hc|Hc]; [|destruct (task_step_says t i Hi Hs Hc Ho) as (es & He & _); by exists es].
  assert (Hw : ordinary_step (t_world t) (t_world (wait i.1 (sweep t)))).
  { etrans; [apply sweep_keeps|apply ordinary_quiet, evolves_delay]. }
  unfold task_step. rewrite Hc. unfold parked_step, pump_step. destruct (t_phase t) eqn:Hp; [| | |done].
  - rewrite open_loop_stay by done. by apply task_return_quiet.
  - by apply task_step_open_evolves; congruence.
  - rewrite open_loop_stay by done. destruct (drain_keeps (wait i.1 (sweep t))) as (Hd & _).
    apply task_return_quiet. exact (transitivity Hw Hd).
Qed.

(** A send taken up is reported, deferred, or forgotten by the stop of the task. *)
Lemma task_step_answers (t : T) ms send :
  task_inv t -> t_phase t = Parked \/ t_phase t = Pumping -> w_open (t_world t) = true ->
  let t' := task_step t (ms, WakeOp (OpSend send)) in
  exists es, task_evolves t t' es /\
    (t_phase t' = Stopped \/ is_Some (w_pending (t_world t') !! is_timestamp send) \/
     Exists (reports (is_timestamp send)) es).
Proof.
  intros Hi Hp Ho.
  assert (Hw : ordinary_step (t_world t) (t_world (wait ms (sweep t)))).
  { etrans; [apply sweep_keeps|apply ordinary_quiet, evolves_delay]. }
  assert (Hop : forall t1 : T, ordinary_step (t_world t) (t_world t1) ->
    answers (is_timestamp send) (t_world t)
      (run_manager_op (Contact := Contact) (OpSend send) PENDING_RECEIPT_GRACE (t_world t1))).
  { intros t1 Ht1. eapply answers_after; [exact Ht1|]. apply handle_send_answers.
    by rewrite (ordinary_open _ _ Ht1). }
  unfold task_step. destruct Hp as [Hp|Hp]; rewrite Hp; cbn [fst snd].
  - rewrite open_loop_stay by (simpl; congruence). destruct (Hop _ Hw) as (es & He & Hts).
    exists es. split; [by apply evolves_task|by right].
  - destruct (drain_keeps (wait ms (sweep t))) as (Hd & _). pose proof (transitivity Hw Hd) as Hwd.
    pose proof (pump_step_inv ms (WakeOp (OpSend send)) t Hi Hp) as Hi1.
    set (t1 := pump_step ms (WakeOp (OpSend send)) t) in *.
    assert (Ha : answers (is_timestamp send) (t_world t) (t_world t1)) by (by apply Hop).
    assert (Hs1 : t_phase t1 <> Stopped) by done. destruct Ha as (es & He & Hts).
    assert (Ho1 : w_open (t_world t1) = true) by (destruct He as [[-> _] _]; exact Ho).
    destruct (task_step_open_evolves t1 Hi1 Hs1 Ho1) as (fs & Hf).
    exists (es ++ fs). split; [by eapply evolves_then|]. rewrite Exists_app.
    destruct (decide (t_phase (open_loop OPEN_FUEL t1) = Stopped)) as [|Hn]; [by left|]. right.
    destruct Hts as [Hts|]; [|by right; left]. destruct (proj2 Hf Ho1 Hn _ Hts); [by left|by right; right].
Qed.

(** *** A stopped task has forgotten its deferred sends *)
Definition left_none (t : T) : Prop := t_phase t = Stopped -> w_pending (t_world t) = ∅.

Lemma left_none_return (t : T) : left_none (task_return t).
Proof. done. Qed.
Lemma left_none_running (t : T) : t_phase t <> Stopped -> left_none t.
Proof. by intros Hn Hp. Qed.

Lemma announce_left_none (t : T) : left_none (announce t).
Proof. unfold announce. destruct (t_announced t); [done|]. by destruct (emit _ _) as [[] w]. Qed.

Lemma open_failed_left_none e (t : T) : t_phase t = Opening -> left_none (open_failed e t).
Proof.
  intros Hp. unfold open_failed. cbv zeta. repeat case_match; try apply left_none_return;
    apply left_none_running; simpl; by rewrite ?Hp.
Qed.

Lemma open_loop_left_none fuel (t : T) : left_none t -> left_none (open_loop fuel t).
Proof.
  revert t. induction fuel as [|fuel IH]; intros t Ht; simpl; destruct (t_phase t) eqn:Hp; try done.
  apply IH. unfold open_stream. destruct (0 <? t_failures t)%N; (destruct (MAX_CONSECUTIVE_FAILURES <=? _)%N;
    [apply left_none_return|]; destruct (manager_call _ _) as [[u|e] w];
    [apply announce_left_none|by apply open_failed_left_none]).
Qed.

Lemma pump_exit_left_none exit (t : T) : left_none (pump_exit exit t).
Proof. destruct exit as [op|reason|]; [done| |done]. simpl. by destruct (_ =? 1)%N. Qed.

Lemma task_step_left_none (t : T) i : left_none t -> left_none (task_step t i).
Proof.
  intros Ht. unfold task_step. destruct (t_phase t) eqn:Hp; [| | |done]; apply open_loop_left_none; [|done|].
  - unfold parked_step. destruct i.2 as [[]| | |item|]; try destruct (decide _); try apply left_none_return;
      apply left_none_running; simpl; by rewrite ?Hp.
  - unfold pump_step. destruct i.2 as [[]| | |item|]; try apply pump_exit_left_none;
      try (apply left_none_running; simpl; by rewrite ?Hp).
    destruct (process_received item _ _) as [[[] fetches] w]; [|apply left_none_return].
    apply left_none_running. simpl. by rewrite Hp.
Qed.

Lemma task_run_left_none inputs (t : T) : left_none t -> left_none (task_run inputs t).
Proof. revert t. induction inputs as [|i inputs IH]; intros t Ht; [done|]. by apply IH, task_step_left_none. Qed.

Lemma task_run_stopped inputs (t : T) : t_phase t = Stopped -> task_run inputs t = t.
Proof.
  intros Hp. induction inputs as [|i inputs IH]; [done|].
  change (task_run inputs (task_step t i) = t).
  assert (task_step t i = t) as -> by (unfold task_step; by rewrite Hp). exact IH.
Qed.

Definition alive_inputs (inputs : list (N * Wake ServiceId Uuid)) : Prop := Forall (fun i => i.2 <> WakeClosed) inputs.

Lemma task_run_says inputs (t : T) :
  task_inv t -> t_phase t <> Stopped -> alive_inputs inputs -> w_open (t_world t) = true ->
  step_says (existsb (fun i => is_item i.2) inputs) t (task_run inputs t).
Proof.
  intros Hi Hs Hc. revert t Hi Hs. induction Hc as [|i inputs Hci Hc IH]; intros t Hi Hs Ho.
  { apply step_says_quiet; [done|done|]. by intros _. }
  change (task_run (i :: inputs) t) with (task_run inputs (task_step t i)). cbn [existsb].
  pose proof (task_step_says t i Hi Hs Hci Ho) as Hstep.
  assert (Hm : step_says (is_item i.2 || existsb (fun i => is_item i.2) inputs) t (task_step t i)).
  { eapply step_says_mono; [|exact Hstep]. by intros [? _]%orb_false_iff. }
  destruct (decide (t_phase (task_step t i) = Stopped)) as [Hp|Hp].
  { by rewrite task_run_stopped. }
  apply (step_says_trans _ _ (task_step t i)); [done|done|].
  eapply step_says_mono; [|apply IH]; [by intros [_ ?]%orb_false_iff|by apply task_step_inv|done|].
  by rewrite (step_says_open _ _ _ Hstep).
Qed.

Lemma task_inv_new w : task_inv (manager_task_new w).
Proof. by constructor. Qed.

Lemma task_step_settled (t : T) i : t_phase (task_step t i) <> Opening.
Proof.
  unfold task_step. assert (Hl : forall t1 : T, t_phase (open_loop OPEN_FUEL t1) <> Opening).
  { intros t1. apply open_loop_settles. unfold OPEN_FUEL, MAX_CONSECUTIVE_FAILURES. lia. }
  destruct (t_phase t) eqn:Hp; try apply Hl. congruence.
Qed.

Lemma task_run_settled inputs w : t_phase (task_run inputs (manager_task_new w)) <> Opening.
Proof.
  destruct inputs as [|i inputs] using rev_ind; [done|]. unfold task_run. rewrite foldl_app. apply task_step_settled.
Qed.

(** C32: the counters of the task are bounded and its reopening terminates.
    After any inputs the task is parked, pumping or stopped, never still
    reopening: at most 21 attempts separate two waits. It has counted at most 20
    failures and 3 refused handshakes, fewer while it runs, it pumps only after
    the stream was announced, and every back-off before a reopening lasts between
    1 and 40 seconds, growing with the failures. *)
Theorem manager_task_bounds inputs (w : W) :
  let t := task_run inputs (manager_task_new w) in
  t_phase t <> Opening /\ (t_failures t <= 20)%N /\ (t_reauth t <= 3)%N /\
  (t_phase t <> Stopped -> (t_reauth t < 3)%N) /\
  (t_phase t = Pumping -> (t_failures t < 20)%N /\ t_announced t = true) /\
  (1000 <= backoff_ms t <= 40000)%N /\
  (forall n m, (n <= m)%N -> (base_backoff_ms n <= base_backoff_ms m)%N).
Proof.
  intros t. destruct (task_run_inv inputs _ (task_inv_new w)) as [Hf Hr Ha Hp]. fold t in Hf, Hr, Ha, Hp.
  split; [apply task_run_settled|]. repeat (split; [done|]). split; [|exact base_backoff_mono].
  unfold backoff_ms. pose proof (base_backoff_bounds (t_failures t)).
  assert (Hx : forall c, (extra_delay_ms c <= 10000)%N).
  { intros c. unfold extra_delay_ms, REAUTH_SETTLING_DELAY_MS, RECONNECT_THROTTLE_MS. repeat case_match; lia. }
  specialize (Hx (last_identified_close_code (w_manager (t_world t)))). lia.
Qed.

(** C18: the task never stops silently. While its op sender lives and the event
    channel is open, a task that stopped has said why as its last event, the
    expired authentication, the conflicting device, or the twentieth failure in a
    row; before that, or while it still runs, neither of the two session-ending
    events was sent. A stopped task does nothing more, whatever arrives. *)
Theorem task_reports_why_it_stops inputs (w : W) :
  w_open w = true -> alive_inputs inputs ->
  let t := task_run inputs (manager_task_new w) in
  exists es, w_events (t_world t) = w_events w ++ es /\ ending (t_phase t) es /\
    (t_phase t = Stopped -> forall more, task_run more t = t).
Proof.
  intros Ho Hc t. destruct (task_run_says inputs (manager_task_new w) (task_inv_new w)) as (es & [[_ He] _] & Hend & _);
    [done..|]. simpl in He. rewrite Ho in He. exists es. split; [done|]. split; [done|].
  intros Hp more. by apply task_run_stopped.
Qed.

(** One banner per outage. From any state of the task, as long as no stream
    item arrives, at most one [ReceiveError] is shown to the user, and none if a
    failure was already counted, besides the one with which the task gives up. *)
Theorem one_banner_per_outage before inputs (w : W) :
  w_open w = true -> alive_inputs before -> alive_inputs inputs ->
  existsb (fun i => is_item i.2) inputs = false ->
  let t := task_run before (manager_task_new w) in
  let t' := task_run inputs t in
  exists es, w_events (t_world t') = w_events (t_world t) ++ es /\
    banners es <= (if (t_failures t =? 0)%N then 1 else 0) + (if decide (t_phase t' = Stopped) then 1 else 0).
Proof.
  intros Ho Hb Hc Hitem t t'.
  pose proof (task_run_says before (manager_task_new w) (task_inv_new w) ltac:(done) Hb Ho) as Hs.
  pose proof (eq_trans (step_says_open _ _ _ Hs) Ho : w_open (t_world t) = true) as Hot.
  destruct (decide (t_phase t = Stopped)) as [Hp|Hp].
  { exists []. unfold t'. rewrite task_run_stopped by done. split; [by rewrite app_nil_r|]. apply Nat.le_0_l. }
  destruct (task_run_says inputs t) as (es & [[_ He] _] & _ & Hban); [by apply task_run_inv|done..|].
  rewrite Hot in He. exists es. split; [done|]. specialize (Hban Hitem). fold t' in Hban.
  unfold banners_left in Hban. destruct (t_failures t =? 0)%N, (decide (t_phase t' = Stopped)) as [Hq|Hq];
    rewrite ?Hq in Hban; destruct (t_phase t), (t_phase t'), (t_failures t' =? 0)%N; try done; lia.
Qed.

(** *** The deferred sends of a run *)
Lemma task_run_evolves inputs (t : T) :
  task_inv t -> t_phase t <> Stopped -> w_open (t_world t) = true ->
  exists es, task_evolves t (task_run inputs t) es.
Proof.
  revert t. induction inputs as [|i inputs IH]; intros t Hi Hs Ho.
  { exists []. apply evolves_task, evolves_refl. }
  change (task_run (i :: inputs) t) with (task_run inputs (task_step t i)).
  destruct (task_step_evolves t i Hi Hs Ho) as (es & He).
  destruct (decide (t_phase (task_step t i) = Stopped)) as [Hp|Hp]; [exists es; by rewrite task_run_stopped|].
  destruct (IH (task_step t i)) as (fs & Hf); [by apply task_step_inv|done|by rewrite (proj1 (proj1 He))|].
  exists (es ++ fs). by eapply task_evolves_trans.
Qed.

(** Where a run from the start has got. *)
Lemma task_run_open inputs (w : W) :
  w_open w = true -> w_open (t_world (task_run inputs (manager_task_new w))) = true.
Proof.
  intros Ho. destruct (task_run_evolves inputs (manager_task_new w) (task_inv_new w) ltac:(done) Ho) as (es & [[He _] _]).
  by rewrite He.
Qed.

Lemma task_run_waiting inputs (w : W) ts :
  let t := task_run inputs (manager_task_new w) in
  is_Some (w_pending (t_world t) !! ts) -> t_phase t = Parked \/ t_phase t = Pumping.
Proof.
  intros t Hts. pose proof (task_run_settled inputs w) as Hn.
  pose proof (task_run_left_none inputs (manager_task_new w) ltac:(done)) as Hl. fold t in Hn, Hl.
  unfold left_none in Hl. destruct (t_phase t); [by left|done|by right|].
  rewrite Hl, lookup_empty in Hts by done. by destruct Hts.
Qed.

(** Every wake-up sweeps first. *)
Lemma sweep_again (w : W) :
  sweep_expired_pending_sends (sweep_expired_pending_sends w) = sweep_expired_pending_sends w.
Proof.
  unfold sweep_expired_pending_sends at 1. set (w1 := sweep_expired_pending_sends w).
  assert (Hn : forall es (v : W), w_now (foldl (fun w ts =>
    emit_ (SendError GRACE_EXPIRED (Some ts)) (set_pending (delete ts (w_pending w)) w)) v es) = w_now v).
  { intros es. induction es as [|x es IH]; intros v; [done|]. cbn [foldl]. by rewrite IH, emit_now. }
  destruct (expired_sends (w_now w1) (w_pending w1)) as [|ts es] eqn:He; [done|exfalso].
  assert (Hin : ts ∈ expired_sends (w_now w1) (w_pending w1)) by (rewrite He; left).
  apply elem_of_expired in Hin as (d & Hd & Hle). unfold w1, sweep_expired_pending_sends in Hd, Hle. rewrite Hn in Hle.
  destruct (sweep_fold (expired_sends (w_now w) (w_pending w)) w) as (_ & _ & Hp). rewrite Hp in Hd.
  destruct (decide _) as [|Hno]; [done|]. apply Hno, elem_of_expired. eauto.
Qed.

Lemma sweep_twice (t : T) : sweep (sweep t) = sweep t.
Proof. unfold sweep, with_world. cbn. by rewrite sweep_again. Qed.

Lemma task_step_sweeps (t : T) i : t_phase t = Parked \/ t_phase t = Pumping -> task_step t i = task_step (sweep t) i.
Proof.
  intros Hp. unfold task_step, parked_step, pump_step. change (t_phase (sweep t)) with (t_phase t).
  rewrite sweep_twice. by destruct Hp as [-> | ->].
Qed.

(** C12: no deferred send is forgotten while the task runs. Once a send is
    deferred, then after any further inputs, the loss of the op sender included,
    either an event has reported its timestamp, or it is still awaiting its
    receipt, or the task has returned: then the deferred sends are gone with its
    locals and none is awaited any more. And it is not awaited for ever: the
    first wake-up after its deadline, whatever it is, reports it as failed. *)
Theorem deferred_kept_until_stop before (w : W) ts deadline :
  w_open w = true ->
  let t := task_run before (manager_task_new w) in
  w_pending (t_world t) !! ts = Some deadline ->
  (forall inputs, let t' := task_run inputs t in
     exists es, w_events (t_world t') = w_events (t_world t) ++ es /\
       (Exists (reports ts) es \/
        if decide (t_phase t' = Stopped) then w_pending (t_world t') = ∅
        else is_Some (w_pending (t_world t') !! ts))) /\
  ((deadline <= w_now (t_world t))%N -> forall i,
     exists es, w_events (t_world (task_step t i)) = w_events (t_world t) ++ es /\
       SendError GRACE_EXPIRED (Some ts) ∈ es).
Proof.
  intros Ho t Hts. assert (Hw : t_phase t = Parked \/ t_phase t = Pumping).
  { apply (task_run_waiting before w ts). by eexists. }
  assert (Hs : t_phase t <> Stopped) by (destruct Hw; congruence).
  pose proof (task_run_open before w Ho : w_open (t_world t) = true) as Hot.
  pose proof (task_run_inv before _ (task_inv_new w) : task_inv t) as Hi.
  pose proof (task_run_left_none before (manager_task_new w) ltac:(done) : left_none t) as Hl. split.
  - intros inputs t'. destruct (task_run_evolves inputs t Hi Hs Hot) as (es & [[_ He] Hk]).
    rewrite Hot in He. exists es. split; [done|]. destruct (decide _) as [Hp|Hp].
    + right. by apply (task_run_left_none inputs t Hl).
    + destruct (Hk Hot Hp ts ltac:(by eexists)); [by right|by left].
  - intros Hd i. rewrite task_step_sweeps by done.
    destruct (sweep_fold (expired_sends (w_now (t_world t)) (w_pending (t_world t))) (t_world t)) as ([Ho1 He1] & _ & _).
    rewrite Hot in He1. destruct (task_step_evolves (sweep t) i) as (es & [[_ He] _]); [by eapply task_inv_same|done| |].
    { etrans; [exact Ho1|done]. }
    eexists (_ ++ es). split.
    + rewrite He. assert (w_open (t_world (sweep t)) = true) as -> by (by etrans; [exact Ho1|]).
      rewrite app_assoc. f_equal. exact He1.
    + apply elem_of_app. left. apply list_elem_of_fmap. exists ts. split; [done|]. apply elem_of_expired. eauto.
Qed.

(** ** The batch scope between steps *)

(** The other calls of the manager also reach the backend through key-value
    operations only. *)
Definition any_op (o : KvSpec.op) : bool := true.
Definition call_runs {A} (f : Mgr * P -> N * A * (Mgr * P)) : Prop :=
  forall m p ms a m' p', f (m, p) = (ms, a, (m', p')) -> kv_run any_op (backend p) (backend p').
Class PresageTaskLaws : Prop := {
  request_contacts_run : call_runs request_contacts;
  lookup_username_run input : call_runs (lookup_username input);
  retrieve_profile_run u k : call_runs (retrieve_profile_by_uuid u k);
  receive_messages_run : call_runs receive_messages
}.
Context `{!KvLaws St} `{!PresageSendLaws} `{!PresageTaskLaws}.
Abbreviation w_backend w := (backend (w_store w)).
Abbreviation t_idle t := (idle (w_backend (t_world t))).

Lemma call_idle {A} (f : Mgr * P -> N * A * (Mgr * P)) (w w' : W) a :
  call_runs f -> manager_call f w = (a, w') -> idle (w_backend w) -> idle (w_backend w').
Proof. intros Hf (ms & Hc & _)%manager_call_inv Hi. eapply idle_run; [by eapply Hf|done]. Qed.

Lemma run_manager_op_idle op g (w : W) : idle (w_backend w) -> idle (w_backend (run_manager_op op g w)).
Proof.
  intros Hi. destruct op as [|send| |input]; simpl; [done|by apply handle_send_idle| |].
  - unfold handle_sync_contacts. destruct (manager_call request_contacts w) as [r w1] eqn:Hc.
    eapply call_idle in Hc; [|apply request_contacts_run|done]. destruct r; by rewrite emit_store.
  - unfold handle_resolve_username. destruct (manager_call _ w) as [r w1] eqn:Hc.
    eapply call_idle in Hc; [|apply lookup_username_run|done]. by rewrite emit_store.
Qed.

Lemma drain_idle (t : T) : t_idle t -> t_idle (drain t).
Proof.
  unfold drain. intros Hi.
  assert (Hd : forall fetches seen (w : W), idle (w_backend w) -> idle (w_backend (drain_fetches fetches seen w).2)).
  { induction fetches as [|[u k] fetches IH]; intros seen w Hw; simpl; [done|].
    destruct (decide (u ∈ seen)); [by apply IH|]. apply IH.
    destruct (manager_call (retrieve_profile_by_uuid u k) w) as [r w1] eqn:Hc.
    eapply call_idle in Hc; [|apply retrieve_profile_run|done].
    destruct r; [|done]. destruct (bool_decide _); [done|]. by rewrite emit_store. }
  specialize (Hd (t_fetches t) (t_fetched t) (t_world t) Hi). by destruct (drain_fetches _ _ _).
Qed.

Lemma say_idle e (t : T) : t_idle t -> t_idle (say e t).
Proof. intros Hi. simpl. by rewrite emit_store. Qed.

Lemma open_stream_idle (t : T) : t_idle t -> t_idle (open_stream t).
Proof.
  intros Hi. unfold open_stream. set (t1 := if (0 <? t_failures t)%N then _ else t).
  assert (Hi1 : t_idle t1) by (unfold t1; by destruct (0 <? t_failures t)%N). clearbody t1.
  destruct (MAX_CONSECUTIVE_FAILURES <=? t_failures t1)%N; [by apply say_idle|].
  destruct (manager_call _ _) as [r w] eqn:Hc. eapply call_idle in Hc; [|apply receive_messages_run|done].
  destruct r as [u|e].
  - unfold announce. destruct (t_announced _); [done|]. simpl. unfold emit. by destruct (w_open w).
  - unfold open_failed. repeat case_match; try apply say_idle; exact Hc.
Qed.

Lemma open_loop_idle fuel (t : T) : t_idle t -> t_idle (open_loop fuel t).
Proof.
  revert t. induction fuel as [|fuel IH]; intros t Hi; simpl; destruct (t_phase t); try done.
  by apply IH, open_stream_idle.
Qed.

Lemma pump_exit_idle exit (t : T) : t_idle t -> t_idle (pump_exit exit t).
Proof.
  intros Hi%drain_idle. unfold pump_exit. destruct exit as [op|reason|]; [by apply run_manager_op_idle| |done].
  destruct (_ =? 1)%N; [|done]. by apply say_idle.
Qed.

Lemma sweep_idle (t : T) : t_idle t -> t_idle (sweep t).
Proof.
  intros Hi. simpl. unfold sweep_expired_pending_sends.
  by destruct (sweep_fold (expired_sends (w_now (t_world t)) (w_pending (t_world t))) (t_world t)) as (_ & -> & _).
Qed.

Lemma task_step_idle (t : T) i : t_idle t -> t_idle (task_step t i).
Proof.
  intros Hi. apply sweep_idle in Hi as Hs. unfold task_step.
  destruct (t_phase t); [|by apply open_loop_idle| |done]; apply open_loop_idle.
  - unfold parked_step. destruct i.2 as [[]| | |item|]; try destruct (decide _); try exact Hs;
      by apply run_manager_op_idle.
  - unfold pump_step. destruct i.2 as [[]| | |item|]; try exact Hs; try by apply pump_exit_idle.
    pose proof (process_received_idle item (t_fetches (sweep t)) (t_world (wait i.1 (sweep t))) Hs) as Hp.
    simpl. simpl in Hp. destruct (process_received item _ _) as [[[] fetches] w]; exact Hp.
Qed.

(** between two waits of the task no write batch is open and none is left
    half-buffered, whatever the inputs and whatever presage did or failed to do:
    the next send finds its batch available. *)
Theorem task_keeps_batch_closed inputs (w : W) :
  idle (w_backend w) ->
  let t := task_run inputs (manager_task_new w) in
  t_idle t /\ exists guard w', on_store begin_send_batch (t_world t) = (Ok guard, w').
Proof.
  intros Hi t. assert (Ht : t_idle t).
  { unfold t, task_run. clear t. revert Hi. change (idle (w_backend w)) with (t_idle (manager_task_new w)).
    generalize (manager_task_new w). induction inputs as [|i inputs IH]; intros t0 H0'; [done|]. by apply IH, task_step_idle. }
  split; [done|]. destruct (begin_idle _ Ht) as (guard & sb & Hb & _).
  exists guard, (set_store (set_backend sb (w_store (t_world t))) (t_world t)).
  unfold on_store, zoom, begin_send_batch, on_backend, zoom. by rewrite Hb.
Qed.
End task.

(** ** Witnesses *)
From S2P Require Import Concrete.

#[local] Existing Instances canonical_order plain_debug string_ids string_contact string_json read_only_backend.

(** A manager whose sends and opens follow a script, with a fixed close code;
    when the script is over the socket keeps closing. *)
Record Script : Type := mkScript {
  sc_opens : list (result unit string);
  sc_close : option N
}.
Section scripted.
Context {St : Type} `{!KvBackend St}.
Abbreviation P := (PddbStore (StoreBackend St) bytes).

Definition scripted_task_presage : Presage P Script string string := {|
  send_message _ _ _ st := (5%N, SendFailed "WebSocket closing", st);
  request_contacts st := (5%N, Ok tt, st);
  lookup_username u st := (5%N, Ok None, st);
  retrieve_profile_by_uuid _ _ st := (5%N, Ok None, st);
  receive_messages := fun '(sc, p) =>
    match sc_opens sc with
    | r :: rs => (5%N, r, (mkScript rs (sc_close sc), p))
    | [] => (5%N, Err "closed", (sc, p))
    end;
  last_identified_close_code := sc_close
|}.

Lemma scripted_task_send_laws :
  PresageSendLaws (Presage0 := scripted_task_presage) (SessionRecord := bytes).
Proof. intros sid content ts m m' p p' ms o Hs. simpl in Hs. by simplify_eq. Qed.

Lemma scripted_task_laws : PresageTaskLaws (Presage0 := scripted_task_presage) (SessionRecord := bytes).
Proof.
  split.
  - intros m p ms a m' p' Hs. simpl in Hs. by simplify_eq.
  - intros input m p ms a m' p' Hs. simpl in Hs. by simplify_eq.
  - intros u k m p ms a m' p' Hs. simpl in Hs. by simplify_eq.
  - intros m p ms a m' p' Hs. simpl in Hs. by destruct (sc_opens m); simplify_eq.
Qed.
End scripted.

#[local] Existing Instance scripted_task_presage.

Definition script_world (opens : list (result unit string)) (close : option N) :
    World (PddbStore (StoreBackend MockBackend) bytes) Script string :=
  mkWorld (store_new (Buffered (buffering_new mock_new)) Trust) (mkScript opens close) 0 [] true ∅.
Definition start : list (N * Wake string string) := [(0%N, WakeOp OpStartReceive)].
Definition defer : list (N * Wake string string) := [(0%N, WakeOp (OpSend hello_send))].

(** Three refused handshakes after close code 4401. *)
Definition refused : World (PddbStore (StoreBackend MockBackend) bytes) Script string :=
  script_world (replicate 3 (Err "HTTP 403 Forbidden")) (Some 4401%N).

Lemma task_reports_why_it_stops_witness :
  exists es, w_events (t_world (task_run (Contact := string) start (manager_task_new refused))) = es /\
    ending Stopped es /\ length es = 2.
Proof.
  assert (Hs : alive_inputs start) by (repeat constructor; discriminate).
  destruct (task_reports_why_it_stops (Contact := string) start refused eq_refl Hs) as (es & He & Hend & _).
  assert (Hp : t_phase (task_run (Contact := string) start (manager_task_new refused)) = Stopped)
    by (vm_compute; reflexivity).
  rewrite Hp in Hend. exists es. split; [exact He|]. split; [exact Hend|].
  apply (f_equal length) in He. etransitivity; [symmetry; exact He|]. vm_compute. reflexivity.
Defined.

Definition silent : World (PddbStore (StoreBackend MockBackend) bytes) Script string := script_world [] None.

Lemma one_banner_per_outage_witness :
  exists es, w_events (t_world (task_run (Contact := string) start (manager_task_new silent))) = es /\ banners es <= 2.
Proof.
  assert (Hs : alive_inputs start) by (repeat constructor; discriminate).
  assert (Hn : alive_inputs (ServiceId := string) (Uuid := string) []) by constructor.
  destruct (one_banner_per_outage (Contact := string) [] start silent eq_refl Hn Hs eq_refl) as (es & He & Hb).
  exists es. split; [exact He|]. etransitivity; [exact Hb|].
  assert (Hp : t_phase (task_run (Contact := string) start (task_run (Contact := string) [] (manager_task_new silent))) = Stopped)
    by (vm_compute; reflexivity).
  rewrite Hp. vm_compute. lia.
Defined.

(** Deferred, then displaced by another device: the task is over and the send
    forgotten, neither complete nor failed. And deferred, then woken after the
    deadline: the send is reported as failed. *)
Definition displaced : World (PddbStore (StoreBackend MockBackend) bytes) Script string :=
  script_world [] (Some 4409%N).
Definition late : list (N * Wake string string) := defer ++ [(40000%N, WakeOp OpSyncContacts)].

Lemma deferred_kept_until_stop_witness :
  let t := task_run (Contact := string) defer (manager_task_new displaced) in
  let t' := task_run (Contact := string) start t in
  w_pending (t_world t) !! 77%N = Some 92030%N /\ t_phase t' = Stopped /\
  (exists es, w_events (t_world t') = w_events (t_world t) ++ es /\
    (Exists (reports 77%N) es \/
     if decide (t_phase t' = Stopped) then w_pending (t_world t') = ∅
     else is_Some (w_pending (t_world t') !! 77%N))) /\
  length (w_events (t_world t')) = 1 /\
  (let t := task_run (Contact := string) late (manager_task_new displaced) in
   exists es, w_events (t_world (task_step (Contact := string) t (0%N, WakeTick))) = w_events (t_world t) ++ es /\
     SendError GRACE_EXPIRED (Some 77%N) ∈ es).
Proof.
  intros t t'. assert (Hd : w_pending (t_world t) !! 77%N = Some 92030%N) by (vm_compute; reflexivity).
  split; [exact Hd|]. split; [vm_compute; reflexivity|].
  split; [exact (proj1 (deferred_kept_until_stop (Contact := string) defer displaced 77%N 92030%N eq_refl Hd) start)|].
  split; [vm_compute; reflexivity|].
  assert (Hl : w_pending (t_world (task_run (Contact := string) late (manager_task_new displaced))) !! 77%N = Some 92030%N)
    by (vm_compute; reflexivity).
  refine (proj2 (deferred_kept_until_stop (Contact := string) late displaced 77%N 92030%N eq_refl Hl) _ (0%N, WakeTick)).
  vm_compute. discriminate.
Defined.

Lemma task_keeps_batch_closed_witness :
  idle (backend (w_store (t_world (task_run (Contact := string) (defer ++ start) (manager_task_new displaced))))).
Proof.
  assert (Hi : idle (backend (w_store displaced))) by (split; [reflexivity|split; reflexivity]).
  exact (proj1 (task_keeps_batch_closed (H2 := scripted_task_send_laws) (H3 := scripted_task_laws)
    (Contact := string) (defer ++ start) displaced Hi)).
Defined.
