(* ===== verification/System.v ===== *)
(** * The worker as a system of tasks ([worker_main], [spawn_manager_task] and
    [manager_task] of [xous-signal-worker/src/lib.rs] together)

    One executor thread runs the command dispatcher and every manager task it
    ever spawned. They share the store, the event channel and the clock; a task
    has its op channel, of eight slots, whose sender the dispatcher holds for the
    newest task only. A [Turn] is what the executor runs between two waits: the
    dispatcher handling one command, or one wake-up of one task. *)
From S2P Require Import Prelude Codec Utf8 Text Kv Buffering Protocol Sessions Contents Store Batch Worker Send.
From S2P Require Import Receive Dispatcher ManagerTask.

(** [async_channel::bounded::<WorkerOp>(8)]. *)
Definition OP_CHANNEL_CAP : nat := 8.

(** What wakes a task; an op comes from its own channel. *)
Inductive TaskWake (ServiceId Uuid : Type) : Type :=
| TakeOp
| SeeClosed
| TimerTick
| StreamItem (item : Received ServiceId Uuid)
| StreamEnd.
Arguments TakeOp {ServiceId Uuid}.
Arguments SeeClosed {ServiceId Uuid}.
Arguments TimerTick {ServiceId Uuid}.
Arguments StreamItem {ServiceId Uuid} item.
Arguments StreamEnd {ServiceId Uuid}.

Inductive Turn (ServiceId Uuid : Type) : Type :=
| TurnCmd (c : Cmd) (inputs : list RaceInput) (resolved : bool)
| TurnCmdsClosed
| TurnTask (k : nat) (ms : N) (wake : TaskWake ServiceId Uuid).
Arguments TurnCmd {ServiceId Uuid} c inputs resolved.
Arguments TurnCmdsClosed {ServiceId Uuid}.
Arguments TurnTask {ServiceId Uuid} k ms wake.

(** A spawned task with its channel. [k_accepted] and [k_executed] are history:
    the ops ever put into the channel and ever taken out of it. *)
Record Slot (P Mgr Uuid : Type) : Type := mkSlot {
  k_manager : Mgr;
  k_task : Task P Mgr Uuid;
  k_queue : list WorkerOp;
  k_accepted : list WorkerOp;
  k_executed : list WorkerOp
}.
Arguments mkSlot {P Mgr Uuid} _ _ _ _ _.
Arguments k_manager {P Mgr Uuid} _.
Arguments k_task {P Mgr Uuid} _.
Arguments k_queue {P Mgr Uuid} _.
Arguments k_accepted {P Mgr Uuid} _.
Arguments k_executed {P Mgr Uuid} _.

(** [y_link]: the task whose op sender the dispatcher holds. *)
Record System (P Mgr Uuid : Type) : Type := mkSystem {
  y_world : World P unit Uuid;
  y_cached : option AccountInfoData;
  y_running : bool;
  y_tasks : list (Slot P Mgr Uuid);
  y_link : option nat
}.
Arguments mkSystem {P Mgr Uuid} _ _ _ _ _.
Arguments y_world {P Mgr Uuid} _.
Arguments y_cached {P Mgr Uuid} _.
Arguments y_running {P Mgr Uuid} _.
Arguments y_tasks {P Mgr Uuid} _.
Arguments y_link {P Mgr Uuid} _.

(** The commands that go through the op channel. *)
Definition op_of (c : Cmd) : option WorkerOp :=
  match c with
  | StartReceive => Some OpStartReceive
  | SendMessage recipient body timestamp => Some (OpSend (mkInnerSend recipient body timestamp))
  | SyncContacts => Some OpSyncContacts
  | ResolveUsername input => Some (OpResolveUsername input)
  | _ => None
  end.

Section system.
Context `{HashOrder} `{SignalMisc} `{!RustDebug}
  {St SessionRecord Mgr ServiceId Uuid Contact : Type} `{!EqDecision Uuid} `{!KvBackend St}
  `{!WireRecord SessionRecord} `{!Bincode SessionBundle} `{!Json SessionBundle} `{!Json Contact}
  `{!ServiceIdText ServiceId}
  `{!WorkerIds ServiceId Uuid} `{!ContactFields Contact Uuid}
  `{!Presage (PddbStore (StoreBackend St) SessionRecord) Mgr ServiceId Uuid}
  `{!PresageLink (PddbStore (StoreBackend St) SessionRecord) Mgr}.
Abbreviation P := (PddbStore (StoreBackend St) SessionRecord).
Abbreviation T := (Task P Mgr Uuid).
Abbreviation D := (Dispatcher P Mgr Uuid).
Abbreviation SL := (Slot P Mgr Uuid).
Abbreviation Y := (System P Mgr Uuid).
Abbreviation Shared := (World P unit Uuid).
Abbreviation U := (Turn ServiceId Uuid).

(** ** The shared world

    A task wakes up in the world as the others left it, with its own manager and
    its own deferred sends, and leaves its changes to the others. *)
Definition resume (s : Shared) (t : T) : T :=
  let w := t_world t in
  with_world (mkWorld (w_store s) (w_manager w) (w_now s) (w_events s) (w_open s) (w_pending w)) t.
Definition publish (t : T) (s : Shared) : Shared :=
  let w := t_world t in
  mkWorld (w_store w) tt (w_now w) (w_events w) (w_open w) (w_pending s).

(** ** The dispatcher's side of a channel *)
Definition running (sl : SL) : bool := negb (bool_decide (t_phase (k_task sl) = Stopped)).
Definition channel_of (sl : SL) : OpChannel Mgr := mkOps (k_manager sl) (k_queue sl) (running sl).

(** The dispatcher as the system holds it. *)
Definition view (s : Y) : D :=
  mkDispatcher (y_world s) (k ← y_link s; channel_of <$> y_tasks s !! k) (y_cached s) (y_running s).

Definition slot_new (m : Mgr) (s : Shared) : SL :=
  mkSlot m (manager_task_new (mkWorld (w_store s) m (w_now s) (w_events s) (w_open s) ∅)) [] [] [].

(** The channel holds [queue] after the dispatcher's turn. *)
Definition enqueue (queue : list WorkerOp) (sl : SL) : SL :=
  mkSlot (k_manager sl) (k_task sl) queue (k_accepted sl ++ drop (length (k_queue sl)) queue) (k_executed sl).

(** The manager a command spawns a task for. *)
Definition spawned (c : Cmd) (inputs : list RaceInput) (resolved : bool) (d : D) : option Mgr :=
  match c with
  | LinkDevice name =>
      let '(stale, d1) := probe d in
      if stale then None
      else match (link_race name inputs resolved d1).1 with Ok m => Some m | Err _ => None end
  | GetAccountInfo =>
      match d_cached d, d_ops d with
      | None, None => match (call_load d).1 with Ok m => Some m | Err _ => None end
      | _, _ => None
      end
  | _ => None
  end.

(** What the dispatcher's turn leaves of the system: overwriting or dropping the
    sender disconnects the task, which stays in the list until it stops. *)
Definition absorb (new : option Mgr) (d : D) (s : Y) : Y :=
  match new with
  | Some m =>
      mkSystem (d_world d) (d_cached d) (d_running d) (y_tasks s ++ [slot_new m (d_world d)]) (Some (length (y_tasks s)))
  | None =>
      match y_link s, d_ops d with
      | Some k, Some ch =>
          mkSystem (d_world d) (d_cached d) (d_running d) (alter (enqueue (op_queue ch)) k (y_tasks s)) (Some k)
      | _, _ => mkSystem (d_world d) (d_cached d) (d_running d) (y_tasks s) None
      end
  end.

Definition system_start (w : Shared) : Y :=
  let d := worker_start w in
  absorb (op_manager <$> d_ops d) d (mkSystem w None true [] None).

(** ** Turns *)

(** [ops.send(op).await] waits while the channel of a living task is full. *)
Definition can_accept (c : Cmd) (s : Y) : bool :=
  match op_of c, d_ops (view s) with
  | Some _, Some ch => negb (op_alive ch) || (length (op_queue ch) <? OP_CHANNEL_CAP)
  | _, _ => true
  end.

(** [op_rx.recv()] hands out what is queued before it reports the sender's loss. *)
Definition wake_slot (linked : bool) (wake : TaskWake ServiceId Uuid) (sl : SL) :
    option (Wake ServiceId Uuid * SL) :=
  match t_phase (k_task sl), wake with
  | (Parked | Pumping), TakeOp =>
      match k_queue sl with
      | op :: rest => Some (WakeOp op, mkSlot (k_manager sl) (k_task sl) rest (k_accepted sl) (k_executed sl ++ [op]))
      | [] => None
      end
  | (Parked | Pumping), SeeClosed =>
      if linked then None else match k_queue sl with [] => Some (WakeClosed, sl) | _ => None end
  | (Parked | Pumping), TimerTick => Some (WakeTick, sl)
  | Pumping, StreamItem item => Some (WakeItem item, sl)
  | Pumping, StreamEnd => Some (WakeEnd, sl)
  | _, _ => None
  end.

Definition run_slot (k : nat) (ms : N) (wake : Wake ServiceId Uuid) (sl : SL) (s : Y) : Y :=
  let t := task_step (Contact := Contact) (resume (y_world s) (k_task sl)) (ms, wake) in
  mkSystem (publish t (y_world s)) (y_cached s) (y_running s)
    (<[k := mkSlot (k_manager sl) t (k_queue sl) (k_accepted sl) (k_executed sl)]> (y_tasks s)) (y_link s).

(** [None]: the turn is not possible now. When the dispatcher has left, the
    thread ends and no task runs any more. *)
Definition sys_step (s : Y) (u : U) : option Y :=
  if y_running s then
    match u with
    | TurnCmd c inputs resolved =>
        if can_accept c s then Some (absorb (spawned c inputs resolved (view s)) (dispatch c inputs resolved (view s)) s)
        else None
    | TurnCmdsClosed => Some (absorb None (stop (view s)) s)
    | TurnTask k ms wake =>
        sl ← y_tasks s !! k;
        '(i, sl') ← wake_slot (bool_decide (y_link s = Some k)) wake sl;
        Some (run_slot k ms i sl' s)
    end
  else None.

Fixpoint sys_run (us : list U) (s : Y) : option Y :=
  match us with
  | [] => Some s
  | u :: us' => s' ← sys_step s u; sys_run us' s'
  end.

Definition reachable (w : Shared) (s : Y) : Prop := exists us, sys_run us (system_start w) = Some s.

(** ** The dispatcher's turn *)

(** The sender after a command that spawned nothing. *)
Definition link_after (c : Cmd) (d : D) : option (OpChannel Mgr) :=
  match op_of c with
  | Some op =>
      ch ← d_ops d;
      if op_alive ch then Some (mkOps (op_manager ch) (op_queue ch ++ [op]) true) else None
  | None => match c with Logout => None | _ => d_ops d end
  end.

Lemma forward_link op err (d : D) :
  d_ops (forward op err d) =
  (ch ← d_ops d; if op_alive ch then Some (mkOps (op_manager ch) (op_queue ch ++ [op]) true) else None).
Proof. unfold forward. destruct (d_ops d) as [ch|] eqn:Ho; [|exact Ho]. simpl. by destruct (op_alive ch). Qed.

Lemma call_load_inv (d : D) : exists r d1, call_load d = (r, d1) /\ d_ops d1 = d_ops d.
Proof.
  destruct (call_load d) as [r d1] eqn:Hl. exists r, d1. split; [done|].
  by apply call_load_told in Hl as (_ & Ho & _).
Qed.

Lemma tell_or_stop_ops e (d : D) : d_ops (tell_or_stop e d) = d_ops d.
Proof. by destruct (tell_or_stop_same e d). Qed.

Lemma dispatch_link c inputs resolved (d : D) :
  ops_cached d ->
  d_ops (dispatch c inputs resolved d) =
  match spawned c inputs resolved d with Some m => spawn_manager_task m | None => link_after c d end.
Proof.
  intros Hd. destruct c; simpl; try apply forward_link; try done.
  - apply tell_or_stop_ops.
  - unfold handle_whoami. destruct (call_load_inv d) as (r & d1 & -> & Ho).
    unfold link_after; simpl. by destruct r; rewrite tell_or_stop_ops.
  - unfold link_device. unfold probe. destruct (has_account_state _) as [[] p]; [by rewrite tell_or_stop_ops|].
    destruct (link_race _ _ _ _) as [r d2] eqn:Hr. apply link_race_same in Hr as (Ho & _). by destruct r.
  - unfold get_account_info, link_after. simpl. destruct (d_cached d) as [info|] eqn:Hc; [by rewrite tell_or_stop_ops|].
    assert (Hn : d_ops d = None) by (destruct (d_ops d) as [ch|] eqn:Ho; [specialize (Hd ch Ho); congruence|done]).
    destruct (call_load_inv d) as (r & d1 & -> & Ho). rewrite Hn in *. destruct r; rewrite tell_or_stop_ops; [|done].
    simpl. by rewrite Ho.
Qed.

Lemma told_any (d d' : D) es : told d d' es -> exists fs, told d d' fs.
Proof. by exists es. Qed.

Lemma told_after (d d1 d2 : D) es : told d d1 es -> (exists fs, told d1 d2 fs) -> exists fs, told d d2 fs.
Proof. intros He [fs Hf]. exists (es ++ fs). by eapply told_trans. Qed.

Lemma tell_or_stop_told e (d : D) : exists es, told d (tell_or_stop e d) es.
Proof.
  destruct (w_open (d_world d)) eqn:Ho.
  - exists [e]. by apply tell_or_stop_open.
  - exists []. unfold tell_or_stop, emit. rewrite Ho. by apply told_nil.
Qed.

Lemma dispatch_told c inputs resolved (d : D) : exists es, told d (dispatch c inputs resolved d) es.
Proof.
  assert (Hf : forall op err, exists es, told d (forward op err d) es).
  { intros op err. pose proof (forward_spec op err d) as Hs. unfold forwarded in Hs.
    destruct (d_ops d) as [[m q []]|]; destruct Hs as [_ Hs]; by eexists. }
  destruct c; simpl; try apply Hf.
  - apply tell_or_stop_told.
  - unfold handle_whoami. destruct (call_load d) as [r d1] eqn:Hl. apply call_load_told in Hl as [Ht _].
    destruct r; (eapply told_after; [exact Ht|apply tell_or_stop_told]).
  - unfold link_device. unfold probe. destruct (has_account_state _) as [stale p].
    set (d1 := with_dworld (set_store p (d_world d)) d). assert (Ht : told d d1 []) by by apply told_nil.
    eapply told_after; [exact Ht|]. destruct stale; [apply tell_or_stop_told|].
    destruct (link_race _ inputs resolved d1) as [r d2] eqn:Hr. apply link_race_same in Hr as (_ & _ & es & Hr).
    exists es. by destruct r.
  - exists []. by apply told_nil.
  - unfold get_account_info. destruct (d_cached d) as [info|]; [apply tell_or_stop_told|].
    destruct (call_load d) as [r d1] eqn:Hl. apply call_load_told in Hl as [Ht _].
    eapply told_after; [exact Ht|]. destruct r as [m|e]; [|apply tell_or_stop_told].
    match goal with |- context [tell_or_stop _ ?d3] => apply (told_after _ d3 _ []); [|apply tell_or_stop_told] end.
    apply told_nil; by destruct (d_ops _).
  - unfold logout. match goal with |- context [tell LoggedOut ?d1] => apply (told_after _ d1 _ []) end;
      [|eexists; apply told_tell].
    destruct (on_store (on_backend clear_registration) _) as [r1 w1] eqn:H1'. cbn [snd].
    destruct (on_store clear w1) as [r2 w2] eqn:H2'.
    apply on_store_inv in H1' as (q1 & _ & ->). apply on_store_inv in H2' as (q2 & _ & ->). by apply told_nil.
  - eexists. apply (told_tell ShuttingDown).
Qed.

(** ** Well-formed systems *)
Record slot_ok (sl : SL) : Prop := mkSlotOk {
  slot_bound : length (k_queue sl) <= OP_CHANNEL_CAP;
  slot_history : k_accepted sl = k_executed sl ++ k_queue sl;
  slot_task : task_inv (k_task sl);
  slot_waits : t_phase (k_task sl) <> Opening
}.
Record sys_ok (s : Y) : Prop := mkSysOk {
  sys_link k : y_link s = Some k -> is_Some (y_tasks s !! k);
  sys_cached : ops_cached (view s);
  sys_slots k sl : y_tasks s !! k = Some sl -> slot_ok sl
}.

Lemma task_inv_resume s (t : T) : task_inv t -> task_inv (resume s t).
Proof. intros [Hf Hr Ha Hp]. by constructor. Qed.

Lemma slot_new_ok m s : slot_ok (slot_new m s).
Proof. constructor; [apply Nat.le_0_l|done|apply task_inv_new|done]. Qed.

Lemma enqueue_same (sl : SL) : slot_ok sl -> slot_ok (enqueue (k_queue sl) sl).
Proof. intros [Hb Hh Ht Hw]. constructor; simpl; [done| |done|done]. by rewrite drop_all, app_nil_r. Qed.

Lemma enqueue_one op (sl : SL) :
  slot_ok sl -> length (k_queue sl) < OP_CHANNEL_CAP -> slot_ok (enqueue (k_queue sl ++ [op]) sl).
Proof.
  intros [Hb Hh Ht Hw] Hl. constructor; simpl; [rewrite length_app; simpl; lia| |done|done].
  by rewrite drop_app_length, app_assoc, Hh.
Qed.

(** What the dispatcher holds after its turn: a new channel, or the one it had
    with at most one op more, or none. *)
Definition turn_links (new : option Mgr) (d' : D) (s : Y) : Prop :=
  match new with
  | Some m => d_ops d' = spawn_manager_task m
  | None =>
      d_ops d' = None \/ d_ops d' = d_ops (view s) \/
      exists ch op, d_ops (view s) = Some ch /\ length (op_queue ch) < OP_CHANNEL_CAP /\ op_alive ch = true /\
        d_ops d' = Some (mkOps (op_manager ch) (op_queue ch ++ [op]) true)
  end.

Lemma view_ops (s : Y) ch :
  d_ops (view s) = Some ch -> exists k sl, y_link s = Some k /\ y_tasks s !! k = Some sl /\ ch = channel_of sl.
Proof.
  simpl. destruct (y_link s) as [k|]; [|done]. simpl. destruct (y_tasks s !! k) as [sl|] eqn:Hk; [|done].
  intros [= <-]. by exists k, sl.
Qed.

Lemma view_link (s : Y) k sl :
  y_link s = Some k -> y_tasks s !! k = Some sl -> d_ops (view s) = Some (channel_of sl).
Proof. intros Hl Hk. simpl. rewrite Hl. simpl. by rewrite Hk. Qed.

Lemma view_linked (s : Y) k :
  y_link s = Some k -> view s = mkDispatcher (y_world s) (channel_of <$> y_tasks s !! k) (y_cached s) (y_running s).
Proof. intros Hl. unfold view. by rewrite Hl. Qed.

Lemma absorb_view new (d' : D) (s : Y) :
  sys_ok s -> turn_links new d' s -> view (absorb new d' s) = d'.
Proof.
  intros Hs Hd. destruct d' as [w o c r]. unfold turn_links, absorb in *. cbn [d_world d_ops d_cached d_running] in *.
  destruct new as [m|].
  - rewrite (view_linked _ (length (y_tasks s))) by done. cbn [y_world y_cached y_running y_tasks].
    rewrite list_lookup_middle by done. by rewrite Hd.
  - destruct o as [ch|]; [|by destruct (y_link s)].
    assert (Hv : exists ch0, d_ops (view s) = Some ch0 /\ op_manager ch = op_manager ch0 /\ op_alive ch = op_alive ch0).
    { destruct Hd as [|[Hd|(ch0 & op & Hv & _ & Ha & Hd)]]; [done|by exists ch|].
      exists ch0. injection Hd as ->. by rewrite Ha. }
    destruct Hv as (ch0 & Hv & Hm & Ha). apply view_ops in Hv as (k & sl & Hl & Hk & ->). rewrite Hl.
    rewrite (view_linked _ k) by done. cbn [y_world y_cached y_running y_tasks].
    rewrite list_lookup_alter_eq, Hk. destruct ch as [m q a]. simpl in Hm, Ha. rewrite Hm, Ha.
    done.
Qed.

Lemma absorb_ok new (d' : D) (s : Y) :
  sys_ok s -> turn_links new d' s -> ops_cached d' -> sys_ok (absorb new d' s).
Proof.
  intros Hs Hd Hc. constructor; [|by rewrite absorb_view|].
  - intros k. unfold absorb. destruct new as [m|]; simpl.
    { intros [= <-]. rewrite list_lookup_middle by done. by eexists. }
    destruct (y_link s) as [k0|] eqn:Hl; [|done]. destruct (d_ops d'); [|done]. simpl. intros [= <-].
    rewrite list_lookup_alter_eq. apply fmap_is_Some. by apply (sys_link _ Hs).
  - intros k sl. unfold absorb. destruct new as [m|]; simpl.
    { intros [Hk|[_ Hk]]%lookup_app_Some; [by eapply (sys_slots _ Hs)|].
      apply list_lookup_singleton_Some in Hk as [_ <-]. apply slot_new_ok. }
    destruct (y_link s) as [k0|] eqn:Hl; [|by apply (sys_slots _ Hs)].
    destruct (d_ops d') as [ch|] eqn:Ho; [|by apply (sys_slots _ Hs)]. simpl.
    destruct (sys_link _ Hs k0 Hl) as [sl0 Hk0]. pose proof (sys_slots _ Hs k0 sl0 Hk0) as Hok.
    destruct (decide (k = k0)) as [->|Hne]; [|rewrite list_lookup_alter_ne by done; by apply (sys_slots _ Hs)].
    rewrite list_lookup_alter_eq, Hk0. intros [= <-]. unfold turn_links in Hd. rewrite Ho, (view_link s k0 sl0 Hl Hk0) in Hd.
    destruct Hd as [|[Hd|(ch0 & op & Hv & Hb & _ & Hd)]]; [done|injection Hd as ->; by apply enqueue_same|].
    injection Hv as <-. injection Hd as ->. by apply enqueue_one.
Qed.

Lemma link_after_turn c (s : Y) :
  can_accept c s = true ->
  link_after c (view s) = None \/ link_after c (view s) = d_ops (view s) \/
  exists ch op, d_ops (view s) = Some ch /\ length (op_queue ch) < OP_CHANNEL_CAP /\ op_alive ch = true /\
    link_after c (view s) = Some (mkOps (op_manager ch) (op_queue ch ++ [op]) true).
Proof.
  unfold can_accept, link_after. destruct (op_of c) as [op|]; [|destruct c; auto].
  generalize (d_ops (view s)). intros [ch|]; simpl; [|by left].
  destruct (op_alive ch) eqn:Ha; simpl; [|by left]. intros Hb%Nat.ltb_lt. right. right. by exists ch, op.
Qed.

Lemma command_links c inputs resolved (s : Y) :
  sys_ok s -> can_accept c s = true ->
  turn_links (spawned c inputs resolved (view s)) (dispatch c inputs resolved (view s)) s.
Proof.
  intros Hs Ha. pose proof (dispatch_link c inputs resolved _ (sys_cached _ Hs)) as Hd.
  unfold turn_links. destruct (spawned _ _ _ _); [exact Hd|]. rewrite Hd. by apply link_after_turn.
Qed.

Lemma dispatch_cached c inputs resolved (d : D) :
  d_running d = true -> ops_cached d -> ops_cached (dispatch c inputs resolved d).
Proof. intros Hr Hd. pose proof (dispatch_step_cached (DCmd c inputs resolved) d Hd) as Hs. unfold dispatch_step in Hs. by rewrite Hr in Hs. Qed.

(** What taking an input does to the slot. *)
Lemma wake_slot_inv linked wake sl i sl' :
  wake_slot linked wake sl = Some (i, sl') ->
  k_manager sl' = k_manager sl /\ k_task sl' = k_task sl /\ k_accepted sl' = k_accepted sl /\
  (t_phase (k_task sl) = Parked \/ t_phase (k_task sl) = Pumping) /\
  ((exists op, wake = TakeOp /\ i = WakeOp op /\ k_queue sl = op :: k_queue sl' /\ k_executed sl' = k_executed sl ++ [op]) \/
   (sl' = sl /\ (forall op, i <> WakeOp op) /\ (i = WakeClosed -> linked = false /\ k_queue sl = []))).
Proof.
  unfold wake_slot. destruct (t_phase (k_task sl)) eqn:Hp, wake; try discriminate;
    try (destruct (k_queue sl) as [|op rest] eqn:Hq); try destruct linked; try discriminate;
    intros [= <- <-]; (do 3 (split; [done|])); (split; [auto|]); (left; by exists op) || (right; by repeat split).
Qed.

Lemma run_slot_ok k ms i (sl sl' : SL) (s : Y) linked wake :
  sys_ok s -> y_tasks s !! k = Some sl -> wake_slot linked wake sl = Some (i, sl') ->
  sys_ok (run_slot k ms i sl' s).
Proof.
  intros Hs Hk Hw. destruct (sys_slots _ Hs k sl Hk) as [Hb Hh Ht Hwait].
  apply wake_slot_inv in Hw as (Hm & Hkt & Hka & _ & Hw). constructor; simpl.
  - intros k0 Hl. destruct (decide (k0 = k)) as [->|].
    + rewrite list_lookup_insert_eq by (by eapply lookup_lt_Some). by eexists.
    + rewrite list_lookup_insert_ne by done. by apply (sys_link _ Hs).
  - intros ch Hch. apply view_ops in Hch as (k0 & sl0 & Hl & Hk0 & ->). simpl in *.
    destruct (sys_link _ Hs k0 Hl) as [sl1 Hk1].
    pose proof (sys_cached _ Hs _ (view_link _ _ _ Hl Hk1)) as Hc. simpl in Hc. rewrite Hc. do 2 f_equal.
    destruct (decide (k0 = k)) as [->|].
    + rewrite list_lookup_insert_eq in Hk0 by (by eapply lookup_lt_Some). injection Hk0 as <-. simpl. congruence.
    + rewrite list_lookup_insert_ne in Hk0 by done. congruence.
  - intros k0 sl0. destruct (decide (k0 = k)) as [->|].
    2:{ rewrite list_lookup_insert_ne by done. by apply (sys_slots _ Hs). }
    rewrite list_lookup_insert_eq by (by eapply lookup_lt_Some). intros [= <-]. constructor; simpl.
    + destruct Hw as [(op & _ & _ & Hq & _)|[-> _]]; [rewrite Hq in Hb; simpl in Hb; lia|done].
    + rewrite Hka, Hh. destruct Hw as [(op & _ & _ & Hq & ->)|[-> _]]; [|done]. by rewrite Hq, <- app_assoc.
    + rewrite Hkt. by apply task_step_inv, task_inv_resume.
    + apply task_step_settled.
Qed.

Lemma sys_step_ok (s s' : Y) u : sys_ok s -> sys_step s u = Some s' -> sys_ok s'.
Proof.
  intros Hs. unfold sys_step. destruct (y_running s) eqn:Hrun; [|done]. destruct u as [c inputs resolved| |k ms wake].
  - destruct (can_accept c s) eqn:Ha; [|done]. intros [= <-].
    apply absorb_ok; [done|by apply command_links|by apply dispatch_cached, sys_cached].
  - intros Hn. apply Some_inj in Hn as <-. apply absorb_ok; [done|by right; left|]. exact (sys_cached _ Hs).
  - destruct (y_tasks s !! k) as [sl|] eqn:Hk; [|done]. simpl.
    destruct (wake_slot _ wake sl) as [[i sl']|] eqn:Hw; [|done]. intros [= <-]. by eapply run_slot_ok.
Qed.

Lemma worker_start_spec (w : Shared) :
  (exists es, says w (d_world (worker_start w)) es) /\ d_running (worker_start w) = true /\
  (d_ops (worker_start w) = None \/ exists m, d_ops (worker_start w) = spawn_manager_task m).
Proof.
  unfold worker_start. generalize LOAD_ATTEMPTS. intros n.
  assert (Hd : forall d : D, d_ops d = None -> d_running d = true ->
    (exists es, told d (load_at_startup n d) es) /\ d_running (load_at_startup n d) = true /\
    (d_ops (load_at_startup n d) = None \/ exists m, d_ops (load_at_startup n d) = spawn_manager_task m));
    [|by apply (Hd (mkDispatcher w None None true))].
  induction n as [|n IH]; intros d Ho Hr; simpl; [split; [exists []; by apply told_nil|auto]|].
  destruct (call_load d) as [[m|e] d1] eqn:Hl; apply call_load_told in Hl as (Ht & Ho1 & Hc1 & Hr1).
  - split; [|split; [simpl; congruence|right; by eexists]].
    eapply told_after; [exact Ht|]. eexists. apply (says_emit _ (d_world d1)).
  - rewrite Ho in Ho1. rewrite Hr in Hr1.
    assert (Hstop : (exists es, told d d1 es) /\ d_running d1 = true /\
      (d_ops d1 = None \/ exists m, d_ops d1 = spawn_manager_task m)) by (split; [by eexists|auto]).
    destruct (NOT_REGISTERED e); [exact Hstop|]. destruct n; [exact Hstop|].
    destruct (IH (with_dworld (delay 500 (d_world d1)) d1) Ho1 Hr1) as [Hs Hrest]. split; [|exact Hrest].
    eapply told_after; [exact Ht|]. eapply told_after; [|exact Hs]. by apply told_nil.
Qed.

Lemma system_start_ok (w : Shared) : sys_ok (system_start w).
Proof.
  unfold system_start. set (s0 := mkSystem w None true [] None).
  assert (Hs0 : sys_ok s0) by (by constructor). apply absorb_ok; [done| |apply worker_start_cached].
  destruct (worker_start_spec w) as (_ & _ & [Ho|[m Ho]]); rewrite Ho; [by left|done].
Qed.

Lemma system_start_view (w : Shared) : view (system_start w) = worker_start w.
Proof.
  unfold system_start. set (s0 := mkSystem w None true [] None).
  assert (Hs0 : sys_ok s0) by (by constructor). apply absorb_view; [done|].
  destruct (worker_start_spec w) as (_ & _ & [Ho|[m Ho]]); rewrite Ho; [by left|done].
Qed.

Lemma sys_run_ok us (s s' : Y) : sys_ok s -> sys_run us s = Some s' -> sys_ok s'.
Proof.
  revert s. induction us as [|u us IH]; intros s Hs; simpl; [by intros [= <-]|].
  destruct (sys_step s u) as [s1|] eqn:Hu; [|done]. simpl. apply IH. by eapply sys_step_ok.
Qed.

Lemma reachable_ok w (s : Y) : reachable w s -> sys_ok s.
Proof. intros [us Hr]. eapply sys_run_ok; [apply system_start_ok|exact Hr]. Qed.

(** ** What becomes of a send *)
Abbreviation y_open s := (w_open (y_world s)).
Abbreviation y_events s := (w_events (y_world s)).

(** A task has the send: its answer is still to come, queued or deferred, or the
    task has stopped with it. *)
Definition holds (send : InnerSend) (sl : SL) : Prop :=
  OpSend send ∈ k_accepted sl /\
  (t_phase (k_task sl) = Stopped \/ OpSend send ∈ k_queue sl \/
   is_Some (w_pending (t_world (k_task sl)) !! is_timestamp send)).
Definition accounted (send : InnerSend) (s : Y) : Prop :=
  Exists (reports (is_timestamp send)) (y_events s) \/ exists k sl, y_tasks s !! k = Some sl /\ holds send sl.

(** A turn of the dispatcher keeps every task and every queue, up to one op more. *)
Lemma absorb_keeps new (d' : D) (s : Y) k sl :
  sys_ok s -> turn_links new d' s -> y_tasks s !! k = Some sl ->
  exists sl', y_tasks (absorb new d' s) !! k = Some sl' /\ k_manager sl' = k_manager sl /\ k_task sl' = k_task sl /\
    k_executed sl' = k_executed sl /\ exists ops, k_queue sl' = k_queue sl ++ ops /\ k_accepted sl' = k_accepted sl ++ ops /\
      (y_link s <> Some k -> ops = []).
Proof.
  intros Hs Hd Hk.
  assert (Hsame : exists sl', Some sl = Some sl' /\ k_manager sl' = k_manager sl /\ k_task sl' = k_task sl /\
    k_executed sl' = k_executed sl /\ exists ops, k_queue sl' = k_queue sl ++ ops /\ k_accepted sl' = k_accepted sl ++ ops /\
      (y_link s <> Some k -> ops = [])).
  { exists sl. do 4 (split; [done|]). exists []. by rewrite !app_nil_r. }
  unfold absorb. destruct new as [m|]; simpl.
  { rewrite lookup_app_l by (by eapply lookup_lt_Some). by rewrite Hk. }
  destruct (y_link s) as [k0|] eqn:Hl; simpl; [|by rewrite Hk].
  destruct (d_ops d') as [ch|] eqn:Ho; simpl; [|by rewrite Hk].
  destruct (decide (k = k0)) as [->|Hne]; [|rewrite list_lookup_alter_ne by done; by rewrite Hk].
  rewrite list_lookup_alter_eq, Hk. eexists. split; [done|]. do 3 (split; [done|]). simpl.
  unfold turn_links in Hd. rewrite Ho, (view_link s k0 sl Hl Hk) in Hd.
  destruct Hd as [|[Hd|(ch0 & op & Hv & _ & _ & Hd)]]; [done| |].
  - injection Hd as ->. exists []. rewrite drop_all. by rewrite !app_nil_r.
  - injection Hv as <-. injection Hd as ->. exists [op]. simpl. by rewrite drop_app_length.
Qed.

Lemma says_reports ts {M : Type} (w w' : World P M Uuid) es :
  says w w' es -> Exists (reports ts) (w_events w) -> Exists (reports ts) (w_events w').
Proof. intros [_ ->] He. apply Exists_app. by left. Qed.

Lemma absorb_world new (d' : D) (s : Y) : y_world (absorb new d' s) = d_world d'.
Proof. unfold absorb. destruct new; [done|]. destruct (y_link s); [|done]. by destruct (d_ops d'). Qed.

Lemma absorb_accounted new (d' : D) (s : Y) send es :
  sys_ok s -> turn_links new d' s -> says (y_world s) (d_world d') es ->
  accounted send s -> accounted send (absorb new d' s).
Proof.
  intros Hs Hd Hw [He|(k & sl & Hk & Hh)]; unfold accounted; rewrite absorb_world; [left; by eapply says_reports|right].
  destruct (absorb_keeps new d' s k sl Hs Hd Hk) as (sl' & Hk' & _ & Ht & _ & ops & Hq & Hacc & _). exists k, sl'. split; [done|].
  unfold holds in *. rewrite Ht, Hq, Hacc. rewrite !elem_of_app. tauto.
Qed.

(** A turn of a task: its events, what it answers, and that nothing it held is
    forgotten. *)
Lemma resume_world s (t : T) :
  w_events (t_world (resume s t)) = w_events s /\ w_open (t_world (resume s t)) = w_open s /\
  w_pending (t_world (resume s t)) = w_pending (t_world t).
Proof. done. Qed.

Lemma run_slot_says k ms wake (sl : SL) (s : Y) (i : Wake ServiceId Uuid) (sl' : SL) linked send :
  y_open s = true -> slot_ok sl -> wake_slot linked wake sl = Some (i, sl') ->
  let s' := run_slot k ms i sl' s in
  exists es, says (y_world s) (y_world s') es /\
    (y_tasks s !! k = Some sl -> holds send sl ->
     Exists (reports (is_timestamp send)) es \/ exists sl2, y_tasks s' !! k = Some sl2 /\ holds send sl2).
Proof.
  intros Ho Hok Hw s'. apply wake_slot_inv in Hw as (Hm & Ht & Ha & Hp & Hw).
  set (t0 := resume (y_world s) (k_task sl')).
  assert (Hi : task_inv t0) by (apply task_inv_resume; rewrite Ht; apply slot_task, Hok).
  assert (Hp0 : t_phase t0 = Parked \/ t_phase t0 = Pumping) by (simpl; by rewrite Ht).
  assert (Hns : t_phase t0 <> Stopped) by (destruct Hp0 as [->| ->]; done).
  set (t2 := task_step (Contact := Contact) t0 (ms, i)).
  assert (Hslot : y_tasks s !! k = Some sl -> exists sl2, y_tasks s' !! k = Some sl2 /\ k_queue sl2 = k_queue sl' /\
    k_accepted sl2 = k_accepted sl /\ k_task sl2 = t2).
  { intros Hk. eexists. split; [apply list_lookup_insert_eq; by eapply lookup_lt_Some|]. by repeat split. }
  assert (Hsays : forall es, says (t_world t0) (t_world t2) es -> says (y_world s) (y_world s') es) by done.
  assert (Hstep : exists es, task_evolves t0 t2 es /\
    (i = WakeOp (OpSend send) -> t_phase t2 = Stopped \/ is_Some (w_pending (t_world t2) !! is_timestamp send) \/
     Exists (reports (is_timestamp send)) es)).
  { destruct (task_step_evolves t0 (ms, i) Hi Hns Ho) as (es & He). unfold t2.
    destruct i as [[|sd| |input]| | |item|]; try (exists es; split; [exact He|discriminate]).
    destruct (task_step_answers t0 ms sd Hi Hp0 Ho) as (fs & Hf & Hr). exists fs. split; [exact Hf|]. by intros [= ->]. }
  assert (Hpt : w_pending (t_world t0) = w_pending (t_world (k_task sl))) by (simpl; by rewrite Ht).
  assert (Hot : w_open (t_world t0) = true) by exact Ho.
  assert (Hps : t_phase (k_task sl) <> Stopped) by (destruct Hp; congruence).
  clearbody t2. clearbody t0. destruct Hstep as (es & [Hes Hpend] & Hnew). exists es. split; [by apply Hsays|].
  intros Hk [Hacc Hh]. destruct (Hslot Hk) as (sl2 & Hk2 & Hq2 & Ha2 & Ht2).
  assert (Hres : Exists (reports (is_timestamp send)) es \/ t_phase t2 = Stopped \/ OpSend send ∈ k_queue sl' \/
    is_Some (w_pending (t_world t2) !! is_timestamp send)).
  { destruct (decide (t_phase t2 = Stopped)) as [|Hn]; [by right; left|].
    destruct Hh as [Hs|[Hq|Hpd]]; [done| |rewrite <- Hpt in Hpd; destruct (Hpend Hot Hn _ Hpd); tauto].
    destruct Hw as [(op & _ & -> & Hq' & _)|(-> & _)]; [|tauto].
    rewrite Hq' in Hq. apply elem_of_cons in Hq as [<-|Hq]; [|tauto]. specialize (Hnew eq_refl). tauto. }
  rewrite <- Ht2, <- Hq2 in Hres. destruct Hres as [He|Hres]; [by left|right]. exists sl2.
  split; [done|]. split; [by rewrite Ha2|exact Hres].
Qed.

Lemma sys_step_accounts (s s' : Y) u :
  sys_ok s -> y_open s = true -> sys_step s u = Some s' ->
  y_open s' = true /\ (forall send, accounted send s -> accounted send s') /\
  match u with TurnCmd (SendMessage r b ts) _ _ => accounted (mkInnerSend r b ts) s' | _ => True end.
Proof.
  intros Hs Ho. unfold sys_step. destruct (y_running s) eqn:Hrun; [|done]. destruct u as [c inputs resolved| |k ms wake].
  - destruct (can_accept c s) eqn:Ha; [|done]. intros Hn. apply Some_inj in Hn as <-.
    pose proof (command_links c inputs resolved s Hs Ha) as Hd.
    destruct (dispatch_told c inputs resolved (view s)) as (es & Hes).
    split; [|split].
    + rewrite absorb_world. destruct Hes as [-> _]. exact Ho.
    + intros send. by eapply absorb_accounted.
    + destruct c; try done. cbn [spawned dispatch] in *. pose proof (forward_spec (OpSend (mkInnerSend recipient body timestamp))
        (fun r => SendError r (Some timestamp)) (view s)) as Hf. simpl in Hd.
      unfold forwarded in Hf. unfold can_accept in Ha. cbn [op_of] in Ha.
      set (d' := forward _ _ _) in *.
      assert (Herr : forall reason, told (view s) d' [SendError reason (Some timestamp)] ->
        accounted (mkInnerSend recipient body timestamp) (absorb None d' s)).
      { intros reason [_ He]. left. rewrite absorb_world, He. change (w_open (d_world (view s))) with (y_open s).
        rewrite Ho. apply Exists_app. right. left. right. by eexists. }
      destruct (d_ops (view s)) as [ch|] eqn:Hv; [|by destruct Hf as [_ Hf]; eapply Herr].
      pose proof Hv as Hv'. apply view_ops in Hv' as (k & sl & Hl & Hk & ->).
      simpl in Hf. destruct (running sl); destruct Hf as [Hf1 Hf2]; [|by eapply Herr].
      right. exists k. eexists. unfold absorb. rewrite Hl, Hf1. split; [cbn [y_tasks]; by rewrite list_lookup_alter_eq, Hk|].
      split; [|right; left]; simpl; rewrite ?drop_app_length; apply elem_of_app; right; by apply list_elem_of_singleton.
  - intros Hn. apply Some_inj in Hn as <-. rewrite absorb_world. split; [exact Ho|]. split; [|done].
    intros send. apply (absorb_accounted None (stop (view s)) s send []); [done|by right; left|by apply says_quiet].
  - destruct (y_tasks s !! k) as [sl|] eqn:Hk; [|done]. simpl.
    destruct (wake_slot _ wake sl) as [[i sl']|] eqn:Hw; [|done]. intros Hn. apply Some_inj in Hn as <-.
    pose proof (sys_slots _ Hs k sl Hk) as Hok. split; [|split; [|done]].
    + destruct (run_slot_says k ms wake sl s i sl' _ (mkInnerSend "" "" 0) Ho Hok Hw) as (es & [-> _] & _). exact Ho.
    + intros send [He|(k1 & sl1 & Hk1 & Hh)];
        destruct (run_slot_says k ms wake sl s i sl' _ send Ho Hok Hw) as (es & Hes & Hacc); [left; by eapply says_reports|].
      destruct (decide (k1 = k)) as [->|Hne].
      * rewrite Hk in Hk1. injection Hk1 as <-. destruct (Hacc Hk Hh) as [He|(sl2 & Hk2 & Hh2)]; [left|right; by exists k, sl2].
        destruct Hes as [_ ->]. rewrite Ho. apply Exists_app. by right.
      * right. exists k1, sl1. split; [|done]. simpl. by rewrite list_lookup_insert_ne.
Qed.

Lemma sys_run_accounts us (s s' : Y) send :
  sys_ok s -> y_open s = true -> sys_run us s = Some s' -> accounted send s -> accounted send s'.
Proof.
  revert s. induction us as [|u us IH]; intros s Hs Ho; simpl; [by intros [= <-]|].
  destruct (sys_step s u) as [s1|] eqn:Hu; [|done]. simpl. intros Hrun Ha.
  destruct (sys_step_accounts s s1 u Hs Ho Hu) as (Ho1 & Hacc & _).
  eapply IH; [by eapply sys_step_ok|exact Ho1|exact Hrun|by apply Hacc].
Qed.

(** A send that a link in flight takes from the channel leaves no trace. *)
Lemma link_race_drops name pre recipient body ts post resolved (d : D) :
  link_race name (pre ++ RaceCmd (SendMessage recipient body ts) :: post) resolved d =
  link_race name (pre ++ post) resolved d.
Proof. induction pre as [|i pre IH]; [done|]. simpl. destruct i as [[]|]; done. Qed.

(** C7: what becomes of a send. In every reachable state, each [SendMessage]
    that the command loop of the dispatcher handled is answered by an event with
    its timestamp, or it was accepted by the channel of some task: there it is still
    queued, or the task took it and keeps it deferred, or the task has stopped, and
    what it had not answered gets no answer. A [SendMessage] that arrives while a
    link is in flight is not handled: the dispatcher drops it, and the turn is the
    one it would have been without it. *)
Theorem sends_accounted us (w : Shared) (s : Y) recipient body ts :
  w_open w = true -> sys_run us (system_start w) = Some s ->
  (forall inputs resolved, TurnCmd (SendMessage recipient body ts) inputs resolved ∈ us ->
     Exists (reports ts) (y_events s) \/
     exists k sl, y_tasks s !! k = Some sl /\ OpSend (mkInnerSend recipient body ts) ∈ k_accepted sl /\
       (t_phase (k_task sl) = Stopped \/ OpSend (mkInnerSend recipient body ts) ∈ k_queue sl \/
        is_Some (w_pending (t_world (k_task sl)) !! ts))) /\
  (forall name pre post resolved,
     sys_step s (TurnCmd (LinkDevice name) (pre ++ RaceCmd (SendMessage recipient body ts) :: post) resolved) =
     sys_step s (TurnCmd (LinkDevice name) (pre ++ post) resolved)).
Proof.
  intros Ho Hrun. split.
  2:{ intros name pre post resolved. unfold sys_step. cbn [spawned dispatch]. unfold link_device.
      destruct (probe (view s)) as [[] d1]; by rewrite ?link_race_drops. }
  intros inputs resolved Hin. change (accounted (mkInnerSend recipient body ts) s).
  assert (Hs := system_start_ok w). assert (Ho0 : y_open (system_start w) = true).
  { destruct (worker_start_spec w) as ((es & [Hw _]) & _). unfold system_start. by rewrite absorb_world, Hw. }
  revert Hs Ho0 Hrun. generalize (system_start w). clear Ho.
  induction us as [|u us IH]; intros s0 Hs Ho; simpl; [by apply not_elem_of_nil in Hin|].
  destruct (sys_step s0 u) as [s1|] eqn:Hu; [|done]. simpl. intros Hrun.
  destruct (sys_step_accounts s0 s1 u Hs Ho Hu) as (Ho1 & _ & Hacc). pose proof (sys_step_ok _ _ _ Hs Hu) as Hs1.
  apply elem_of_cons in Hin as [<-|Hin]; [by eapply sys_run_accounts|by eapply IH].
Qed.

(** ** The op channels are bounded queues *)

(** C22: the op channels are bounded FIFO queues. In every reachable state every
    task has at most eight ops waiting, and the ops ever sent to it are exactly
    those it took, in the order they were sent, followed by those that wait: none
    is lost, duplicated or overtaken, also not across a logout or a relink. Every
    task waits or has stopped, with its counters in their bounds, and the
    dispatcher's sender belongs to a task whose identity is the cached one. *)
Theorem op_channels_fifo (w : Shared) (s : Y) :
  reachable w s ->
  (forall k sl, y_tasks s !! k = Some sl ->
     length (k_queue sl) <= OP_CHANNEL_CAP /\ k_accepted sl = k_executed sl ++ k_queue sl /\
     t_phase (k_task sl) <> Opening /\ task_inv (k_task sl)) /\
  (forall k, y_link s = Some k ->
     exists sl, y_tasks s !! k = Some sl /\ y_cached s = Some (from_manager (k_manager sl))).
Proof.
  intros Hs%reachable_ok. split.
  - intros k sl Hk. by destruct (sys_slots _ Hs k sl Hk).
  - intros k Hl. destruct (sys_link _ Hs k Hl) as [sl Hk]. exists sl. split; [done|].
    exact (sys_cached _ Hs _ (view_link _ _ _ Hl Hk)).
Qed.

(** *** The system refines the dispatcher

    What a turn is for the dispatcher: its own step, or a step of a task, which
    may take the first op of the dispatcher's channel and may end the task. *)
Definition task_turn (d d' : D) : Prop :=
  d_cached d' = d_cached d /\ d_running d' = d_running d /\
  match d_ops d with
  | None => d_ops d' = None
  | Some ch =>
      exists ops alive, d_ops d' = Some (mkOps (op_manager ch) ops alive) /\ (op_alive ch = false -> alive = false) /\
        (ops = op_queue ch \/ exists op, op_queue ch = op :: ops)
  end.

Lemma run_slot_view k ms i (sl sl' : SL) (s : Y) linked wake :
  y_tasks s !! k = Some sl -> wake_slot linked wake sl = Some (i, sl') ->
  task_turn (view s) (view (run_slot k ms i sl' s)).
Proof.
  intros Hk Hw. apply wake_slot_inv in Hw as (Hm & Ht & Ha & Hp & Hw). split; [done|]. split; [done|].
  simpl. destruct (y_link s) as [k0|]; [|done]. simpl. destruct (decide (k0 = k)) as [->|Hne].
  - rewrite Hk, list_lookup_insert_eq by (by eapply lookup_lt_Some). simpl. do 2 eexists. split; [by rewrite <- Hm|].
    split.
    + unfold running. by destruct Hp as [-> | ->].
    + destruct Hw as [(op & _ & _ & -> & _)|[-> _]]; [right; by eexists|by left].
  - rewrite list_lookup_insert_ne by done. destruct (y_tasks s !! k0) as [sl0|]; [|done]. simpl.
    do 2 eexists. split; [done|]. split; [done|]. by left.
Qed.

(** The composed system refines the dispatcher on its own. Seen through what
    the dispatcher holds, the start of the system is the dispatcher's start, a
    command or the end of the commands is exactly the dispatcher's step, and any
    turn of a task changes neither identity nor link but for taking the oldest op
    of the channel or for the task's death. *)
Theorem system_refines_dispatcher (w : Shared) (s s' : Y) (u : U) :
  view (system_start w) = worker_start w /\
  (reachable w s -> sys_step s u = Some s' ->
   match u with
   | TurnCmd c inputs resolved => view s' = dispatch_step (view s) (DCmd c inputs resolved)
   | TurnCmdsClosed => view s' = dispatch_step (view s) DClosed
   | TurnTask _ _ _ => task_turn (view s) (view s')
   end).
Proof.
  split; [apply system_start_view|]. intros Hs%reachable_ok. unfold sys_step, dispatch_step.
  cbn [view d_running]. destruct (y_running s) eqn:Hrun; [|done]. destruct u as [c inputs resolved| |k ms wake].
  - destruct (can_accept c s) eqn:Ha; [|done]. intros Hn. apply Some_inj in Hn as <-.
    apply absorb_view; [done|by apply command_links].
  - intros Hn. apply Some_inj in Hn as <-. apply absorb_view; [done|by right; left].
  - destruct (y_tasks s !! k) as [sl|] eqn:Hk; [|done]. simpl.
    destruct (wake_slot _ wake sl) as [[i sl']|] eqn:Hw; [|done]. intros [= <-]. by eapply run_slot_view.
Qed.

(** *** The dispatcher is never stuck *)
Lemma sys_step_task (s : Y) k ms wake sl i sl' :
  y_running s = true -> y_tasks s !! k = Some sl ->
  wake_slot (bool_decide (y_link s = Some k)) wake sl = Some (i, sl') ->
  sys_step s (TurnTask k ms wake) = Some (run_slot k ms i sl' s).
Proof. intros Hr Hk Hw. unfold sys_step. rewrite Hr, Hk. simpl. by rewrite Hw. Qed.

Lemma sys_step_cmd (s : Y) c inputs resolved :
  y_running s = true -> can_accept c s = true -> exists s', sys_step s (TurnCmd c inputs resolved) = Some s'.
Proof. intros Hr Ha. unfold sys_step. rewrite Hr, Ha. by eexists. Qed.

Lemma dispatcher_progress (s : Y) c inputs resolved :
  sys_ok s -> y_running s = true ->
  (exists s', sys_step s (TurnCmd c inputs resolved) = Some s') \/
  (exists k sl, y_link s = Some k /\ y_tasks s !! k = Some sl /\ length (k_queue sl) = OP_CHANNEL_CAP /\
     forall ms, exists s1 s2, sys_step s (TurnTask k ms TakeOp) = Some s1 /\
       sys_step s1 (TurnCmd c inputs resolved) = Some s2).
Proof.
  intros Hs Hrun.
  destruct (can_accept c s) eqn:Ha; [left; by apply sys_step_cmd|right].
  unfold can_accept in Ha. destruct (op_of c) as [op|] eqn:Hop; [|done].
  destruct (d_ops (view s)) as [ch|] eqn:Hv; [|done]. apply view_ops in Hv as (k & sl & Hl & Hk & ->).
  simpl in Ha. apply orb_false_iff in Ha as [Hr Hlen%Nat.ltb_ge].
  pose proof (sys_slots _ Hs k sl Hk) as [Hb _ _ Hw]. exists k, sl. do 2 (split; [done|]). split; [lia|]. intros ms.
  destruct (k_queue sl) as [|o rest] eqn:Hq; [simpl in Hlen; unfold OP_CHANNEL_CAP in Hlen; lia|].
  set (sl1 := mkSlot (k_manager sl) (k_task sl) rest (k_accepted sl) (k_executed sl ++ [o])).
  assert (Hstep : sys_step s (TurnTask k ms TakeOp) = Some (run_slot k ms (WakeOp o) sl1 s)).
  { apply (sys_step_task s k ms TakeOp sl); [done..|]. unfold wake_slot. rewrite Hq. unfold running in Hr.
    by destruct (t_phase (k_task sl)). }
  eexists. destruct (sys_step_cmd (run_slot k ms (WakeOp o) sl1 s) c inputs resolved) as [s2 Hs2]; [done| |by exists s2].
  unfold can_accept. rewrite Hop, (view_linked _ k) by done. unfold run_slot.
  cbn [d_ops y_tasks].
  rewrite list_lookup_insert_eq by (by eapply lookup_lt_Some). apply orb_true_iff. right. apply Nat.ltb_lt.
  simpl. simpl in Hb. lia.
Qed.

(** a full op channel holds the dispatcher up for one op at most. While the
    worker runs, the dispatcher can take any command at once, or its channel is
    full and its task, which runs, can take the oldest op; after that turn the
    dispatcher takes the command, whether the op ended the task or not. *)
Theorem dispatcher_never_stuck (w : Shared) (s : Y) c inputs resolved :
  reachable w s -> y_running s = true ->
  (exists s', sys_step s (TurnCmd c inputs resolved) = Some s') \/
  (exists k sl, y_link s = Some k /\ y_tasks s !! k = Some sl /\ length (k_queue sl) = OP_CHANNEL_CAP /\
     forall ms, exists s1 s2, sys_step s (TurnTask k ms TakeOp) = Some s1 /\
       sys_step s1 (TurnCmd c inputs resolved) = Some s2).
Proof. intros Hs%reachable_ok. by apply dispatcher_progress. Qed.

(** ** Disconnected tasks

    A task whose sender is gone stays disconnected: new tasks get new places. *)
Definition disconnected (k : nat) (sl : SL) (s : Y) : Prop :=
  y_link s <> Some k /\ k < length (y_tasks s) /\
  exists sl', y_tasks s !! k = Some sl' /\ k_manager sl' = k_manager sl /\ k_accepted sl' = k_accepted sl /\
    exists ops, k_executed sl' = k_executed sl ++ ops /\ k_queue sl = ops ++ k_queue sl'.

Lemma absorb_link_new new (d' : D) (s : Y) k :
  y_link s <> Some k -> k < length (y_tasks s) -> y_link (absorb new d' s) <> Some k.
Proof.
  intros Hl Hk. unfold absorb. destruct new as [m|]; simpl; [intros Heq; apply Some_inj in Heq; lia|].
  destruct (y_link s); [|done]. by destruct (d_ops d').
Qed.

Lemma absorb_disconnected new (d' : D) (s : Y) k sl :
  sys_ok s -> turn_links new d' s -> disconnected k sl s -> disconnected k sl (absorb new d' s).
Proof.
  intros Hs Hd (Hl & Hlt & sl1 & Hk & Hm & Ha & ops & He & Hq).
  destruct (absorb_keeps new d' s k sl1 Hs Hd Hk) as (sl2 & Hk2 & Hm2 & _ & He2 & ops2 & Hq2 & Ha2 & Hnone).
  rewrite (Hnone Hl), app_nil_r in *. split; [by apply absorb_link_new|]. split; [by eapply lookup_lt_Some|].
  exists sl2. split; [done|]. split; [congruence|]. split; [congruence|]. exists ops. split; congruence.
Qed.

Lemma sys_step_disconnected (s s' : Y) u k sl :
  sys_ok s -> sys_step s u = Some s' -> disconnected k sl s -> disconnected k sl s'.
Proof.
  intros Hs. unfold sys_step. destruct (y_running s) eqn:Hrun; [|done]. destruct u as [c inputs resolved| |k0 ms wake].
  - destruct (can_accept c s) eqn:Ha; [|done]. intros Hn. apply Some_inj in Hn as <-.
    apply absorb_disconnected; [done|by apply command_links].
  - intros Hn. apply Some_inj in Hn as <-. apply absorb_disconnected; [done|by right; left].
  - destruct (y_tasks s !! k0) as [sl0|] eqn:Hk0; [|done]. simpl.
    destruct (wake_slot _ wake sl0) as [[i sl0']|] eqn:Hw; [|done]. intros Hn. apply Some_inj in Hn as <-.
    intros (Hl & Hlt & sl1 & Hk & Hm & Ha & ops & He & Hq). split; [done|]. simpl. rewrite length_insert. split; [done|].
    destruct (decide (k = k0)) as [->|Hne]; [|rewrite list_lookup_insert_ne by done; exists sl1; repeat split; eauto].
    rewrite list_lookup_insert_eq by done. rewrite Hk0 in Hk. injection Hk as <-. eexists. split; [done|]. simpl.
    apply wake_slot_inv in Hw as (Hm' & _ & Ha' & _ & Hw). split; [congruence|]. split; [congruence|].
    destruct Hw as [(op & _ & _ & Hq' & He')|(-> & _)]; [|by exists ops].
    exists (ops ++ [op]). rewrite He', He, Hq, Hq', <- !app_assoc. by split.
Qed.

Lemma disconnected_refl k sl (s : Y) :
  y_link s <> Some k -> y_tasks s !! k = Some sl -> disconnected k sl s.
Proof.
  intros Hl Hk. split; [done|]. split; [by eapply lookup_lt_Some|]. exists sl. do 3 (split; [done|]).
  exists []. by rewrite app_nil_r.
Qed.

Lemma sys_run_disconnected us (s s' : Y) k sl :
  sys_ok s -> sys_run us s = Some s' -> disconnected k sl s -> disconnected k sl s'.
Proof.
  revert s. induction us as [|u us IH]; intros s Hs; simpl; [by intros [= <-]|].
  destruct (sys_step s u) as [s1|] eqn:Hu; [|done]. simpl. intros Hrun Hd.
  eapply IH; [by eapply sys_step_ok|exact Hrun|by eapply sys_step_disconnected].
Qed.

(** C16: logging out cuts the session's task off. After a [Logout] the dispatcher
    holds no op channel and no cached identity. Whatever happens then, relinking
    included, no task that existed receives another op: what it still takes are
    the ops that waited when the user logged out, in their order, at most eight. *)
Theorem logout_cuts_tasks_off us (w : Shared) (s s1 s2 : Y) inputs resolved k sl :
  reachable w s -> sys_step s (TurnCmd Logout inputs resolved) = Some s1 -> y_tasks s !! k = Some sl ->
  sys_run us s1 = Some s2 ->
  y_link s1 = None /\ y_cached s1 = None /\ y_link s2 <> Some k /\
  exists sl' ops, y_tasks s2 !! k = Some sl' /\ k_manager sl' = k_manager sl /\ k_accepted sl' = k_accepted sl /\
    k_executed sl' = k_executed sl ++ ops /\ ops `prefix_of` k_queue sl /\ length ops <= OP_CHANNEL_CAP.
Proof.
  intros Hs%reachable_ok Hstep Hk Hrun. pose proof (sys_step_ok _ _ _ Hs Hstep) as Hs1.
  assert (Hl1 : y_link s1 = None /\ y_cached s1 = None /\ y_tasks s1 = y_tasks s).
  { unfold sys_step in Hstep. destruct (y_running s); [|done]. cbn [can_accept op_of] in Hstep.
    apply Some_inj in Hstep as <-. unfold absorb. cbn [spawned dispatch]. by destruct (y_link s). }
  destruct Hl1 as (Hl & Hc & Ht). do 2 (split; [done|]).
  assert (Hd : disconnected k sl s1) by (apply disconnected_refl; [by rewrite Hl|by rewrite Ht]).
  destruct (sys_run_disconnected us s1 s2 k sl Hs1 Hrun Hd) as (Hl2 & _ & sl' & Hk' & Hm & Ha & ops & He & Hq).
  split; [done|]. exists sl', ops. do 4 (split; [done|]). split; [by exists (k_queue sl')|].
  destruct (sys_slots _ Hs k sl Hk) as [Hb _ _ _]. rewrite Hq, length_app in Hb. lia.
Qed.
End system.

(** ** Witnesses *)
From S2P Require Import Concrete.

#[local] Existing Instances canonical_order plain_debug string_ids string_contact string_json.

Section concrete_system.
Abbreviation P := (PddbStore (StoreBackend MockBackend) bytes).

(** A manager whose sends succeed and advance the recipient's session, of a
    device that is registered. *)
#[local] Instance ratcheting_presage : Presage P unit string string := {|
  send_message sid _ _ := fun '(m, p) => (5%N, Sent, (m, (store_session Aci (mkAddress sid 1) [x07] p).2));
  request_contacts st := (0%N, Ok tt, st);
  lookup_username _ st := (0%N, Ok None, st);
  retrieve_profile_by_uuid _ _ st := (0%N, Ok None, st);
  receive_messages st := (0%N, Ok tt, st);
  last_identified_close_code _ := None
|}.
Definition loaded_account : RegistrationInfo := mkRegistration (mkAccountInfo "xous" "aci" "+1") "pni".
#[local] Instance loading_link : PresageLink P unit := {|
  registration_data _ := loaded_account;
  load_registered p := (3%N, Ok tt, p);
  link_secondary_device name p := (9%N, (None, Err "offline"), p);
  link_dropped name p := (1%N, None, p)
|}.

Definition registered_world : World P unit string :=
  mkWorld (store_new (Buffered (buffering_new (mkMock {[ (STATE_DICT, KEY_REGISTRATION) := [x01] ]} false))) Trust)
    tt 0 [] true ∅.
Definition sys_start0 : System P unit string := system_start registered_world.
Definition sys_after (us : list (Turn string string)) : System P unit string :=
  default sys_start0 (sys_run (Contact := string) us sys_start0).
Definition cmd (c : Cmd) : Turn string string := TurnCmd c [] false.
Definition eight_ops : list (Turn string string) := replicate 8 (cmd SyncContacts).
Definition send_then_logout : list (Turn string string) := [cmd (SendMessage "u1" "hello" 77); cmd Logout].
Definition still_sends : list (Turn string string) := [TurnTask 0 5 TakeOp].

Lemma sends_accounted_witness :
  let s := sys_after send_then_logout in
  (Exists (reports 77%N) (w_events (y_world s)) \/
   exists k sl, y_tasks s !! k = Some sl /\ OpSend (mkInnerSend "u1" "hello" 77) ∈ k_accepted sl /\
     (t_phase (k_task sl) = Stopped \/ OpSend (mkInnerSend "u1" "hello" 77) ∈ k_queue sl \/
      is_Some (w_pending (t_world (k_task sl)) !! 77%N))) /\
  sys_step (Contact := string) s (TurnCmd (LinkDevice "xous") [RaceCmd (SendMessage "u1" "hello" 77)] false) =
  sys_step (Contact := string) s (TurnCmd (LinkDevice "xous") [] false).
Proof.
  intros s. assert (Hr : sys_run (Contact := string) send_then_logout sys_start0 = Some s) by (vm_compute; reflexivity).
  destruct (sends_accounted (Contact := string) send_then_logout registered_world s "u1" "hello" 77 eq_refl Hr) as [Ha Hd].
  split; [apply (Ha [] false); left|exact (Hd "xous" [] [] false)].
Defined.

Lemma op_channels_fifo_witness :
  (sl ← y_tasks (sys_after eight_ops) !! 0; Some (length (k_queue sl))) = Some 8 /\
  forall k sl, y_tasks (sys_after eight_ops) !! k = Some sl -> length (k_queue sl) <= 8.
Proof.
  split; [vm_compute; reflexivity|]. intros k sl Hk.
  assert (Hr : reachable (Contact := string) registered_world (sys_after eight_ops))
    by (exists eight_ops; vm_compute; reflexivity).
  exact (proj1 (proj1 (op_channels_fifo (Contact := string) registered_world _ Hr) k sl Hk)).
Defined.

Lemma system_refines_dispatcher_witness :
  view (sys_after [cmd SyncContacts]) = dispatch_step (worker_start registered_world) (DCmd SyncContacts [] false).
Proof.
  destruct (system_refines_dispatcher (Contact := string) registered_world sys_start0 (sys_after [cmd SyncContacts])
    (cmd SyncContacts)) as [Hv Hs].
  rewrite <- Hv. apply Hs; [exists []; reflexivity|vm_compute; reflexivity].
Defined.

Lemma dispatcher_never_stuck_witness :
  sys_step (Contact := string) (sys_after eight_ops) (cmd SyncContacts) = None /\
  exists k sl, y_link (sys_after eight_ops) = Some k /\ y_tasks (sys_after eight_ops) !! k = Some sl /\
    length (k_queue sl) = 8.
Proof.
  assert (Hn : sys_step (Contact := string) (sys_after eight_ops) (cmd SyncContacts) = None) by (vm_compute; reflexivity).
  split; [exact Hn|].
  assert (Hr : reachable (Contact := string) registered_world (sys_after eight_ops))
    by (exists eight_ops; vm_compute; reflexivity).
  assert (Hrun : y_running (sys_after eight_ops) = true) by (vm_compute; reflexivity).
  revert Hn Hr Hrun. generalize (sys_after eight_ops). intros s Hn Hr Hrun.
  destruct (dispatcher_never_stuck (Contact := string) registered_world s SyncContacts [] false Hr Hrun)
    as [[s' Hs]|(k & sl & Hl & Hk & Hq & _)]; [unfold cmd in Hn; congruence|by exists k, sl].
Defined.

(** The send that waited when the user logged out is carried out afterwards, with
    the old manager, and writes into the store just wiped. *)
Lemma logout_cuts_tasks_off_witness :
  (exists sl', y_tasks (sys_after (send_then_logout ++ still_sends)) !! 0 = Some sl' /\
     k_executed sl' `prefix_of` [OpSend (mkInnerSend "u1" "hello" 77)] /\ length (k_executed sl') = 1) /\
  (has_account_state (w_store (y_world (sys_after send_then_logout)))).1 = false /\
  (has_account_state (w_store (y_world (sys_after (send_then_logout ++ still_sends))))).1 = true /\
  w_events (y_world (sys_after (send_then_logout ++ still_sends))) =
    [LinkComplete "xous" "aci" "+1"; LoggedOut; SendComplete 77].
Proof.
  split; [|vm_compute; repeat split; reflexivity].
  set (s := sys_after [cmd (SendMessage "u1" "hello" 77)]).
  assert (Hr : reachable (Contact := string) registered_world s)
    by (exists [cmd (SendMessage "u1" "hello" 77)]; vm_compute; reflexivity).
  assert (Hq : (fun sl => (k_queue sl, k_executed sl)) <$> (y_tasks s !! 0) =
    Some ([OpSend (mkInnerSend "u1" "hello" 77)], [])) by (vm_compute; reflexivity).
  destruct (y_tasks s !! 0) as [sl|] eqn:Hk; [|discriminate]. injection Hq as Hq He0.
  destruct (logout_cuts_tasks_off (Contact := string) still_sends registered_world s (sys_after send_then_logout)
    (sys_after (send_then_logout ++ still_sends)) [] false 0 sl Hr ltac:(vm_compute; reflexivity) Hk
    ltac:(vm_compute; reflexivity)) as (_ & _ & _ & sl' & ops & Hk' & _ & _ & He & Hpre & _).
  exists sl'. split; [exact Hk'|]. rewrite Hq in Hpre. rewrite He0 in He. split; [by rewrite He|].
  assert (Hl : (fun sl => length (k_executed sl)) <$> (y_tasks (sys_after (send_then_logout ++ still_sends)) !! 0) = Some 1)
    by (vm_compute; reflexivity).
  rewrite Hk' in Hl. by injection Hl.
Defined.
End concrete_system.
