(* ===== verification/Provenance.v ===== *)
(** * Where the outcomes of sends come from

    The worker reports a send, or defers it, only when the app has asked for it,
    and an account only for a command about it: [credited Q] says that every
    timestamp it has reported or keeps deferred is one of [Q], that an account is
    reported only when [Q] allows it, and every function of the worker keeps it. *)
From S2P Require Import Prelude Codec Utf8 Text Kv Buffering Protocol Sessions Contents Store Batch Worker Send.
From S2P Require Import Receive Dispatcher ManagerTask System.

(** The sends asked for, whether an account was asked for, and how many of the
    events are older than the question. *)
Record Promise : Type := mkPromise { asked :> N -> Prop; account : Prop; since : nat }.

(** ** Reported timestamps *)
Section credited.
Context {P Mgr Uuid : Type}.
Abbreviation W := (World P Mgr Uuid).
Variable Q : Promise.

Definition reported (e : Event Uuid) : option N :=
  match e with
  | SendComplete ts => Some ts
  | SendError _ ts => ts
  | _ => None
  end.

(** The events that make the app send a command. *)
Definition trigger (e : Event Uuid) : bool :=
  match e with LinkComplete _ _ _ | AccountInfo (Ok _) => true | _ => false end.

Lemma reports_reported ts e : reports ts e <-> reported e = Some ts.
Proof.
  unfold reports. split; [by intros [->|[reason ->]]|].
  destruct e; try done; simpl; [intros [= ->]; by left|intros ->; right; by eexists].
Qed.

Definition credit (e : Event Uuid) : Prop :=
  match reported e with Some ts => Q ts | None => if trigger e then account Q else True end.

Record credited (w : W) : Prop := mkCredited {
  cr_events : Forall credit (drop (since Q) (w_events w));
  cr_pending ts : is_Some (w_pending w !! ts) -> Q ts
}.

Lemma credited_same w w' :
  w_events w' = w_events w -> w_pending w' = w_pending w -> credited w -> credited w'.
Proof. intros He Hp [Hw Hq]. constructor; [by rewrite He|]. rewrite Hp. apply Hq. Qed.

Lemma credited_store s w : credited w -> credited (set_store s w).
Proof. by apply credited_same. Qed.
Lemma credited_delay ms w : credited w -> credited (delay ms w).
Proof. by apply credited_same. Qed.

Lemma credited_on_store {Er A} (m : M P Er A) w : credited w -> credited (on_store m w).2.
Proof. destruct (on_store m w) as [r w'] eqn:Hm. apply on_store_inv in Hm as (p' & _ & ->). apply credited_store. Qed.

Lemma credited_call {A} (f : Mgr * P -> N * A * (Mgr * P)) w : credited w -> credited (manager_call f w).2.
Proof. unfold manager_call. destruct (f _) as [[ms a] [m p]]. by apply credited_same. Qed.

Lemma credited_emit e w : credit e -> credited w -> credited (emit e w).2.
Proof.
  intros He [Hw Hq]. unfold emit. destruct (w_open w); [|by constructor].
  constructor; simpl; [|done]. rewrite drop_app. apply Forall_app. split; [done|].
  apply Forall_drop. by constructor.
Qed.
Lemma credited_emit_ e w : credit e -> credited w -> credited (emit_ e w).
Proof. apply credited_emit. Qed.

Lemma credited_insert ts deadline w :
  Q ts -> credited w -> credited (set_pending (<[ts := deadline]> (w_pending w)) w).
Proof.
  intros Hts [Hw Hq]. constructor; [done|]. simpl. intros t Ht.
  destruct (decide (t = ts)) as [->|]; [done|]. rewrite lookup_insert_ne in Ht by done. by apply Hq.
Qed.

Lemma credited_delete ts w : credited w -> credited (set_pending (delete ts (w_pending w)) w).
Proof.
  intros [Hw Hq]. constructor; [done|]. simpl. intros t [d [_ Ht]%lookup_delete_Some]. apply Hq. by eexists.
Qed.

Lemma credited_forget w : credited w -> credited (set_pending ∅ w).
Proof. intros [Hw _]. constructor; [done|]. simpl. intros ts. rewrite lookup_empty. by intros []. Qed.
End credited.

Create HintDb credit_db.
#[export] Hint Resolve credited_store credited_delay credited_emit_ credited_on_store credited_call
  credited_insert credited_delete : credit_db.
#[export] Hint Extern 1 (credit _ _) => exact I : credit_db.

(** Follow a function: name the result of every call, split every branch, and keep
    that the world at hand is credited. *)
Ltac credit_call c :=
  let Hc := fresh "Hc" in
  assert (Hc : credited _ c.2) by eauto with credit_db;
  let r := fresh "r" in let w := fresh "w" in destruct c as [r w]; cbn [snd] in Hc.
Ltac credits :=
  repeat first
    [ solve [eauto with credit_db]
    | progress cbn beta zeta iota delta [snd fst]
    | match goal with
      | |- context [on_store ?m ?w] => credit_call (on_store m w)
      | |- context [manager_call ?f ?w] => credit_call (manager_call f w)
      | |- credited _ (emit_ _ _) => apply credited_emit_
      | |- credited _ (match ?x with _ => _ end) => destruct x
      | |- credited _ (snd (match ?x with _ => _ end)) => destruct x
      end ].

Section worker.
Context `{HashOrder} `{SignalMisc} `{!RustDebug}
  {St SessionRecord Mgr ServiceId Uuid Contact : Type} `{!EqDecision Uuid} `{!KvBackend St}
  `{!WireRecord SessionRecord} `{!Bincode SessionBundle} `{!Json SessionBundle} `{!Json Contact}
  `{!ServiceIdText ServiceId}
  `{!WorkerIds ServiceId Uuid} `{!ContactFields Contact Uuid}
  `{!Presage (PddbStore (StoreBackend St) SessionRecord) Mgr ServiceId Uuid}
  `{!PresageLink (PddbStore (StoreBackend St) SessionRecord) Mgr}.
Abbreviation P := (PddbStore (StoreBackend St) SessionRecord).
Abbreviation W := (World P Mgr Uuid).
Abbreviation T := (Task P Mgr Uuid).
Variable Q : Promise.
Implicit Types (w : W) (t : T).

(** ** A send *)
Lemma drop_guard_credited guard w : credited Q w -> credited Q (drop_guard guard w).
Proof. unfold drop_guard. intros Hw. credits. Qed.
Local Hint Resolve drop_guard_credited : credit_db.

Lemma finish_send_credited guard ts w : Q ts -> credited Q w -> credited Q (finish_send guard ts w).
Proof. intros Hts Hw. unfold finish_send. credits. Qed.
Local Hint Resolve finish_send_credited : credit_db.

Lemma send_loop_credited sid content ts g attempts last w :
  Q ts -> credited Q w -> credited Q (send_loop sid content ts g attempts last w).
Proof.
  intros Hts. revert last w. induction attempts as [|a attempts IH]; intros last w Hw; simpl; [credits|].
  credits.
Qed.
Local Hint Resolve send_loop_credited : credit_db.

Lemma handle_send_credited send g w :
  Q (is_timestamp send) -> credited Q w -> credited Q (handle_send (Contact := Contact) send g w).
Proof.
  intros Hts Hw. unfold handle_send. destruct (resolve_recipient _ w) as [r w1] eqn:Hr.
  apply resolve_reads in Hr as (p' & -> & _). assert (Hw1 : credited Q (set_store p' w)) by auto with credit_db.
  credits.
Qed.
Local Hint Resolve handle_send_credited : credit_db.

(** ** Receiving *)
Lemma confirm_receipts_credited tss w : credited Q w -> credited Q (confirm_receipts tss w).2.
Proof.
  revert w. induction tss as [|ts tss IH]; intros w Hw; simpl; [done|].
  destruct (w_pending w !! ts) as [d|] eqn:Ht; [|by apply IH].
  assert (Hts : Q ts) by (apply (cr_pending _ _ Hw); by eexists).
  pose proof (credited_emit Q (SendComplete ts) _ Hts (credited_delete Q ts w Hw)) as He.
  destruct (emit _ _) as [[] w1]; [by apply IH|done].
Qed.
Local Hint Resolve confirm_receipts_credited : credit_db.

Lemma sender_info_credited sid w : credited Q w -> credited Q (sender_info (Contact := Contact) sid w).2.
Proof. intros Hw. unfold sender_info. credits. Qed.

Lemma report_text_credited c txt group fetches w :
  credited Q w -> credited Q (report_text (Contact := Contact) c txt group fetches w).2.
Proof.
  intros Hw. unfold report_text. pose proof (sender_info_credited (sender (metadata c)) w Hw) as Hs.
  destruct (sender_info _ w) as [[ph nm] w1]. cbn [snd] in Hs.
  pose proof (credited_emit Q (Message (service_id_string (sender (metadata c))) ph nm txt
    (timestamp (metadata c)) group) w1 I Hs) as He.
  by destruct (emit _ w1).
Qed.
Local Hint Resolve report_text_credited : credit_db.

Lemma process_received_credited item fetches w :
  credited Q w -> credited Q (process_received (Contact := Contact) (ServiceId := ServiceId) item fetches w).2.
Proof.
  intros Hw. destruct item as [c| |]; simpl; [|credits..]. unfold process_content.
  assert (Hc : forall tss, credited Q (let '(alive, w1) := confirm_receipts tss w in (alive, fetches, w1)).2).
  { intros tss. pose proof (confirm_receipts_credited tss w Hw) as Hr. by destruct (confirm_receipts tss w). }
  destruct (body c) as [|dm|[[dm|]|]| |rtype tss| | | | |]; simpl; try done;
    first [ case_bool_decide; credits | destruct (receipt_type rtype); [apply Hc|done..] ].
Qed.

Lemma sweep_credited w : credited Q w -> credited Q (sweep_expired_pending_sends w).
Proof.
  intros Hw. unfold sweep_expired_pending_sends.
  assert (He : Forall Q (expired_sends (w_now w) (w_pending w))).
  { apply Forall_forall. intros ts (d & Hd & _)%elem_of_expired. apply (cr_pending _ _ Hw). by eexists. }
  revert He. generalize (expired_sends (w_now w) (w_pending w)). intros tss.
  revert w Hw. induction tss as [|ts tss IH]; intros w Hw He; [done|]. apply Forall_cons in He as [Hts He]. simpl.
  apply IH; [|done]. apply credited_emit_; [done|by apply credited_delete].
Qed.
Local Hint Resolve sweep_credited : credit_db.

(** ** The manager task *)
Definition op_credit (op : WorkerOp) : Prop := match op with OpSend send => Q (is_timestamp send) | _ => True end.

Lemma run_manager_op_credited op g w :
  op_credit op -> credited Q w -> credited Q (run_manager_op (Contact := Contact) op g w).
Proof.
  intros Hop Hw. destruct op as [|send| |input]; simpl; [done|by apply handle_send_credited| |].
  - unfold handle_sync_contacts. credits.
  - unfold handle_resolve_username. credits.
Qed.
Local Hint Resolve run_manager_op_credited : credit_db.

Lemma task_return_credited t : credited Q (t_world t) -> credited Q (t_world (task_return t)).
Proof. apply credited_forget. Qed.

Lemma announce_credited t : credited Q (t_world t) -> credited Q (t_world (announce t)).
Proof.
  intros Hw. unfold announce. destruct (t_announced t); [done|].
  pose proof (credited_emit Q ReceiveStarted (t_world t) I Hw) as He.
  destruct (emit _ _) as [[] w]; [done|by apply task_return_credited].
Qed.

Lemma say_credited e t : credit Q e -> credited Q (t_world t) -> credited Q (t_world (say e t)).
Proof. apply credited_emit_. Qed.

Lemma open_failed_credited err t : credited Q (t_world t) -> credited Q (t_world (open_failed err t)).
Proof.
  intros Hw. unfold open_failed. set (t1 := with_failures _ t). assert (Hw1 : credited Q (t_world t1)) by exact Hw.
  assert (Hb : forall t2, credited Q (t_world t2) ->
    credited Q (t_world (if (t_failures t2 =? 1)%N then say (ReceiveError ("receive_messages: " +:+ err)) t2 else t2))).
  { intros t2 H2. destruct (t_failures t2 =? 1)%N; [by apply say_credited|done]. }
  case_bool_decide; [by apply task_return_credited, (say_credited (SignalConflictingDevice _))|].
  destruct (bool_decide _ && _); [|by apply Hb].
  destruct (MAX_REAUTH_403S <=? _)%N; [by apply task_return_credited, (say_credited (SignalAuthExpired _))|by apply Hb].
Qed.

Lemma open_stream_credited t : credited Q (t_world t) -> credited Q (t_world (open_stream t)).
Proof.
  intros Hw. unfold open_stream.
  set (t1 := if (0 <? t_failures t)%N then _ else t).
  assert (Hw1 : credited Q (t_world t1)) by (unfold t1; destruct (0 <? t_failures t)%N; [by apply credited_delay|done]).
  destruct (MAX_CONSECUTIVE_FAILURES <=? t_failures t1)%N; [by apply task_return_credited, (say_credited (ReceiveError _))|].
  credit_call (manager_call receive_messages (t_world t1)).
  destruct r; [by apply announce_credited|by apply open_failed_credited].
Qed.

Lemma open_loop_credited fuel t : credited Q (t_world t) -> credited Q (t_world (open_loop fuel t)).
Proof.
  revert t. induction fuel as [|fuel IH]; intros t Hw; simpl; destruct (t_phase t); try done.
  by apply IH, open_stream_credited.
Qed.

Lemma drain_fetches_credited drained seen w : credited Q w -> credited Q (drain_fetches drained seen w).2.
Proof.
  revert seen w. induction drained as [|[u key] drained IH]; intros seen w Hw; simpl; [done|].
  destruct (decide (u ∈ seen)); [by apply IH|]. apply IH. credits.
Qed.

Lemma drain_credited t : credited Q (t_world t) -> credited Q (t_world (drain t)).
Proof.
  intros Hw. unfold drain. pose proof (drain_fetches_credited (t_fetches t) (t_fetched t) _ Hw) as Hd.
  by destruct (drain_fetches _ _ _).
Qed.

(** What wakes the task is an op the app asked for. *)
Definition wake_credit (i : Wake ServiceId Uuid) : Prop := match i with WakeOp op => op_credit op | _ => True end.

Lemma parked_step_credited ms i t :
  wake_credit i -> credited Q (t_world t) -> credited Q (t_world (parked_step (Contact := Contact) ms i t)).
Proof.
  intros Hi Hw. apply sweep_credited in Hw. unfold parked_step.
  destruct i as [op| | |item|]; cbn [wake_credit] in Hi; [|by apply task_return_credited, credited_delay| |done..].
  - destruct op as [|send| |input]; [by apply credited_delay|..];
      (apply run_manager_op_credited; [exact Hi|by apply credited_delay]).
  - by destruct (decide _); [|apply credited_delay].
Qed.

Lemma pump_exit_credited exit t :
  (forall op, exit = PumpOp op -> op_credit op) ->
  credited Q (t_world t) -> credited Q (t_world (pump_exit (Contact := Contact) exit t)).
Proof.
  intros He Hw%drain_credited. unfold pump_exit. destruct exit as [op|reason|]; simpl; [|case_match|].
  - apply run_manager_op_credited; [by apply He|done].
  - by apply (say_credited (ReceiveError _)).
  - done.
  - by apply credited_forget.
Qed.

Lemma pump_step_credited ms i t :
  wake_credit i -> credited Q (t_world t) -> credited Q (t_world (pump_step (Contact := Contact) ms i t)).
Proof.
  intros Hi Hw. apply sweep_credited in Hw. unfold pump_step.
  assert (Hx : forall e t1, (forall op, e = PumpOp op -> op_credit op) -> t_world t1 = t_world (wait ms (sweep t)) ->
    credited Q (t_world (pump_exit (Contact := Contact) e t1))).
  { intros e t1 He Ht. apply pump_exit_credited; [done|]. rewrite Ht. by apply credited_delay. }
  destruct i as [op| | |item|]; cbn [wake_credit] in Hi;
    [|by apply Hx|by apply credited_delay| |by apply Hx].
  { destruct op as [|send| |input]; [by apply credited_delay|..]; (apply Hx; [by intros ? [= <-]|done]). }
  pose proof (process_received_credited item (t_fetches t)
    (delay ms (sweep_expired_pending_sends (t_world t))) ltac:(by apply credited_delay)) as Hp.
  destruct (process_received _ _ _) as [[[] fetches] w]; [exact Hp|by apply task_return_credited].
Qed.

Lemma task_step_credited t i :
  wake_credit i.2 -> credited Q (t_world t) -> credited Q (t_world (task_step (Contact := Contact) t i)).
Proof.
  intros Hi Hw. unfold task_step. destruct (t_phase t); try apply open_loop_credited;
    eauto using parked_step_credited, pump_step_credited.
Qed.

(** ** The dispatcher *)
Abbreviation D := (Dispatcher P Mgr Uuid).
Implicit Types d : D.
Definition cmd_credit (c : Cmd) : Prop :=
  match c with SendMessage _ _ ts => Q ts | LinkDevice _ | GetAccountInfo => account Q | _ => True end.

Lemma tell_credited e d : credit Q e -> credited Q (d_world d) -> credited Q (d_world (tell e d)).
Proof. apply credited_emit_. Qed.
Lemma tell_or_stop_credited e d : credit Q e -> credited Q (d_world d) -> credited Q (d_world (tell_or_stop e d)).
Proof. intros He Hd. pose proof (credited_emit Q e _ He Hd) as Hw. unfold tell_or_stop. by destruct (emit e _) as [[] w]. Qed.
Lemma call_load_credited d : credited Q (d_world d) -> credited Q (d_world (call_load d).2).
Proof. intros Hd. unfold call_load. destruct (load_registered _) as [[ms r] p]. by apply credited_delay, credited_store. Qed.
Lemma say_url_credited url d : credited Q (d_world d) -> credited Q (d_world (say_url url d)).
Proof. intros Hd. destruct url; [by apply tell_credited|done]. Qed.

Lemma handle_link_credited name d : account Q -> credited Q (d_world d) -> credited Q (d_world (handle_link_device name d).2).
Proof.
  intros Ha Hd. unfold handle_link_device. destruct (link_secondary_device _ _) as [[ms [url r]] p].
  destruct r; (apply tell_credited; [done|]); by apply say_url_credited, credited_delay, credited_store.
Qed.
Lemma drop_link_credited name d : credited Q (d_world d) -> credited Q (d_world (drop_link name d)).
Proof.
  intros Hd. unfold drop_link. destruct (link_dropped _ _) as [[ms url] p].
  by apply say_url_credited, credited_delay, credited_store.
Qed.
Lemma link_race_credited name inputs resolved d :
  account Q -> credited Q (d_world d) -> credited Q (d_world (link_race name inputs resolved d).2).
Proof.
  intros Ha Hd. induction inputs as [|i inputs IH]; simpl; [by apply handle_link_credited|].
  pose proof (drop_link_credited name d Hd) as Hx.
  destruct i as [[]|]; try exact IH; [|by apply tell_credited|done].
  destruct resolved; [by apply handle_link_credited|by apply tell_credited].
Qed.

Lemma forward_credited op err d :
  (forall r, credit Q (err r)) -> credited Q (d_world d) -> credited Q (d_world (forward op err d)).
Proof.
  intros He Hd. unfold forward. destruct (d_ops d) as [ch|]; [|by apply tell_credited].
  destruct (op_alive ch); [done|]. by apply tell_credited.
Qed.

Lemma dispatch_credited c inputs resolved d :
  cmd_credit c -> credited Q (d_world d) -> credited Q (d_world (dispatch c inputs resolved d)).
Proof.
  intros Hc Hd. pose proof (call_load_credited d Hd) as Hl.
  destruct c as [| |name| | |rec body ts| | | |input|]; cbn [dispatch cmd_credit] in *; try (by apply forward_credited).
  - by apply tell_or_stop_credited.
  - unfold handle_whoami. destruct (call_load d) as [[m|e] d1]; by apply tell_or_stop_credited.
  - unfold link_device, probe. destruct (has_account_state _) as [stale p].
    assert (Hd1 : credited Q (d_world (with_dworld (set_store p (d_world d)) d))) by by apply credited_store.
    destruct stale; [by apply tell_or_stop_credited|].
    apply (link_race_credited name inputs resolved) in Hd1; [|done].
    by destruct (link_race _ _ _ _) as [[m|e] d2].
  - done.
  - unfold get_account_info. destruct (d_cached d); [by apply tell_or_stop_credited|].
    destruct (call_load d) as [[m|e] d1]; apply tell_or_stop_credited; try done. cbn [snd] in Hl.
    by destruct (d_ops (with_cached _ d1)).
  - unfold logout. apply (tell_credited LoggedOut); [done|]. cbn [d_world with_cached with_dworld with_ops].
    by apply credited_on_store, credited_on_store.
  - by apply (tell_credited ShuttingDown).
Qed.

Lemma load_at_startup_credited n d : account Q -> credited Q (d_world d) -> credited Q (d_world (load_at_startup n d)).
Proof.
  intros Ha. revert d. induction n as [|n IH]; intros d Hd; simpl; [done|].
  pose proof (call_load_credited d Hd) as Hl. destruct (call_load d) as [[m|e] d1]; cbn [snd] in Hl.
  - by apply (tell_credited (link_complete (from_manager m))).
  - destruct (NOT_REGISTERED e); [done|]. destruct n; [done|]. apply IH. by apply credited_delay.
Qed.

(** ** The system *)
Abbreviation SL := (Slot P Mgr Uuid).
Abbreviation Y := (System P Mgr Uuid).
Abbreviation Shared := (World P unit Uuid).

Record slot_credited (sl : SL) : Prop := mkSlotCredited {
  sc_queue : Forall op_credit (k_queue sl);
  sc_pending ts : is_Some (w_pending (t_world (k_task sl)) !! ts) -> Q ts
}.
Record sys_credited (s : Y) : Prop := mkSysCredited {
  yc_world : credited Q (y_world s);
  yc_slots k sl : y_tasks s !! k = Some sl -> slot_credited sl
}.

Definition turn_credit (u : Turn ServiceId Uuid) : Prop := match u with TurnCmd c _ _ => cmd_credit c | _ => True end.

Lemma op_of_credit c op : op_of c = Some op -> cmd_credit c -> op_credit op.
Proof. by destruct c; intros [= <-]. Qed.

Lemma absorb_credits new (d' : D) (s : Y) :
  credited Q (d_world d') -> sys_credited s ->
  (new = None -> forall ch, d_ops d' = Some ch -> Forall op_credit (op_queue ch)) ->
  sys_credited (absorb new d' s).
Proof.
  intros Hd [Hw Hk] Hq. constructor; [by rewrite absorb_world|]. intros k sl. unfold absorb.
  destruct new as [m|]; simpl.
  { intros [Hin|[_ Hin]]%lookup_app_Some; [by eapply Hk|].
    apply list_lookup_singleton_Some in Hin as [_ <-]. constructor; [constructor|]. intros ts [x Hx]. done. }
  destruct (y_link s) as [k0|]; [|apply Hk]. destruct (d_ops d') as [ch|] eqn:Ho; [|apply Hk]. simpl.
  destruct (decide (k = k0)) as [->|Hne]; [|rewrite list_lookup_alter_ne by done; apply Hk].
  rewrite list_lookup_alter_eq. destruct (y_tasks s !! k0) as [sl0|] eqn:Hk0; [|done]. intros [= <-].
  destruct (Hk k0 sl0 Hk0) as [_ Hp]. constructor; [by apply Hq|exact Hp].
Qed.

Lemma view_credited (s : Y) ch : sys_credited s -> d_ops (view s) = Some ch -> Forall op_credit (op_queue ch).
Proof. intros [_ Hk] (k & sl & _ & Hsl & ->)%view_ops. exact (sc_queue _ (Hk k sl Hsl)). Qed.

Lemma absorb_credited c inputs resolved (s : Y) :
  sys_ok s -> can_accept c s = true -> cmd_credit c -> sys_credited s ->
  sys_credited (absorb (spawned c inputs resolved (view s)) (dispatch c inputs resolved (view s)) s).
Proof.
  intros Hs Ha Hc Hy. pose proof (dispatch_link c inputs resolved (view s) (sys_cached _ Hs)) as Hl.
  apply absorb_credits; [by apply dispatch_credited, (yc_world _ Hy)|done|]. intros Hn ch Hch. rewrite Hn, Hch in Hl.
  unfold link_after in Hl. destruct (op_of c) as [op|] eqn:Hop.
  - destruct (d_ops (view s)) as [ch0|] eqn:Ho; [|done]. simpl in Hl. destruct (op_alive ch0); [|done].
    injection Hl as ->. cbn [op_queue]. apply Forall_app. split; [by eapply view_credited|].
    constructor; [by eapply op_of_credit|constructor].
  - apply (view_credited s); [done|]. by destruct c.
Qed.

Lemma sys_step_credited (s s' : Y) u :
  sys_ok s -> turn_credit u -> sys_step (Contact := Contact) s u = Some s' -> sys_credited s -> sys_credited s'.
Proof.
  intros Hs Hu. unfold sys_step. destruct (y_running s); [|done]. destruct u as [c inputs resolved| |k ms wake].
  - destruct (can_accept c s) eqn:Ha; [|done]. intros [= <-]. by apply absorb_credited.
  - intros Hn. apply Some_inj in Hn as <-. intros Hy.
    apply absorb_credits; [exact (yc_world _ Hy)|done|]. intros _ ch. by apply view_credited.
  - destruct (y_tasks s !! k) as [sl|] eqn:Hk; [|done]. simpl.
    destruct (wake_slot _ wake sl) as [[i sl']|] eqn:Hw; [|done]. intros Hn. apply Some_inj in Hn as <-.
    intros [Hy Hsl]. destruct (Hsl k sl Hk) as [Hq Hp].
    apply wake_slot_inv in Hw as (_ & Ht & _ & _ & Hw).
    assert (Hi : wake_credit i /\ Forall op_credit (k_queue sl')).
    { destruct Hw as [(op & _ & -> & Hqq & _)|(-> & Hno & _)].
      - rewrite Hqq in Hq. by apply Forall_cons in Hq.
      - split; [|done]. destruct i; try done. by edestruct Hno. }
    destruct Hi as [Hi Hq'].
    assert (Hr : credited Q (t_world (resume (y_world s) (k_task sl')))).
    { constructor; [exact (cr_events _ _ Hy)|]. rewrite Ht. exact Hp. }
    pose proof (task_step_credited _ (ms, i) Hi Hr) as Hc. unfold run_slot. constructor; simpl.
    + constructor; [exact (cr_events _ _ Hc)|exact (cr_pending _ _ Hy)].
    + intros k1 sl1. destruct (decide (k1 = k)) as [->|]; [|rewrite list_lookup_insert_ne by done; apply Hsl].
      rewrite list_lookup_insert_eq by (by eapply lookup_lt_Some). intros [= <-].
      constructor; [exact Hq'|exact (cr_pending _ _ Hc)].
Qed.

Lemma system_start_credited (w : Shared) : account Q -> credited Q w -> sys_credited (system_start w).
Proof.
  intros Ha Hw. unfold system_start.
  assert (Hd : credited Q (d_world (worker_start w))) by by apply load_at_startup_credited.
  constructor; [by rewrite absorb_world|]. intros k sl. unfold absorb.
  destruct (op_manager <$> d_ops (worker_start w)) as [m|]; simpl; [|done].
  destruct k as [|k]; simpl; [|done]. intros [= <-]. constructor; [constructor|]. intros ts [x Hx]. done.
Qed.

(** A worker that starts with a clean slate reports only sends it was asked for. *)
Lemma sys_run_credited us (w : Shared) (s : Y) :
  account Q -> w_events w = [] -> w_pending w = ∅ -> Forall turn_credit us ->
  sys_run (Contact := Contact) us (system_start w) = Some s -> sys_credited s.
Proof.
  intros Ha He Hp Hus.
  assert (Hc : sys_credited (system_start w)).
  { apply system_start_credited; [done|]. constructor; [by rewrite He, drop_nil|]. rewrite Hp. by intros ts [x Hx]. }
  revert Hc. assert (Hok : sys_ok (system_start w)) by apply system_start_ok. revert Hok.
  generalize (system_start w). induction Hus as [|u us Hu Hus IH]; intros s0 Hok Hc; simpl; [by intros [= <-]|].
  destruct (sys_step s0 u) as [s1|] eqn:Hs; [|done]. simpl. apply IH; [by eapply sys_step_ok|by eapply sys_step_credited].
Qed.
End worker.

(** More commands never take credit away. *)
Section mono.
Context {P Mgr Uuid : Type} (Q Q' : Promise) (HQ : forall ts, Q ts -> Q' ts)
  (Ha : account Q -> account Q') (Hs : since Q <= since Q').

Lemma credit_mono (e : Event Uuid) : credit Q e -> credit Q' e.
Proof. unfold credit. destruct (reported e); [apply HQ|]. destruct (trigger e); [apply Ha|done]. Qed.
Lemma credits_mono (es : list (Event Uuid)) : Forall (credit Q) (drop (since Q) es) -> Forall (credit Q') (drop (since Q') es).
Proof.
  intros He. replace (since Q') with (since Q + (since Q' - since Q)) by lia. rewrite <- drop_drop.
  apply Forall_drop. eapply Forall_impl; [exact He|]. apply credit_mono.
Qed.
Lemma credited_mono (w : World P Mgr Uuid) : credited Q w -> credited Q' w.
Proof. intros [He Hp]. constructor; [by apply credits_mono|auto]. Qed.
Lemma op_credit_mono op : op_credit Q op -> op_credit Q' op.
Proof. destruct op; simpl; auto. Qed.
Lemma sys_credited_mono {St SessionRecord : Type} (s : System (PddbStore (StoreBackend St) SessionRecord) Mgr Uuid) :
  sys_credited Q s -> sys_credited Q' s.
Proof.
  intros [[He Hp] Hk]. constructor.
  - constructor; [by apply credits_mono|auto].
  - intros k sl Hsl. destruct (Hk k sl Hsl) as [Hq Hd]. constructor; [|auto].
    eapply Forall_impl; [exact Hq|]. apply op_credit_mono.
Qed.
End mono.
