(* ===== verification/Linking.v ===== *)
(** * A link in flight (the race of [worker_main], [handle_link_device] of
    [xous-signal-worker/src/lib.rs])

    [Dispatcher] runs a link in one turn. Here it is a state machine whose turns
    are those of [select_biased!] and of the futures it polls: the link future
    comes to its URL, resolves and sends its outcome, or is dropped; in between
    commands are taken, or the command channel is found closed. [link_turns_refine_race]: without other threads in between
    the two agree. *)
From S2P Require Import Prelude Codec Utf8 Text Kv Buffering Protocol Sessions Contents Store Batch Worker.
From S2P Require Import Send Receive Dispatcher ManagerTask System Provenance.

(** [link_secondary_device] in its parts: up to the URL, if it comes to one, the
    rest of it, and what dropping it leaves, before or after the URL. *)
Class LinkSteps (P Mgr : Type) : Type := {
  link_begin : string -> P -> N * option string * P;
  link_resolve : string -> P -> N * result Mgr string * P;
  link_abandon : string -> bool -> P -> N * P
}.

(** Where [link_with_cancel] stands: before its URL, after it, with an outcome that
    waits for a slot of the event channel, or with the cancellation that does. *)
Inductive LinkPhase (Mgr : Type) : Type :=
| Provisioning
| UrlShown
| Ending (r : result Mgr string)
| Cancelling.
Arguments Provisioning {Mgr}. Arguments UrlShown {Mgr}. Arguments Ending {Mgr}. Arguments Cancelling {Mgr}.

(** [l_cancelled]: something is in [cancel_rx]. *)
Record LinkRace (Mgr : Type) : Type := mkRace {
  l_name : string;
  l_phase : LinkPhase Mgr;
  l_cancelled : bool
}.
Arguments mkRace {Mgr}. Arguments l_name {Mgr}. Arguments l_phase {Mgr}. Arguments l_cancelled {Mgr}.

(** The select takes the outcome of the link, a command, or the error of a channel
    that the app has closed. *)
Inductive LinkTurn : Type :=
| LinkProvisions
| LinkResolves
| LinkTakes (x : Cmd)
| LinkDrops
| LinkEnds
| LinkReports
| LinkClosed.

Section linking.
Context {St SessionRecord Mgr Uuid : Type} `{!KvBackend St}
  `{!PresageLink (PddbStore St SessionRecord) Mgr} `{!LinkSteps (PddbStore St SessionRecord) Mgr}.
Abbreviation P := (PddbStore St SessionRecord).
Abbreviation D := (Dispatcher P Mgr Uuid).
Abbreviation W := (World P unit Uuid).
Abbreviation L := (LinkRace Mgr).
Implicit Types (d : D) (l : L) (rest : option L).

Definition with_phase_of (ph : LinkPhase Mgr) l : L := mkRace (l_name l) ph (l_cancelled l).

(** The store after a call that took [ms]. *)
Definition called (ms : N) (p : P) d : D := with_dworld (delay ms (set_store p (d_world d))) d.

(** The stale-store guard, then the race. *)
Definition link_start (name : string) d : option (L * D) :=
  let '(stale, d1) := probe d in if stale then None else Some (mkRace name Provisioning false, d1).

(** The biased select polls the link first: a command is taken while the link
    waits, for its server or for a slot. *)
Definition can_take (slot : bool) l : bool :=
  match l_phase l with
  | Provisioning | UrlShown => negb (l_cancelled l)
  | Ending _ => negb (l_cancelled l) && negb slot
  | Cancelling => negb slot
  end.

Definition let_go l d : D :=
  let drop (shown : bool) :=
    let '(ms, p) := link_abandon (l_name l) shown (w_store (d_world d)) in called ms p d in
  match l_phase l with
  | Provisioning => drop false
  | UrlShown => drop true
  | Ending _ | Cancelling => d
  end.

(** The manager of a link that succeeded, kept by the dispatcher. *)
Definition installed (m : Mgr) d : D := with_ops (spawn_manager_task m) (with_cached (Some (from_manager m)) d).

Definition has_url (url : option string) : bool := match url with Some _ => true | None => false end.

(** One turn; [slot]: the event channel has room. The race that goes on, if it
    does, the manager to spawn a task for, and the dispatcher. *)
Definition link_turn (slot : bool) l (u : LinkTurn) d : option (option L * option Mgr * D) :=
  match u, l_phase l with
  | LinkProvisions, Provisioning =>
      let '(ms, url, p) := link_begin (l_name l) (w_store (d_world d)) in
      if has_url url && negb slot then None
      else Some (Some (with_phase_of UrlShown l), None, say_url url (called ms p d))
  | LinkResolves, UrlShown =>
      let '(ms, r, p) := link_resolve (l_name l) (w_store (d_world d)) in
      Some (Some (with_phase_of (Ending r) l), None, called ms p d)
  | LinkTakes x, ph =>
      if can_take slot l then
        match x with
        | LinkCancel => Some (Some (mkRace (l_name l) ph true), None, d)
        | Shutdown => Some (None, None, stop (tell ShuttingDown (let_go l d)))
        | _ => Some (Some l, None, d)
        end
      else None
  | LinkClosed, _ => if can_take slot l then Some (None, None, stop (let_go l d)) else None
  | LinkDrops, (Provisioning | UrlShown) =>
      if l_cancelled l then Some (Some (with_phase_of Cancelling l), None, let_go l d) else None
  | LinkDrops, Ending _ =>
      if l_cancelled l && negb slot then Some (Some (with_phase_of Cancelling l), None, d) else None
  | LinkEnds, Ending (Ok m) =>
      if slot then Some (None, Some m, installed m (tell (link_complete (from_manager m)) d)) else None
  | LinkEnds, Ending (Err e) => if slot then Some (None, None, tell (LinkError e) d) else None
  | LinkReports, Cancelling => if slot then Some (None, None, tell (LinkError "Cancelled") d) else None
  | _, _ => None
  end.

(** The link waits for its server and nothing else. *)
Definition waits l : bool :=
  match l_phase l with Provisioning | UrlShown => negb (l_cancelled l) | _ => false end.
(** The turns that need nothing from the server or the app. *)
Definition own_turn (u : LinkTurn) : Prop := u = LinkDrops \/ u = LinkEnds \/ u = LinkReports.

(** A link takes the next command, or goes on by itself. *)
Lemma link_moves slot l x d :
  is_Some (link_turn slot l (LinkTakes x) d) \/ exists u, own_turn u /\ is_Some (link_turn slot l u d).
Proof.
  assert (Ht : can_take slot l = true -> is_Some (link_turn slot l (LinkTakes x) d)).
  { intros Ht. cbn [link_turn]. rewrite Ht. destruct x, (l_phase l); by eexists. }
  unfold own_turn, can_take in *. destruct (l_phase l) as [| |r|] eqn:Hp.
  3: { destruct slot; [|destruct (l_cancelled l) eqn:Hc; [|by left; apply Ht]].
       - right. exists LinkEnds. split; [auto|]. cbn. rewrite Hp. destruct r; by eexists.
       - right. exists LinkDrops. split; [auto|]. cbn. rewrite Hp, Hc. by eexists. }
  3: { destruct slot; [|by left; apply Ht]. right. exists LinkReports. split; [auto|]. cbn. rewrite Hp. by eexists. }
  all: destruct (l_cancelled l) eqn:Hc; [|by left; apply Ht].
  all: right; exists LinkDrops; (split; [auto|]); cbn; rewrite Hp, Hc; by eexists.
Qed.

(** With a slot, a link that does not wait for its server goes on. *)
Lemma link_settles l d : waits l = false -> exists u, own_turn u /\ is_Some (link_turn true l u d).
Proof.
  intros Hw. destruct (link_moves true l LinkCancel d) as [[t Ht]|Hu]; [|done]. exfalso. revert Ht. cbn.
  unfold waits, can_take in *. destruct (l_phase l), (l_cancelled l); done.
Qed.

(** How far a link is from its end. *)
Definition link_weight rest : nat :=
  match rest with
  | None => 0
  | Some l => match l_phase l with Cancelling => 1 | _ => 2 end
  end.

Lemma own_turn_lighter slot l u d rest new d' :
  own_turn u -> link_turn slot l u d = Some (rest, new, d') -> link_weight rest < link_weight (Some l).
Proof.
  unfold link_weight.
  intros [->|[->| ->]]; cbn [link_turn]; destruct (l_phase l) as [| |[m|e]|]; try done; destruct (l_cancelled l), slot;
    cbn [andb negb]; try done; intros Hn; injection Hn as <- _ _; cbn; lia.
Qed.

(** A command taken is dropped, or cancels. *)
Lemma take_quiet slot l x d rest new d' :
  x <> Shutdown -> link_turn slot l (LinkTakes x) d = Some (rest, new, d') ->
  d' = d /\ new = None /\ link_weight rest = link_weight (Some l).
Proof.
  intros Hx. cbn [link_turn]. unfold link_weight. destruct (can_take slot l); [|by destruct (l_phase l)].
  destruct x; try done; intros Hn; injection Hn as <- <- <-; by destruct (l_phase l).
Qed.

(** ** What a turn does to the dispatcher *)
(** A turn adds at most one event, and that only with a slot or when the worker
    leaves; the channel and identity change only with the manager it spawns, which
    is announced and ends the race. *)
Record turn_effect (slot : bool) (u : LinkTurn) d rest (new : option Mgr) d' : Prop := mkEffect {
  te_told : exists es, told d d' es /\ length es <= 1 /\ (es <> [] -> slot = true \/ u = LinkTakes Shutdown) /\
    (forall m, new = Some m -> es = [link_complete (from_manager m)]) /\
    (forall Q : Promise, (new <> None -> account Q) -> Forall (credit Q) es);
  te_pending : w_pending (d_world d') = w_pending (d_world d);
  te_links : match new with
    | Some m => linked d' m /\ rest = None
    | None => d_ops d' = d_ops d /\ d_cached d' = d_cached d
    end;
  te_running : d_running d' = d_running d \/ u = LinkTakes Shutdown \/ u = LinkClosed
}.

Definition undisturbed d d' : Prop :=
  told d d' [] /\ w_pending (d_world d') = w_pending (d_world d) /\
  d_ops d' = d_ops d /\ d_cached d' = d_cached d /\ d_running d' = d_running d.

Lemma undisturbed_refl d : undisturbed d d.
Proof. split; [by apply told_nil|done]. Qed.
Lemma undisturbed_called ms p d : undisturbed d (called ms p d).
Proof. split; [by apply told_nil|done]. Qed.
Lemma undisturbed_let_go l d : undisturbed d (let_go l d).
Proof.
  unfold let_go. destruct (l_phase l); try apply undisturbed_refl; destruct (link_abandon _ _ _); apply undisturbed_called.
Qed.

Lemma effect_quiet slot u d rest d' : undisturbed d d' -> turn_effect slot u d rest None d'.
Proof.
  intros (Ht & Hp & Ho & Hc & Hr). constructor; [|done|done|by left]. exists []. do 2 (split; [done || simpl; lia|]).
  by do 2 (split; [done|]).
Qed.

Lemma effect_tells slot u d d1 rest e :
  undisturbed d d1 -> slot = true -> (forall Q : Promise, credit Q e) -> turn_effect slot u d rest None (tell e d1).
Proof.
  intros (Ht & Hp & Ho & Hc & Hr) -> He. constructor; [|simpl; by rewrite emit_pending|done|by left]. exists [e].
  split; [exact (told_trans _ _ _ [] _ Ht (told_tell e d1))|]. split; [simpl; lia|]. split; [by left|]. split; [done|].
  intros Q _. by constructor.
Qed.

Lemma effect_url slot u d d1 rest url :
  undisturbed d d1 -> has_url url && negb slot = false -> turn_effect slot u d rest None (say_url url d1).
Proof.
  intros Hk Hs. destruct url as [url|]; [|by apply effect_quiet]. apply effect_tells; [done| |done]. by destruct slot.
Qed.

Lemma effect_shutdown slot d d1 rest :
  undisturbed d d1 -> turn_effect slot (LinkTakes Shutdown) d rest None (stop (tell ShuttingDown d1)).
Proof.
  intros (Ht & Hp & Ho & Hc & Hr). constructor; [|simpl; by rewrite emit_pending|done|by right; left]. exists [ShuttingDown].
  split; [exact (told_trans _ _ _ [] _ Ht (told_tell _ d1))|]. split; [simpl; lia|]. split; [by right|]. split; [done|].
  intros Q _. by constructor.
Qed.

Lemma effect_closed slot d d1 rest : undisturbed d d1 -> turn_effect slot LinkClosed d rest None (stop d1).
Proof.
  intros (Ht & Hp & Ho & Hc & Hr). constructor; [|done|done|by right; right]. exists [].
  do 2 (split; [done || simpl; lia|]). by do 2 (split; [done|]).
Qed.

Lemma effect_installs slot u d m :
  slot = true -> turn_effect slot u d None (Some m) (installed m (tell (link_complete (from_manager m)) d)).
Proof.
  intros ->. constructor; [|simpl; by rewrite emit_pending|done|by left]. exists [link_complete (from_manager m)].
  split; [apply (told_tell (link_complete (from_manager m)) d)|]. split; [simpl; lia|]. split; [by left|].
  split; [by intros ? [= ->]|]. intros Q HQ. constructor; [by apply HQ|constructor].
Qed.

Lemma link_turn_effect slot l u d rest new d' :
  link_turn slot l u d = Some (rest, new, d') -> turn_effect slot u d rest new d'.
Proof.
  pose proof (undisturbed_let_go l d) as Ha. pose proof (undisturbed_refl d) as Hd.
  destruct u as [| |x| | | |]; cbn [link_turn].
  - destruct (l_phase l); try done. destruct (link_begin _ _) as [[ms url] p].
    destruct (has_url url && negb slot) eqn:Hs; [done|]. intros [= <- <- <-]. by apply effect_url; [apply undisturbed_called|].
  - destruct (l_phase l); try done. destruct (link_resolve _ _) as [[ms r] p]. intros [= <- <- <-].
    apply effect_quiet, undisturbed_called.
  - destruct (can_take slot l); [|done]. destruct x; intros [= <- <- <-]; first [by apply effect_quiet|by apply effect_shutdown].
  - destruct (l_phase l); try done; try destruct (l_cancelled l && negb slot); try destruct (l_cancelled l); try done;
      intros [= <- <- <-]; by apply effect_quiet.
  - destruct (l_phase l) as [| |[m|e]|]; try done; (destruct slot; [|done]); intros [= <- <- <-];
      [by apply effect_installs|by apply effect_tells].
  - destruct (l_phase l); try done. destruct slot; [|done]. intros [= <- <- <-]. by apply effect_tells.
  - destruct (can_take slot l); [|by destruct (l_phase l)]. destruct (l_phase l); intros [= <- <- <-]; by apply effect_closed.
Qed.

(** ** The race in one turn

    What [Dispatcher] takes presage's link for: the parts put together; [early]: a
    link that is dropped is dropped before its URL. *)
Definition whole_link (early : bool) : PresageLink P Mgr := {|
  registration_data := registration_data;
  load_registered := load_registered;
  link_secondary_device name p :=
    let '(ms1, url, p1) := link_begin name p in
    let '(ms2, r, p2) := link_resolve name p1 in ((ms1 + ms2)%N, (url, r), p2);
  link_dropped name p :=
    if early then let '(ms, p1) := link_abandon name false p in (ms, None, p1)
    else
      let '(ms1, url, p1) := link_begin name p in
      let '(ms2, p2) := link_abandon name true p1 in ((ms1 + ms2)%N, url, p2)
|}.

(** Turns of the link and of nobody else, from [l] to the end of the race. *)
Fixpoint link_turns (us : list LinkTurn) l d : option (option Mgr * D) :=
  match us with
  | [] => None
  | u :: us' =>
      match link_turn true l u d, us' with
      | Some (Some l', _, d'), _ => link_turns us' l' d'
      | Some (None, new, d'), [] => Some (new, d')
      | _, _ => None
      end
  end.
Definition taken (us : list LinkTurn) : list RaceInput :=
  omap (fun u => match u with LinkTakes x => Some (RaceCmd x) | LinkClosed => Some RaceClosed | _ => None end) us.

Definition race_end (r : result Mgr unit * D) : option Mgr * D :=
  match r with (Ok m, d) => (Some m, installed m d) | (Err _, d) => (None, d) end.

(** What the turns up to a phase have done to [d0]. *)
Definition at_phase (d0 : D) l d : Prop :=
  match l_phase l with
  | Provisioning => d = d0
  | UrlShown =>
      let '(ms, url, p) := link_begin (l_name l) (w_store (d_world d0)) in d = say_url url (called ms p d0)
  | Ending r =>
      let '(ms1, url, p1) := link_begin (l_name l) (w_store (d_world d0)) in
      let '(ms2, r2, p2) := link_resolve (l_name l) p1 in r = r2 /\ d = say_url url (called (ms1 + ms2) p2 d0)
  | Cancelling => l_cancelled l = true /\ exists early, d = drop_link (PresageLink0 := whole_link early) (l_name l) d0
  end.

Lemma say_url_store url d : w_store (d_world (say_url url d)) = w_store (d_world d).
Proof. destruct url; [apply emit_store|done]. Qed.

Lemma called_url ms1 ms2 p1 p2 url d :
  called ms2 p2 (say_url url (called ms1 p1 d)) = say_url url (called (ms1 + ms2) p2 d).
Proof.
  destruct url as [url|]; unfold called, with_dworld, say_url, tell, emit_, emit, delay, set_store; simpl.
  - destruct (w_open (d_world d)); simpl; by rewrite N.add_assoc.
  - by rewrite N.add_assoc.
Qed.

Lemma let_go_dropped d0 l d :
  at_phase d0 l d -> (l_phase l = Provisioning \/ l_phase l = UrlShown) ->
  exists early, let_go l d = drop_link (PresageLink0 := whole_link early) (l_name l) d0.
Proof.
  unfold at_phase, let_go, drop_link. intros Ha [Hp|Hp]; rewrite Hp in Ha |- *.
  - exists true. rewrite Ha. cbn. by destruct (link_abandon _ _ _).
  - exists false. cbn. destruct (link_begin _ _) as [[ms1 url] p1]. rewrite Ha, say_url_store. cbn.
    destruct (link_abandon _ _ _) as [ms2 p2]. apply called_url.
Qed.

Lemma at_phase_ends d0 l d r :
  at_phase d0 l d -> l_phase l = Ending r ->
  handle_link_device (PresageLink0 := whole_link true) (l_name l) d0 =
  match r with
  | Ok m => (Ok m, tell (link_complete (from_manager m)) d)
  | Err e => (Err tt, tell (LinkError e) d)
  end.
Proof.
  unfold at_phase. intros Ha Hp. rewrite Hp in Ha. unfold handle_link_device. cbn.
  destruct (link_begin _ _) as [[ms1 url] p1], (link_resolve _ _) as [[ms2 r2] p2]. by destruct Ha as [-> ->].
Qed.

(** The race of [Dispatcher], from the state of the one in flight. *)
Definition raced l (us : list LinkTurn) : list RaceInput :=
  (if l_cancelled l then [RaceCmd LinkCancel] else []) ++ taken us.

Lemma turn_goes_on l u d d0 l' new d1 :
  at_phase d0 l d -> link_turn true l u d = Some (Some l', new, d1) ->
  l_name l' = l_name l /\ at_phase d0 l' d1 /\
  forall us early resolved,
    link_race (PresageLink0 := whole_link early) (l_name l) (raced l' us) resolved d0 =
    link_race (PresageLink0 := whole_link early) (l_name l) (raced l (u :: us)) resolved d0.
Proof.
  intros Ha. pose proof (let_go_dropped d0 l d Ha) as Hdrop. unfold at_phase in Ha.
  destruct u as [| |x| | | |]; cbn [link_turn]; destruct (l_phase l) as [| |r|] eqn:Hp; try done.
  - destruct (link_begin (l_name l) (w_store (d_world d))) as [[ms url] p] eqn:Hb. rewrite andb_false_r. intros [= <- <- <-].
    subst d. split; [done|]. split; [|done]. unfold at_phase. cbn. by rewrite Hb.
  - destruct (link_begin _ _) as [[ms1 url] p1] eqn:Hb. subst d. rewrite say_url_store. cbn.
    destruct (link_resolve _ _) as [[ms2 r] p2] eqn:Hr. intros [= <- <- <-]. split; [done|]. split; [|done].
    unfold at_phase. cbn. rewrite Hb, Hr. split; [done|apply called_url].
  - destruct (l_cancelled l) eqn:Hc; [unfold can_take; by rewrite Hp, Hc|].
    unfold can_take, raced. rewrite Hp, Hc. cbn.
    destruct x; intros [= <- <- <-]; cbn; rewrite ?Hc; (split; [done|]); (split; [unfold at_phase; cbn; by rewrite ?Hp|done]).
  - destruct (l_cancelled l) eqn:Hc; [unfold can_take; by rewrite Hp, Hc|].
    unfold can_take, raced. rewrite Hp, Hc. cbn.
    destruct x; intros [= <- <- <-]; cbn; rewrite ?Hc; (split; [done|]); (split; [unfold at_phase; cbn; by rewrite ?Hp|done]).
  - unfold can_take. rewrite Hp, andb_false_r. done.
  - unfold can_take. by rewrite Hp.
  - destruct (l_cancelled l) eqn:Hc; [|done]. intros [= <- <- <-]. split; [done|].
    split; [split; [exact Hc|apply Hdrop; by left]|]. intros us early resolved. unfold raced. cbn. by rewrite Hc.
  - destruct (l_cancelled l) eqn:Hc; [|done]. intros [= <- <- <-]. split; [done|].
    split; [split; [exact Hc|apply Hdrop; by right]|]. intros us early resolved. unfold raced. cbn. by rewrite Hc.
  - by rewrite andb_false_r.
  - by destruct r.
  - by destruct (can_take true l).
  - by destruct (can_take true l).
  - by destruct (can_take true l).
  - by destruct (can_take true l).
Qed.

Lemma turn_ends l u d d0 new d1 :
  at_phase d0 l d -> link_turn true l u d = Some (None, new, d1) ->
  exists early resolved, (new, d1) = race_end (link_race (PresageLink0 := whole_link early) (l_name l) (raced l [u]) resolved d0).
Proof.
  intros Ha. pose proof (let_go_dropped d0 l d Ha) as Hdrop. pose proof (at_phase_ends d0 l d) as Hends.
  destruct u as [| |x| | | |]; cbn [link_turn]; destruct (l_phase l) as [| |r|] eqn:Hp; try done.
  - by destruct (link_begin _ _) as [[ms [url|]] p].
  - by destruct (link_resolve _ _) as [[ms r] p].
  - unfold can_take, raced. rewrite Hp. destruct (l_cancelled l); [done|]. destruct x; try done. intros [= <- <-].
    destruct Hdrop as [early ->]; [by left|]. by exists early, false.
  - unfold can_take, raced. rewrite Hp. destruct (l_cancelled l); [done|]. destruct x; try done. intros [= <- <-].
    destruct Hdrop as [early ->]; [by right|]. by exists early, false.
  - unfold can_take. by rewrite Hp, andb_false_r.
  - unfold can_take. by rewrite Hp.
  - by destruct (l_cancelled l).
  - by destruct (l_cancelled l).
  - by rewrite andb_false_r.
  - specialize (Hends r Ha eq_refl). intros Hn. exists true, true. unfold raced. cbn.
    destruct (l_cancelled l); cbn [link_race app]; rewrite Hends; destruct r; by injection Hn as <- <-.
  - unfold at_phase in Ha. rewrite Hp in Ha. destruct Ha as [Hc [early ->]]. intros [= <- <-]. exists early, false.
    unfold raced. by rewrite Hc.
  - unfold can_take, raced. rewrite Hp. destruct (l_cancelled l); [done|]. intros [= <- <-].
    destruct Hdrop as [early ->]; [by left|]. by exists early, false.
  - unfold can_take, raced. rewrite Hp. destruct (l_cancelled l); [done|]. intros [= <- <-].
    destruct Hdrop as [early ->]; [by right|]. by exists early, false.
  - unfold can_take. by rewrite Hp, andb_false_r.
  - unfold can_take. by rewrite Hp.
Qed.

(** Every run is the race, on the commands it took. *)
Lemma run_is_race us name d new d' :
  link_turns us (mkRace name Provisioning false) d = Some (new, d') ->
  exists early resolved, (new, d') = race_end (link_race (PresageLink0 := whole_link early) name (taken us) resolved d).
Proof.
  assert (Hgen : forall l d1, at_phase d l d1 -> link_turns us l d1 = Some (new, d') -> exists early resolved,
    (new, d') = race_end (link_race (PresageLink0 := whole_link early) (l_name l) (raced l us) resolved d)).
  { induction us as [|u us IH]; intros l d1 Ha; [done|]. cbn [link_turns].
    destruct (link_turn true l u d1) as [[[[l'|] new1] d2]|] eqn:Hu; [| |done].
    - intros Hrun. destruct (turn_goes_on _ _ _ _ _ _ _ Ha Hu) as (Hn & Ha' & Heq).
      destruct (IH _ _ Ha' Hrun) as (early & resolved & ->). exists early, resolved. by rewrite Hn, Heq.
    - destruct us; [|done]. intros [= <- <-]. by eapply turn_ends. }
  intros Hrun. by apply (Hgen (mkRace name Provisioning false) d).
Qed.

(** The race is a run: its commands up to the one that decides it, then the link to
    its end, or dropped before or after its URL. *)
Definition finish : list LinkTurn := [LinkProvisions; LinkResolves; LinkEnds].
Definition drop_turns (early : bool) : list LinkTurn := (if early then [] else [LinkProvisions]) ++ [LinkDrops; LinkReports].

Lemma finish_runs name cancelled d :
  link_turns finish (mkRace name Provisioning cancelled) d =
  Some (race_end (handle_link_device (PresageLink0 := whole_link true) name d)).
Proof.
  unfold finish, handle_link_device. cbn. destruct (link_begin name (w_store (d_world d))) as [[ms1 url] p1].
  rewrite andb_false_r. cbn. rewrite say_url_store. cbn. destruct (link_resolve name p1) as [[ms2 r] p2]. cbn.
  rewrite called_url. by destruct r.
Qed.

Lemma early_runs us l d :
  link_turns (LinkProvisions :: us) l d =
  match l_phase l with
  | Provisioning =>
      let '(ms, url, p) := link_begin (l_name l) (w_store (d_world d)) in
      link_turns us (with_phase_of UrlShown l) (say_url url (called ms p d))
  | _ => None
  end.
Proof.
  cbn. destruct (l_phase l); try done. destruct (link_begin _ _) as [[ms url] p]. by rewrite andb_false_r.
Qed.

Lemma drop_turns_run early name d :
  link_turns (drop_turns early) (mkRace name Provisioning true) d =
  Some (None, tell (LinkError "Cancelled") (drop_link (PresageLink0 := whole_link early) name d)).
Proof.
  unfold drop_turns, drop_link. destruct early; cbn [app].
  - cbn. by destruct (link_abandon name false _).
  - rewrite early_runs. cbn. destruct (link_begin name (w_store (d_world d))) as [[ms1 url] p1].
    cbn. rewrite say_url_store. cbn. destruct (link_abandon name true p1) as [ms2 p2]. by rewrite called_url.
Qed.

(** A turn that ends the race at once, on a link that was dropped. *)
Lemma leaving_runs (u : LinkTurn) (leave : D -> D) (early : bool) name d :
  (forall l d, l_cancelled l = false -> l_phase l = Provisioning \/ l_phase l = UrlShown ->
    link_turn true l u d = Some (None, None, leave (let_go l d))) ->
  link_turns ((if early then [] else [LinkProvisions]) ++ [u]) (mkRace name Provisioning false) d =
  Some (None, leave (drop_link (PresageLink0 := whole_link early) name d)).
Proof.
  intros Hu. unfold drop_link. destruct early; cbn [app].
  - cbn [link_turns]. rewrite Hu by auto. cbn. by destruct (link_abandon name false _).
  - rewrite early_runs. cbn [l_phase]. cbn. destruct (link_begin name (w_store (d_world d))) as [[ms1 url] p1].
    rewrite Hu by auto. cbn. rewrite say_url_store. cbn. destruct (link_abandon name true p1) as [ms2 p2]. by rewrite called_url.
Qed.

Lemma race_is_run (early : bool) cs name resolved d :
  exists us, taken us `prefix_of` cs /\
    link_turns us (mkRace name Provisioning false) d =
    Some (race_end (link_race (PresageLink0 := whole_link early) name cs resolved d)).
Proof.
  induction cs as [|i cs [us [Hp Hus]]].
  { exists finish. split; [done|]. exact (finish_runs name false d). }
  destruct i as [x|].
  2:{ exists ((if early then [] else [LinkProvisions]) ++ [LinkClosed]).
      split; [by destruct early; apply (prefix_cons _ []), prefix_nil|].
      apply (leaving_runs LinkClosed stop). intros l d1 Hc Hl. cbn. unfold can_take. destruct Hl as [-> | ->]; by rewrite Hc. }
  assert (Hskip : link_turn true (mkRace name Provisioning false) (LinkTakes x) d =
      Some (Some (mkRace name Provisioning false), None, d) ->
    exists us', taken us' `prefix_of` RaceCmd x :: cs /\
      link_turns us' (mkRace name Provisioning false) d =
      Some (race_end (link_race (PresageLink0 := whole_link early) name cs resolved d))).
  { intros Hx. exists (LinkTakes x :: us). split; [by apply prefix_cons|]. cbn [link_turns]. by rewrite Hx. }
  destruct x; try (by apply Hskip); clear Hskip Hus.
  - destruct resolved; [exists (LinkTakes LinkCancel :: finish)|exists (LinkTakes LinkCancel :: drop_turns early)].
    + split; [by apply (prefix_cons _ []), prefix_nil|]. exact (finish_runs name true d).
    + split; [by destruct early; apply (prefix_cons _ []), prefix_nil|]. exact (drop_turns_run early name d).
  - exists ((if early then [] else [LinkProvisions]) ++ [LinkTakes Shutdown]).
    split; [by destruct early; apply (prefix_cons _ []), prefix_nil|].
    apply (leaving_runs (LinkTakes Shutdown) (fun d => stop (tell ShuttingDown d))). intros l d1 Hc Hl. cbn. unfold can_take.
    destruct Hl as [-> | ->]; by rewrite Hc.
Qed.

(** C20: the race of the dispatcher is every race. A link in flight whose turns no
    other thread interrupts, however the link's own steps, the commands, the
    cancellation and the closing of the command channel are ordered, ends with the
    dispatcher, the store, the events and the new manager that the race in one turn
    ends with, on what it took from the channel; and every end of the race in one
    turn, on any commands with the channel closed after them or not, is the end of
    such a run. *)
Theorem link_turns_refine_race name d new d' :
  (forall us, link_turns us (mkRace name Provisioning false) d = Some (new, d') ->
     exists early resolved, (new, d') = race_end (link_race (PresageLink0 := whole_link early) name (taken us) resolved d)) /\
  (forall early inputs resolved,
     (new, d') = race_end (link_race (PresageLink0 := whole_link early) name inputs resolved d) ->
     exists us, taken us `prefix_of` inputs /\ link_turns us (mkRace name Provisioning false) d = Some (new, d')).
Proof.
  split; [intros us; apply run_is_race|]. intros early cs resolved Hr.
  destruct (race_is_run early cs name resolved d) as [us Hus]. rewrite <- Hr in Hus. by exists us.
Qed.
End linking.

(** ** A link in flight beside the manager tasks *)
Section system_link.
Context `{HashOrder} `{SignalMisc} `{!RustDebug}
  {St SessionRecord Mgr ServiceId Uuid Contact : Type} `{!EqDecision Uuid} `{!KvBackend St}
  `{!WireRecord SessionRecord} `{!Bincode SessionBundle} `{!Json SessionBundle} `{!Json Contact}
  `{!ServiceIdText ServiceId}
  `{!WorkerIds ServiceId Uuid} `{!ContactFields Contact Uuid}
  `{!Presage (PddbStore (StoreBackend St) SessionRecord) Mgr ServiceId Uuid}
  `{!PresageLink (PddbStore (StoreBackend St) SessionRecord) Mgr}
  `{!LinkSteps (PddbStore (StoreBackend St) SessionRecord) Mgr}.
Abbreviation P := (PddbStore (StoreBackend St) SessionRecord).
Abbreviation Y := (System P Mgr Uuid).
Abbreviation L := (LinkRace Mgr).
Implicit Types (s : Y) (l : L) (rest : option L).

Definition sys_link_start (name : string) s : option (L * Y) :=
  match link_start name (view s) with
  | Some (l, d) => Some (l, absorb None d s)
  | None => None
  end.
Definition sys_link_turn (slot : bool) l (u : LinkTurn) s : option (option L * Y) :=
  match link_turn slot l u (view s) with
  | Some (rest, new, d) => Some (rest, absorb new d s)
  | None => None
  end.

(** The system goes on, with at most one event more, and that only with a slot. *)
Record goes_on (Q : Promise) (slot : bool) s s' : Prop := mkGoesOn {
  go_ok : sys_ok s';
  go_open : w_open (y_world s') = w_open (y_world s);
  go_running : y_running s' = y_running s;
  go_events : exists es, w_events (y_world s') = w_events (y_world s) ++ es /\ length es <= 1 /\ (es <> [] -> slot = true);
  go_credit : sys_credited Q s -> sys_credited Q s'
}.

Lemma absorb_run new (d : Dispatcher P Mgr Uuid) s : y_running (absorb new d s) = d_running d.
Proof. unfold absorb. destruct new; [done|]. destruct (y_link s); [|done]. by destruct (d_ops d). Qed.

Lemma say_credits Q (w w' : World P unit Uuid) es :
  says w w' es -> w_pending w' = w_pending w -> Forall (credit Q) es -> credited Q w -> credited Q w'.
Proof.
  intros [_ He] Hp Hes [Hw Hq]. constructor; [|by rewrite Hp]. rewrite He, drop_app. apply Forall_app. split; [done|].
  apply Forall_drop. by destruct (w_open w).
Qed.

Lemma sys_link_start_goes_on Q slot name s l s' :
  sys_ok s -> sys_link_start name s = Some (l, s') -> goes_on Q slot s s'.
Proof.
  intros Hs. unfold sys_link_start, link_start, probe. destruct (has_account_state _) as [[] p]; [done|].
  intros Hn. apply Some_inj, pair_equal_spec in Hn as [<- <-]. constructor.
  - apply absorb_ok; [done|by right; left|]. exact (sys_cached _ Hs).
  - by rewrite absorb_world.
  - by rewrite absorb_run.
  - rewrite absorb_world. exists []. simpl. rewrite app_nil_r. split; [done|]. split; [lia|done].
  - intros Hy. apply absorb_credits; [exact (credited_store Q p _ (yc_world _ _ Hy))|done|].
    intros _ ch. by apply view_credited.
Qed.

Lemma sys_link_turn_goes_on Q slot l u s rest s' :
  sys_ok s -> u <> LinkTakes Shutdown -> u <> LinkClosed -> account Q -> w_open (y_world s) = true ->
  sys_link_turn slot l u s = Some (rest, s') -> goes_on Q slot s s'.
Proof.
  intros Hs Hu Hc0 HQ Hopen. unfold sys_link_turn. destruct (link_turn slot l u (view s)) as [[[rest0 new] d]|] eqn:Hl; [|done].
  apply link_turn_effect in Hl as [(es & Hsays & Hlen & Hslot & _ & Hcr) Hpend Hlinks Hrun].
  intros Hn. apply Some_inj, pair_equal_spec in Hn as [<- <-].
  assert (Htl : turn_links new d s) by (destruct new; [by destruct Hlinks as [[Ho _] _]|right; left; by destruct Hlinks]).
  constructor.
  - apply absorb_ok; [done|done|]. destruct new as [m|].
    + destruct Hlinks as [[Ho Hc] _]. by eapply ops_cached_linked.
    + destruct Hlinks as [Ho Hc]. eapply ops_cached_same; [exact Ho|exact Hc|apply Hs].
  - rewrite absorb_world. by destruct Hsays.
  - rewrite absorb_run. by destruct Hrun as [|[|]].
  - rewrite absorb_world. exists es. destruct Hsays as [_ He]. simpl in He. rewrite Hopen in He.
    split; [done|]. split; [done|]. intros Hne. by destruct (Hslot Hne).
  - intros Hy. apply absorb_credits; [|done|].
    + eapply say_credits; [exact Hsays|exact Hpend|by apply Hcr|exact (yc_world _ _ Hy)].
    + intros ->. destruct Hlinks as [-> _]. intros ch. by apply view_credited.
Qed.
End system_link.

(** ** Witnesses *)
From S2P Require Import Concrete.

#[local] Existing Instances canonical_order scripted_link.

(** The link of [scripted_link] in its parts. *)
#[local] Instance scripted_steps : LinkSteps (PddbStore MockBackend bytes) RegistrationInfo := {|
  link_begin name p := (4%N, Some "sgnl://link", p);
  link_resolve name p := (5%N, Ok Dispatcher.account, set_backend (mkMock {[ (STATE_DICT, KEY_REGISTRATION) := [x01] ]} false) p);
  link_abandon name shown p := (1%N, p)
|}.
Abbreviation DD := (Dispatcher (PddbStore MockBackend bytes) RegistrationInfo N).

(** A command dropped, the link carried through; and a cancellation that comes
    before the URL and one that comes after it. *)
Lemma link_turns_refine_race_witness :
  exists d1 d2 d3 : DD,
    link_turns [LinkProvisions; LinkTakes Hello; LinkResolves; LinkEnds] (mkRace "xous" Provisioning false) fresh =
      Some (Some Dispatcher.account, d1) /\ w_events (d_world d1) = [LinkUrl "sgnl://link"; LinkComplete "xous" "aci" "+1"] /\
    (exists early resolved, (Some Dispatcher.account, d1) =
       race_end (link_race (PresageLink0 := whole_link early) "xous" [RaceCmd Hello] resolved fresh)) /\
    race_end (link_race (PresageLink0 := whole_link true) "xous" [RaceCmd LinkCancel] false fresh) = (None, d2) /\
    w_events (d_world d2) = [LinkError "Cancelled"] /\
    race_end (link_race (PresageLink0 := whole_link false) "xous" [RaceCmd LinkCancel] false fresh) = (None, d3) /\
    w_events (d_world d3) = [LinkUrl "sgnl://link"; LinkError "Cancelled"] /\
    exists us, taken us `prefix_of` [RaceCmd LinkCancel] /\
      link_turns us (mkRace "xous" Provisioning false) fresh = Some (None, d3).
Proof.
  set (us := [LinkProvisions; LinkTakes Hello; LinkResolves; LinkEnds]).
  assert (Hrun : exists d1, link_turns us (mkRace "xous" Provisioning false) fresh = Some (Some Dispatcher.account, d1) /\
    w_events (d_world d1) = [LinkUrl "sgnl://link"; LinkComplete "xous" "aci" "+1"]).
  { eexists. split; [vm_compute; reflexivity|]. vm_compute. reflexivity. }
  destruct Hrun as (d1 & Hrun & He).
  set (cancelled early := race_end (link_race (PresageLink0 := whole_link early) "xous" [RaceCmd LinkCancel] false fresh)).
  exists d1, (cancelled true).2, (cancelled false).2. split; [exact Hrun|]. split; [exact He|].
  split; [exact (proj1 (link_turns_refine_race "xous" fresh (Some Dispatcher.account) d1) us Hrun)|].
  do 4 (split; [vm_compute; reflexivity|]).
  apply (proj2 (link_turns_refine_race "xous" fresh None (cancelled false).2) false [RaceCmd LinkCancel] false).
  vm_compute. reflexivity.
Defined.

(** Turns of a link with the event channel full or not. *)
Fixpoint turns_with (us : list (bool * LinkTurn)) (l : LinkRace RegistrationInfo) (d : DD) : option (option RegistrationInfo * DD) :=
  match us with
  | [] => None
  | (slot, u) :: us' =>
      match link_turn slot l u d with
      | Some (Some l', _, d') => turns_with us' l' d'
      | Some (None, new, d') => Some (new, d')
      | None => None
      end
  end.

(** A link can be cancelled when it has succeeded: presage has stored the account,
    and the announcement waits for a slot of a full event channel. The app is told
    that the link was cancelled, the manager is dropped, and the retry that the
    comment at the end of the race names is refused over the account just stored. *)
Lemma cancelled_after_registration :
  exists d : DD,
    turns_with [(true, LinkProvisions); (true, LinkResolves); (false, LinkTakes LinkCancel); (false, LinkDrops); (true, LinkReports)]
      (mkRace "xous" Provisioning false) fresh = Some (None, d) /\
    w_events (d_world d) = [LinkUrl "sgnl://link"; LinkError "Cancelled"] /\ d_ops d = None /\
    w_events (d_world (dispatch (LinkDevice "xous") [] false d)) =
      [LinkUrl "sgnl://link"; LinkError "Cancelled"; StaleStoreDetected].
Proof. eexists. split; [vm_compute; reflexivity|]. vm_compute. repeat split. Qed.
