(* ===== verification/Sending.v ===== *)
(** * A send in flight ([handle_send] of [xous-signal-worker/src/lib.rs] at its
    [await]s)

    [Send] runs a send in one go. Here it is a machine that stops where [handle_send]
    waits, in the call of presage and in the sleep before the next attempt, with its
    batch open. [send_turns_handle_send]: undisturbed the two agree. Between two of
    its turns the other tasks of the executor run ([others]): the dispatcher wiping the
    store, a link, the task of a newer manager. *)
From S2P Require Import Prelude Codec Utf8 Text Kv Buffering Protocol Sessions Contents Store Batch Worker Send.
From S2P Require Import Receive Dispatcher ManagerTask System.

(** [f_attempt], [f_rest]: the attempt that runs and those left; [f_guard]: whether it
    holds a batch; [f_until]: while it sleeps, the time at which it wakes up. *)
Record Flight (ServiceId : Type) : Type := mkFlight {
  f_sid : ServiceId;
  f_content : DataMessage;
  f_ts : N;
  f_attempt : N;
  f_rest : list N;
  f_guard : bool;
  f_last : option string;
  f_until : option N
}.
Arguments mkFlight {ServiceId}. Arguments f_sid {ServiceId}. Arguments f_content {ServiceId}. Arguments f_ts {ServiceId}.
Arguments f_attempt {ServiceId}. Arguments f_rest {ServiceId}. Arguments f_guard {ServiceId}.
Arguments f_last {ServiceId}. Arguments f_until {ServiceId}.

Section sending.
Context `{HashOrder} `{SignalMisc} `{!RustDebug}
  {St SessionRecord Mgr ServiceId Uuid Contact : Type} `{!KvBackend St}
  `{!WireRecord SessionRecord} `{!Bincode SessionBundle} `{!Json SessionBundle} `{!Json Contact}
  `{!WorkerIds ServiceId Uuid} `{!ContactFields Contact Uuid}
  `{!Presage (PddbStore (StoreBackend St) SessionRecord) Mgr ServiceId Uuid}.
Abbreviation P := (PddbStore (StoreBackend St) SessionRecord).
Abbreviation W := (World P Mgr Uuid).
Abbreviation F := (Flight ServiceId).
Abbreviation w_backend w := (backend (w_store w)).
Implicit Types (fl : F) (w : W).

(** The top of the loop body, up to the call. *)
Definition open_attempt (sid : ServiceId) (content : DataMessage) (ts : N) (attempts : list N) (last : option string)
    w : option F * W :=
  match attempts with
  | [] =>
      (None, emit_ (SendError ("retried " +:+ pretty SEND_MAX_ATTEMPTS +:+ " times: " +:+
                      default "send retry loop exhausted" last) (Some ts)) w)
  | attempt :: rest =>
      match on_store begin_send_batch w with
      | (Err e, w1) => (None, emit_ (SendError ("internal: begin_send_batch: " +:+ error_to_string e) (Some ts)) w1)
      | (Ok guard, w1) => (Some (mkFlight sid content ts attempt rest guard last None), w1)
      end
  end.

Definition send_start (send : InnerSend) w : option F * W :=
  match resolve_recipient (Contact := Contact) (is_recipient send) w with
  | (Err reason, w1) => (None, emit_ (SendError reason (Some (is_timestamp send))) w1)
  | (Ok sid, w1) =>
      open_attempt sid (mkData (Some (is_body send)) (Some (is_timestamp send)) None None) (is_timestamp send)
        attempt_numbers None w1
  end.

(** The call answers, or the sleep is over: the guard is dropped and the next attempt
    opens its own batch. *)
Definition send_turn (pending_grace : N) fl w : option F * W :=
  let ts := f_ts fl in
  match f_until fl with
  | Some t =>
      open_attempt (f_sid fl) (f_content fl) ts (f_rest fl) (f_last fl) (drop_guard (f_guard fl) (delay (t - w_now w) w))
  | None =>
      let '(outcome, w2) := manager_call (send_message (f_sid fl) (f_content fl) ts) w in
      match outcome with
      | Sent => (None, finish_send (f_guard fl) ts w2)
      | SendFailed msg =>
          if is_retryable msg && (f_attempt fl <? SEND_MAX_ATTEMPTS)%N then
            (Some (mkFlight (f_sid fl) (f_content fl) ts (f_attempt fl) (f_rest fl) (f_guard fl) (Some msg)
               (Some (w_now w2 + 1000 * backoff_for (f_attempt fl))%N)), w2)
          else if is_retryable msg then
            (None, drop_guard (f_guard fl) (set_pending (<[ts := (w_now w2 + pending_grace)%N]> (w_pending w2)) w2))
          else (None, drop_guard (f_guard fl) (emit_ (SendError msg (Some ts)) w2))
      | SendPanicked p =>
          (None, drop_guard (f_guard fl) (emit_ (SendError ("panic in send: " +:+ panic_message p) (Some ts)) w2))
      end
  end.

(** ** Undisturbed *)
Fixpoint send_turns (n : nat) (pending_grace : N) (x : option F * W) : option F * W :=
  match n, x with
  | S n', (Some fl, w) => send_turns n' pending_grace (send_turn pending_grace fl w)
  | _, _ => x
  end.

Lemma send_turns_over n g w : send_turns n g (None, w) = (None, w).
Proof. by destruct n. Qed.

Lemma send_turns_loop sid content ts g attempts last w :
  send_turns (2 * length attempts) g (open_attempt sid content ts attempts last w) =
  (None, send_loop sid content ts g attempts last w).
Proof.
  revert last w. induction attempts as [|a rest IH]; intros last w; [done|]. cbn [open_attempt send_loop length].
  destruct (on_store begin_send_batch w) as [[guard|e] w1]; [|apply send_turns_over].
  replace (2 * S (length rest)) with (S (S (2 * length rest))) by lia. cbn [send_turns]. unfold send_turn at 2. cbn.
  destruct (manager_call _ w1) as [[|msg|p] w2]; [done| |done].
  destruct (is_retryable msg); [|done]. destruct (a <? SEND_MAX_ATTEMPTS)%N; [|done].
  cbn [andb]. unfold send_turn. cbn [f_until f_sid f_content f_ts f_rest f_last f_guard].
  rewrite N.add_comm, N.add_sub. apply IH.
Qed.

(** Twelve turns are the send. *)
Lemma send_turns_handle_send send g w :
  send_turns 12 g (send_start send w) = (None, handle_send (Contact := Contact) send g w).
Proof.
  unfold send_start, handle_send. destruct (resolve_recipient _ w) as [[sid|reason] w1]; [|done].
  exact (send_turns_loop sid _ (is_timestamp send) g attempt_numbers None w1).
Qed.

(** ** Between the turns *)
Context `{!KvLaws St} `{!PresageSendLaws}.

(** What the other tasks may do while the send waits: anything to the store through
    key-value operations, its caches too; more events. The manager and the deferred
    sends are the task's own. *)
Record others w w' : Prop := mkOthers {
  ot_store : kv_run any_op (w_backend w) (w_backend w');
  ot_events : exists es, w_events w' = w_events w ++ es;
  ot_open : w_open w' = w_open w;
  ot_manager : w_manager w' = w_manager w;
  ot_pending : w_pending w' = w_pending w
}.

(** [n] turns of the send, which added the events [es], with others in between. *)
Inductive in_flight (g : N) : option F * W -> nat -> list (Event Uuid) -> option F * W -> Prop :=
| flight_here x : in_flight g x 0 [] x
| flight_others fl w w' n es x :
    others w w' -> in_flight g (Some fl, w') n es x -> in_flight g (Some fl, w) n es x
| flight_turn fl w n es x :
    in_flight g (send_turn g fl w) n es x ->
    in_flight g (Some fl, w) (S n) (drop (length (w_events w)) (w_events (send_turn g fl w).2) ++ es) x.

(** The scope of the guard is open, whatever the wrapped backend holds. *)
Definition scope_open (guard : bool) (sb : StoreBackend St) : Prop := exists V, in_scope V guard sb.

Lemma scope_open_run guard sb sb' : kv_run any_op sb sb' -> scope_open guard sb -> scope_open guard sb'.
Proof.
  induction 1 as [|sb1 sb2 sb3 (o & r & _ & He) _ IH]; [done|]. intros [V Hs]. apply IH. clear IH.
  destruct sb1 as [s|b].
  - apply exec_plain in He as [s' ->]. by exists V.
  - apply exec_buffered in He as (b' & -> & [[Hb Hp] _]%exec_scope). destruct Hs as (Hg & Hb1 & Hp1 & _).
    exists (kv_view (inner b')). simpl. rewrite Hb, Hp. done.
Qed.

(** Its attempts run up to the sixth, which never sleeps. *)
Definition flight_ok fl : Prop :=
  counts_to_max (f_attempt fl :: f_rest fl) /\ (is_Some (f_until fl) -> (f_attempt fl < SEND_MAX_ATTEMPTS)%N).
Definition turns_left (r : option F) : nat :=
  match r with
  | None => 0
  | Some fl => 2 * length (f_rest fl) + match f_until fl with Some _ => 1 | None => 2 end
  end.

(** What a send in flight may have done with its timestamp: nothing yet; or, over, one
    report or a deferral, with the batch closed. *)
Definition fate (ts : N) (pend : gmap N N) (r : option F) (es : list (Event Uuid)) w' : Prop :=
  match r with
  | Some fl => f_ts fl = ts /\ es = [] /\ w_pending w' = pend /\ scope_open (f_guard fl) (w_backend w') /\ flight_ok fl
  | None => idle (w_backend w') /\
      ((exists e, reports ts e /\ es = [e] /\ w_pending w' = pend) \/
       (es = [] /\ exists deadline, w_pending w' = <[ts := deadline]> pend))
  end.

Lemma says_events (w w' : W) es : w_open w = true -> says w w' es -> w_events w' = w_events w ++ es /\ w_open w' = true.
Proof. intros Ho [Ho' He]. rewrite Ho in He, Ho'. done. Qed.

Lemma open_attempt_fate sid content ts a rest last w :
  idle (w_backend w) -> counts_to_max (a :: rest) -> w_open w = true ->
  let x := open_attempt sid content ts (a :: rest) last w in
  (exists fl, x.1 = Some fl /\ turns_left (Some fl) = 2 * S (length rest)) /\
  w_events x.2 = w_events w /\ w_open x.2 = true /\ fate ts (w_pending w) x.1 [] x.2.
Proof.
  intros Hi Hc Ho. destruct (begin_idle _ Hi) as (guard & sb1 & Hb & Hs & _). cbn [open_attempt].
  unfold on_store, zoom, begin_send_batch, on_backend, zoom. rewrite Hb. cbn.
  split; [eexists; split; [done|]; simpl; lia|]. do 2 (split; [done|]).
  do 3 (split; [done|]). split; [by eexists|]. split; [exact Hc|]. intros [t Ht]. discriminate.
Qed.

Lemma drop_guard_open guard w :
  scope_open guard (w_backend w) ->
  idle (w_backend (drop_guard guard w)) /\ w_events (drop_guard guard w) = w_events w /\
  w_open (drop_guard guard w) = w_open w /\ w_pending (drop_guard guard w) = w_pending w.
Proof.
  intros [V Hs]. destruct (drop_guard_inv _ _ _ Hs) as (Hi & _ & _ & _). split; [done|]. by destruct guard.
Qed.

(** A turn that ends with one event. *)
Lemma report_fate ts e guard w :
  scope_open guard (w_backend w) -> reports ts e -> w_open w = true ->
  let w' := drop_guard guard (emit_ e w) in
  fate ts (w_pending w) None [e] w' /\ w_events w' = w_events w ++ [e] /\ w_open w' = true.
Proof.
  intros Hs He Ho. pose proof (says_events _ _ _ Ho (says_emit e w)) as [Hev Ho']. simpl.
  destruct (drop_guard_open guard (emit_ e w)) as (Hi & He' & Ho2 & Hp); [by rewrite emit_store|].
  rewrite He', Ho2, Hev, Ho'. split; [|done]. split; [exact Hi|]. left. exists e. by rewrite Hp, emit_pending.
Qed.

Lemma send_turn_fate g fl w :
  scope_open (f_guard fl) (w_backend w) -> flight_ok fl -> w_open w = true ->
  let x := send_turn g fl w in
  S (turns_left x.1) <= turns_left (Some fl) /\ w_open x.2 = true /\
  exists es, w_events x.2 = w_events w ++ es /\ fate (f_ts fl) (w_pending w) x.1 es x.2.
Proof.
  intros Hs [Hc Hu] Ho. unfold send_turn. destruct (f_until fl) as [t|] eqn:Ht.
  - specialize (Hu (ltac:(by eexists))). destruct (f_rest fl) as [|a rest] eqn:Hrest.
    { exfalso. simpl in Hc. rewrite Hc in Hu. lia. }
    destruct (drop_guard_open (f_guard fl) (delay (t - w_now w) w) Hs) as (Hi & He & Ho' & Hp).
    destruct (open_attempt_fate (f_sid fl) (f_content fl) (f_ts fl) a rest (f_last fl) _ Hi (proj2 Hc)) as ((fl' & Hx & Hl) & Hev & Hop & Hf).
    { by rewrite Ho'. }
    split; [rewrite Hx, Hl; simpl; rewrite Hrest, Ht; simpl; lia|]. split; [exact Hop|]. exists [].
    rewrite app_nil_r, Hev, He. split; [done|]. by rewrite Hp in Hf.
  - destruct (manager_call _ w) as [o w2] eqn:Hcall. apply manager_call_inv in Hcall as (ms & Hcall & Hnow & Hsay & Hp).
    assert (Hs2 : scope_open (f_guard fl) (w_backend w2)).
    { eapply scope_open_run; [|exact Hs]. eapply kv_run_weaken; [|by eapply send_message_run]. done. }
    destruct (says_events _ _ _ Ho Hsay) as [Hev Ho2]. rewrite app_nil_r in Hev.
    assert (Hend : forall w', (w_open w' = true /\ exists es, w_events w' = w_events w2 ++ es /\ fate (f_ts fl) (w_pending w2) None es w') ->
      S (turns_left None) <= turns_left (Some fl) /\ w_open w' = true /\
      exists es, w_events w' = w_events w ++ es /\ fate (f_ts fl) (w_pending w) None es w').
    { intros w' (Hw & es & He & Hf). split; [simpl; rewrite Ht; lia|]. split; [done|]. exists es. by rewrite <- Hev, <- Hp. }
    assert (Herr : forall reason, let w' := drop_guard (f_guard fl) (emit_ (SendError reason (Some (f_ts fl))) w2) in
      w_open w' = true /\ exists es, w_events w' = w_events w2 ++ es /\ fate (f_ts fl) (w_pending w2) None es w').
    { intros reason w'. destruct (report_fate (f_ts fl) (SendError reason (Some (f_ts fl))) (f_guard fl) w2 Hs2) as (Hf & He & Hw);
        [by right; eexists|done|]. split; [done|]. by eexists. }
    destruct o as [|msg|pl]; [| |exact (Hend _ (Herr _))].
    + apply Hend. destruct Hs2 as [V Hs2]. destruct (finish_send_inv V (f_guard fl) (f_ts fl) w2 Hs2) as (Hi & Hsay' & _ & Hp').
      destruct (says_events _ _ _ Ho2 Hsay') as [He Hw]. split; [done|]. exists [SendComplete (f_ts fl)]. split; [done|].
      split; [done|]. left. exists (SendComplete (f_ts fl)). split; [by left|]. done.
    + destruct (is_retryable msg); [|exact (Hend _ (Herr _))]. destruct (f_attempt fl <? SEND_MAX_ATTEMPTS)%N eqn:Ha; simpl.
      * rewrite Ht. split; [lia|]. split; [done|]. exists []. rewrite app_nil_r. split; [done|].
        split; [done|]. split; [done|]. split; [done|]. split; [done|]. split; [exact Hc|]. intros _. by apply N.ltb_lt.
      * apply (Hend (drop_guard _ _)).
        destruct (drop_guard_open (f_guard fl) (set_pending (<[f_ts fl := (w_now w2 + g)%N]> (w_pending w2)) w2) Hs2) as (Hi & He & Hw & Hp').
        split; [by rewrite Hw|]. exists []. rewrite app_nil_r. split; [done|]. split; [done|]. right. split; [done|]. eexists. exact Hp'.
Qed.

Lemma in_flight_fate g x n es x' ts pend :
  in_flight g x n es x' -> w_open x.2 = true -> fate ts pend x.1 [] x.2 -> is_Some x.1 ->
  n + turns_left x'.1 <= turns_left x.1 /\ fate ts pend x'.1 es x'.2.
Proof.
  intros Hr. induction Hr as [x|fl w w' n es x Hoth _ IH|fl w n es x Hrest IH]; cbn [fst snd]; intros Ho Hf Hx.
  - split; [lia|done].
  - apply IH; cbn [fst snd]; [by rewrite (ot_open _ _ Hoth)| |done].
    destruct Hf as (Hts & _ & Hp & Hs & Hok). split; [done|]. split; [done|]. split; [by rewrite (ot_pending _ _ Hoth)|].
    split; [|done]. eapply scope_open_run; [apply Hoth|exact Hs].
  - destruct Hf as (<- & _ & <- & Hs & Hok).
    destruct (send_turn_fate g fl w Hs Hok Ho) as (Hl & Ho' & es1 & He1 & Hf1). rewrite He1, drop_app_length.
    destruct (send_turn g fl w) as [[fl'|] w1] eqn:Ht; cbn [fst snd] in *.
    + pose proof (IH Ho') as IH'. destruct Hf1 as (Hts & -> & Hrest1). destruct IH' as [Hn Hf']; [by split|done|].
      split; [simpl in *; lia|exact Hf'].
    + inversion Hrest; subst. rewrite app_nil_r. cbn [fst snd]. split; [simpl in *; lia|exact Hf1].
Qed.

(** C4: A send keeps its promise among the other tasks. Whatever they do to the store
    and the event channel while it waits for presage or sleeps between two attempts,
    a send that got under way is over after at most twelve turns of its own; over its
    life it adds exactly one event, the [SendComplete] or the [SendError] of its
    timestamp, or none and then records the timestamp as deferred; until then it adds
    none. It holds its batch while it lasts and leaves no batch open. *)
Theorem send_in_flight_settles g send w fl w0 n es r w' :
  idle (w_backend w) -> w_open w = true -> send_start send w = (Some fl, w0) ->
  in_flight g (Some fl, w0) n es (r, w') ->
  n + turns_left r <= 12 /\ fate (is_timestamp send) (w_pending w) r es w'.
Proof.
  intros Hi Ho Hst Hr. unfold send_start in Hst. destruct (resolve_recipient _ w) as [res w1] eqn:Hres.
  apply resolve_reads in Hres as (p' & -> & Hrun). apply idle_reads in Hrun as [Hi1 _]; [|done].
  destruct res as [sid|reason]; [|done].
  destruct (open_attempt_fate sid (mkData (Some (is_body send)) (Some (is_timestamp send)) None None) (is_timestamp send)
    1%N [2; 3; 4; 5; 6]%N None (set_store p' w) Hi1) as ((fl0 & Hx & Hl) & _ & Hop & Hf); [by repeat split|done|].
  change (1 :: [2; 3; 4; 5; 6])%N with attempt_numbers in *. rewrite Hst in Hx, Hop, Hf. cbn [fst snd] in *.
  injection Hx as <-. destruct (in_flight_fate _ _ _ _ _ (is_timestamp send) (w_pending w) Hr Hop Hf) as [Hn Hf'];
    [by eexists|]. cbn [fst snd] in *. split; [|done]. by rewrite Hl in Hn.
Qed.

(** ** Written while a send sleeps

    The batch of a sleeping send takes every write of the other tasks, and its abort
    drops them with its own: what the store then holds is what it held when the batch
    was opened. *)
Lemma sleep_drops_writes g V fl w w1 :
  is_Some (f_until fl) -> flight_ok fl -> f_guard fl = true -> in_scope V true (w_backend w) ->
  kv_run op_no_delete_dict (w_backend w) (w_backend w1) ->
  kv_view (w_backend (send_turn g fl w1).2) = V.
Proof.
  intros [t Ht] [Hc Hu] Hg Hs Hrun. unfold send_turn. rewrite Ht, Hg.
  assert (Hs1 : in_scope V true (w_backend (delay (t - w_now w1) w1))) by (by eapply in_scope_run).
  destruct (drop_guard_inv _ _ _ Hs1) as (Hi & Hv & _). specialize (Hv eq_refl).
  destruct (f_rest fl) as [|a rest].
  { simpl in Hc. specialize (Hu (ltac:(by eexists))). rewrite Hc in Hu. lia. }
  destruct (begin_idle _ Hi) as (guard & sb1 & Hb & _ & _ & Hv1). cbn [open_attempt].
  unfold on_store, zoom, begin_send_batch, on_backend, zoom. rewrite Hb. cbn. exact (eq_trans Hv1 Hv).
Qed.
End sending.

(** ** The dispatcher is one of the others

    Its commands reach the store through key-value operations, as far as presage's
    calls do. *)
Section dispatcher_runs.
Context {S R Mgr : Type} `{!KvBackend S}.
Abbreviation PS := (PddbStore S R).

Class PresageLinkRuns `{!PresageLink PS Mgr} : Prop := {
  load_registered_runs p : kv_run any_op (backend p) (backend (load_registered (Mgr := Mgr) p).2);
  link_secondary_runs name p : kv_run any_op (backend p) (backend (link_secondary_device (Mgr := Mgr) name p).2);
  link_dropped_runs name p : kv_run any_op (backend p) (backend (link_dropped (Mgr := Mgr) name p).2)
}.

Lemma only_kv_delete_dict d : only_kv (S := S) any_op (kv_delete_dict d).
Proof.
  apply (only_kv_exec any_op (KvSpec.DeleteDict d)); [done|]. intros s. simpl. unfold mbind.
  by destruct (kv_delete_dict d s) as [[]].
Qed.
#[local] Hint Resolve only_kv_delete_dict : only_kv.

Definition store_runs {Er A} (m : M PS Er A) : Prop := forall p, kv_run any_op (backend p) (backend (m p).2).

Lemma store_runs_backend {Er A} (m : M S Er A) : only_kv any_op m -> store_runs (on_backend m).
Proof.
  intros Hm p. destruct (on_backend m p) as [r p'] eqn:He. apply on_backend_inv in He as (s' & He & ->). by eapply Hm.
Qed.
Lemma store_runs_mbind {Er A B} (m : M PS Er A) (k : A -> M PS Er B) :
  store_runs m -> (forall a, store_runs (k a)) -> store_runs (mbind m k).
Proof.
  intros Hm Hk p. specialize (Hm p). unfold mbind. destruct (m p) as [[a|e] p1]; [|exact Hm]. etrans; [exact Hm|apply Hk].
Qed.

Lemma clear_runs : store_runs clear.
Proof.
  assert (Hd : forall i, store_runs (on_backend (mfor (protocol_dicts i) kv_delete_dict))).
  { intros i. apply store_runs_backend. simpl. only_kv. }
  unfold clear. repeat (apply store_runs_mbind; [|intros _]); try apply Hd; try apply store_runs_backend.
  - apply only_kv_delete_dict.
  - unfold clear_contents, clear_profiles. only_kv.
  - intros p. unfold mmodify, clear_cache. simpl. repeat case_match; reflexivity.
Qed.

Lemma any_keys_runs ds s : kv_run any_op s (any_keys (St := S) ds s).2.
Proof.
  revert s. induction ds as [|d ds IH]; intros s; simpl; [done|].
  destruct (kv_list_keys d s) as [r s'] eqn:Hl. apply (only_kv_list any_op d eq_refl) in Hl.
  destruct r as [[|]|]; simpl; [etrans; [exact Hl|apply IH]|exact Hl|etrans; [exact Hl|apply IH]].
Qed.
End dispatcher_runs.

Section dispatched_runs.
Context `{HashOrder} {St SessionRecord Mgr Uuid : Type} `{!KvBackend St}
  `{!PresageLink (PddbStore (StoreBackend St) SessionRecord) Mgr} `{!PresageLinkRuns}.
Abbreviation P := (PddbStore (StoreBackend St) SessionRecord).
Abbreviation D := (Dispatcher P Mgr Uuid).
Implicit Types (d : D).

Definition moves_store d d' : Prop := kv_run any_op (backend (w_store (d_world d))) (backend (w_store (d_world d'))).

Lemma tell_moves e d : moves_store d (tell e d).
Proof. unfold moves_store, tell. simpl. by rewrite emit_store. Qed.
Lemma tell_or_stop_moves e d : moves_store d (tell_or_stop e d).
Proof.
  unfold moves_store, tell_or_stop. pose proof (emit_store e (d_world d)) as Hw. unfold emit_ in Hw.
  destruct (emit e (d_world d)) as [[] w]; simpl in *; by rewrite Hw.
Qed.
Lemma url_moves url d : moves_store d (say_url url d).
Proof. destruct url; [apply tell_moves|unfold moves_store; done]. Qed.
Lemma moves_trans d1 d2 d3 : moves_store d1 d2 -> moves_store d2 d3 -> moves_store d1 d3.
Proof. unfold moves_store. by intros ? ?; etrans. Qed.

Lemma load_moves d : moves_store d (call_load d).2.
Proof.
  unfold moves_store, call_load. pose proof (load_registered_runs (w_store (d_world d))) as Hl.
  by destruct (load_registered _) as [[ms r] p].
Qed.
Lemma handle_link_moves name d : moves_store d (handle_link_device name d).2.
Proof.
  unfold handle_link_device. pose proof (link_secondary_runs name (w_store (d_world d))) as Hl.
  destruct (link_secondary_device _ _) as [[ms [url r]] p].
  assert (Hu : moves_store d (say_url url (with_dworld (delay ms (set_store p (d_world d))) d))).
  { eapply moves_trans; [|apply url_moves]. exact Hl. }
  destruct r; (eapply moves_trans; [exact Hu|apply tell_moves]).
Qed.
Lemma drop_link_moves name d : moves_store d (drop_link name d).
Proof.
  unfold drop_link. pose proof (link_dropped_runs name (w_store (d_world d))) as Hl.
  destruct (link_dropped _ _) as [[ms url] p]. eapply moves_trans; [|apply url_moves]. exact Hl.
Qed.
Lemma race_moves name inputs resolved d : moves_store d (link_race name inputs resolved d).2.
Proof.
  induction inputs as [|[x|] inputs IH]; simpl; [apply handle_link_moves| |apply drop_link_moves].
  destruct x; try exact IH.
  - destruct resolved; [apply handle_link_moves|]. eapply moves_trans; [apply drop_link_moves|apply tell_moves].
  - eapply moves_trans; [apply drop_link_moves|apply tell_moves].
Qed.
Lemma link_device_moves name inputs resolved d : moves_store d (link_device name inputs resolved d).
Proof.
  unfold link_device, probe, has_account_state. pose proof (any_keys_runs account_dicts (backend (w_store (d_world d)))) as Hp.
  destruct (any_keys _ _) as [stale s].
  set (d1 := with_dworld _ d). assert (H1 : moves_store d d1) by exact Hp.
  destruct stale; [eapply moves_trans; [exact H1|apply tell_or_stop_moves]|].
  pose proof (race_moves name inputs resolved d1) as Hr. destruct (link_race _ _ _ d1) as [[m|e] d2];
    exact (moves_trans _ _ _ H1 Hr).
Qed.
Lemma logout_moves d : moves_store d (logout d).
Proof.
  unfold logout. eapply moves_trans; [|apply tell_moves]. unfold moves_store.
  pose proof (store_runs_backend (R := SessionRecord) clear_registration (only_kv_delete_dict _) (w_store (d_world d))) as H1.
  destruct (on_store (on_backend clear_registration) _) as [r1 w1] eqn:E1. cbn [snd].
  apply on_store_inv in E1 as (p1 & E1 & ->). pose proof (clear_runs p1) as H2.
  destruct (on_store clear _) as [r2 w2] eqn:E2. apply on_store_inv in E2 as (p2 & E2 & ->).
  cbn [with_ops d_world] in E1. rewrite E1 in H1. simpl in E2. rewrite E2 in H2. etrans; [exact H1|exact H2].
Qed.
Lemma forward_moves op err d : moves_store d (forward op err d).
Proof.
  unfold forward. destruct (d_ops d) as [ch|]; [|apply tell_moves].
  destruct (op_alive ch); [unfold moves_store; done|apply (tell_moves _ (with_ops None d))].
Qed.

Lemma dispatch_moves x inputs resolved d : moves_store d (dispatch x inputs resolved d).
Proof.
  pose proof (load_moves d) as Hl.
  destruct x; cbn [dispatch]; try apply tell_or_stop_moves; try apply forward_moves; try apply link_device_moves;
    try apply logout_moves; try (unfold moves_store; done).
  - unfold handle_whoami. destruct (call_load d) as [[m|e] d1]; (eapply moves_trans; [exact Hl|apply tell_or_stop_moves]).
  - unfold get_account_info. destruct (d_cached d); [apply tell_or_stop_moves|].
    destruct (call_load d) as [[m|e] d1]; (eapply moves_trans; [exact Hl|]); [|apply tell_or_stop_moves].
    eapply moves_trans; [|apply tell_or_stop_moves]. unfold moves_store. by destruct (d_ops (with_cached _ d1)).
  - apply (tell_moves ShuttingDown).
Qed.

(** The task's world after a turn of the dispatcher on what they share. *)
Definition seen_by {TM} (w : World P TM Uuid) d : World P TM Uuid :=
  let v := d_world d in mkWorld (w_store v) (w_manager w) (w_now v) (w_events v) (w_open v) (w_pending w).

Lemma dispatch_others `{!KvLaws St} {TM} (w : World P TM Uuid) x inputs resolved d :
  w = seen_by w d -> others w (seen_by w (dispatch x inputs resolved d)).
Proof.
  intros Hw. destruct (dispatch_told x inputs resolved d) as [es [Ho He]].
  assert (Hs : w_store w = w_store (d_world d) /\ w_events w = w_events (d_world d) /\ w_open w = w_open (d_world d)).
  { rewrite Hw. done. }
  destruct Hs as (Hs & Hev & Hop). constructor; simpl; [|eexists; rewrite Hev; exact He|congruence|done|done].
  rewrite Hs. apply dispatch_moves.
Qed.
End dispatched_runs.

(** ** Witnesses *)
From S2P Require Import Concrete.

#[local] Existing Instances canonical_order plain_debug string_ids string_contact string_json scripted_presage.

Section meanwhile.
Abbreviation P := (PddbStore (StoreBackend MockBackend) bytes).
Abbreviation TW := (World P (list SendOutcome) string).
Abbreviation start := (send_start (Contact := string) (Mgr := list SendOutcome) hello_send mock_world).
Definition nobody : Flight string := mkFlight "" (mkData None None None None) 0 0 [] false None None.
Definition hello_flight : Flight string := default nobody start.1.
(** The socket closes; the send sleeps for two seconds. *)
Definition slept : option (Flight string) * TW := send_turn 30000 hello_flight start.2.

Lemma hello_starts : start = (Some hello_flight, start.2).
Proof. vm_compute. reflexivity. Qed.

(** presage's link, with one write to the store. *)
#[local] Instance writing_link : PresageLink P RegistrationInfo := {|
  registration_data m := m;
  load_registered p := (3%N, Err "not yet registered", p);
  link_secondary_device name p :=
    (9%N, (Some "sgnl://link", Ok (mkRegistration (mkAccountInfo "xous" "aci" "+1") "pni")),
     set_backend (kv_put STATE_DICT KEY_REGISTRATION [x01] (backend p)).2 p);
  link_dropped name p := (1%N, None, p)
|}.

#[local] Instance writing_link_runs : PresageLinkRuns (Mgr := RegistrationInfo).
Proof.
  constructor; try done. intros name p. simpl. destruct (on_store_backend _ _ (backend p)) as [r s] eqn:Hp.
  exact (only_kv_put (S := StoreBackend MockBackend) any_op STATE_DICT KEY_REGISTRATION [x01] eq_refl (backend p) r s Hp).
Qed.

(** The dispatcher's turns while the send sleeps, and the send's world after them. *)
Definition dispatcher0 : Dispatcher P RegistrationInfo string :=
  mkDispatcher (mkWorld (w_store slept.2) tt (w_now slept.2) (w_events slept.2) true ∅) None None true.
Definition dispatched (xs : list Cmd) : TW :=
  seen_by slept.2 (foldl (fun d x => dispatch x [] false d) dispatcher0 xs).

(** The user logs out while the send sleeps; the send goes on. *)
Lemma send_in_flight_settles_witness :
  slept.1 <> None /\ w_events (dispatched [Logout]) = [LoggedOut] /\
  exists fl w', send_turn 30000 (default nobody slept.1) (dispatched [Logout]) = (Some fl, w') /\ w_pending w' = ∅ /\
    w_events w' = [LoggedOut] /\ scope_open (f_guard fl) (backend (w_store w')).
Proof.
  split; [vm_compute; discriminate|]. split; [vm_compute; reflexivity|].
  set (x := send_turn 30000 (default nobody slept.1) (dispatched [Logout])).
  assert (Hx : x = (Some (default nobody x.1), x.2)) by (vm_compute; reflexivity).
  assert (Hs : slept = (Some (default nobody slept.1), slept.2)) by (vm_compute; reflexivity).
  assert (Hi : idle (backend (w_store mock_world))) by (split; [reflexivity|split; reflexivity]).
  assert (Hr : in_flight 30000 (Some hello_flight, start.2) 2 (drop (length (w_events start.2)) (w_events slept.2) ++
      drop (length (w_events (dispatched [Logout]))) (w_events x.2) ++ []) (Some (default nobody x.1), x.2)).
  { apply flight_turn. change (send_turn 30000 hello_flight start.2) with slept. rewrite Hs at 1.
    apply (flight_others _ _ _ (dispatched [Logout])).
    - apply (dispatch_others slept.2 Logout [] false dispatcher0). vm_compute. reflexivity.
    - apply flight_turn. change (send_turn 30000 (default nobody slept.1) (dispatched [Logout])) with x.
      rewrite Hx at 1. apply flight_here. }
  destruct (send_in_flight_settles (H2 := scripted_send_laws) 30000 hello_send mock_world hello_flight start.2 2 _ _ _
    Hi eq_refl hello_starts Hr) as [_ (_ & _ & Hp & Ho & _)].
  exists (default nobody x.1), x.2. split; [exact Hx|]. split; [exact Hp|]. split; [vm_compute; reflexivity|exact Ho].
Defined.

Definition woken : option (Flight string) * TW :=
  send_turn 30000 (default nobody slept.1) (dispatched [Logout; LinkDevice "xous"]).

(** A send sleeps before its next attempt; the user wipes the device and links it
    again. The new account goes into the batch of the old send, where every reader
    finds it; the link is reported complete. When the send wakes up its guard drops the
    batch, and the account is nowhere. *)
Lemma link_lost_to_sleeping_send :
  let before := dispatched [Logout; LinkDevice "xous"] in
  w_events before = [LoggedOut; LinkUrl "sgnl://link"; LinkComplete "xous" "aci" "+1"] /\
  (kv_get STATE_DICT KEY_REGISTRATION (backend (w_store before))).1 = Ok (Some [x01]) /\
  (kv_get STATE_DICT KEY_REGISTRATION (backend (w_store woken.2))).1 = Ok None /\
  (has_account_state (w_store woken.2)).1 = false /\ w_events woken.2 = w_events before.
Proof. vm_compute. repeat split. Qed.

(** Nor is there only one who opens batches: a send of the new manager is refused
    while the old one sleeps. *)
Lemma second_send_refused :
  let x := send_start (Contact := string) (mkInnerSend "u2" "hi" 78) (dispatched [Logout; LinkDevice "xous"]) in
  x.1 = None /\ drop 3 (w_events x.2) =
    [SendError "internal: begin_send_batch: kv backend: batch already in flight on this backend" (Some 78%N)].
Proof. vm_compute. repeat split. Qed.
End meanwhile.
