(* ===== verification/Testing.v ===== *)
(** * The repository's unit tests as programs

    A [#[test]] function is a computation over the component it drives: it calls
    operations, unwraps their results and asserts. It passes when it reaches its
    end. The tests of each crate are translated beside their component and run by
    [run_test]: they check the definitions against what the authors of the code
    expect of it on concrete inputs. *)
From S2P Require Import Prelude Kv.

Definition Test (S : Type) : Type := M S string unit.

(** [assert!(b)]. *)
Definition assert {S} (b : bool) : Test S := if b then mok tt else merr "assertion failed".
(** Several assertions, in order. *)
Definition asserts {S} (bs : list bool) : Test S := assert (forallb id bs).
(** [assert_eq!(x, y)]. *)
Definition assert_eq {S A} `{EqDecision A} (x y : A) : Test S := assert (bool_decide (x = y)).

(** [m.unwrap()] on a call, on an [Option] and on a [Result]. *)
Definition unwrap {S Er A} (m : M S Er A) : M S string A := mmap_err (fun _ => "called unwrap on an Err value") m.
Definition unwrap_some {S A} (o : option A) : M S string A :=
  match o with Some a => mok a | None => merr "called unwrap on a None value" end.
Definition unwrap_ok {S Er A} (r : result A Er) : M S string A :=
  match r with Ok a => mok a | Err _ => merr "called unwrap on an Err value" end.
(** [m.is_ok()] and [m.is_err()]. *)
Definition call_is_ok {S Er A} (m : M S Er A) : M S string bool := let* r := mtry m in mok (is_ok r).
Definition call_is_err {S Er A} (m : M S Er A) : M S string bool := let* r := mtry m in mok (negb (is_ok r)).
(** A total operation of the component, and a read of its state. *)
Definition act {S} (f : S -> S) : Test S := fun s => (Ok tt, f s).
Definition ask {S A} (f : S -> A) : M S string A := fun s => (Ok (f s), s).
Definition query {S A} (f : S -> A * S) : M S string A := fun s => let '(a, s') := f s in (Ok a, s').

Definition is_some {A} (o : option A) : bool := match o with Some _ => true | None => false end.
Definition is_none {A} (o : option A) : bool := negb (is_some o).

Definition passes {S} (t : Test S) (s : S) : bool := is_ok (t s).1.

(** Assertions only look at what was computed: a test that passes ran to its end. *)
Lemma assert_passes {S} (b : bool) (s : S) : passes (assert b) s = b.
Proof. by destruct b. Qed.

Ltac run_test := vm_compute; reflexivity.
