(* ===== verification/BufferingTests.v ===== *)
(** * Unit tests of the write-coalescing backend ([buffering_backend.rs], [mod tests]) *)
From S2P Require Import Prelude Kv Buffering Testing.

#[local] Existing Instance canonical_order.

(** ** Over the mock backend *)
Abbreviation B := (BufferingBackend MockBackend).

Definition make : B := buffering_new mock_new.

Definition v1 : bytes := [x76; x31].
Definition v2 : bytes := [x76; x32].
Definition v3 : bytes := [x76; x33].
Definition baseline : bytes := [x62; x61; x73; x65].
Definition batched : bytes := [x62; x61; x74; x63; x68].

Definition passthrough_when_not_batching : Test B :=
  unwrap (kv_put "d" "k" v1) ;*
  (let* r := unwrap (kv_get "d" "k") in assert_eq r (Some v1) ;*
  (unwrap (kv_delete "d" "k") ;*
  (let* r := unwrap (kv_get "d" "k") in assert_eq r None))).
Example passthrough_when_not_batching_passes : passes passthrough_when_not_batching make = true.
Proof. run_test. Qed.

Definition batched_put_invisible_to_inner_pre_commit : Test B :=
  unwrap (kv_put "d" "k" baseline) ;*
  (unwrap begin_batch ;*
  (unwrap (kv_put "d" "k" batched) ;*
  (let* r := unwrap (kv_get "d" "k") in assert_eq r (Some batched) ;*
  (act (guard_drop false) ;*
  (let* b := ask is_batching in assert (negb b) ;*
  (let* r := unwrap (kv_get "d" "k") in assert_eq r (Some baseline))))))).
Example batched_put_invisible_to_inner_pre_commit_passes :
  passes batched_put_invisible_to_inner_pre_commit make = true.
Proof. run_test. Qed.

Definition put_three : Test B :=
  unwrap (kv_put "d" "k1" v1) ;* (unwrap (kv_put "d" "k2" v2) ;* unwrap (kv_put "d" "k3" v3)).
Definition read_three : Test B :=
  let* r1 := unwrap (kv_get "d" "k1") in assert_eq r1 (Some v1) ;*
  (let* r2 := unwrap (kv_get "d" "k2") in assert_eq r2 (Some v2) ;*
  (let* r3 := unwrap (kv_get "d" "k3") in assert_eq r3 (Some v3))).

Definition commit_replays_puts : Test B :=
  unwrap begin_batch ;*
  (put_three ;*
  (let* l := ask buffered_len in assert_eq l 3 ;*
  (let* n := unwrap guard_commit in assert_eq n 3 ;*
  (let* b := ask is_batching in assert (negb b) ;* read_three)))).
Example commit_replays_puts_passes : passes commit_replays_puts make = true.
Proof. run_test. Qed.

Definition commit_replays_deletes : Test B :=
  unwrap (kv_put "d" "k" baseline) ;*
  (unwrap begin_batch ;*
  (unwrap (kv_delete "d" "k") ;*
  (let* r := unwrap (kv_get "d" "k") in assert_eq r None ;*
  (let* n := unwrap guard_commit in
   let* r := unwrap (kv_get "d" "k") in assert_eq r None)))).
Example commit_replays_deletes_passes : passes commit_replays_deletes make = true.
Proof. run_test. Qed.

Definition delete_then_put_in_same_batch : Test B :=
  unwrap (kv_put "d" "k" baseline) ;*
  (unwrap begin_batch ;*
  (unwrap (kv_delete "d" "k") ;*
  (unwrap (kv_put "d" "k" v2) ;*
  (let* r := unwrap (kv_get "d" "k") in assert_eq r (Some v2) ;*
  (let* n := unwrap guard_commit in
   let* r := unwrap (kv_get "d" "k") in assert_eq r (Some v2)))))).
Example delete_then_put_in_same_batch_passes : passes delete_then_put_in_same_batch make = true.
Proof. run_test. Qed.

Definition abort_loses_buffered_writes : Test B :=
  unwrap (kv_put "d" "k" baseline) ;*
  (unwrap begin_batch ;*
  (unwrap (kv_put "d" "k" v1) ;*
  (unwrap (kv_put "d" "fresh" v2) ;*
  (act (guard_drop false) ;*
  (let* b := ask is_batching in assert (negb b) ;*
  (let* r := unwrap (kv_get "d" "k") in assert_eq r (Some baseline) ;*
  (let* r := unwrap (kv_get "d" "fresh") in assert_eq r None))))))).
Example abort_loses_buffered_writes_passes : passes abort_loses_buffered_writes make = true.
Proof. run_test. Qed.

Definition two_batches_in_flight_refused : Test B :=
  unwrap begin_batch ;* (let* r := call_is_err begin_batch in assert r).
Example two_batches_in_flight_refused_passes : passes two_batches_in_flight_refused make = true.
Proof. run_test. Qed.

(** The listing is compared as a set, where the test sorts it. *)
Definition listed_as (ks expected : list string) : bool :=
  bool_decide (length ks = length expected /\ (list_to_set ks : gset string) = list_to_set expected).

Definition list_keys_overlay_during_batch : Test B :=
  unwrap (kv_put "d" "a" [x31]) ;*
  (unwrap (kv_put "d" "b" [x32]) ;*
  (unwrap begin_batch ;*
  (unwrap (kv_delete "d" "a") ;*
  (unwrap (kv_put "d" "c" [x33]) ;*
  (let* ks := unwrap (kv_list_keys "d") in assert (listed_as ks ["b"; "c"]) ;*
  (act (guard_drop false) ;*
  (let* ks := unwrap (kv_list_keys "d") in assert (listed_as ks ["a"; "b"])))))))).
Example list_keys_overlay_during_batch_passes : passes list_keys_overlay_during_batch make = true.
Proof. run_test. Qed.

Definition coalesce_same_key_overwrites : Test B :=
  unwrap begin_batch ;*
  (unwrap (kv_put "d" "k" v1) ;*
  (unwrap (kv_put "d" "k" v2) ;*
  (unwrap (kv_put "d" "k" v3) ;*
  (let* l := ask buffered_len in assert_eq l 1 ;*
  (let* n := unwrap guard_commit in assert_eq n 1 ;*
  (let* r := unwrap (kv_get "d" "k") in assert_eq r (Some v3))))))).
Example coalesce_same_key_overwrites_passes : passes coalesce_same_key_overwrites make = true.
Proof. run_test. Qed.

(** ** Over a backend that counts its calls

    [CountingBackend]: a wrapper of the mock with a [put_batch] of its own, which
    can be told to fail without writing. *)
Record CountingBackend : Type := mkCounting {
  cb_inner : MockBackend;
  cb_puts : nat;
  cb_batches : nat;
  cb_batch_total : nat;
  cb_fail_batch : bool
}.
Definition counting_backend_new : CountingBackend := mkCounting mock_new 0 0 0 false.
Definition set_fail_batch (fail : bool) (c : CountingBackend) : CountingBackend :=
  mkCounting (cb_inner c) (cb_puts c) (cb_batches c) (cb_batch_total c) fail.
Definition cb_set_inner (s : MockBackend) (c : CountingBackend) : CountingBackend :=
  mkCounting s (cb_puts c) (cb_batches c) (cb_batch_total c) (cb_fail_batch c).
Definition on_mock {A} (m : M MockBackend Error A) : M CountingBackend Error A := zoom cb_inner cb_set_inner m.

Definition counting_put (d k : string) (v : bytes) : M CountingBackend Error unit :=
  fun c => on_mock (kv_put d k v)
    (mkCounting (cb_inner c) (S (cb_puts c)) (cb_batches c) (cb_batch_total c) (cb_fail_batch c)).
Definition counting_put_batch (es : list kv_entry) : M CountingBackend Error unit :=
  fun c =>
    let c' := mkCounting (cb_inner c) (cb_puts c) (S (cb_batches c)) (cb_batch_total c + length es) (cb_fail_batch c) in
    if cb_fail_batch c then (Err (Backend "simulated batch-size overflow"), c')
    else on_mock (put_batch_default kv_put es) c'.
#[local] Instance counting_backend : KvBackend CountingBackend := {|
  kv_get d k := on_mock (kv_get d k);
  kv_put := counting_put;
  kv_put_batch := counting_put_batch;
  kv_delete d k := on_mock (kv_delete d k);
  kv_delete_dict d := on_mock (kv_delete_dict d);
  kv_list_keys d := on_mock (kv_list_keys d)
|}.

(** The counting wrapper keeps the laws of a backend whether its batches fail or
    not: what a commit promises holds over it too. *)
Lemma on_mock_inv {A} (m : M MockBackend Error A) c r c' :
  on_mock m c = (r, c') -> exists s', m (cb_inner c) = (r, s') /\ cb_inner c' = s'.
Proof. unfold on_mock, zoom. destruct (m (cb_inner c)) as [r0 s0]. intros [= <- <-]. by exists s0. Qed.

#[local] Program Instance counting_laws : KvLaws CountingBackend := {| kv_view := fun c => kv_view (cb_inner c) |}.
Next Obligation. intros c d k r c' (s' & Hr & <-)%on_mock_inv. by eapply kv_get_law. Qed.
Next Obligation. intros c d k v u c' (s' & Hr & <-)%on_mock_inv. by eapply (kv_put_ok (cb_inner c)). Qed.
Next Obligation. intros c d k v e c' (s' & Hr & <-)%on_mock_inv. by eapply (kv_put_err (cb_inner c)). Qed.
Next Obligation.
  intros c es u c' Hr. unfold kv_put_batch, counting_backend, counting_put_batch in Hr.
  destruct (cb_fail_batch c); [done|]. apply on_mock_inv in Hr as (s' & Hr & <-).
  eapply (put_batch_default_ok kv_view); [|exact Hr]. intros. by eapply kv_put_ok.
Qed.
Next Obligation.
  intros c es e c' Hr. unfold kv_put_batch, counting_backend, counting_put_batch in Hr.
  destruct (cb_fail_batch c); [by injection Hr as _ <-|]. apply on_mock_inv in Hr as (s' & Hr & <-).
  eapply (put_batch_default_err kv_view); [| |exact Hr]; intros; [by eapply kv_put_ok|by eapply kv_put_err].
Qed.
Next Obligation. intros c d k u c' (s' & Hr & <-)%on_mock_inv. by eapply (kv_delete_ok (cb_inner c)). Qed.
Next Obligation. intros c d k e c' (s' & Hr & <-)%on_mock_inv. by eapply (kv_delete_err (cb_inner c)). Qed.
Next Obligation. intros c d u c' (s' & Hr & <-)%on_mock_inv. by eapply (kv_delete_dict_ok (cb_inner c)). Qed.
Next Obligation. intros c d e c' (s' & Hr & <-)%on_mock_inv. by eapply (kv_delete_dict_err (cb_inner c)). Qed.
Next Obligation. intros c d r c' (s' & Hr & <-)%on_mock_inv. by eapply (kv_list_keys_law (cb_inner c)). Qed.

Abbreviation CB := (BufferingBackend CountingBackend).
Definition count {A} (f : CountingBackend -> A) : M CB string A := ask (fun b => f (inner b)).
Definition inner_get (d k : string) : M CB string (option bytes) :=
  let* r := count (fun c => (kv_get d k (cb_inner c)).1) in unwrap_ok r.
Definition count_three : Test CB :=
  unwrap (kv_put "d" "k1" v1) ;* (unwrap (kv_put "d" "k2" v2) ;* unwrap (kv_put "d" "k3" v3)).

Definition commit_uses_put_batch_not_per_put_loop : Test CB :=
  unwrap begin_batch ;*
  (count_three ;*
  (let* n := unwrap guard_commit in assert_eq n 3 ;*
  (let* b := count cb_batches in assert_eq b 1 ;*
  (let* t := count cb_batch_total in assert_eq t 3 ;*
  (let* p := count cb_puts in assert_eq p 0))))).
Example commit_uses_put_batch_not_per_put_loop_passes :
  passes commit_uses_put_batch_not_per_put_loop (buffering_new counting_backend_new) = true.
Proof. run_test. Qed.

Definition unbatched_put_uses_put_not_put_batch : Test CB :=
  unwrap (kv_put "d" "k" v1) ;*
  (let* b := count cb_batches in assert_eq b 0 ;*
  (let* p := count cb_puts in assert_eq p 1)).
Example unbatched_put_uses_put_not_put_batch_passes :
  passes unbatched_put_uses_put_not_put_batch (buffering_new counting_backend_new) = true.
Proof. run_test. Qed.

Definition commit_falls_back_to_per_put_when_put_batch_fails : Test CB :=
  unwrap begin_batch ;*
  (count_three ;*
  (let* n := unwrap guard_commit in assert_eq n 3 ;*
  (let* b := count cb_batches in assert_eq b 1 ;*
  (let* p := count cb_puts in assert_eq p 3 ;*
  (let* r1 := inner_get "d" "k1" in assert_eq r1 (Some v1) ;*
  (let* r2 := inner_get "d" "k2" in assert_eq r2 (Some v2) ;*
  (let* r3 := inner_get "d" "k3" in assert_eq r3 (Some v3)))))))).
Example commit_falls_back_to_per_put_when_put_batch_fails_passes :
  passes commit_falls_back_to_per_put_when_put_batch_fails (buffering_new (set_fail_batch true counting_backend_new)) = true.
Proof. run_test. Qed.
