(* ===== verification/StoreTests.v ===== *)
(** * Unit tests of the store ([presage-store-pddb/src/lib.rs] and
    [protocol/session_store.rs], [mod tests])

    The tests run on a [PddbStore] over the mock backend. What libsignal and
    presage generate (key pairs, records, registration data, profiles) are bytes,
    strings and numbers here, with the concrete codecs of [Concrete]. *)
From S2P Require Import Prelude Codec Kv Buffering Protocol Sessions Contents Store Batch Testing Concrete.

#[local] Existing Instance canonical_order.

(** ** The types the tests instantiate *)
Abbreviation P := (PddbStore (StoreBackend MockBackend) bytes).

(** An account is a number; its texts are all 32 hexadecimal digits. *)
#[local] Instance number_service_id : ServiceIdText N := {|
  raw_uuid_string := fun u => hex_fixed 32 u; service_id_string := fun u => hex_fixed 32 u
|}.
#[local] Instance number_uuid_bytes : UuidBytes N := fun u => pos_bytes (encode u).
#[local] Instance plain_digests : Digests := {|
  sha256_hex := fun b => hex_encode b; base64_encode := fun b => hex_encode b
|}.
#[local] Instance key_profile : ProfileKeyBytes bytes := fun b => b.

(** The fields of presage's registration data and of a profile. *)
Record Registered : Type := mkRegistered {
  rg_signal_servers : string; rg_device_name : string; rg_phone_number : string;
  rg_uuid : string; rg_pni : string; rg_password : string; rg_device_id : N;
  rg_registration_id : N; rg_pni_registration_id : N; rg_profile_key : string
}.
#[local] Instance registered_eq_dec : EqDecision Registered.
Proof. solve_decision. Defined.
#[local] Program Instance registered_countable : Countable Registered :=
  inj_countable' (fun r => (rg_signal_servers r, rg_device_name r, rg_phone_number r, rg_uuid r, rg_pni r,
      rg_password r, rg_device_id r, rg_registration_id r, rg_pni_registration_id r, rg_profile_key r))
    (fun '(a, b, c, d, e, f, g, h, i, j) => mkRegistered a b c d e f g h i j) _.
Next Obligation. by intros []. Qed.
#[local] Instance registered_json : Json Registered := countable_json _.
#[local] Instance fixture_registration_id : RegistrationId Registered := rg_registration_id.

Record Profile : Type := mkProfile {
  pf_name : option string; pf_about : option string; pf_about_emoji : option string;
  pf_avatar : option string; pf_unrestricted_unidentified_access : bool
}.
#[local] Instance profile_eq_dec : EqDecision Profile.
Proof. solve_decision. Defined.
#[local] Program Instance profile_countable : Countable Profile :=
  inj_countable' (fun r => (pf_name r, pf_about r, pf_about_emoji r, pf_avatar r,
      pf_unrestricted_unidentified_access r))
    (fun '(a, b, c, d, e) => mkProfile a b c d e) _.
Next Obligation. by intros []. Qed.
#[local] Instance profile_json : Json Profile := countable_json _.
#[local] Instance master_key_32 : MasterKeyBytes bytes := {|
  master_key_from_slice := fun b => if bool_decide (length b = 32) then Ok b else Err "invalid length";
  master_key_inner := fun b => b
|}.
#[local] Instance text_json : Json string := countable_json _.
#[local] Instance key_json : Json bytes := countable_json _.
#[local] Instance contact_json : Json (N * string) := countable_json _.
#[local] Instance pack_json : Json (bytes * string) := countable_json _.
Definition parse_number_id : string -> option N := from_str_radix (2 ^ 128 - 1) 16.
#[local] Instance number_codec : ContentCodec N N bytes bytes := {|
  body_encode := fun b => b;
  proto_decode := fun b => Ok b;
  body_from_proto := fun b _ => Ok b;
  parse_service_id := parse_number_id;
  uuid_parse := parse_number_id;
  device_id_error := fun _ => "device"
|}.
#[local] Instance message_eq_dec : EqDecision StoredMessage.
Proof. solve_decision. Defined.
#[local] Program Instance message_countable : Countable StoredMessage :=
  inj_countable' (fun s => (sm_sender s, sm_destination s, sm_sender_device s, sm_server_guid s, sm_timestamp s,
      (sm_needs_receipt s, sm_unidentified_sender s, sm_was_plaintext s), sm_body_proto s))
    (fun '(a, b, c, d, e, (f, g, h), i) => mkStored a b c d e f g h i) _.
Next Obligation. by intros []. Qed.
#[local] Instance message_json : Json StoredMessage := countable_json _.

(** A call on the backend of the store. *)
Definition on_kv {Er A} (m : M (StoreBackend MockBackend) Er A) : M P string A := unwrap (on_backend m).
Definition kv_ok {Er A} (m : M (StoreBackend MockBackend) Er A) : M P string bool := call_is_ok (on_backend m).

Definition with_mock_backend : P := store_new (Plain mock_new) Trust.
Definition new_buffering : P := store_new (Buffered (buffering_new mock_new)) Trust.

(** ** State *)
Definition fixture_registration : Registered :=
  mkRegistered "Production" "xous-test" "+15555550100" "00000000-0000-4000-8000-000000000001"
    "00000000-0000-4000-8000-000000000002" "test-password" 2 1234 5678
    "AAAAAAAAAAAAAAAAAAAAAAAAAAAAAAAAAAAAAAAAAAA=".
Definition fixture_profile : Profile := mkProfile None (Some "hello from xous") (Some "👋") None false.
Definition registered : M P string bool :=
  query (fun p => let '(r, s) := is_registered (RegistrationData := Registered) (backend p) in (r, set_backend s p)).
Definition save_fixture : Test P := on_kv (save_registration_data fixture_registration).
Definition load_registration : M P string (option Registered) := on_kv load_registration_data.
Definition fetch_key : M P string (option bytes) := on_kv fetch_master_key.

Definition empty_store_reports_unregistered : Test P :=
  let* r := registered in assert (negb r) ;*
  (let* d := load_registration in assert (is_none d) ;*
  (let* c := on_kv (sender_certificate (SenderCertificate := bytes)) in assert (is_none c) ;*
  (let* k := fetch_key in assert (is_none k)))).
Example empty_store_reports_unregistered_passes : passes empty_store_reports_unregistered with_mock_backend = true.
Proof. run_test. Qed.

Definition registration_data_round_trip : Test P :=
  save_fixture ;*
  (let* r := registered in assert r ;*
  (let* d := load_registration in
   let* loaded := unwrap_some d in assert_eq loaded fixture_registration)).
Example registration_data_round_trip_passes : passes registration_data_round_trip with_mock_backend = true.
Proof. run_test. Qed.

Definition aci_kp : bytes := [x01; x0a].
Definition pni_kp : bytes := [x02; x0b].
Definition state_get (key : string) : M P string (option bytes) := on_kv (kv_get "signal.state" key).

Definition identity_key_pair_round_trip : Test P :=
  on_kv (set_aci_identity_key_pair aci_kp) ;*
  (on_kv (set_pni_identity_key_pair pni_kp) ;*
  (let* a := state_get "aci_identity_key_pair" in assert (is_some a) ;*
  (let* p := state_get "pni_identity_key_pair" in assert (is_some p)))).
Example identity_key_pair_round_trip_passes : passes identity_key_pair_round_trip with_mock_backend = true.
Proof. run_test. Qed.

Definition master_key_round_trip : Test P :=
  let raw := replicate 32 xab in
  let* mk := unwrap_ok (master_key_from_slice raw) in
  on_kv (store_master_key (Some mk)) ;*
  (let* k := fetch_key in
   let* loaded := unwrap_some k in assert_eq (master_key_inner loaded) raw ;*
  (on_kv (store_master_key (MasterKey := bytes) None) ;*
  (let* k := fetch_key in assert (is_none k)))).
Example master_key_round_trip_passes : passes master_key_round_trip with_mock_backend = true.
Proof. run_test. Qed.

Definition clear_registration_resets_state : Test P :=
  let* mk := unwrap_ok (master_key_from_slice (replicate 32 x77)) in
  save_fixture ;*
  (on_kv (store_master_key (Some mk)) ;*
  (let* r := registered in assert r ;*
  (on_kv clear_registration ;*
  (let* r := registered in assert (negb r) ;*
  (let* d := load_registration in assert (is_none d) ;*
  (let* k := fetch_key in assert (is_none k))))))).
Example clear_registration_resets_state_passes : passes clear_registration_resets_state with_mock_backend = true.
Proof. run_test. Qed.

Definition account_state : M P string bool := query has_account_state.

Definition empty_store_has_no_account_state : Test P := let* r := account_state in assert (negb r).
Example empty_store_has_no_account_state_passes : passes empty_store_has_no_account_state with_mock_backend = true.
Proof. run_test. Qed.

Definition registration_counts_as_account_state_until_cleared : Test P :=
  save_fixture ;*
  (let* r := account_state in assert r ;*
  (unwrap clear ;*
  (let* r := account_state in assert (negb r)))).
Example registration_counts_as_account_state_until_cleared_passes :
  passes registration_counts_as_account_state_until_cleared with_mock_backend = true.
Proof. run_test. Qed.

Definition protocol_keys_count_as_account_state : Test P :=
  on_kv (kv_put (dict_kyber_prekey Aci) "17" [x00; x00; x00; x00]) ;*
  (let* r := account_state in assert r).
Example protocol_keys_count_as_account_state_passes :
  passes protocol_keys_count_as_account_state with_mock_backend = true.
Proof. run_test. Qed.

Definition load_profile (uuid : N) (key : bytes) : M P string (option Profile) := on_kv (profile uuid key).

Definition profile_round_trip : Test P :=
  let uuid := 0x00000000000040008000000000000003%N in
  let key := replicate 32 x01 in
  let* p := load_profile uuid key in assert (is_none p) ;*
  (on_kv (save_profile uuid key fixture_profile) ;*
  (let* p := load_profile uuid key in
   let* loaded := unwrap_some p in assert_eq loaded fixture_profile)).
Example profile_round_trip_passes : passes profile_round_trip with_mock_backend = true.
Proof. run_test. Qed.

(** Clones share the backend: a handle of the model is the store itself, so the
    write of one is read through the other by construction. *)
Definition clones_share_backend : Test P := save_fixture ;* (let* r := registered in assert r).
Example clones_share_backend_passes : passes clones_share_backend with_mock_backend = true.
Proof. run_test. Qed.

(** ** Protocol stores *)
Definition fixture_address (uuid device : N) : ProtocolAddress := mkAddress (service_id_string uuid) device.

#[local] Instance change_eq_dec : EqDecision IdentityChange.
Proof. solve_decision. Defined.

Definition identity_key_store_round_trip : Test P :=
  save_fixture ;*
  (on_kv (set_aci_identity_key_pair aci_kp) ;*
  (let* loaded := on_kv (get_identity_key_pair (IdentityKeyPair := bytes) Aci) in
   assert_eq (key_serialize loaded) (key_serialize aci_kp) ;*
  (let* id := on_kv (get_local_registration_id (RegistrationData := Registered)) in assert_eq id 1234%N ;*
  (let addr := fixture_address 0x00000000000040008000000000000010 1 in
   let other_id : bytes := [x05] in
   let third_id : bytes := [x06] in
   let* change := on_kv (save_identity Aci addr other_id) in assert_eq change NewOrUnchanged ;*
  (let* k := on_kv (get_identity Aci addr) in
   let* loaded := unwrap_some k in assert_eq loaded other_id ;*
  (let* change := on_kv (save_identity Aci addr other_id) in assert_eq change NewOrUnchanged ;*
  (let* change := on_kv (save_identity Aci addr third_id) in assert_eq change ReplacedExisting))))))).
Example identity_key_store_round_trip_passes : passes identity_key_store_round_trip with_mock_backend = true.
Proof. run_test. Qed.

(** A record carries its id in front of its key. *)
Definition prekey_record (id : N) : bytes := pos_bytes (encode id).
Definition load_pre_key (id : N) : M (StoreBackend MockBackend) SignalProtocolError bytes :=
  get_pre_key (PreKeyRecord := bytes) Aci id.

Definition pre_key_store_round_trip_packed : Test P :=
  let ids := [1; 2; 3; 100]%N in
  mfor ids (fun id => on_kv (save_pre_key Aci id (prekey_record id))) ;*
  (mfor ids (fun id => let* loaded := on_kv (load_pre_key id) in assert_eq loaded (prekey_record id)) ;*
  (on_kv (remove_pre_key Aci 2) ;*
  (let* r := kv_ok (load_pre_key 2) in assert (negb r) ;*
  (let* r := kv_ok (load_pre_key 3) in assert r)))).
Example pre_key_store_round_trip_packed_passes : passes pre_key_store_round_trip_packed with_mock_backend = true.
Proof. run_test. Qed.

Definition signed_pre_key_round_trip : Test P :=
  let record : bytes := [x07; x51] in
  on_kv (save_signed_pre_key Aci 7 record) ;*
  (let* loaded := on_kv (get_signed_pre_key (SignedPreKeyRecord := bytes) Aci 7) in assert_eq loaded record).
Example signed_pre_key_round_trip_passes : passes signed_pre_key_round_trip with_mock_backend = true.
Proof. run_test. Qed.

Definition load_kyber (id : N) : M (StoreBackend MockBackend) SignalProtocolError bytes :=
  get_kyber_pre_key (KyberPreKeyRecord := bytes) Aci id.
Definition base_key : bytes := [x09].

Definition kyber_pre_key_one_time_round_trip_and_use : Test P :=
  on_kv (save_kyber_pre_key (KyberPreKeyRecord := bytes) Aci 11 [x0b]) ;*
  (let* r := kv_ok (load_kyber 11) in assert r ;*
  (on_kv (mark_kyber_pre_key_used Aci 11 13 base_key) ;*
  (let* r := kv_ok (load_kyber 11) in assert (negb r)))).
Example kyber_pre_key_one_time_round_trip_and_use_passes :
  passes kyber_pre_key_one_time_round_trip_and_use with_mock_backend = true.
Proof. run_test. Qed.

Definition kyber_pre_key_last_resort_dedup : Test P :=
  on_kv (store_last_resort_kyber_pre_key (KyberPreKeyRecord := bytes) Aci 31 [x1f]) ;*
  (on_kv (mark_kyber_pre_key_used Aci 31 13 base_key) ;*
  (let* r := kv_ok (load_kyber 31) in assert r ;*
  (let* r := kv_ok (mark_kyber_pre_key_used Aci 31 13 base_key) in assert (negb r) ;*
  (let* lasts := on_kv (load_last_resort_kyber_pre_keys (KyberPreKeyRecord := bytes) Aci) in
   assert_eq (length lasts) 1)))).
Example kyber_pre_key_last_resort_dedup_passes : passes kyber_pre_key_last_resort_dedup with_mock_backend = true.
Proof. run_test. Qed.

Definition session : bytes := [x5e; x55].
Definition load_some (a : ProtocolAddress) : M P string bool :=
  let* r := unwrap (load_session Aci a) in mok (is_some r).

Definition session_cache_then_flush_then_load : Test P :=
  let addr := fixture_address 0x00000000000040008000000000000020 2 in
  unwrap (store_session Aci addr session) ;*
  (let* n := ask session_cache_len in assert_eq n 1 ;*
  (let* n := ask session_dirty_len in assert_eq n 1 ;*
  (let* r := unwrap (load_session Aci addr) in
   let* loaded := unwrap_some r in assert_eq loaded session ;*
  (let* written := unwrap flush_sessions in assert_eq written 1 ;*
  (let* n := ask session_dirty_len in assert_eq n 0 ;*
  (act (set_cache ∅) ;*
  (let* r := unwrap (load_session Aci addr) in
   let* loaded := unwrap_some r in assert_eq loaded session ;*
  (let* written := unwrap flush_sessions in assert_eq written 0)))))))).
Example session_cache_then_flush_then_load_passes : passes session_cache_then_flush_then_load with_mock_backend = true.
Proof. run_test. Qed.

(** libsignal's [create_sender_key_distribution_message] loads the record of the
    distribution, makes one when there is none, and stores it. *)
Definition load_sender (a : ProtocolAddress) (u : N) : M P string (option bytes) := on_kv (load_sender_key Aci a u).
Definition create_distribution (a : ProtocolAddress) (u : N) : Test P :=
  let* r := load_sender a u in on_kv (store_sender_key Aci a u (default [x5c] r)).

Definition sender_key_round_trip : Test P :=
  let addr := fixture_address 0x00000000000040008000000000000030 3 in
  let dist_id := 0x11111111222233334444555555555555%N in
  create_distribution addr dist_id ;*
  (let* loaded := load_sender addr dist_id in assert (is_some loaded) ;*
  (let* record := unwrap_some loaded in
   let* b := unwrap_ok (rec_serialize record) in
   let* cloned := unwrap_ok (rec_deserialize (R := bytes) b) in
   on_kv (store_sender_key Aci addr dist_id cloned) ;*
  (let* r := load_sender addr dist_id in assert (is_some r)))).
Example sender_key_round_trip_passes : passes sender_key_round_trip with_mock_backend = true.
Proof. run_test. Qed.

Definition next_pre_key_id_increments : Test P :=
  let* n := on_kv (next_pre_key_id Aci) in assert_eq n 1%N ;*
  (let* n := on_kv (next_signed_pre_key_id Aci) in assert_eq n 1%N ;*
  (let* n := on_kv (next_pq_pre_key_id Aci) in assert_eq n 1%N ;*
  (on_kv (save_pre_key Aci 5 (prekey_record 5)) ;*
  (let* n := on_kv (next_pre_key_id Aci) in assert_eq n 6%N)))).
Example next_pre_key_id_increments_passes : passes next_pre_key_id_increments with_mock_backend = true.
Proof. run_test. Qed.

Definition session_store_ext_delete_paths : Test P :=
  let aci_uuid := 0x00000000000040008000000000000040%N in
  let addr1 := fixture_address aci_uuid 1 in let addr2 := fixture_address aci_uuid 2 in
  unwrap (store_session Aci addr1 session) ;*
  (unwrap (store_session Aci addr2 session) ;*
  (let* n := unwrap flush_sessions in
   let* subs := unwrap (get_sub_device_sessions Aci aci_uuid) in assert_eq subs [2%N] ;*
  (unwrap (delete_session Aci addr1) ;*
  (let* r := load_some addr1 in assert (negb r) ;*
  (let* r := load_some addr2 in assert r ;*
  (let* n := unwrap (delete_all_sessions Aci aci_uuid) in assert_eq n 1 ;*
  (let* r := load_some addr2 in assert (negb r)))))))).
Example session_store_ext_delete_paths_passes : passes session_store_ext_delete_paths with_mock_backend = true.
Proof. run_test. Qed.

(** ** Contents *)
Definition load_contact (u : N) : M P string (option (N * string)) := on_kv (contact_by_id u).

Definition contact_round_trip : Test P :=
  let uuid := 0x00000000000040008000000000000050%N in
  on_kv (save_contact fst (uuid, "Test User")) ;*
  (let* c := load_contact uuid in
   let* loaded := unwrap_some c in assert_eq loaded.2 "Test User" ;*
  (let* all := on_kv (contacts (Contact := N * string)) in assert_eq (length all) 1 ;*
  (on_kv clear_contacts ;*
  (let* c := load_contact uuid in assert (is_none c))))).
Example contact_round_trip_passes : passes contact_round_trip with_mock_backend = true.
Proof. run_test. Qed.

Definition load_group (k : bytes) : M P string (option string) := on_kv (group k).

Definition group_round_trip : Test P :=
  let master_key := replicate 32 x2a in
  on_kv (save_group master_key "Test Group") ;*
  (let* g := load_group master_key in
   let* loaded := unwrap_some g in assert_eq loaded "Test Group" ;*
  (let* listed := on_kv (groups (Group := string)) in
   let* all := unwrap_some listed in assert_eq (length all) 1 ;*
  (on_kv clear_groups ;*
  (let* g := load_group master_key in assert (is_none g))))).
Example group_round_trip_passes : passes group_round_trip with_mock_backend = true.
Proof. run_test. Qed.

Definition load_profile_key (u : N) : M P string (option bytes) := on_kv (profile_key u).

Definition profile_key_round_trip : Test P :=
  let uuid := 0x00000000000040008000000000000060%N in let pk := replicate 32 x02 in
  let* new := on_kv (upsert_profile_key uuid pk) in assert new ;*
  (let* new := on_kv (upsert_profile_key uuid pk) in assert (negb new) ;*
  (let* k := load_profile_key uuid in
   let* loaded := unwrap_some k in assert_eq (profile_key_bytes loaded) (profile_key_bytes pk))).
Example profile_key_round_trip_passes : passes profile_key_round_trip with_mock_backend = true.
Proof. run_test. Qed.

Definition sticker_pack_round_trip : Test P :=
  let id : bytes := [x01; x02; x03; x04] in
  on_kv (add_sticker_pack fst (id, "Test")) ;*
  (let* s := on_kv (sticker_pack (StickerPack := bytes * string) id) in
   let* loaded := unwrap_some s in assert_eq loaded.2 "Test" ;*
  (let* all := on_kv (sticker_packs (StickerPack := bytes * string)) in assert_eq (length all) 1 ;*
  (let* removed := on_kv (remove_sticker_pack id) in assert removed ;*
  (let* removed := on_kv (remove_sticker_pack id) in assert (negb removed))))).
Example sticker_pack_round_trip_passes : passes sticker_pack_round_trip with_mock_backend = true.
Proof. run_test. Qed.

Definition build_content (sender ts : N) : Content N N bytes :=
  mkContent (mkMetadata sender sender 1 None ts false false false)
    (String.list_byte_of_string ("hello-" +:+ pretty ts)).
Abbreviation TestMsg := (Content N N bytes).
Definition load_one (t : Thread N) (ts : N) : M P string (option TestMsg) := on_kv (message (Proto := bytes) t ts).
Definition load_range (t : Thread N) (range : Bound * Bound) : M P string (list (result TestMsg Error)) :=
  on_kv (messages (Proto := bytes) t range).
Definition timestamps (ms : list (result TestMsg Error)) : list N :=
  omap (fun r => match r with Ok m => Some (Contents.timestamp (metadata m)) | Err _ => None end) ms.

Definition message_round_trip_and_range : Test P :=
  let aci := 0x00000000000040008000000000000080%N in let thread := ThreadContact aci in
  mfor [100; 200; 300]%N (fun ts => on_kv (save_message (Proto := bytes) thread (build_content aci ts))) ;*
  (let* m := load_one thread 200 in
   let* msg := unwrap_some m in assert_eq (Contents.timestamp (metadata msg)) 200%N ;*
  (let* msgs := load_range thread (Included 150, Included 250) in
   assert_eq (length msgs) 1 ;* (assert_eq (timestamps msgs) [200%N] ;*
  (let* msgs := load_range thread (Unbounded, Unbounded) in
   assert_eq (length msgs) 3 ;* (assert_eq (timestamps msgs) [100; 200; 300]%N ;*
  (let* gone := on_kv (delete_message thread 200) in assert gone ;*
  (let* gone := on_kv (delete_message thread 200) in assert (negb gone) ;*
  (let* m := load_one thread 200 in assert (is_none m) ;*
  (on_kv (clear_thread thread) ;*
  (let* m := load_one thread 100 in assert (is_none m))))))))))).
Example message_round_trip_and_range_passes : passes message_round_trip_and_range with_mock_backend = true.
Proof. run_test. Qed.

Definition store_clear_resets_everything : Test P :=
  let uuid := 0x00000000000040008000000000000070%N in
  let addr := fixture_address 0x00000000000040008000000000000071 1 in
  save_fixture ;*
  (let* new := on_kv (upsert_profile_key uuid (replicate 32 x03)) in
   unwrap (store_session Aci addr session) ;*
  (let* n := unwrap flush_sessions in
   let* r := registered in assert r ;*
  (let* n := ask session_cache_len in assert_eq n 1 ;*
  (unwrap clear ;*
  (let* r := registered in assert (negb r) ;*
  (let* r := load_some addr in assert (negb r) ;*
  (let* k := load_profile_key uuid in assert (is_none k) ;*
  (let* n := ask session_cache_len in assert_eq n 0)))))))).
Example store_clear_resets_everything_passes : passes store_clear_resets_everything with_mock_backend = true.
Proof. run_test. Qed.

(** ** The store over the buffering backend *)
Definition batching : M P string bool := ask (fun p => is_send_batching (backend p)).
Definition guard_len : M P string nat :=
  ask (fun p => match backend p with Plain _ => 0 | Buffered b => buffered_len b end).

Definition buffering_store_passthrough_when_no_batch : Test P :=
  on_kv (set_aci_identity_key_pair aci_kp) ;*
  (let* k := state_get "aci_identity_key_pair" in assert (is_some k)).
Example buffering_store_passthrough_when_no_batch_passes :
  passes buffering_store_passthrough_when_no_batch new_buffering = true.
Proof. run_test. Qed.

Definition sentinel : bytes := [x62; x61; x73; x65; x6c; x69; x6e; x65].

Definition buffering_store_writes_buffered_during_batch : Test P :=
  on_kv (kv_put "signal.state" "sentinel" sentinel) ;*
  (let* guard := unwrap begin_send_batch in assert guard ;*
  (let* b := batching in assert b ;*
  (on_kv (set_aci_identity_key_pair aci_kp) ;*
  (let* n := guard_len in assert (1 <=? n) ;*
  (act drop_guard_store ;*
  (let* b := batching in assert (negb b) ;*
  (let* k := state_get "aci_identity_key_pair" in assert (is_none k) ;*
  (let* s := state_get "sentinel" in assert_eq s (Some sentinel))))))))).
Example buffering_store_writes_buffered_during_batch_passes :
  passes buffering_store_writes_buffered_during_batch new_buffering = true.
Proof. run_test. Qed.

Definition buffering_store_commit_persists_writes : Test P :=
  let* guard := unwrap begin_send_batch in assert guard ;*
  (on_kv (set_aci_identity_key_pair aci_kp) ;*
  (let* n := unwrap guard_commit_store in assert (1 <=? n) ;*
  (let* b := batching in assert (negb b) ;*
  (let* k := state_get "aci_identity_key_pair" in assert (is_some k))))).
Example buffering_store_commit_persists_writes_passes :
  passes buffering_store_commit_persists_writes new_buffering = true.
Proof. run_test. Qed.

Definition buffering_store_read_through_during_batch : Test P :=
  let peer_addr := fixture_address 0x000000000000400080000000000000ab 1 in let peer_id : bytes := [x0c] in
  on_kv (set_aci_identity_key_pair aci_kp) ;*
  (save_fixture ;*
  (let* guard := unwrap begin_send_batch in assert guard ;*
  (let* change := on_kv (save_identity Aci peer_addr peer_id) in
   let* read_back := on_kv (get_identity Aci peer_addr) in assert_eq read_back (Some peer_id) ;*
  (let* n := unwrap guard_commit_store in
   let* read_back := on_kv (get_identity Aci peer_addr) in assert_eq read_back (Some peer_id))))).
Example buffering_store_read_through_during_batch_passes :
  passes buffering_store_read_through_during_batch new_buffering = true.
Proof. run_test. Qed.

Definition buffering_store_rejects_nested_batches : Test P :=
  let* guard := unwrap begin_send_batch in assert guard ;*
  (let* r := call_is_err begin_send_batch in assert r).
Example buffering_store_rejects_nested_batches_passes :
  passes buffering_store_rejects_nested_batches new_buffering = true.
Proof. run_test. Qed.

Definition non_buffering_store_returns_none : Test P :=
  let* guard := unwrap begin_send_batch in assert (negb guard) ;*
  (let* b := batching in assert (negb b)).
Example non_buffering_store_returns_none_passes : passes non_buffering_store_returns_none with_mock_backend = true.
Proof. run_test. Qed.

(** ** Session bundles ([protocol/session_store.rs])

    The two tests that compare with serde's and bincode's own encodings speak
    about those crates and have no counterpart here. *)
Definition sample_bundle : SessionBundle :=
  {[ 1%N := [x10; x20; x30; x40]; 2%N := replicate 256 xff; 7%N := [x68; x65; x6c; x6c; x6f] ]}.

Definition bincode_roundtrip : Test unit :=
  let* b := unwrap_ok (serialize_session_bundle sample_bundle) in
  assert_eq (head b) (Some SESSION_BUNDLE_VERSION_BINCODE_V1) ;*
  (let* decoded := unwrap_ok (deserialize_session_bundle b) in assert_eq sample_bundle decoded).
Example bincode_roundtrip_passes : passes bincode_roundtrip tt = true.
Proof. run_test. Qed.

Definition empty_bundle_roundtrips : Test unit :=
  let* b := unwrap_ok (serialize_session_bundle ∅) in
  let* decoded := unwrap_ok (deserialize_session_bundle b) in assert_eq decoded ∅.
Example empty_bundle_roundtrips_passes : passes empty_bundle_roundtrips tt = true.
Proof. run_test. Qed.
