(* ===== verification/WorkerTests.v ===== *)
(** * Unit tests of the worker ([xous-signal-worker/src/lib.rs], [mod tests])

    The lifecycle tests spawn the worker over a mock store and talk to it through
    its two channels; here they drive the [System] one command at a time and read
    the events it sent. The store holds no registration, so no manager exists. *)
From S2P Require Import Prelude Codec Utf8 Text Kv Buffering Protocol Sessions Contents Store Batch Worker Send.
From S2P Require Import Receive Dispatcher ManagerTask System Testing Concrete.

#[local] Existing Instances canonical_order plain_debug string_ids string_contact string_json.

Abbreviation P := (PddbStore (StoreBackend MockBackend) bytes).
Abbreviation Y := (System P unit string).

(** Presage without a server: registration data is looked up in the store, every
    other call fails. *)
#[local] Instance offline_presage : Presage P unit string string := {|
  send_message _ _ _ st := (0%N, SendFailed "offline", st);
  request_contacts st := (0%N, Err "offline", st);
  lookup_username _ st := (0%N, Err "offline", st);
  retrieve_profile_by_uuid _ _ st := (0%N, Err "offline", st);
  receive_messages st := (0%N, Err "offline", st);
  last_identified_close_code _ := None
|}.
#[local] Instance offline_link : PresageLink P unit := {|
  registration_data _ := mkRegistration (mkAccountInfo "xous" "aci" "+1") "pni";
  load_registered p :=
    match kv_get STATE_DICT KEY_REGISTRATION (backend p) with
    | (Ok (Some _), s) => (0%N, Ok tt, set_backend s p)
    | (_, s) => (0%N, Err "this client is not yet registered, please register or link as a secondary device",
                 set_backend s p)
    end;
  link_secondary_device name p := (0%N, (None, Err "offline"), p);
  link_dropped name p := (0%N, None, p)
|}.

Definition world_over (s : StoreBackend MockBackend) : World P unit string := mkWorld (store_new s Trust) tt 0 [] true ∅.

(** ** The worker and its channels

    The state of a test: the worker and how many events the test has received. *)
Record Session : Type := mkSession { ts_system : Y; ts_received : nat }.
Definition spawn (s : StoreBackend MockBackend) : Session := mkSession (system_start (world_over s)) 0.

(** [cmd_tx.send_blocking(c).unwrap()], the drop of [cmd_tx], and the worker's turn. *)
Definition turn (u : Turn string string) : Test Session :=
  fun t => match sys_step (Contact := string) (ts_system t) u with
           | Some y => (Ok tt, mkSession y (ts_received t))
           | None => (Err "the worker is gone or waits", t)
           end.
Definition send_blocking (c : Cmd) : Test Session := turn (TurnCmd c [] false).
(** [event_rx.recv_blocking()]: an error once the worker is gone. *)
Definition recv_blocking : M Session string (Event string) :=
  fun t => match w_events (y_world (ts_system t)) !! ts_received t with
           | Some e => (Ok e, mkSession (ts_system t) (S (ts_received t)))
           | None => (Err "no event", t)
           end.
(** [handle.join()]: the worker has left its loop. *)
Definition join : Test Session := fun t => (if y_running (ts_system t) then Err "still running" else Ok tt, t).

Definition shutdown : Test Session := send_blocking Shutdown ;* (let* e := recv_blocking in join).
Definition is_pong (e : Event string) : bool := match e with Pong => true | _ => false end.
Definition contains_not_linked (reason : string) : bool := contains reason "not linked".

Definition hello_pong_round_trip : Test Session :=
  send_blocking Hello ;*
  (let* e := recv_blocking in assert (is_pong e) ;*
  (send_blocking Shutdown ;*
  (let* e := recv_blocking in assert (match e with ShuttingDown => true | _ => false end) ;* join))).
Example hello_pong_round_trip_passes : passes hello_pong_round_trip (spawn (Plain mock_new)) = true.
Proof. run_test. Qed.

Definition whoami_returns_error_on_empty_store : Test Session :=
  send_blocking GetWhoami ;*
  (let* e := recv_blocking in assert (match e with Whoami (Err _) => true | _ => false end) ;* shutdown).
Example whoami_returns_error_on_empty_store_passes :
  passes whoami_returns_error_on_empty_store (spawn (Plain mock_new)) = true.
Proof. run_test. Qed.

Definition manager_ops_before_link_error_cleanly : Test Session :=
  send_blocking (SendMessage "nobody" "hi" 42) ;*
  (let* e := recv_blocking in
   assert (match e with
           | SendError reason ts => contains_not_linked reason && bool_decide (ts = Some 42%N)
           | _ => false end) ;*
  (send_blocking StartReceive ;*
  (let* e := recv_blocking in
   assert (match e with ReceiveError reason => contains_not_linked reason | _ => false end) ;*
  (send_blocking SyncContacts ;*
  (let* e := recv_blocking in
   assert (match e with SyncError reason => contains_not_linked reason | _ => false end) ;*
  (send_blocking (ResolveUsername "alice.42") ;*
  (let* e := recv_blocking in
   assert (match e with UsernameResolveResult (Err reason) => contains_not_linked reason | _ => false end) ;*
   shutdown))))))).
Example manager_ops_before_link_error_cleanly_passes :
  passes manager_ops_before_link_error_cleanly (spawn (Plain mock_new)) = true.
Proof. run_test. Qed.

(** Leftover kyber record with no registration data. *)
Definition leftover : StoreBackend MockBackend :=
  (kv_put "signal.protocol.aci.kyber_prekey" "17" [x00; x00; x00; x00] (Plain mock_new)).2.

Definition link_device_refused_on_stale_store : Test Session :=
  send_blocking (LinkDevice "test") ;*
  (let* e := recv_blocking in assert (match e with StaleStoreDetected => true | _ => false end) ;*
  (send_blocking Hello ;*
  (let* e := recv_blocking in assert (is_pong e) ;* shutdown))).
Example link_device_refused_on_stale_store_passes :
  passes link_device_refused_on_stale_store (spawn leftover) = true.
Proof. run_test. Qed.

Definition dropping_cmd_channel_shuts_down_cleanly : Test Session :=
  send_blocking Hello ;*
  (let* e := recv_blocking in assert (is_pong e) ;*
  (turn TurnCmdsClosed ;*
  (let* r := call_is_err recv_blocking in join))).
Example dropping_cmd_channel_shuts_down_cleanly_passes :
  passes dropping_cmd_channel_shuts_down_cleanly (spawn (Plain mock_new)) = true.
Proof. run_test. Qed.

(** ** Deferred sends *)
Abbreviation W := (World P unit string).

(** The event an expired entry turns into, by its timestamp. *)
Definition expired_ts (e : Event string) : option N := match e with SendError _ ts => ts | _ => None end.

Definition sweep_expired_pending_sends_emits_send_error_for_expired_entries_only : Test W :=
  act sweep_expired_pending_sends ;*
  (let* events := ask w_events in
   let* pending := ask w_pending in
   asserts [bool_decide (length events = 2);
     bool_decide (merge_sort N.le (omap expired_ts events) = [100; 300]%N);
     is_some (pending !! 200%N); is_none (pending !! 100%N); is_none (pending !! 300%N)]).
Definition sweep_world (now : N) : W :=
  mkWorld (store_new (Plain mock_new) Trust) tt now [] true
    (<[100%N := (now - 1000)%N]> (<[200%N := (now + 60000)%N]> {[ 300%N := (now - 1)%N ]})).
Example sweep_expired_pending_sends_emits_send_error_for_expired_entries_only_passes :
  passes sweep_expired_pending_sends_emits_send_error_for_expired_entries_only (sweep_world 100000) = true.
Proof. run_test. Qed.

(** ** Group tags *)
Definition MASTER_KEY : bytes := replicate 32 x07.

Definition test_metadata : Metadata string string :=
  mkMetadata "00000000-1111-2222-3333-444455550001" "00000000-aaaa-bbbb-cccc-ddddeeee0002" 1 None 1700000000000 false false false.
Definition data_message (text : string) (group : bool) : DataMessage :=
  mkData (Some text) None (if group then Some (Some MASTER_KEY) else None) None.

(** One content through [process_received]; the events it sent. *)
Definition process_one (b : ContentBody) : M W string (list (Event string)) :=
  fun w =>
    let '(keep_going, _, w') :=
      process_received (Contact := string) (ReceivedContent (mkContent test_metadata b)) [] w in
    if keep_going then (Ok (w_events w'), w') else (Err "assertion failed", w').
Definition mock_store_world : W := world_over (Plain mock_new).
Definition one_message (events : list (Event string)) (f : string -> option bytes -> bool) : bool :=
  match events with [Message _ _ _ text _ group] => f text group | _ => false end.

Definition inbound_group_data_message_is_group_tagged : Test W :=
  let* events := process_one (BodyDataMessage (data_message "the party is off" true)) in
  assert (one_message events (fun text group =>
    bool_decide (text = "the party is off") && bool_decide (group = Some MASTER_KEY))).
Example inbound_group_data_message_is_group_tagged_passes :
  passes inbound_group_data_message_is_group_tagged mock_store_world = true.
Proof. run_test. Qed.

Definition inbound_one_to_one_data_message_is_not_group_tagged : Test W :=
  let* events := process_one (BodyDataMessage (data_message "hi" false)) in
  assert (one_message events (fun _ group => is_none group)).
Example inbound_one_to_one_data_message_is_not_group_tagged_passes :
  passes inbound_one_to_one_data_message_is_not_group_tagged mock_store_world = true.
Proof. run_test. Qed.

Definition sync_sent_group_transcript_is_group_tagged : Test W :=
  let* events := process_one (SynchronizeMessage (Some (Some (data_message "sent to the room" true)))) in
  assert (one_message events (fun _ group => bool_decide (group = Some MASTER_KEY))).
Example sync_sent_group_transcript_is_group_tagged_passes :
  passes sync_sent_group_transcript_is_group_tagged mock_store_world = true.
Proof. run_test. Qed.

Definition sync_sent_one_to_one_transcript_is_not_mistagged : Test W :=
  let* events := process_one (SynchronizeMessage (Some (Some (data_message "just for you" false)))) in
  assert (one_message events (fun text group => bool_decide (text = "just for you") && is_none group)).
Example sync_sent_one_to_one_transcript_is_not_mistagged_passes :
  passes sync_sent_one_to_one_transcript_is_not_mistagged mock_store_world = true.
Proof. run_test. Qed.
