(* ===== verification/Dialogue.v ===== *)
(** * Conversations ([xous-app-signal/src/dialogue.rs])

    The messages the app holds, the per-conversation summaries re-derived from
    them, and the text helpers of the list: [ellipsize], [brief_relative], the
    UUID labels. The [uuid] crate is a parameter. *)
From Stdlib Require Import Ascii Strings.String.
From S2P Require Import Prelude Codec Utf8 Text.

(** ** The [uuid] crate, as far as the app uses it *)
Class UuidCrate (Uuid : Type) : Type := {
  uuid_simple : Uuid -> string;      (* uuid.simple().to_string() *)
  uuid_to_string : Uuid -> string;   (* uuid.to_string(), hyphenated *)
  uuid_parse_str : string -> option Uuid;
  uuid_nil : Uuid;
  uuid_new_v5_oid : bytes -> Uuid;   (* Uuid::new_v5(&Uuid::NAMESPACE_OID, key) *)
  uuid_from_u128 : N -> Uuid
}.
Definition hex_string (s : string) : bool := forallb (ascii_char hexdigit_code) (chars s).
(** The two text forms are hexadecimal, with hyphens at 8, 13, 18 and 23 in the
    second, and parse back. *)
Class UuidCrateLaws (Uuid : Type) `{!UuidCrate Uuid} : Prop := {
  uuid_simple_hex : forall u, slen (uuid_simple u) = 32 /\ hex_string (uuid_simple u) = true;
  uuid_parse_to_string : forall u : Uuid, uuid_parse_str (uuid_to_string u) = Some u
}.

(** ** Data *)
Inductive SendStatus : Type := Pending | Sent | Delivered | Failed.
#[global] Instance SendStatus_eq_dec : EqDecision SendStatus.
Proof. solve_decision. Defined.

Record ThreadMessage (Uuid : Type) : Type := mkMsg {
  tm_uuid : Uuid;
  tm_author_label : string;
  tm_body : string;
  tm_timestamp : N;
  tm_outgoing : bool;
  tm_status : SendStatus;
  tm_read : bool;
  tm_group : bool
}.
Arguments mkMsg {Uuid}.
Arguments tm_uuid {Uuid}. Arguments tm_author_label {Uuid}. Arguments tm_body {Uuid}.
Arguments tm_timestamp {Uuid}. Arguments tm_outgoing {Uuid}. Arguments tm_status {Uuid}.
Arguments tm_read {Uuid}. Arguments tm_group {Uuid}.

Record DialogueSummary (Uuid : Type) : Type := mkSummary {
  ds_uuid : Uuid;
  ds_display_name : string;
  ds_last_msg_snippet : string;
  ds_last_msg_ts : N;
  ds_last_msg_outgoing : bool;
  ds_last_msg_status : SendStatus;
  ds_unread_count : N;
  ds_is_group : bool
}.
Arguments mkSummary {Uuid}.
Arguments ds_uuid {Uuid}. Arguments ds_display_name {Uuid}. Arguments ds_last_msg_snippet {Uuid}.
Arguments ds_last_msg_ts {Uuid}. Arguments ds_last_msg_outgoing {Uuid}.
Arguments ds_last_msg_status {Uuid}. Arguments ds_unread_count {Uuid}. Arguments ds_is_group {Uuid}.

(** ** Text helpers *)
Definition ellipsis : string := utf8_char 8230.

Definition ellipsize (s : string) (max : nat) : string :=
  if bool_decide (max = 0) then ""
  else
    let count := char_count s in
    if bool_decide (count <= max) then s
    else collect (take (max - 1) (chars s)) +:+ ellipsis.

Definition brief_relative (ts_ms now_ms : N) : string :=
  let dt_s := (saturating_sub now_ms ts_ms / 1000)%N in
  (if dt_s <? 60 then pretty dt_s +:+ "s"
   else if dt_s <? 60 * 60 then pretty (dt_s / 60) +:+ "m"
   else if dt_s <? 24 * 60 * 60 then pretty (dt_s / 3600) +:+ "h"
   else if dt_s <? 48 * 60 * 60 then "Yest"
   else pretty (dt_s / (24 * 60 * 60)) +:+ "d")%N.

Definition looks_like_raw_uuid (s : string) : bool :=
  let len := slen s in
  if bool_decide (len = 36) then
    forallb id (imap (fun i c =>
      Bool.eqb (bool_decide (i ∈ [8; 13; 18; 23])) (bool_decide (c = "-"))
      && (bool_decide (c = "-") || ascii_char hexdigit_code c)) (chars s))
  else if bool_decide (len = 32) then forallb (ascii_char hexdigit_code) (chars s)
  else false.

Section dialogue.
Context {Uuid : Type} `{!UuidCrate Uuid} `{Countable Uuid}.
Implicit Types (u : Uuid) (m : ThreadMessage Uuid) (d : DialogueSummary Uuid).

Definition short_uuid_label u : string :=
  let s := uuid_simple u in
  let prefix := collect (take 8 (chars s)) in
  "uuid:" +:+ prefix.

(** ** Building the summaries *)

(** [or_insert_with(|| DialogueSummary { .. })]. *)
Definition new_entry u : DialogueSummary Uuid := {|
  ds_uuid := u;
  ds_display_name := short_uuid_label u;
  ds_last_msg_snippet := "";
  ds_last_msg_ts := 0;
  ds_last_msg_outgoing := false;
  ds_last_msg_status := Sent;
  ds_unread_count := 0;
  ds_is_group := false
|}.

(** The body of the loop, on the entry of the message's conversation. *)
Definition update_entry (entry : DialogueSummary Uuid) m : DialogueSummary Uuid :=
  let is_group := ds_is_group entry || tm_group m in
  let display_name :=
    if negb (tm_outgoing m) then
      if looks_like_raw_uuid (tm_author_label m) then short_uuid_label (tm_uuid m)
      else tm_author_label m
    else ds_display_name entry in
  let newest := (ds_last_msg_ts entry <=? tm_timestamp m)%N in
  let unread := negb (tm_outgoing m) && bool_decide (tm_status m = Sent) && negb (tm_read m) in
  {|
    ds_uuid := ds_uuid entry;
    ds_display_name := display_name;
    ds_last_msg_snippet := if newest then ellipsize (tm_body m) 32 else ds_last_msg_snippet entry;
    ds_last_msg_ts := if newest then tm_timestamp m else ds_last_msg_ts entry;
    ds_last_msg_outgoing := if newest then tm_outgoing m else ds_last_msg_outgoing entry;
    ds_last_msg_status := if newest then tm_status m else ds_last_msg_status entry;
    ds_unread_count :=
      if unread then ((ds_unread_count entry + 1) `min` u32_max)%N else ds_unread_count entry;
    ds_is_group := is_group
  |}.

Definition add_message (by_uuid : gmap Uuid (DialogueSummary Uuid)) m : gmap Uuid (DialogueSummary Uuid) :=
  let entry := default (new_entry (tm_uuid m)) (by_uuid !! tm_uuid m) in
  <[tm_uuid m := update_entry entry m]> by_uuid.

Definition summaries_by_uuid (messages : list (ThreadMessage Uuid)) : gmap Uuid (DialogueSummary Uuid) :=
  foldl add_message ∅ messages.

(** [b.last_msg_ts.cmp(&a.last_msg_ts)]: newest first. *)
Definition newest_first d1 d2 : Prop := (ds_last_msg_ts d2 <= ds_last_msg_ts d1)%N.
#[global] Instance newest_first_dec : RelDecision newest_first.
Proof. intros d1 d2. unfold newest_first. apply _. Defined.

Definition rebuild_summaries `{HashOrder} (messages : list (ThreadMessage Uuid)) : list (DialogueSummary Uuid) :=
  merge_sort newest_first (hash_iter (summaries_by_uuid messages)).*2.

(** ** Reference definition: what the row of one conversation says *)
Definition conversation u (messages : list (ThreadMessage Uuid)) : list (ThreadMessage Uuid) :=
  base.filter (fun m => tm_uuid m = u) messages.

Definition is_newest (ms : list (ThreadMessage Uuid)) m : bool :=
  forallb (fun m' => (tm_timestamp m' <=? tm_timestamp m)%N) ms.

(** The last of the messages whose timestamp no other exceeds. *)
Definition latest (ms : list (ThreadMessage Uuid)) : option (ThreadMessage Uuid) :=
  List.find (is_newest ms) (rev ms).

Definition is_unread m : bool := negb (tm_outgoing m) && bool_decide (tm_status m = Sent) && negb (tm_read m).

Definition author_name m : string :=
  if looks_like_raw_uuid (tm_author_label m) then short_uuid_label (tm_uuid m) else tm_author_label m.

Definition summary_of u (messages : list (ThreadMessage Uuid)) : DialogueSummary Uuid :=
  let ms := conversation u messages in
  let last := latest ms in
  {|
    ds_uuid := u;
    ds_display_name :=
      default (short_uuid_label u) (author_name <$> List.find (fun m => negb (tm_outgoing m)) (rev ms));
    ds_last_msg_snippet := from_option (fun m => ellipsize (tm_body m) 32) "" last;
    ds_last_msg_ts := from_option tm_timestamp 0%N last;
    ds_last_msg_outgoing := from_option tm_outgoing false last;
    ds_last_msg_status := from_option tm_status Sent last;
    ds_unread_count := (N.of_nat (length (List.filter is_unread ms)) `min` u32_max)%N;
    ds_is_group := existsb tm_group ms
  |}.

(** ** Lemmas *)
Lemma conversation_snoc u ms m :
  conversation u (ms ++ [m]) = conversation u ms ++ (if decide (tm_uuid m = u) then [m] else []).
Proof.
  unfold conversation. rewrite filter_app, filter_cons, filter_nil. by destruct (decide (tm_uuid m = u)).
Qed.

Lemma newest_exists (ms : list (ThreadMessage Uuid)) :
  ms <> [] -> exists l, l ∈ ms /\ forall m, m ∈ ms -> (tm_timestamp m <= tm_timestamp l)%N.
Proof.
  induction ms as [|m ms IH]; [done|]. intros _. destruct (decide (ms = [])) as [->|Hne].
  - exists m. split; [by left|]. by intros m' ->%list_elem_of_singleton.
  - destruct (IH Hne) as (l & Hl & Hmax). destruct (decide (tm_timestamp l <= tm_timestamp m)%N).
    + exists m. split; [by left|]. intros m' [->|Hm]%elem_of_cons; [done|]. specialize (Hmax _ Hm). lia.
    + exists l. split; [by right|]. intros m' [->|Hm]%elem_of_cons; [lia|auto].
Qed.

Lemma is_newest_spec ms m :
  is_newest ms m = true <-> forall m', m' ∈ ms -> (tm_timestamp m' <= tm_timestamp m)%N.
Proof.
  unfold is_newest. rewrite forallb_forall. setoid_rewrite N.leb_le. by setoid_rewrite list_elem_of_In.
Qed.

Lemma find_ext_in {A} (p q : A -> bool) l :
  (forall x, x ∈ l -> p x = q x) -> List.find p l = List.find q l.
Proof.
  induction l as [|x l IH]; intros Hpq; [done|]. simpl. rewrite (Hpq x) by left.
  destruct (q x); [done|]. apply IH. intros y Hy. apply Hpq. by right.
Qed.

Lemma latest_spec ms l :
  latest ms = Some l -> l ∈ ms /\ forall m, m ∈ ms -> (tm_timestamp m <= tm_timestamp l)%N.
Proof.
  intros [Hin Hl]%find_some. split; [|by apply is_newest_spec].
  by rewrite list_elem_of_In, in_rev.
Qed.

Lemma latest_none ms : latest ms = None -> ms = [].
Proof.
  intros Hn. destruct (decide (ms = [])) as [|Hne]; [done|].
  destruct (newest_exists ms Hne) as (l & Hl & Hmax).
  assert (Hf : is_newest ms l = false).
  { apply (find_none _ _ Hn l). by rewrite <- in_rev, <- list_elem_of_In. }
  by rewrite (proj2 (is_newest_spec ms l) Hmax) in Hf.
Qed.

(** An appended message is the latest unless an older one is strictly newer. *)
Lemma latest_snoc ms m :
  latest (ms ++ [m]) =
  match latest ms with
  | Some l => if (tm_timestamp l <=? tm_timestamp m)%N then Some m else Some l
  | None => Some m
  end.
Proof.
  unfold latest at 1. rewrite rev_app_distr. cbn [rev app List.find].
  destruct (latest ms) as [l|] eqn:Hl.
  - destruct (latest_spec _ _ Hl) as [Hin Hmax]. destruct (N.leb_spec (tm_timestamp l) (tm_timestamp m)) as [Hle|Hlt].
    + rewrite (proj2 (is_newest_spec _ _)); [done|].
      intros m' [Hm|Hm]%elem_of_app; [specialize (Hmax _ Hm); lia|].
      by apply list_elem_of_singleton in Hm as ->.
    + destruct (is_newest (ms ++ [m]) m) eqn:Hnew.
      { rewrite is_newest_spec in Hnew. assert (tm_timestamp l <= tm_timestamp m)%N by (apply Hnew, elem_of_app; by left). lia. }
      rewrite <- Hl. apply find_ext_in. intros x Hx. unfold is_newest at 1.
      rewrite forallb_app. cbn [forallb]. rewrite andb_true_r. fold (is_newest ms x).
      destruct (is_newest ms x) eqn:Hxm; [|done]. cbn [andb].
      pose proof (proj1 (is_newest_spec ms x) Hxm l Hin). apply N.leb_le. lia.
  - apply latest_none in Hl as ->. simpl. rewrite N.leb_refl. done.
Qed.

Lemma summary_of_empty u : summary_of u [] = new_entry u.
Proof. done. Qed.

Lemma summary_of_snoc ms m :
  summary_of (tm_uuid m) (ms ++ [m]) = update_entry (summary_of (tm_uuid m) ms) m.
Proof.
  unfold summary_of. rewrite conversation_snoc. destruct (decide (tm_uuid m = tm_uuid m)) as [_|]; [|done].
  set (c := conversation (tm_uuid m) ms). unfold update_entry. cbn [ds_uuid ds_display_name ds_last_msg_snippet
    ds_last_msg_ts ds_last_msg_outgoing ds_last_msg_status ds_unread_count ds_is_group].
  rewrite latest_snoc, rev_app_distr, List.filter_app, existsb_app, length_app. cbn [rev app List.find List.filter existsb].
  fold (is_unread m). rewrite orb_false_r.
  assert (Hlast : forall {B} (f : ThreadMessage Uuid -> B) (x : B),
    from_option f x (match latest c with
                     | Some l => if (tm_timestamp l <=? tm_timestamp m)%N then Some m else Some l
                     | None => Some m
                     end) =
    if (from_option tm_timestamp 0 (latest c) <=? tm_timestamp m)%N then f m else from_option f x (latest c)).
  { intros B f x. destruct (latest c) as [l|]; cbn [from_option]; [by destruct (_ <=? _)%N|].
    by rewrite (proj2 (N.leb_le 0 _)) by lia. }
  rewrite !Hlast. f_equal.
  - by destruct (tm_outgoing m).
  - destruct (is_unread m); cbn [length]; unfold u32_max; lia.
Qed.

Lemma summary_of_other u ms m : tm_uuid m <> u -> summary_of u (ms ++ [m]) = summary_of u ms.
Proof.
  intros Hu. unfold summary_of. rewrite conversation_snoc. destruct (decide (tm_uuid m = u)); [done|].
  by rewrite app_nil_r.
Qed.

Lemma summaries_by_uuid_lookup ms u :
  summaries_by_uuid ms !! u = if decide (conversation u ms = []) then None else Some (summary_of u ms).
Proof.
  induction ms as [|m ms IH] using rev_ind; [by rewrite decide_True|].
  unfold summaries_by_uuid. rewrite foldl_app. cbn [foldl]. fold (summaries_by_uuid ms). unfold add_message.
  destruct (decide (tm_uuid m = u)) as [<-|Hne].
  - rewrite lookup_insert_eq, decide_False.
    2:{ rewrite conversation_snoc, decide_True by done. by intros [_ [=]]%app_nil. }
    f_equal. rewrite summary_of_snoc. f_equal. rewrite IH. case_decide as Hc; [|done].
    unfold summary_of. by rewrite Hc.
  - rewrite lookup_insert_ne by done. rewrite IH, summary_of_other by done. rewrite conversation_snoc.
    destruct (decide (tm_uuid m = u)); [done|]. by rewrite app_nil_r.
Qed.

Lemma conversation_nil u ms : conversation u ms = [] <-> u ∉ tm_uuid <$> ms.
Proof.
  unfold conversation. split.
  - intros Hn (m & -> & Hm)%list_elem_of_fmap.
    assert (Hin : m ∈ base.filter (fun m' => tm_uuid m' = tm_uuid m) ms) by (by apply list_elem_of_filter).
    rewrite Hn in Hin. by apply elem_of_nil in Hin.
  - intros Hu. destruct (base.filter _ ms) as [|m l] eqn:Hf; [done|]. exfalso. apply Hu.
    assert (Hin : m ∈ base.filter (fun m' => tm_uuid m' = u) ms) by (rewrite Hf; left).
    apply list_elem_of_filter in Hin as [<- Hm]. apply list_elem_of_fmap. eauto.
Qed.

Lemma summaries_perm `{HashOrder} ms :
  rebuild_summaries ms ≡ₚ (fun u => summary_of u ms) <$> remove_dups (tm_uuid <$> ms).
Proof.
  unfold rebuild_summaries. rewrite merge_sort_Permutation, hash_iter_perm.
  assert (Hsnd : map_to_list (summaries_by_uuid ms) ≡ₚ
    (fun u => (u, summary_of u ms)) <$> remove_dups (tm_uuid <$> ms)).
  { apply NoDup_Permutation; [apply NoDup_map_to_list|apply NoDup_fmap; [by intros ?? [=]|apply NoDup_remove_dups]|].
    intros [u d]. rewrite elem_of_map_to_list, summaries_by_uuid_lookup, list_elem_of_fmap.
    setoid_rewrite elem_of_remove_dups. case_decide as Hc.
    - apply conversation_nil in Hc. naive_solver.
    - rewrite conversation_nil in Hc. apply dec_stable in Hc. naive_solver. }
  rewrite Hsnd, <- list_fmap_compose. done.
Qed.

#[global] Instance newest_first_total : Total newest_first.
Proof. intros d1 d2. unfold newest_first. lia. Qed.
#[global] Instance newest_first_trans : Transitive newest_first.
Proof. intros d1 d2 d3. unfold newest_first. lia. Qed.

Lemma rebuild_sorted `{HashOrder} ms : StronglySorted newest_first (rebuild_summaries ms).
Proof. apply StronglySorted_merge_sort; apply _. Qed.

Lemma elem_of_rebuild `{HashOrder} ms d :
  d ∈ rebuild_summaries ms <-> d = summary_of (ds_uuid d) ms /\ ds_uuid d ∈ tm_uuid <$> ms.
Proof.
  rewrite summaries_perm, list_elem_of_fmap. setoid_rewrite elem_of_remove_dups. split.
  - by intros (u & -> & Hu).
  - intros [-> Hu]. cbn [ds_uuid] in Hu. by exists (ds_uuid d).
Qed.

Lemma rebuild_nodup `{HashOrder} ms : NoDup (ds_uuid <$> rebuild_summaries ms).
Proof.
  rewrite summaries_perm, <- list_fmap_compose.
  rewrite (list_fmap_ext _ id) by done. rewrite list_fmap_id. apply NoDup_remove_dups.
Qed.

(** C34: The list the home screen shows is, whatever the iteration order of the
    hash map, exactly one row per conversation that has a message, newest first;
    and each row is the one the reference definition reads off the conversation's
    messages alone: name of the last incoming author, snippet, time, direction
    and status of the latest message, number of unread ones (saturating), group
    tag if any message carries it. *)
Theorem rebuild_summaries_reference `{HashOrder} ms :
  rebuild_summaries ms ≡ₚ (fun u => summary_of u ms) <$> remove_dups (tm_uuid <$> ms) /\
  StronglySorted newest_first (rebuild_summaries ms) /\
  NoDup (ds_uuid <$> rebuild_summaries ms).
Proof. split_and!; [apply summaries_perm|apply rebuild_sorted|apply rebuild_nodup]. Qed.

End dialogue.

(** ** Width of the helpers' output *)
Lemma ellipsize_width s max : char_count (ellipsize s max) <= max.
Proof.
  unfold ellipsize. case_bool_decide as Hm; [subst; done|]. cbv zeta. case_bool_decide; [done|].
  rewrite char_count_app by done. unfold char_count at 1. rewrite chars_take, length_take.
  assert (char_count ellipsis = 1) as -> by reflexivity. lia.
Qed.

(** [ellipsize] keeps a prefix: all of a short string, else all but the last slot. *)
Lemma ellipsize_chars s max :
  chars (ellipsize s (S max)) =
  if bool_decide (char_count s <= S max) then chars s else take max (chars s) ++ [ellipsis].
Proof.
  unfold ellipsize. rewrite bool_decide_false by done. cbv zeta. case_bool_decide; [done|].
  rewrite chars_app by done. replace (S max - 1) with max by lia. by rewrite chars_take.
Qed.
