(* ===== verification/MessageStore.v ===== *)
(** * The app's message store ([xous-app-signal/src/store.rs])

    A bounded list of messages and the summaries derived from it. [None] is a
    panic: [Vec::remove(0)] of an empty list, when the capacity is zero. *)
From Stdlib Require Import Ascii Strings.String.
From S2P Require Import Prelude Codec Utf8 Text Dialogue.

Record MessageStore (Uuid : Type) : Type := mkStore {
  messages : list (ThreadMessage Uuid);
  dialogues : list (DialogueSummary Uuid);
  capacity : nat
}.
Arguments mkStore {Uuid}. Arguments messages {Uuid}. Arguments dialogues {Uuid}. Arguments capacity {Uuid}.

Section store.
Context {Uuid : Type} `{!UuidCrate Uuid} `{Countable Uuid} `{HashOrder}.
Implicit Types (s : MessageStore Uuid) (u : Uuid) (m : ThreadMessage Uuid).

Definition new (capacity : nat) : MessageStore Uuid := mkStore [] [] capacity.

(** ** Reading *)
Definition thread_messages s u : list (ThreadMessage Uuid) := base.filter (fun m => tm_uuid m = u) (messages s).

(** [.sum()] on [u32]: wrapping, as release arithmetic does. *)
Definition total_unread s : N := foldl (fun acc d => wrap32 (acc + ds_unread_count d)) 0%N (dialogues s).

Definition is_group_thread s u : bool := existsb (fun d => bool_decide (ds_uuid d = u) && ds_is_group d) (dialogues s).

(** ** Internals *)
Definition rebuild s : MessageStore Uuid :=
  mkStore (messages s) (rebuild_summaries (messages s)) (capacity s).

Definition with_messages (ms : list (ThreadMessage Uuid)) s : MessageStore Uuid :=
  mkStore ms (dialogues s) (capacity s).

Definition evict_if_full s : option (MessageStore Uuid) :=
  if bool_decide (capacity s <= length (messages s)) then
    match messages s with
    | _ :: ms => Some (with_messages ms s)
    | [] => None
    end
  else Some s.

(** [iter_mut().rev().find(p)] and an update of what it found. *)
Fixpoint update_first (p : ThreadMessage Uuid -> bool) (f : ThreadMessage Uuid -> ThreadMessage Uuid)
    (ms : list (ThreadMessage Uuid)) : option (list (ThreadMessage Uuid)) :=
  match ms with
  | [] => None
  | m :: ms' => if p m then Some (f m :: ms') else cons m <$> update_first p f ms'
  end.
Definition with_status (status : SendStatus) m : ThreadMessage Uuid :=
  mkMsg (tm_uuid m) (tm_author_label m) (tm_body m) (tm_timestamp m) (tm_outgoing m) status (tm_read m) (tm_group m).

Definition set_outgoing_status (timestamp : N) (status : SendStatus) s : bool * MessageStore Uuid :=
  match update_first (fun m => tm_outgoing m && (tm_timestamp m =? timestamp)%N) (with_status status)
          (rev (messages s)) with
  | Some ms => (true, rebuild (with_messages (rev ms) s))
  | None => (false, s)
  end.

(** ** Mutation *)
Definition push_incoming u (author_label body : string) (timestamp : N) (group : bool) s : option (MessageStore Uuid) :=
  s ← evict_if_full s;
  Some (rebuild (with_messages (messages s ++ [mkMsg u author_label body timestamp false Sent false group]) s)).

Definition push_outgoing_pending u (body : string) (timestamp : N) s : option (MessageStore Uuid) :=
  s ← evict_if_full s;
  Some (rebuild (with_messages (messages s ++ [mkMsg u "You" body timestamp true Pending true false]) s)).

Definition mark_send_delivered (timestamp : N) : MessageStore Uuid -> bool * MessageStore Uuid :=
  set_outgoing_status timestamp Delivered.
Definition mark_send_failed (timestamp : N) : MessageStore Uuid -> bool * MessageStore Uuid :=
  set_outgoing_status timestamp Failed.

Definition with_read m : ThreadMessage Uuid :=
  mkMsg (tm_uuid m) (tm_author_label m) (tm_body m) (tm_timestamp m) (tm_outgoing m) (tm_status m) true (tm_group m).
Definition mark_thread_read u s : MessageStore Uuid :=
  let hit m := bool_decide (tm_uuid m = u) && negb (tm_read m) in
  let changed := existsb hit (messages s) in
  let s' := with_messages ((fun m => if hit m then with_read m else m) <$> messages s) s in
  if changed then rebuild s' else s'.

Definition with_label (name : string) m : ThreadMessage Uuid :=
  mkMsg (tm_uuid m) name (tm_body m) (tm_timestamp m) (tm_outgoing m) (tm_status m) (tm_read m) (tm_group m).
Definition resolve_author_labels u (name : string) s : bool * MessageStore Uuid :=
  let hit m := bool_decide (tm_uuid m = u) && looks_like_raw_uuid (tm_author_label m) in
  let touched := existsb hit (messages s) in
  let s' := with_messages ((fun m => if hit m then with_label name m else m) <$> messages s) s in
  (touched, if touched then rebuild s' else s').

Definition clear s : MessageStore Uuid := mkStore [] [] (capacity s).

Definition seed (rows : list (ThreadMessage Uuid)) s : MessageStore Uuid :=
  rebuild (with_messages (messages s ++ rows) s).
(** ** Sequences of mutations *)
Inductive StoreOp : Type :=
| PushIncoming (u : Uuid) (author_label body : string) (timestamp : N) (group : bool)
| PushOutgoing (u : Uuid) (body : string) (timestamp : N)
| MarkDelivered (timestamp : N)
| MarkFailed (timestamp : N)
| MarkRead (u : Uuid)
| ResolveLabels (u : Uuid) (name : string)
| Clear.

Definition apply_op (op : StoreOp) s : option (MessageStore Uuid) :=
  match op with
  | PushIncoming u label body ts g => push_incoming u label body ts g s
  | PushOutgoing u body ts => push_outgoing_pending u body ts s
  | MarkDelivered ts => Some (snd (mark_send_delivered ts s))
  | MarkFailed ts => Some (snd (mark_send_failed ts s))
  | MarkRead u => Some (mark_thread_read u s)
  | ResolveLabels u name => Some (snd (resolve_author_labels u name s))
  | Clear => Some (clear s)
  end.
Definition apply_ops (ops : list StoreOp) s : option (MessageStore Uuid) :=
  foldl (fun r op => r ≫= apply_op op) (Some s) ops.

(** ** Specification: an unbounded log, of which the buffer is the end *)
Definition lastn {A} (n : nat) (l : list A) : list A := drop (length l - n) l.

Definition log_status (timestamp : N) (status : SendStatus) (l : list (ThreadMessage Uuid)) : list (ThreadMessage Uuid) :=
  default l (@rev _ <$> update_first (fun m => tm_outgoing m && (tm_timestamp m =? timestamp)%N)
                          (with_status status) (rev l)).
Definition log_op (op : StoreOp) (l : list (ThreadMessage Uuid)) : list (ThreadMessage Uuid) :=
  match op with
  | PushIncoming u label body ts g => l ++ [mkMsg u label body ts false Sent false g]
  | PushOutgoing u body ts => l ++ [mkMsg u "You" body ts true Pending true false]
  | MarkDelivered ts => log_status ts Delivered l
  | MarkFailed ts => log_status ts Failed l
  | MarkRead u => (fun m => if bool_decide (tm_uuid m = u) then with_read m else m) <$> l
  | ResolveLabels u name =>
      (fun m => if bool_decide (tm_uuid m = u) && looks_like_raw_uuid (tm_author_label m)
                then with_label name m else m) <$> l
  | Clear => []
  end.

(** The store shows the last [capacity] messages of the log, and its summaries
    are those of the messages it shows. *)
Definition shows (cap : nat) s (l : list (ThreadMessage Uuid)) : Prop :=
  capacity s = cap /\ messages s = lastn cap l /\ dialogues s = rebuild_summaries (messages s).

(** ** Lemmas *)
Lemma lastn_rev {A} n (l : list A) : lastn n l = rev (take n (rev l)).
Proof. unfold lastn. rewrite firstn_rev, rev_involutive. done. Qed.

Lemma length_lastn {A} n (l : list A) : length (lastn n l) = Nat.min n (length l).
Proof. unfold lastn. rewrite length_drop. lia. Qed.

Lemma lastn_fmap {A B} (f : A -> B) n l : lastn n (f <$> l) = f <$> lastn n l.
Proof. unfold lastn. by rewrite length_fmap, fmap_drop. Qed.

Lemma drop_S_tail {A} n (l : list A) : drop (S n) l = tail (drop n l).
Proof. revert l. induction n as [|n IH]; intros [|x l]; [done..|]. apply IH. Qed.

(** Appending to the log is evicting the oldest shown row, if the buffer is full. *)
Lemma lastn_snoc {A} n (l : list A) x :
  0 < n ->
  lastn n (l ++ [x]) = (if bool_decide (n <= length (lastn n l)) then tail (lastn n l) else lastn n l) ++ [x].
Proof.
  intros Hn. rewrite length_lastn. unfold lastn. rewrite length_app. cbn [length].
  rewrite drop_app_le by lia. f_equal. case_bool_decide.
  - replace (length l + 1 - n) with (S (length l - n)) by lia. apply drop_S_tail.
  - by replace (length l + 1 - n) with (length l - n) by lia.
Qed.

Lemma update_first_take p f n (r : list (ThreadMessage Uuid)) :
  default (take n r) (update_first p f (take n r)) = take n (default r (update_first p f r)).
Proof.
  revert n. induction r as [|m r IH]; intros [|n]; try done. simpl. destruct (p m); [done|].
  specialize (IH n). destruct (update_first p f (take n r)), (update_first p f r); simpl in *; by f_equal.
Qed.

Lemma fmap_if_id {A} (hit : A -> bool) (f : A -> A) l :
  existsb hit l = false -> (fun x => if hit x then f x else x) <$> l = l.
Proof.
  induction l as [|x l IH]; [done|]. simpl. intros [Hx Hl]%orb_false_iff. rewrite Hx. f_equal. by apply IH.
Qed.

Lemma log_status_lastn ts st cap l :
  lastn cap (log_status ts st l) = log_status ts st (lastn cap l).
Proof.
  unfold log_status. set (p := fun m => _). set (f := with_status st).
  pose proof (update_first_take p f cap (rev l)) as Hu.
  rewrite !lastn_rev, rev_involutive.
  destruct (update_first p f (rev l)) as [r'|] eqn:Er, (update_first p f (take cap (rev l))) as [r''|] eqn:Et;
    simpl in Hu |- *; rewrite ?rev_involutive, ?lastn_rev, ?rev_involutive; congruence.
Qed.

Definition in_sync s : Prop := dialogues s = rebuild_summaries (messages s).

Lemma rebuild_in_sync s : in_sync (rebuild s).
Proof. done. Qed.

Lemma set_outgoing_status_log ts st s :
  in_sync s ->
  let s' := snd (set_outgoing_status ts st s) in
  messages s' = log_status ts st (messages s) /\ in_sync s' /\ capacity s' = capacity s.
Proof.
  intros Hs. unfold set_outgoing_status, log_status. by destruct (update_first _ _ (rev (messages s))).
Qed.

Lemma rebuild_if_spec (hit : ThreadMessage Uuid -> bool) f s :
  in_sync s ->
  let s1 := with_messages ((fun m => if hit m then f m else m) <$> messages s) s in
  let s' := if existsb hit (messages s) then rebuild s1 else s1 in
  messages s' = (fun m => if hit m then f m else m) <$> messages s /\ in_sync s' /\ capacity s' = capacity s.
Proof.
  intros Hs s1 s'. unfold s', s1. destruct (existsb hit (messages s)) eqn:Hh; [done|].
  split_and!; [done| |done]. unfold in_sync. cbn [with_messages messages dialogues].
  by rewrite (fmap_if_id hit f _ Hh).
Qed.

Lemma evict_if_full_spec s :
  0 < capacity s ->
  evict_if_full s =
  Some (with_messages (if bool_decide (capacity s <= length (messages s)) then tail (messages s) else messages s) s).
Proof.
  intros Hc. unfold evict_if_full. case_bool_decide as Hf; [|by destruct s].
  destruct (messages s); [simpl in Hf; lia|done].
Qed.

Lemma shows_push cap s l m :
  0 < cap -> shows cap s l ->
  exists s', (s ← evict_if_full s; Some (rebuild (with_messages (messages s ++ [m]) s))) = Some s' /\
             shows cap s' (l ++ [m]).
Proof.
  intros Hc (<- & Hm & Hd). rewrite evict_if_full_spec by done. eexists. split; [done|].
  split_and!; [done| |done]. cbn [rebuild with_messages messages]. rewrite lastn_snoc by done. by rewrite Hm.
Qed.

Lemma rebuild_nil : rebuild_summaries [] = ([] : list (DialogueSummary Uuid)).
Proof. apply Permutation_nil. symmetry. by rewrite summaries_perm. Qed.

Lemma shows_new cap : shows cap (new cap) [].
Proof. split_and!; [done..|]. symmetry. apply rebuild_nil. Qed.

Lemma shows_op cap s l op :
  0 < cap -> shows cap s l -> exists s', apply_op op s = Some s' /\ shows cap s' (log_op op l).
Proof.
  intros Hc Hs. destruct op as [u label body ts g|u body ts|ts|ts|u|u name|]; cbn [apply_op log_op];
    try (by apply shows_push).
  - destruct Hs as (Hcap & Hm & Hd). eexists. split; [done|].
    destruct (set_outgoing_status_log ts Delivered s Hd) as (Hm' & Hd' & Hc').
    split_and!; [by rewrite <- Hcap| |done]. unfold mark_send_delivered. by rewrite Hm', Hm, log_status_lastn.
  - destruct Hs as (Hcap & Hm & Hd). eexists. split; [done|].
    destruct (set_outgoing_status_log ts Failed s Hd) as (Hm' & Hd' & Hc').
    split_and!; [by rewrite <- Hcap| |done]. unfold mark_send_failed. by rewrite Hm', Hm, log_status_lastn.
  - destruct Hs as (Hcap & Hm & Hd). eexists. split; [done|].
    destruct (rebuild_if_spec (fun m => bool_decide (tm_uuid m = u) && negb (tm_read m)) with_read s Hd)
      as (Hm' & Hd' & Hc').
    split_and!; [by rewrite <- Hcap| |done]. unfold mark_thread_read. cbv zeta. rewrite Hm', Hm, lastn_fmap.
    apply list_fmap_ext. intros i m _. destruct m as [??????[] ?]; simpl; case_bool_decide; done.
  - destruct Hs as (Hcap & Hm & Hd). eexists. split; [done|].
    destruct (rebuild_if_spec (fun m => bool_decide (tm_uuid m = u) && looks_like_raw_uuid (tm_author_label m))
      (with_label name) s Hd) as (Hm' & Hd' & Hc').
    split_and!; [by rewrite <- Hcap| |done]. cbn [resolve_author_labels snd]. by rewrite Hm', Hm, lastn_fmap.
  - destruct Hs as (Hcap & Hm & Hd). eexists. split; [done|]. split_and!; [done..|]. symmetry. apply rebuild_nil.
Qed.

Lemma apply_ops_snoc ops op s : apply_ops (ops ++ [op]) s = apply_ops ops s ≫= apply_op op.
Proof. unfold apply_ops. by rewrite foldl_app. Qed.

Lemma shows_ops cap ops :
  0 < cap -> exists s, apply_ops ops (new cap) = Some s /\ shows cap s (foldl (fun l op => log_op op l) [] ops).
Proof.
  intros Hc. induction ops as [|op ops (s & Hrun & Hs)] using rev_ind; [by exists (new cap); split; [|apply shows_new]|].
  rewrite apply_ops_snoc, Hrun, foldl_app. by apply shows_op.
Qed.

(** ** Unread counts *)
Definition unread_in (ms : list (ThreadMessage Uuid)) : nat := length (List.filter is_unread ms).

Lemma unread_conversation u ms m :
  unread_in (conversation u (ms ++ [m])) =
  unread_in (conversation u ms) + (if bool_decide (tm_uuid m = u) && is_unread m then 1 else 0).
Proof.
  rewrite conversation_snoc. unfold unread_in. rewrite List.filter_app, length_app. f_equal.
  destruct (decide (tm_uuid m = u)); [rewrite bool_decide_true by done|by rewrite bool_decide_false by done].
  simpl. by destruct (is_unread m).
Qed.

Definition total {A} (f : A -> nat) (l : list A) : nat := foldr (fun x n => f x + n) 0 l.

Lemma total_single (us : list Uuid) u k :
  NoDup us -> total (fun u' => if bool_decide (u = u') then k else 0) us = if bool_decide (u ∈ us) then k else 0.
Proof.
  induction us as [|u' us IH]; intros Hnd; [done|]. apply NoDup_cons in Hnd as [Hnu Hnd].
  cbn [total foldr]. fold (total (fun u' => if bool_decide (u = u') then k else 0) us). rewrite IH by done.
  repeat case_bool_decide; subst; set_solver by lia.
Qed.

Lemma total_ext {A} (f g : A -> nat) l : (forall x, x ∈ l -> f x = g x) -> total f l = total g l.
Proof. induction l as [|x l IH]; intros Hfg; [done|]. simpl. rewrite Hfg, IH; set_solver. Qed.

Lemma total_add {A} (f g : A -> nat) l : total (fun x => f x + g x) l = total f l + total g l.
Proof. induction l as [|x l IH]; [done|]. simpl. rewrite IH. lia. Qed.

Lemma total_fmap {A B} (h : A -> B) (f : B -> nat) l : total f (h <$> l) = total (fun x => f (h x)) l.
Proof. induction l as [|x l IH]; [done|]. rewrite fmap_cons. simpl. by rewrite IH. Qed.

(** The conversations partition the unread messages. *)
Lemma unread_partition (us : list Uuid) ms :
  NoDup us -> (forall m, m ∈ ms -> tm_uuid m ∈ us) ->
  total (fun u => unread_in (conversation u ms)) us = unread_in ms.
Proof.
  intros Hnd. induction ms as [|m ms IH] using rev_ind; intros Hall.
  - clear. induction us; simpl; auto.
  - rewrite (total_ext _ (fun u => unread_in (conversation u ms)
      + (if bool_decide (tm_uuid m = u) then (if is_unread m then 1 else 0) else 0))).
    2:{ intros u _. rewrite unread_conversation. by case_bool_decide. }
    rewrite total_add, IH, total_single by (done || intros m' Hm; apply Hall, elem_of_app; by left).
    rewrite bool_decide_true by (apply Hall, elem_of_app; right; by left).
    unfold unread_in. rewrite List.filter_app, length_app. simpl. by destruct (is_unread m).
Qed.

Lemma foldl_wrap_sum (ds : list (DialogueSummary Uuid)) (f : DialogueSummary Uuid -> nat) acc :
  (forall d, d ∈ ds -> ds_unread_count d = N.of_nat (f d)) ->
  (N.of_nat (acc + total f ds) <= u32_max)%N ->
  foldl (fun acc d => wrap32 (acc + ds_unread_count d)) (N.of_nat acc) ds = N.of_nat (acc + total f ds).
Proof.
  revert acc. induction ds as [|d ds IH]; intros acc Hd Hb; [simpl; f_equal; lia|].
  simpl in Hb |- *. rewrite (Hd d) by left. unfold wrap32, u32_max in *. rewrite N.mod_small by lia.
  rewrite <- Nat2N.inj_add, IH; [f_equal; lia| |lia]. intros d' Hd'. apply Hd. by right.
Qed.

(** The header of the home screen counts the unread messages. *)
Lemma total_unread_spec s :
  in_sync s -> (N.of_nat (length (messages s)) <= u32_max)%N ->
  total_unread s = N.of_nat (unread_in (messages s)).
Proof.
  intros Hs Hb. unfold total_unread.
  assert (Hle : forall (ms : list (ThreadMessage Uuid)), unread_in ms <= length ms).
  { intros ms. apply List.filter_length_le. }
  assert (Hsum : total (fun d => unread_in (conversation (ds_uuid d) (messages s))) (dialogues s)
                 = unread_in (messages s)).
  { rewrite <- (total_fmap ds_uuid (fun u => unread_in (conversation u (messages s)))), Hs.
    apply unread_partition; [apply rebuild_nodup|]. intros m Hm.
    rewrite summaries_perm, <- list_fmap_compose. apply list_elem_of_fmap.
    exists (tm_uuid m). split; [done|]. apply elem_of_remove_dups, list_elem_of_fmap. eauto. }
  etrans; [apply (foldl_wrap_sum _ (fun d => unread_in (conversation (ds_uuid d) (messages s))) 0)|].
  - intros d Hd. rewrite Hs in Hd. apply elem_of_rebuild in Hd as [Hd _]. rewrite Hd at 1.
    cbn [summary_of ds_unread_count]. fold (unread_in (conversation (ds_uuid d) (messages s))).
    specialize (Hle (conversation (ds_uuid d) (messages s))).
    assert (length (conversation (ds_uuid d) (messages s)) <= length (messages s)) by apply length_filter.
    lia.
  - specialize (Hle (messages s)). rewrite Nat.add_0_l, Hsum. lia.
  - by rewrite Nat.add_0_l, Hsum.
Qed.

(** ** The claim *)

(** C35: Over any sequence of the store's mutations from an empty store of
    positive capacity nothing panics, and the store shows exactly the last
    [capacity] messages of an unbounded log to which the same mutations are
    applied (a status change finds the same row, a read mark or a late name
    reaches the same rows), its summaries are those of what it shows and the
    header's count is the number of unread messages shown. *)
Theorem store_refines_log cap ops :
  0 < cap -> (N.of_nat cap <= u32_max)%N ->
  exists s, apply_ops ops (new cap) = Some s /\
    messages s = lastn cap (foldl (fun l op => log_op op l) [] ops) /\
    length (messages s) <= cap /\
    dialogues s = rebuild_summaries (messages s) /\
    total_unread s = N.of_nat (unread_in (messages s)).
Proof.
  intros Hc Hb. destruct (shows_ops cap ops Hc) as (s & Hrun & Hcap & Hm & Hd). exists s.
  assert (Hl : length (messages s) <= cap) by (rewrite Hm, length_lastn; lia).
  split_and!; try done. apply total_unread_spec; [done|lia].
Qed.

End store.
