(* ===== verification/Screens.v ===== *)
(** * The app's screens ([xous-app-signal/src/gam_app.rs])

    The screen state machine's data, the [App] record (without its handles on the
    graphics server), the cursor movements, the wipe of link-derived state and
    the text each screen shows. The handlers are in [AppLoop]. *)
From Stdlib Require Import Ascii Strings.String.
From S2P Require Import Prelude Codec Utf8 Text Dialogue MessageStore.

(** ** Data *)
Inductive NextScreenAfterInternet : Type := NextLink | NextHome.
Inductive LinkedKind : Type := Success | Failure.

Inductive Screen (Uuid : Type) : Type :=
| Menu
| About
| Linking
| Wiping
| Linked (kind : LinkedKind)
| Home
| Thread (uuid : Uuid)
| Settings
| Profile
| Help
| NoInternet (next : NextScreenAfterInternet) (reason : string).
Arguments Menu {Uuid}. Arguments About {Uuid}. Arguments Linking {Uuid}. Arguments Wiping {Uuid}.
Arguments Linked {Uuid} kind. Arguments Home {Uuid}. Arguments Thread {Uuid} uuid.
Arguments Settings {Uuid}. Arguments Profile {Uuid}. Arguments Help {Uuid}.
Arguments NoInternet {Uuid} next reason.

Inductive MenuItem : Type := ItemLink | ItemAbout | ItemHelp | ItemWipeSettings.
#[global] Instance MenuItem_eq_dec : EqDecision MenuItem.
Proof. solve_decision. Defined.

Inductive SettingsItem : Type := SetProfile | SetHelp | SetAbout | SetLogout.
#[global] Instance SettingsItem_eq_dec : EqDecision SettingsItem.
Proof. solve_decision. Defined.

Definition INBOX_CAPACITY : nat := 5.

Record App (Uuid : Type) : Type := mkApp {
  screen : Screen Uuid;
  selected : MenuItem;
  linked : bool;
  store : MessageStore Uuid;
  home_focus : nat;
  compose_buffer : string;
  last_status : string;
  linking_in_progress : bool;
  settings_selected : SettingsItem;
  account_device_name : option string;
  account_aci : option string;
  account_phone : option string;
  account_query_pending : bool;
  username_lookup_in_progress : bool;
  username_lookup_pending : option string
}.
Arguments mkApp {Uuid}.
Arguments screen {Uuid}. Arguments selected {Uuid}. Arguments linked {Uuid}. Arguments store {Uuid}.
Arguments home_focus {Uuid}. Arguments compose_buffer {Uuid}. Arguments last_status {Uuid}.
Arguments linking_in_progress {Uuid}. Arguments settings_selected {Uuid}.
Arguments account_device_name {Uuid}. Arguments account_aci {Uuid}. Arguments account_phone {Uuid}.
Arguments account_query_pending {Uuid}. Arguments username_lookup_in_progress {Uuid}.
Arguments username_lookup_pending {Uuid}.

(** Assignments to one field. *)
Section assignments.
Context {Uuid : Type}.
Implicit Types a : App Uuid.

Definition set_screen x a : App Uuid :=
  mkApp x (selected a) (linked a) (store a) (home_focus a) (compose_buffer a) (last_status a) (linking_in_progress a)
    (settings_selected a) (account_device_name a) (account_aci a) (account_phone a) (account_query_pending a)
    (username_lookup_in_progress a) (username_lookup_pending a).
Definition set_selected x a : App Uuid :=
  mkApp (screen a) x (linked a) (store a) (home_focus a) (compose_buffer a) (last_status a) (linking_in_progress a)
    (settings_selected a) (account_device_name a) (account_aci a) (account_phone a) (account_query_pending a)
    (username_lookup_in_progress a) (username_lookup_pending a).
Definition set_linked x a : App Uuid :=
  mkApp (screen a) (selected a) x (store a) (home_focus a) (compose_buffer a) (last_status a) (linking_in_progress a)
    (settings_selected a) (account_device_name a) (account_aci a) (account_phone a) (account_query_pending a)
    (username_lookup_in_progress a) (username_lookup_pending a).
Definition set_store x a : App Uuid :=
  mkApp (screen a) (selected a) (linked a) x (home_focus a) (compose_buffer a) (last_status a) (linking_in_progress a)
    (settings_selected a) (account_device_name a) (account_aci a) (account_phone a) (account_query_pending a)
    (username_lookup_in_progress a) (username_lookup_pending a).
Definition set_home_focus x a : App Uuid :=
  mkApp (screen a) (selected a) (linked a) (store a) x (compose_buffer a) (last_status a) (linking_in_progress a)
    (settings_selected a) (account_device_name a) (account_aci a) (account_phone a) (account_query_pending a)
    (username_lookup_in_progress a) (username_lookup_pending a).
Definition set_compose_buffer x a : App Uuid :=
  mkApp (screen a) (selected a) (linked a) (store a) (home_focus a) x (last_status a) (linking_in_progress a)
    (settings_selected a) (account_device_name a) (account_aci a) (account_phone a) (account_query_pending a)
    (username_lookup_in_progress a) (username_lookup_pending a).
Definition set_last_status x a : App Uuid :=
  mkApp (screen a) (selected a) (linked a) (store a) (home_focus a) (compose_buffer a) x (linking_in_progress a)
    (settings_selected a) (account_device_name a) (account_aci a) (account_phone a) (account_query_pending a)
    (username_lookup_in_progress a) (username_lookup_pending a).
Definition set_linking_in_progress x a : App Uuid :=
  mkApp (screen a) (selected a) (linked a) (store a) (home_focus a) (compose_buffer a) (last_status a) x
    (settings_selected a) (account_device_name a) (account_aci a) (account_phone a) (account_query_pending a)
    (username_lookup_in_progress a) (username_lookup_pending a).
Definition set_settings_selected x a : App Uuid :=
  mkApp (screen a) (selected a) (linked a) (store a) (home_focus a) (compose_buffer a) (last_status a)
    (linking_in_progress a) x (account_device_name a) (account_aci a) (account_phone a) (account_query_pending a)
    (username_lookup_in_progress a) (username_lookup_pending a).
Definition set_account name aci phone a : App Uuid :=
  mkApp (screen a) (selected a) (linked a) (store a) (home_focus a) (compose_buffer a) (last_status a)
    (linking_in_progress a) (settings_selected a) name aci phone (account_query_pending a)
    (username_lookup_in_progress a) (username_lookup_pending a).
Definition set_account_query_pending x a : App Uuid :=
  mkApp (screen a) (selected a) (linked a) (store a) (home_focus a) (compose_buffer a) (last_status a)
    (linking_in_progress a) (settings_selected a) (account_device_name a) (account_aci a) (account_phone a) x
    (username_lookup_in_progress a) (username_lookup_pending a).
Definition set_lookup x y a : App Uuid :=
  mkApp (screen a) (selected a) (linked a) (store a) (home_focus a) (compose_buffer a) (last_status a)
    (linking_in_progress a) (settings_selected a) (account_device_name a) (account_aci a) (account_phone a)
    (account_query_pending a) x y.
End assignments.

(** [write!] to a [String] never fails; a screen writer is its text. *)
Definition nl : string := String "010" "".
Fixpoint unlines (ls : list string) : string :=
  match ls with
  | [] => ""
  | [l] => l
  | l :: ls' => l +:+ nl +:+ unlines ls'
  end.
Definition line (s : string) : string := s +:+ nl.

Section screens.
Context {Uuid : Type} `{!UuidCrate Uuid} `{Countable Uuid} `{HashOrder}.
Implicit Types (a : App Uuid) (u : Uuid).

Definition initial_app : App Uuid :=
  mkApp Menu ItemLink false (new INBOX_CAPACITY) 0 "" "" false SetProfile None None None false false None.

(** ** State *)
Definition reset_to_unlinked a : App Uuid :=
  let a := set_linked false a in
  let a := set_store (clear (store a)) a in
  let a := set_home_focus 0 a in
  let a := set_compose_buffer "" a in
  let a := set_linking_in_progress false a in
  let a := set_lookup false None a in
  let a := set_account None None None a in
  let a := set_screen Menu a in
  set_selected ItemLink a.

Definition menu_items a : list (option MenuItem) :=
  if linked a then [Some ItemAbout; Some ItemHelp; None; None]
  else [Some ItemLink; Some ItemAbout; Some ItemHelp; Some ItemWipeSettings].

(** [position(|x| x == sel).unwrap_or(0)]. *)
Definition position_or_0 {A} `{EqDecision A} (x : A) (l : list A) : nat :=
  from_option fst 0 (list_find (fun y => y = x) l).

(** [(idx + delta).rem_euclid(len)] on [isize], as an index. *)
Definition wrap_index (idx : nat) (delta : Z) (len : nat) : nat :=
  Z.to_nat ((Z.of_nat idx + delta) mod Z.of_nat len).

(** [None] is the panic of an index out of bounds. *)
Definition move_cursor (delta : Z) a : option (App Uuid) :=
  let visible := omap id (menu_items a) in
  if bool_decide (visible = []) then Some a
  else
    let idx := position_or_0 (selected a) visible in
    item ← visible !! wrap_index idx delta (length visible);
    Some (set_selected item a).

Definition settings_items : list SettingsItem := [SetProfile; SetHelp; SetAbout; SetLogout].
Definition settings_move (delta : Z) a : option (App Uuid) :=
  let idx := position_or_0 (settings_selected a) settings_items in
  item ← settings_items !! wrap_index idx delta (length settings_items);
  Some (set_settings_selected item a).

(** ** What the screens show *)
Definition identity_line a : string :=
  if account_query_pending a then "(loading linked account…)"
  else
    match linked a, account_phone a, account_device_name a with
    | true, Some phone, Some name => phone +:+ "  (" +:+ name +:+ ")"
    | true, Some phone, None => phone
    | true, None, _ => "(loading linked account…)"
    | false, _, _ => "(unlinked)"
    end.

Definition menu_label (item : MenuItem) : string :=
  match item with
  | ItemLink => "Link device"
  | ItemAbout => "About"
  | ItemHelp => "Help"
  | ItemWipeSettings => "Wipe settings"
  end.
Definition write_menu a : string :=
  let header := if linked a then "Signal — linked" else "xas — Signal client" in
  line header +:+ line (identity_line a) +:+ nl
  +:+ collect ((fun item => let mark := if bool_decide (item = selected a) then ">" else " " in
                            line (mark +:+ " " +:+ menu_label item)) <$> omap id (menu_items a))
  +:+ nl +:+ line "Up/Down: navigate" +:+ "Enter: select".

Definition rule : string := line (repeat_str "-" 45).

Definition status_glyph (outgoing : bool) (status : SendStatus) : string :=
  match outgoing, status with
  | true, Pending => ".."
  | true, Sent => "v "
  | true, Delivered => "vv"
  | true, Failed => "! "
  | false, _ => "  "
  end.

(** The two text lines of one conversation's row. *)
Definition home_row_name (now_ms : N) (focused : bool) (d : DialogueSummary Uuid) : string :=
  let focus_marker := if focused then ">" else " " in
  let timestamp := brief_relative (ds_last_msg_ts d) now_ms in
  let name := if ds_is_group d then "[group] " +:+ ds_display_name d else ds_display_name d in
  let name_short := ellipsize name 24 in
  focus_marker +:+ " " +:+ pad_right 24 name_short +:+ " " +:+ pad_left 6 timestamp.
Definition home_row_body (d : DialogueSummary Uuid) : string :=
  let unread_marker := if (0 <? ds_unread_count d)%N then "*" else " " in
  let snippet_short := ellipsize (ds_last_msg_snippet d) 26 in
  let badge :=
    if (0 <? ds_unread_count d)%N then "(" +:+ pretty (ds_unread_count d `min` 99)%N +:+ ")" else "" in
  unread_marker +:+ " " +:+ status_glyph (ds_last_msg_outgoing d) (ds_last_msg_status d)
  +:+ " " +:+ pad_right 26 snippet_short +:+ " " +:+ pad_left 4 badge.

(** The row the marker is on: the focus, clamped to the list. *)
Definition shown_focus a : nat := Nat.min (home_focus a) (length (dialogues (store a)) - 1).

Definition write_home (now_ms : N) a : string :=
  let total_unread := total_unread (store a) in
  (if (0 <? total_unread)%N then line ("xas                       " +:+ pretty total_unread +:+ " unread")
   else line "xas")
  +:+ line (identity_line a) +:+ rule
  +:+ match dialogues (store a) with
      | [] =>
          nl +:+ line "      No conversations yet." +:+ nl +:+ line "  Wait for someone to message,"
          +:+ line "  or press F1 to start one." +:+ nl +:+ line "  F1 New  F2 Sync  F3 Help  F4 Settings"
      | ds =>
          collect (imap (fun i d => line (home_row_name now_ms (bool_decide (i = shown_focus a)) d)
                                    +:+ line (home_row_body d) +:+ rule) ds)
          +:+ nl +:+ line "  ↑↓ Sel  Enter Open" +:+ "  F1 New  F2 Sync  F3 Help  F4 Settings"
      end.

Definition thread_row (now_ms : N) (m : ThreadMessage Uuid) : string :=
  let ts := brief_relative (tm_timestamp m) now_ms in
  let header_line :=
    if tm_outgoing m then "You " +:+ ts +:+ "  " +:+ status_glyph true (tm_status m)
    else ellipsize (tm_author_label m) 22 +:+ " " +:+ ts in
  line header_line +:+ line ("  " +:+ ellipsize (tm_body m) 70) +:+ nl.

Definition thread_foot (is_group : bool) (compose : string) : string :=
  if is_group then line "Group chat: reply not supported yet" +:+ "Enter/Esc Back  F4 Settings"
  else line ("> " +:+ ellipsize compose 30 +:+ "_") +:+ "Enter Send  Esc Back  F4 Settings".

Definition write_thread (now_ms : N) u a : string :=
  let summary := List.find (fun d => bool_decide (ds_uuid d = u)) (dialogues (store a)) in
  let is_group := from_option ds_is_group false summary in
  let name := from_option ds_display_name ("uuid:" +:+ collect (take 8 (chars (uuid_simple u)))) summary in
  let header := if is_group then "[group] " +:+ name else name in
  let thread_msgs := thread_messages (store a) u in
  line header +:+ rule
  +:+ match thread_msgs with
      | [] => nl +:+ line "  (no messages in this thread)"
      | _ => collect (thread_row now_ms <$> thread_msgs)
      end
  +:+ rule +:+ thread_foot is_group (compose_buffer a).

Definition settings_label (item : SettingsItem) : string :=
  match item with
  | SetProfile => "Profile"
  | SetHelp => "Help"
  | SetAbout => "About"
  | SetLogout => "Logout"
  end.
Definition write_settings a : string :=
  line "Settings" +:+ nl
  +:+ collect ((fun item => let mark := if bool_decide (item = settings_selected a) then ">" else " " in
                            line (mark +:+ " " +:+ settings_label item)) <$> settings_items)
  +:+ nl +:+ "↑↓ Sel  Enter Open  Esc Back".

Definition write_profile a : string :=
  let none := "(not loaded)" in
  let device := default none (account_device_name a) in
  let phone := default none (account_phone a) in
  let aci := default none (account_aci a) in
  unlines [
    "Profile";
    "";
    "Name:     "]
  +:+ device
  +:+ unlines [
    "";
    "Number:   "]
  +:+ phone
  +:+ unlines [
    "";
    "Username: (not available)";
    "";
    "ACI:      "]
  +:+ aci
  +:+ unlines [
    "";
    "";
    "(Username read isn't exposed";
    "by libsignal; the primary";
    "phone holds that state.)";
    "";
    "Press Enter to return."].

Definition write_help : string :=
  unlines [
    "Help";
    "";
    "xas — Signal client for Precursor (Xous OS). Status: alpha.";
    "";
    "Wi-Fi (do this first, in shellchat, before opening xas):";
    "wlan off";
    "wlan on";
    "ssid scan";
    "wlan status   (until 'Connected')";
    "net ping 1.1.1.1";
    "Use one SSID only — no roaming support yet.";
    "";
    "Known limits:";
    "- Send may fail (WS keepalive)";
    "- No group chats";
    "- No images / attachments";
    "- No history scroll / search";
    "";
    "File a bug: github.com/tunnell/xous-app-signal/issues";
    "";
    "Full FAQ: see FAQ.md in repo.";
    "";
    "Press Enter to return."].

Definition write_no_internet (reason : string) : string :=
  unlines [
    "No internet";
    "";
    ""]
  +:+ reason
  +:+ unlines [
    "";
    "";
    "Connect Wi-Fi from shellchat (run there, not here):";
    "";
    "wlan off";
    "wlan on";
    "ssid scan";
    "wlan status   (until 'Connected')";
    "net ping 1.1.1.1";
    "";
    "2.4 GHz networks only — 5 GHz isn't supported. Use a saved SSID, or set one with `wlan setssid` and `wlan setpass`.";
    "";
    "Press Enter to retry."].

Definition write_about (version : string) : string :=
  unlines [
    "About xas";
    "";
    "Unofficial Signal client";
    "for Xous on Precursor.";
    "";
    "Version: "]
  +:+ version
  +:+ unlines [
    "";
    "Author:  @tunnell";
    "";
    "github.com/tunnell/";
    "xous-app-signal";
    "";
    "What xas protects:";
    "- Messages are end-to-end";
    "encrypted via the Signal";
    "Protocol (the same Double";
    "Ratchet and post-quantum";
    "key agreement the official";
    "Signal app uses).";
    "- The connection to";
    "chat.signal.org is";
    "verified against Signal's";
    "own pinned Certificate";
    "Authority. The public";
    "web certificate bundle";
    "on your device is not";
    "trusted.";
    "- On Precursor every layer";
    "of hardware and software";
    "is inspectable. Keys are";
    "generated on the device";
    "and sealed there; they";
    "do not leave.";
    "";
    "What xas does NOT protect:";
    "- The phone you linked";
    "from. If your phone is";
    "compromised, the attacker";
    "can read messages out of";
    "Signal's plaintext buffer";
    "after they're decrypted.";
    "- Physical seizure plus";
    "knowledge of your PDDB";
    "passphrase.";
    "- Traffic-analysis: the";
    "fact that you're talking";
    "to chat.signal.org is";
    "visible to your network";
    "operator, even though";
    "contents aren't.";
    "- Disappearing-message";
    "timers (not yet shown).";
    "";
    "Built on:";
    "- presage v0.8.0-dev";
    "- libsignal-service-rs";
    "- libsignal v0.91.0";
    "";
    "Limitations (alpha):";
    "- No group chats";
    "- No attachments";
    "- Send takes 1-4 minutes";
    "(transport refactor";
    "pending)";
    "- 2.4 GHz Wi-Fi only";
    "";
    "Press Enter to return."].

Definition write_linking : string :=
  unlines [
    "Linking device...";
    "";
    "Connecting to Signal's servers and requesting a provisioning URL.";
    "";
    "The Signal server's certificate is verified against Signal's own pinned Certificate Authority. The public web certificate bundle on your device is not trusted for this.";
    "";
    "Linking takes a few minutes after you scan the QR. Don't power-cycle.";
    "";
    "Press Backspace to cancel.";
    "";
    "(Please wait.)"].

Definition write_wiping : string :=
  unlines [
    "Wiping stored Signal data...";
    "";
    "This can take a minute.";
    "Do not power off the device."].

Definition write_linked (kind : LinkedKind) a : string :=
  let title := match kind with Success => "Link succeeded" | Failure => "Link failed" end in
  let first_use_note :=
    match kind with
    | Success => unlines [
    "";
    "";
    "Note: first receive/send can take";
    "several minutes while key";
    "provisioning finishes. Try";
    "receiving first; later sends";
    "are fast."]
    | Failure => ""
    end in
  line title +:+ nl +:+ last_status a +:+ first_use_note +:+ nl +:+ nl +:+ "Press Enter to continue.".

(** The text of the current screen: what [render] posts. [version] is
    [CARGO_PKG_VERSION]. *)
Definition screen_text (version : string) (now_ms : N) a : string :=
  match screen a with
  | Menu => write_menu a
  | About => write_about version
  | Linking => write_linking
  | Wiping => write_wiping
  | Linked kind => write_linked kind a
  | Home => write_home now_ms a
  | Thread u => write_thread now_ms u a
  | Settings => write_settings a
  | Profile => write_profile a
  | Help => write_help
  | NoInternet _ reason => write_no_internet reason
  end.

Inductive GlyphStyle : Type := Bold | Regular.
Definition screen_style a : GlyphStyle :=
  match screen a with Home | Thread _ => Bold | _ => Regular end.
End screens.
