(* ===== verification/AppLoop.v ===== *)
(** * The app's handlers ([xous-app-signal/src/gam_app.rs])

    Key batches, worker events and the dispatch of the main loop over the state
    of [Screens]. The graphics server, the modal service, the radio, the clock,
    the environment and the command channel are one external world, reached
    through the operations of the class [Ui]; what the channel accepted is
    recorded. The error of the monad is a panic of the app's thread. *)
From Stdlib Require Import Ascii Strings.String.
From S2P Require Import Prelude Codec Utf8 Text Worker Dialogue MessageStore Screens.

(** ** The outside *)

(** [com::Com::wlan_status]: the link state with its [{:?}], and the address. *)
Record WlanStatus : Type := mkWlan {
  link_connected : bool;
  link_debug : string;
  ipv4_addr : N * N * N * N
}.

(** Errors are their [{:?}]. *)
Class Ui (X : Type) : Type := {
  modals_new : X -> result unit string * X;
  alert_build : string -> option string -> X -> result string string * X;
  show_notification : string -> option string -> X -> X;
  channel_send : Cmd -> X -> result unit string * X;
  since_epoch_ms : X -> option N * X;
  vibe : X -> X;
  draw_rectangle : X -> result unit string * X;
  post_textview : GlyphStyle -> string -> X -> result unit string * X;
  gam_redraw : X -> result unit string * X;
  env_bypass_preflight : X -> bool;
  env_mock_messages : X -> option string;
  env_home : X -> option string;
  read_attempts : string -> X -> option string;
  write_attempts : string -> string -> X -> X;
  com_new : X -> bool * X;
  wlan_status : X -> result WlanStatus string * X;
  is_foreground : N -> bool;
  cargo_pkg_version : string
}.

(** The Unicode tables beyond Latin-1. *)
Class UnicodeTables : Type := wide_alphanumeric : N -> bool.

Inductive Panic : Type := Panicked.

Record Desk (Uuid X : Type) : Type := mkDesk {
  app : App Uuid;
  world : X;
  sent : list Cmd
}.
Arguments mkDesk {Uuid X}. Arguments app {Uuid X}. Arguments world {Uuid X}. Arguments sent {Uuid X}.

(** ** Characters *)
Definition key_null : N := 0.
Definition key_backspace : N := 8.
Definition key_return : N := 13.
Definition key_f1 : N := 17.
Definition key_f2 : N := 18.
Definition key_f3 : N := 19.
Definition key_f4 : N := 20.
Definition key_esc : N := 27.
Definition key_up : N := 8593.
Definition key_down : N := 8595.
Definition key_select : N := 8756.
Definition key_menu : N := 9776.
Definition enters (k : N) : bool := (k =? key_select)%N || (k =? key_return)%N.

(** [char::from_u32(k as u32).unwrap_or('\u{0}')]. *)
Definition char_from (k : N) : N :=
  let c := wrap32 k in
  if ((c <? 55296) || (57344 <=? c)%N && (c <=? 1114111))%N then c else key_null.

(** [char::is_ascii_punctuation], [char::is_alphanumeric]: Latin-1 written out. *)
Definition is_ascii_punctuation (c : N) : bool :=
  (((33 <=? c) && (c <=? 47)) || ((58 <=? c) && (c <=? 64)) || ((91 <=? c) && (c <=? 96))
   || ((123 <=? c) && (c <=? 126)))%N.
Definition is_alphanumeric `{UnicodeTables} (c : N) : bool :=
  if (c <? 128)%N then alphanumeric_code c
  else if (c <? 256)%N then
    bool_decide (c ∈ [170; 178; 179; 181; 185; 186; 188; 189; 190]%N)
    || ((192 <=? c) && negb (c =? 215) && negb (c =? 247))%N
  else wide_alphanumeric c.

Definition is_compose_char `{UnicodeTables} (c : N) : bool :=
  is_alphanumeric c || (c =? 32)%N || is_ascii_punctuation c.

(** [String::pop]. *)
Definition string_pop (s : string) : string := collect (removelast (chars s)).

(** [eq_ignore_ascii_case] against a lower-case literal. *)
Definition eq_ignore_ascii_case (s lower : string) : bool :=
  bool_decide (String.string_of_list_ascii (lower_ascii <$> String.list_ascii_of_string s) = lower).

Definition looks_like_signal_username (s : string) : bool :=
  match split_once "." s with
  | None => false
  | Some (nick, rest) =>
      if negb ((3 <=? slen nick) && (slen nick <=? 32)) then false
      else if negb (forallb (fun c => ascii_char alphanumeric_code c || bool_decide (c = "_")) (chars nick)) then false
      else if negb ((2 <=? slen rest) && (slen rest <=? 9)) then false
      else forallb (ascii_char digit_code) (chars rest)
  end.

Section handlers.
Context {Uuid X : Type} `{!UuidCrate Uuid} `{Countable Uuid} `{HashOrder} `{!Ui X} `{!UnicodeTables}.
Implicit Types (a : App Uuid) (d : Desk Uuid X) (u : Uuid).
Abbreviation handler := (M (Desk Uuid X) Panic).

(** ** Steps of a handler *)
Definition get_app : handler (App Uuid) := fun d => (Ok (app d), d).
Definition upd (f : App Uuid -> App Uuid) : handler unit :=
  fun d => (Ok tt, mkDesk (f (app d)) (world d) (sent d)).
Definition upd_or_panic (f : App Uuid -> option (App Uuid)) : handler unit :=
  fun d => match f (app d) with
           | Some a => (Ok tt, mkDesk a (world d) (sent d))
           | None => (Err Panicked, d)
           end.
Definition ask {A} (f : X -> A) : handler A := fun d => (Ok (f (world d)), d).
Definition io {A} (f : X -> A * X) : handler A :=
  fun d => let '(r, x) := f (world d) in (Ok r, mkDesk (app d) x (sent d)).
Definition io_ (f : X -> X) : handler unit := fun d => (Ok tt, mkDesk (app d) (f (world d)) (sent d)).

(** [cmd_tx.send_blocking(cmd)]: the error says that the channel is closed. *)
Definition send_blocking (cmd : Cmd) : handler (result unit string) :=
  fun d => let '(r, x) := channel_send cmd (world d) in
           (Ok r, mkDesk (app d) x (if is_ok r then sent d ++ [cmd] else sent d)).

Definition when (b : bool) (m : handler unit) : handler unit := if b then m else mok tt.

(** ** Clock and drawing *)
Definition unix_now_ms : handler N :=
  let* r := io since_epoch_ms in
  mok (from_option wrap64 0%N r).

Definition render : handler (result unit string) :=
  let* r1 := io draw_rectangle in
  match r1 with
  | Err e => mok (Err ("draw_rectangle: " +:+ e))
  | Ok _ =>
      let* a := get_app in
      let* now_ms := match screen a with Home | Thread _ => unix_now_ms | _ => mok 0%N end in
      let* r2 := io (post_textview (screen_style a) (screen_text cargo_pkg_version now_ms a)) in
      match r2 with
      | Err e => mok (Err ("post_textview: " +:+ e))
      | Ok _ =>
          let* r3 := io gam_redraw in
          mok (map_err (fun e => "redraw: " +:+ e) r3)
      end
  end.
(** [app.render().ok();] *)
Definition render_ok : handler unit := let* _ := render in mok tt.

(** [if let Ok(modals) = Modals::new(..) { show_notification(..) }] *)
Definition notify_if_modals (text : string) (qr : option string) : handler unit :=
  let* r := io modals_new in
  match r with
  | Ok _ => io_ (show_notification text qr)
  | Err _ => mok tt
  end.

(** ** Preflight *)
Definition check_internet : handler (result unit string) :=
  let* bypass := ask env_bypass_preflight in
  if bypass then mok (Ok tt)
  else
    let* com := io com_new in
    if com then
      let* r := io wlan_status in
      mok (match r with
           | Err e => Err ("COM didn't respond: " +:+ e)
           | Ok status =>
               if negb (link_connected status) then Err ("Wi-Fi link is " +:+ link_debug status +:+ ".")
               else if bool_decide (ipv4_addr status = (0, 0, 0, 0)%N) then
                 Err (unlines ["Joined a network but no"; "DHCP lease yet."])
               else Ok tt
           end)
    else mok (Ok tt).

(** The hosted version: the counter in [$HOME/.xas-link-attempts]. *)
Definition next_attempt_device_name : handler string :=
  let* home := ask env_home in
  match home with
  | None => mok "xas"
  | Some home =>
      let path := home +:+ "/.xas-link-attempts" in
      let* text := ask (read_attempts path) in
      let n := default 0%N (text ≫= fun s => parse_u32 (trim s)) in
      io_ (write_attempts path (pretty (wrap32 (n + 1)))) ;*
      mok ("xas" +:+ pretty n)
  end.

(** ** Flows *)
Definition drive_link : handler unit :=
  let fail msg := upd (fun a => set_last_status msg (set_screen (Linked Failure) a)) in
  let* modals := io modals_new in
  match modals with
  | Err e => fail (line "Modals init failed:" +:+ e)
  | Ok _ =>
      let* default_name := next_attempt_device_name in
      let* answer := io (alert_build "Device name?" (Some default_name)) in
      match answer with
      | Err e => fail (line "device name modal:" +:+ e)
      | Ok payload =>
          let trimmed := trim payload in
          let device_name := if bool_decide (trimmed = "") then default_name else trimmed in
          upd (fun a => set_linking_in_progress true (set_screen Linking a)) ;*
          render_ok ;*
          let* r := send_blocking (LinkDevice device_name) in
          match r with
          | Err e =>
              fail (line "Cmd::LinkDevice send:" +:+ e) ;* upd (set_linking_in_progress false)
          | Ok _ => mok tt
          end
      end
  end.

Definition confirmed (answer : result string string) : bool :=
  match answer with
  | Ok payload => eq_ignore_ascii_case (trim payload) "yes"
  | Err _ => false
  end.

Definition wipe_prompt : string :=
  unlines ["Wipe settings?"; ""; "Erases link state, keys,"; "contacts and profiles."; "Stored message history";
           "is NOT erased."; ""; "Runs for minutes and"; "the device stays busy."; "Do not power off."; "";
           "You will need to scan"; "the QR code again."].
Definition drive_wipe_settings : handler unit :=
  let* modals := io modals_new in
  match modals with
  | Err _ => mok tt
  | Ok _ =>
      let* answer := io (alert_build wipe_prompt (Some "type 'yes' to confirm")) in
      if negb (confirmed answer) then mok tt
      else
        upd (set_screen Wiping) ;*
        render_ok ;*
        let* r := send_blocking Logout in
        match r with
        | Ok _ => mok tt
        | Err _ =>
            upd (set_screen Menu) ;*
            render_ok ;*
            io_ (show_notification
                   (unlines ["Wipe failed:"; "worker not reachable."; "The app may need a restart."]) None)
        end
  end.

Definition drive_logout : handler unit :=
  let* modals := io modals_new in
  match modals with
  | Err _ => mok tt
  | Ok _ =>
      let* answer := io (alert_build
        (unlines ["Logout?"; "This wipes link state."; "You will need to scan"; "the QR code again."])
        (Some "type 'yes' to confirm")) in
      if negb (confirmed answer) then mok tt
      else
        let* r := send_blocking Logout in
        match r with
        | Ok _ => mok tt
        | Err _ =>
            io_ (show_notification
                   (unlines ["Logout failed:"; "worker not reachable."; "The app may need a restart."]) None)
        end
  end.

Definition send_compose (recipient_uuid : Uuid) : handler unit :=
  let* a := get_app in
  if is_group_thread (store a) recipient_uuid then upd (set_last_status "Group reply not supported yet")
  else
    let body := compose_buffer a in
    upd (set_compose_buffer "") ;*
    let* send_ts := unix_now_ms in
    let recipient_str := uuid_to_string recipient_uuid in
    upd_or_panic (fun a => s ← push_outgoing_pending recipient_uuid body send_ts (store a); Some (set_store s a)) ;*
    let* r := send_blocking (SendMessage recipient_str body send_ts) in
    match r with
    | Ok _ => mok tt
    | Err _ => upd (fun a => set_store (snd (mark_send_failed send_ts (store a))) a)
    end.

Definition drive_new_chat : handler unit :=
  let notify text := io_ (show_notification text None) in
  let* modals := io modals_new in
  match modals with
  | Err _ => mok tt
  | Ok _ =>
      let* answer := io (alert_build "New chat — username (name.000)" None) in
      match answer with
      | Err _ => mok tt
      | Ok payload =>
          let raw := trim payload in
          if bool_decide (raw = "") then mok tt
          else
            match uuid_parse_str raw with
            | Some uuid => upd (fun a => set_compose_buffer "" (set_screen (Thread uuid) a))
            | None =>
                if looks_like_signal_username raw then
                  let* a := get_app in
                  if username_lookup_in_progress a then
                    notify (unlines ["Already looking up a"; "username; please wait."])
                  else
                    let* r := send_blocking (ResolveUsername raw) in
                    match r with
                    | Err _ => notify (unlines ["Lookup failed:"; "worker not reachable."])
                    | Ok _ =>
                        upd (set_lookup true (Some raw)) ;*
                        notify (unlines ["Looking up"; raw; "on the server..."])
                    end
                else if starts_with raw "+" && (1 <? slen raw)
                     && forallb (ascii_char digit_code) (chars (String.substring 1 (slen raw - 1) raw)) then
                  notify (unlines ["Phone numbers are not"; "supported. Ask for their"; "username instead";
                                   "(looks like name.000)."])
                else notify (unlines ["Not a username."; "Format: name.000"])
            end
      end
  end.
(** ** Keys: one definition per screen, its arms in the source's order *)
Definition preflight_home : handler unit :=
  let* r := check_internet in
  match r with
  | Ok _ => upd (fun a => set_home_focus 0 (set_screen Home a))
  | Err reason => upd (set_screen (NoInternet NextHome reason))
  end.

Definition menu_key (k : N) : handler unit :=
  let* a := get_app in
  if (k =? key_up)%N then upd_or_panic (move_cursor (-1))
  else if (k =? key_down)%N then upd_or_panic (move_cursor 1)
  else if enters k then
    match selected a with
    | ItemLink =>
        let* r := check_internet in
        match r with
        | Ok _ => drive_link
        | Err reason => upd (set_screen (NoInternet NextLink reason))
        end
    | ItemAbout => upd (set_screen About)
    | ItemHelp => upd (set_screen Help)
    | ItemWipeSettings => drive_wipe_settings
    end
  else if (k =? key_esc)%N && linked a then upd (fun a => set_selected ItemAbout (set_screen Home a))
  else mok tt.

Definition home_or_menu a : Screen Uuid := if linked a then Home else Menu.

Definition about_key (k : N) : handler unit :=
  if enters k then upd (fun a => set_screen (home_or_menu a) a)
  else if (k =? key_f1)%N || (k =? key_esc)%N then upd (fun a => set_screen (home_or_menu a) a)
  else mok tt.

Definition linked_key (k : N) : handler unit :=
  let* a := get_app in
  if enters k then
    (if linked a then preflight_home
     else upd (fun a => set_selected ItemLink (set_screen Menu a))) ;*
    upd (set_last_status "")
  else mok tt.

Definition no_internet_key (next : NextScreenAfterInternet) (k : N) : handler unit :=
  if enters k then
    let* r := check_internet in
    match r with
    | Ok _ =>
        match next with
        | NextLink => drive_link
        | NextHome => upd (fun a => set_home_focus 0 (set_screen Home a))
        end
    | Err reason => upd (set_screen (NoInternet next reason))
    end
  else if (k =? key_esc)%N || (k =? key_backspace)%N then
    upd (fun a => set_selected ItemLink (set_screen (home_or_menu a) a))
  else mok tt.

Definition linking_key (k : N) : handler unit :=
  if (k =? key_esc)%N || (k =? key_backspace)%N then
    let* _ := send_blocking LinkCancel in
    upd (fun a => set_last_status "" (set_selected ItemLink (set_screen Menu (set_linking_in_progress false a))))
  else mok tt.

Definition open_settings a : App Uuid := set_settings_selected SetProfile (set_screen Settings a).

Definition sync_contacts : handler unit :=
  let* r := send_blocking SyncContacts in
  match r with
  | Err _ => notify_if_modals (unlines ["Sync send failed:"; "worker not reachable."]) None
  | Ok _ =>
      notify_if_modals (unlines ["Syncing contacts from"; "the linked phone..."; "(this can take a minute)"]) None
  end.

Definition home_key (k : N) : handler unit :=
  let* a := get_app in
  if (k =? key_up)%N then upd (fun a => set_home_focus (home_focus a - 1) a)
  else if (k =? key_down)%N then
    let max := length (dialogues (store a)) - 1 in
    if home_focus a <? max then upd (fun a => set_home_focus (home_focus a + 1) a) else mok tt
  else if enters k then
    match dialogues (store a) !! home_focus a with
    | Some d =>
        let opened := ds_uuid d in
        upd (fun a => set_screen (Thread opened) (set_store (mark_thread_read opened (store a)) a))
    | None => mok tt
    end
  else if (k =? key_menu)%N || (k =? key_esc)%N then upd open_settings
  else if (k =? key_f1)%N then drive_new_chat
  else if (k =? key_f2)%N then sync_contacts
  else if (k =? key_f3)%N then upd (set_screen Help)
  else if (k =? key_f4)%N then upd open_settings
  else mok tt.

Definition thread_key u (k : N) : handler unit :=
  let* a := get_app in
  if enters k then
    if bool_decide (compose_buffer a = "") then upd (set_screen Home) else send_compose u
  else if (k =? key_backspace)%N then upd (fun a => set_compose_buffer (string_pop (compose_buffer a)) a)
  else if is_compose_char k then upd (fun a => set_compose_buffer (compose_buffer a +:+ utf8_char k) a)
  else if (k =? key_f1)%N then
    if negb (bool_decide (compose_buffer a = "")) then send_compose u else mok tt
  else if (k =? key_f4)%N then upd open_settings
  else if (k =? key_f3)%N then upd (set_screen Help)
  else mok tt.

(** [match cmd_tx.send_blocking(Cmd::GetAccountInfo) { Ok(()) => pending = true, .. }] *)
Definition query_account : handler unit :=
  let* r := send_blocking GetAccountInfo in
  match r with
  | Ok _ => upd (set_account_query_pending true)
  | Err _ => mok tt
  end.

Definition settings_key (k : N) : handler unit :=
  let* a := get_app in
  if (k =? key_up)%N then upd_or_panic (settings_move (-1))
  else if (k =? key_down)%N then upd_or_panic (settings_move 1)
  else if enters k then
    match settings_selected a with
    | SetProfile =>
        when (bool_decide (account_aci a = None)) query_account ;*
        upd (set_screen Profile)
    | SetHelp => upd (set_screen Help)
    | SetAbout => upd (set_screen About)
    | SetLogout => drive_logout
    end
  else if (k =? key_esc)%N || (k =? key_menu)%N || (k =? key_f1)%N then upd (set_screen Home)
  else mok tt.

Definition backs (k : N) : bool := enters k || (k =? key_esc)%N || (k =? key_f1)%N.
Definition on_profile_key (k : N) : handler unit := if backs k then upd (set_screen Settings) else mok tt.
Definition help_key (k : N) : handler unit := if backs k then upd (set_screen Home) else mok tt.

Definition handle_key (k : N) : handler unit :=
  if (k =? key_null)%N then mok tt
  else
    let* a := get_app in
    match screen a with
    | Menu => menu_key k
    | About => about_key k
    | Linked _ => linked_key k
    | NoInternet next _ => no_internet_key next k
    | Linking => linking_key k
    | Home => home_key k
    | Thread u => thread_key u k
    | Settings => settings_key k
    | Profile => on_profile_key k
    | Help => help_key k
    | Wiping => mok tt
    end.

Definition handle_keys (keys : list N) : handler unit := mfor keys handle_key ;* render_ok.

(** ** Worker events *)
Definition handle_username_resolve_result (r : result (option Uuid) string) : handler unit :=
  let* a := get_app in
  if negb (username_lookup_in_progress a) then mok tt
  else
    upd (set_lookup false (username_lookup_pending a)) ;*
    match r with
    | Ok (Some uuid) =>
        match username_lookup_pending a with
        | Some name =>
            upd (fun a => set_store (snd (resolve_author_labels uuid name (store a))) (set_lookup false None a))
        | None => mok tt
        end ;*
        upd (set_screen (Thread uuid)) ;*
        render_ok
    | Ok None => upd (set_last_status "Username not found.") ;* render_ok
    | Err reason => upd (set_last_status (line "Lookup failed:" +:+ reason)) ;* render_ok
    end.

Definition stale_store_text : string :=
  unlines ["Settings from a previous"; "link are still stored."; "Linking over them causes"; "session errors."; "";
           "Run 'Wipe settings',"; "then Link again."].
Definition scan_text : string :=
  unlines ["Signal on phone."; "Scan QR, then press any key."; "Don't transfer old messages."].

Definition on_message (sender : string) (sender_phone sender_name : option string) (body : string) (timestamp : N)
    (group_master_key : option bytes) : handler unit :=
  let author_label :=
    match sender_name, sender_phone with
    | Some n, _ => n
    | None, Some p => p
    | None, None => sender
    end in
  let sender_uuid := default uuid_nil (uuid_parse_str sender) in
  let '(uuid, group) :=
    match group_master_key with
    | Some key => (uuid_new_v5_oid key, true)
    | None => (sender_uuid, false)
    end in
  upd_or_panic (fun a => s ← push_incoming uuid author_label body timestamp group (store a); Some (set_store s a)) ;*
  io_ vibe.

Definition on_account_info (info : AccountInfoData) : handler unit :=
  upd (fun a => set_account (Some (device_name info)) (Some (aci info)) (Some (phone info))
                  (set_account_query_pending false a)) ;*
  let* a := get_app in
  if negb (linked a) then
    upd (fun a => set_home_focus 0 (set_screen Home (set_linked true a))) ;*
    let* _ := send_blocking StartReceive in
    render_ok
  else
    match screen a with
    | Profile => render_ok
    | _ => mok tt
    end.

Definition on_link_complete (device_name aci phone : string) : handler unit :=
  upd (fun a =>
    set_account (Some device_name) (Some aci) (Some phone)
      (set_last_status (line ("device: " +:+ device_name) +:+ line ("aci:    " +:+ aci) +:+ "phone:  " +:+ phone)
         (set_screen (Linked Success) (set_linking_in_progress false (set_linked true a))))) ;*
  let* _ := send_blocking StartReceive in
  mok tt.

Definition on_link_error (msg : string) : handler unit :=
  let* a := get_app in
  if negb (linking_in_progress a) then mok tt
  else upd (fun a => set_last_status msg (set_screen (Linked Failure) (set_linking_in_progress false a))).

Definition on_send_complete (timestamp : N) : handler unit :=
  upd (fun a => set_store (snd (mark_send_delivered timestamp (store a))) a).

Definition on_send_error (reason : string) (timestamp : option N) : handler unit :=
  upd (fun a =>
    let a := match timestamp with
             | Some ts => set_store (snd (mark_send_failed ts (store a))) a
             | None => a
             end in
    set_last_status ("Send: " +:+ reason) a).

Definition on_contact_resolved u (name : string) : handler unit :=
  let* a := get_app in
  let '(touched, s) := resolve_author_labels u name (store a) in
  upd (set_store s) ;*
  if touched then
    match screen a with Home | Thread _ => render_ok | _ => mok tt end
  else mok tt.

(** The three involuntary or requested ends of a link, with their banner. *)
Definition reset_with (banner : string) : handler unit :=
  upd (fun a => set_last_status banner (reset_to_unlinked a)) ;* render_ok.

Definition handle_worker_event (event : Event Uuid) : handler unit :=
  match event with
  | LinkUrl url =>
      let* a := get_app in
      when (linking_in_progress a) (notify_if_modals scan_text (Some url))
  | LinkComplete device_name aci phone => on_link_complete device_name aci phone
  | LinkError msg => on_link_error msg
  | StaleStoreDetected =>
      upd (fun a => set_screen Menu (set_linking_in_progress false a)) ;*
      notify_if_modals stale_store_text None
  | Message sender sender_phone sender_name body timestamp group_master_key =>
      on_message sender sender_phone sender_name body timestamp group_master_key
  | ReceiveStarted => mok tt
  | ReceiveError msg => upd (set_last_status ("Receive: " +:+ msg))
  | SendComplete timestamp => on_send_complete timestamp
  | SendError reason timestamp => on_send_error reason timestamp
  | ShuttingDown => upd (set_last_status "worker shutdown")
  | AccountInfo (Ok info) => on_account_info info
  | AccountInfo (Err _) => upd (set_account_query_pending false)
  | ContactResolved aci_uuid name => on_contact_resolved aci_uuid name
  | SyncComplete =>
      let* a := get_app in
      match screen a with Home | Thread _ | Settings => render_ok | _ => mok tt end
  | SyncError _ => mok tt
  | LoggedOut => reset_with ""
  | SignalAuthExpired reason =>
      reset_with (line "Signal authentication expired:" +:+ line reason +:+ nl +:+ "Please re-link.")
  | SignalConflictingDevice reason =>
      reset_with (line "Another device took over:" +:+ line reason +:+ nl +:+ "Please re-link.")
  | UsernameResolveResult r => handle_username_resolve_result r
  | Pong | Whoami _ => mok tt
  end.

(** ** Start-up *)
Definition mock_rows (now_ms : N) : list (ThreadMessage Uuid) :=
  let alice := uuid_from_u128 0x0a11ceaaaaaabbbbbbccccccdddddd001 in
  let bob := uuid_from_u128 0x0b0bbbbbbbccccccddddddeeeeee002 in
  let dad := uuid_from_u128 0xdad0ccccccddddddeeeeeeffffff003 in
  let unknown := uuid_from_u128 0x9999ddddddeeeeeeffffff111111004 in
  let party := uuid_new_v5_oid (replicate 32 Byte.x42) in
  (fun '(uuid, label, body, age_ms, outgoing, status, group) =>
     mkMsg uuid label body (saturating_sub now_ms age_ms) outgoing status outgoing group) <$>
  [(alice, "Alice", "sure, meet at 6", 2 * 60000, false, Sent, false);
   (alice, "Alice", "I'll bring drinks", 1 * 60000, false, Sent, false);
   (alice, "Alice", "actually make it 6:30", 30000, false, Sent, false);
   (bob, "Bob", "did you get the file?", 12 * 60000, false, Sent, false);
   (bob, "You", "yes, on my way", 11 * 60000, true, Delivered, false);
   (bob, "Bob", "thanks!", 5 * 60000, false, Sent, false);
   (dad, "Dad", "lunch sunday?", 25 * 60 * 60000, false, Sent, false);
   (dad, "You", "On my way", 24 * 60 * 60000, true, Delivered, false);
   (unknown, "+14155550199", "Your Uber has arrived", 3 * 60 * 60000, false, Sent, false);
   (unknown, "+14155550199", "Your driver is waiting", 2 * 60 * 60000, false, Sent, false);
   (party, "Bob", "the party is off", 8 * 60000, false, Sent, true);
   (party, "Carol", "aw, next week then?", 7 * 60000, false, Sent, true)]%N.

Definition seed_mock_messages_if_requested : handler unit :=
  let* v := ask env_mock_messages in
  if bool_decide (v <> Some "1") then mok tt
  else
    let* now_ms := unix_now_ms in
    upd (fun a => set_home_focus 0 (set_screen Home (set_linked true (set_store (seed (mock_rows now_ms) (store a)) a)))).

(** ** The main loop *)

(** A message on the app's server: its id and four arguments. [XasOp] is the
    numbering of the ids. *)
Record GamMessage : Type := mkGam { g_id : N; g_args : N * N * N * N }.
Inductive XasOp : Type := OpRedraw | OpRawkeys | OpFocusChange | OpWorkerEvent.
Definition xas_op (id : N) : option XasOp :=
  match id with
  | 0 => Some OpRedraw
  | 1 => Some OpRawkeys
  | 2 => Some OpFocusChange
  | 3 => Some OpWorkerEvent
  | _ => None
  end%N.

Definition on_focus_change (code : N) : handler unit :=
  when (is_foreground code)
    (let* a := get_app in
     when (negb (linked a) && bool_decide (account_aci a = None)) query_account ;*
     render_ok).

(** One turn of the loop on a received message, with the events waiting in the
    deque; what it drained is gone from the deque whatever happens next. *)
Definition serve (msg : GamMessage) (pending : list (Event Uuid)) : handler unit * list (Event Uuid) :=
  let '(k1, k2, k3, k4) := g_args msg in
  match xas_op (g_id msg) with
  | Some OpRedraw => (render_ok, pending)
  | Some OpRawkeys => (handle_keys (char_from <$> [k1; k2; k3; k4]), pending)
  | Some OpFocusChange => (on_focus_change k1, pending)
  | Some OpWorkerEvent => (mfor pending handle_worker_event ;* render_ok, [])
  | None => (mok tt, pending)
  end.

Definition startup : handler unit := seed_mock_messages_if_requested ;* render_ok.

(** The app's process: the main thread's state, the deque the forwarder thread
    fills and the messages waiting on the server. [Forwarded] is a turn of the
    forwarder, whose scalar may fail to be sent; [Arrives] a message from the
    graphics server; [Served] a turn of the main loop, which blocks on an empty
    mailbox. *)
Record Process : Type := mkProcess {
  desk : Desk Uuid X;
  pending_events : list (Event Uuid);
  mailbox : list GamMessage
}.
Inductive Input : Type :=
| Forwarded (e : Event Uuid) (delivered : bool)
| Arrives (msg : GamMessage)
| Served.

Definition wake : GamMessage := mkGam 3 (0, 0, 0, 0)%N.

Definition app_step (i : Input) (p : Process) : result Process Panic :=
  match i with
  | Forwarded e delivered =>
      Ok (mkProcess (desk p) (pending_events p ++ [e]) (if delivered then mailbox p ++ [wake] else mailbox p))
  | Arrives msg => Ok (mkProcess (desk p) (pending_events p) (mailbox p ++ [msg]))
  | Served =>
      match mailbox p with
      | [] => Ok p
      | msg :: rest =>
          let '(m, pending) := serve msg (pending_events p) in
          match m (desk p) with
          | (Ok _, d) => Ok (mkProcess d pending rest)
          | (Err e, _) => Err e
          end
      end
  end.

Fixpoint app_steps (ins : list Input) (p : Process) : result Process Panic :=
  match ins with
  | [] => Ok p
  | i :: ins' => match app_step i p with Ok p' => app_steps ins' p' | Err e => Err e end
  end.

(** [run], once the set-up of the graphics server has succeeded. *)
Definition app_run (x : X) (ins : list Input) : result Process Panic :=
  match startup (mkDesk initial_app x []) with
  | (Ok _, d) => app_steps ins (mkProcess d [] [])
  | (Err e, _) => Err e
  end.
End handlers.
