(* ===== verification/AppSpec.v ===== *)
(** * What the app guarantees

    A well-formed app stays well formed and never panics, whatever keys, events
    and answers of the outside world arrive ([safe]); only the compose box sends
    messages, and never into a conversation tagged as a group ([calm],
    [send_compose_spec]); the end of a link leaves nothing behind. *)
From Stdlib Require Import Ascii Strings.String.
From S2P Require Import Prelude Codec Utf8 Text Worker Dialogue MessageStore Screens AppLoop.

Section spec.
Context {Uuid X : Type} `{!UuidCrate Uuid} `{Countable Uuid} `{HashOrder} `{!Ui X} `{!UnicodeTables}.
Implicit Types (a : App Uuid) (d : Desk Uuid X) (u : Uuid).
Abbreviation handler := (M (Desk Uuid X) Panic).

(** ** Definitions *)

(** The characters of a draft all passed the filter. *)
Definition composed (s : string) : Prop :=
  exists cps, chars s = utf8_char <$> cps /\ Forall (fun c => is_compose_char c = true) cps.

Definition app_wf (bound : nat) a : Prop :=
  0 < capacity (store a) /\ capacity (store a) <= bound /\ in_sync (store a) /\
  length (messages (store a)) <= bound /\ composed (compose_buffer a).

(** [m] does not panic from a well-formed app, and leaves one behind. *)
Definition safe (bound : nat) {A} (m : handler A) : Prop :=
  forall d, app_wf bound (app d) -> exists r d', m d = (Ok r, d') /\ app_wf bound (app d').

Definition is_send (c : Cmd) : bool := match c with SendMessage _ _ _ => true | _ => false end.

(** [m] sends no message: what it adds to the commands is something else. *)
Definition calm {A} (m : handler A) : Prop :=
  forall d r d', m d = (r, d') -> exists cs, sent d' = sent d ++ cs /\ existsb is_send cs = false.

(** ** Composition *)
Lemma safe_mok B {A} (x : A) : safe B (mok x).
Proof. intros d Hd. by exists x, d. Qed.
Lemma safe_bind B {A C} (m : handler A) (k : A -> handler C) :
  safe B m -> (forall x, safe B (k x)) -> safe B (mbind m k).
Proof.
  intros Hm Hk d Hd. destruct (Hm d Hd) as (x & d1 & Hx & Hd1). destruct (Hk x d1 Hd1) as (y & d2 & Hy & Hd2).
  exists y, d2. split; [|done]. by rewrite (mbind_ok _ _ _ _ _ Hx).
Qed.
Lemma safe_io B {A} (f : X -> A * X) : safe B (io f).
Proof. intros d Hd. unfold io. destruct (f (world d)) as [r x]. by exists r; eexists. Qed.
Lemma safe_io_ B f : safe B (io_ f).
Proof. intros d Hd. by exists tt; eexists. Qed.
Lemma safe_ask B {A} (f : X -> A) : safe B (ask f).
Proof. intros d Hd. by exists (f (world d)), d. Qed.
Lemma safe_get B : safe B get_app.
Proof. intros d Hd. by exists (app d), d. Qed.
Lemma safe_send B c : safe B (send_blocking c).
Proof. intros d Hd. unfold send_blocking. destruct (channel_send c (world d)) as [r x]. by exists r; eexists. Qed.
Lemma safe_upd B f : (forall a, app_wf B a -> app_wf B (f a)) -> safe B (upd f).
Proof. intros Hf d Hd. exists tt. eexists. split; [done|]. by apply Hf. Qed.
Lemma safe_upd_or_panic B f :
  (forall a, app_wf B a -> exists a', f a = Some a' /\ app_wf B a') -> safe B (upd_or_panic f).
Proof.
  intros Hf d Hd. destruct (Hf _ Hd) as (a' & Ha & Hwf). exists tt. eexists.
  split; [by unfold upd_or_panic; rewrite Ha|done].
Qed.
Lemma safe_mfor B {A} (xs : list A) body : (forall x, x ∈ xs -> safe B (body x)) -> safe B (mfor xs body).
Proof.
  induction xs as [|x xs IH]; intros Hb; [apply safe_mok|]. cbn [mfor].
  apply safe_bind; [apply Hb; by left|]. intros _. apply IH. intros y Hy. apply Hb. by right.
Qed.

Lemma calm_mok {A} (x : A) : calm (mok x).
Proof. intros d r d' [= <- <-]. exists []. by rewrite app_nil_r. Qed.
Lemma calm_bind {A C} (m : handler A) (k : A -> handler C) :
  calm m -> (forall x, calm (k x)) -> calm (mbind m k).
Proof.
  intros Hm Hk d r d' [(x & d1 & Hx & Hr)|(e & He & _)]%mbind_inv; [|by eapply Hm].
  destruct (Hm _ _ _ Hx) as (c1 & Hs1 & Hc1), (Hk x _ _ _ Hr) as (c2 & Hs2 & Hc2).
  exists (c1 ++ c2). rewrite Hs2, Hs1, existsb_app, Hc1, Hc2. by rewrite app_assoc.
Qed.
Lemma calm_io {A} (f : X -> A * X) : calm (io f).
Proof.
  intros d r d'. unfold io. destruct (f (world d)) as [y x]. intros [= <- <-]. exists []. by rewrite app_nil_r.
Qed.
Lemma calm_io_ f : calm (io_ f).
Proof. intros d r d' [= <- <-]. exists []. by rewrite app_nil_r. Qed.
Lemma calm_ask {A} (f : X -> A) : calm (ask f).
Proof. intros d r d' [= <- <-]. exists []. by rewrite app_nil_r. Qed.
Lemma calm_get : calm get_app.
Proof. intros d r d' [= <- <-]. exists []. by rewrite app_nil_r. Qed.
Lemma calm_upd f : calm (upd f).
Proof. intros d r d' [= <- <-]. exists []. by rewrite app_nil_r. Qed.
Lemma calm_upd_or_panic f : calm (upd_or_panic f).
Proof.
  intros d r d'. unfold upd_or_panic. destruct (f (app d)); intros [= <- <-]; exists []; by rewrite app_nil_r.
Qed.
Lemma calm_send c : is_send c = false -> calm (send_blocking c).
Proof.
  intros Hc d r d'. unfold send_blocking. destruct (channel_send c (world d)) as [[]  x]; intros [= <- <-]; cbn [is_ok sent].
  - exists [c]. simpl. by rewrite Hc.
  - exists []. by rewrite app_nil_r.
Qed.
Lemma calm_mfor {A} (xs : list A) body : (forall x, calm (body x)) -> calm (mfor xs body).
Proof. intros Hb. induction xs as [|x xs IH]; [apply calm_mok|]. cbn [mfor]. apply calm_bind; [done|]. by intros _. Qed.

End spec.

Create HintDb app_db.
#[export] Hint Resolve safe_mok safe_io safe_io_ safe_ask safe_get safe_send
  calm_mok calm_io calm_io_ calm_ask calm_get calm_upd calm_upd_or_panic : app_db.

(** Decompose a handler into its steps; branches are split, steps are looked up
    among the hints. *)
Ltac walk :=
  repeat first
    [ progress intros
    | solve [eauto with app_db]
    | match goal with
      | |- safe _ (mbind _ _) => apply safe_bind
      | |- calm (mbind _ _) => apply calm_bind
      | |- safe _ (match ?x with _ => _ end) => destruct x
      | |- calm (match ?x with _ => _ end) => destruct x
      | |- safe _ (let '(_, _) := ?x in _) => destruct x
      | |- calm (let '(_, _) := ?x in _) => destruct x
      | |- calm (send_blocking _) => apply calm_send; reflexivity
      end
    | progress cbv beta zeta ].

Section facts.
Context {Uuid X : Type} `{!UuidCrate Uuid} `{Countable Uuid} `{HashOrder} `{!Ui X} `{!UnicodeTables}.
Implicit Types (a : App Uuid) (d : Desk Uuid X) (u : Uuid) (s : MessageStore Uuid).
Abbreviation handler := (M (Desk Uuid X) Panic).

(** ** Calm handlers: everything but the compose box *)
Lemma calm_render : calm (Uuid:=Uuid) (X:=X) render.
Proof. unfold render, unix_now_ms. walk. Qed.
Lemma calm_render_ok : calm (Uuid:=Uuid) (X:=X) render_ok.
Proof. unfold render_ok. apply calm_bind; [apply calm_render|]. walk. Qed.
#[local] Hint Resolve calm_render_ok : app_db.
Lemma calm_notify t q : calm (Uuid:=Uuid) (X:=X) (notify_if_modals t q).
Proof. unfold notify_if_modals. walk. Qed.
Lemma calm_check_internet : calm (Uuid:=Uuid) (X:=X) check_internet.
Proof. unfold check_internet. walk. Qed.
#[local] Hint Resolve calm_notify calm_check_internet : app_db.
Lemma calm_device_name : calm (Uuid:=Uuid) (X:=X) next_attempt_device_name.
Proof. unfold next_attempt_device_name. walk. Qed.
#[local] Hint Resolve calm_device_name : app_db.
Lemma calm_drive_link : calm (Uuid:=Uuid) (X:=X) drive_link.
Proof. unfold drive_link. walk. Qed.
Lemma calm_drive_wipe : calm (Uuid:=Uuid) (X:=X) drive_wipe_settings.
Proof. unfold drive_wipe_settings. walk. Qed.
Lemma calm_drive_logout : calm (Uuid:=Uuid) (X:=X) drive_logout.
Proof. unfold drive_logout. walk. Qed.
Lemma calm_drive_new_chat : calm (Uuid:=Uuid) (X:=X) drive_new_chat.
Proof. unfold drive_new_chat. walk. Qed.
Lemma calm_query : calm (Uuid:=Uuid) (X:=X) query_account.
Proof. unfold query_account. walk. Qed.
#[local] Hint Resolve calm_drive_link calm_drive_wipe calm_drive_logout calm_drive_new_chat calm_query : app_db.

(** A key outside a conversation sends no message. *)
Lemma calm_key k (sc : Screen Uuid) :
  match sc with Thread _ => False | _ => True end ->
  calm (Uuid:=Uuid) (X:=X)
    (match sc with
     | Menu => menu_key k | About => about_key k | Linked _ => linked_key k
     | NoInternet next _ => no_internet_key next k | Linking => linking_key k | Home => home_key k
     | Thread u => thread_key u k | Settings => settings_key k | Profile => on_profile_key k | Help => help_key k
     | Wiping => mok tt
     end).
Proof.
  intros Hsc. destruct sc; try done;
    unfold menu_key, about_key, linked_key, preflight_home, no_internet_key, linking_key, home_key, sync_contacts,
      settings_key, when, on_profile_key, help_key; walk.
Qed.

Lemma calm_event (e : Event Uuid) : calm (X:=X) (handle_worker_event e).
Proof.
  destruct e; unfold handle_worker_event, when, on_link_complete, on_link_error, on_message, on_account_info,
    on_send_complete, on_send_error, on_contact_resolved, reset_with, handle_username_resolve_result; walk.
Qed.

(** ** The store under the app's operations *)

(** [s'] is a store the app may hold instead of [s]. *)
Definition keeps (bound : nat) s s' : Prop :=
  capacity s' = capacity s /\ in_sync s' /\ length (messages s') <= bound.

Lemma wf_store B a s' : app_wf B a -> keeps B (store a) s' -> app_wf B (set_store s' a).
Proof. intros (Hc & Hcb & Hs & Hl & Hb) (Hc' & Hs' & Hl'). unfold app_wf. cbn [store set_store compose_buffer]. rewrite Hc'. done. Qed.

Lemma length_update_first (p : ThreadMessage Uuid -> bool) f ms ms' : update_first p f ms = Some ms' -> length ms' = length ms.
Proof.
  revert ms'. induction ms as [|m ms IH]; intros ms'; [done|]. simpl. destruct (p m); [by intros [= <-]|].
  destruct (update_first p f ms) as [r|]; [|done]. intros [= <-]. simpl. by rewrite (IH r).
Qed.

Lemma length_log_status ts st (l : list (ThreadMessage Uuid)) : length (log_status ts st l) = length l.
Proof.
  unfold log_status. destruct (update_first _ _ (rev l)) as [r|] eqn:Hu; [|done]. simpl.
  rewrite length_rev, (length_update_first _ _ _ _ Hu). apply length_rev.
Qed.

Lemma keeps_status B ts st s : app_wf B (set_store s initial_app) -> keeps B s (snd (set_outgoing_status ts st s)).
Proof.
  intros (_ & _ & Hs & Hl & _). destruct (set_outgoing_status_log ts st s Hs) as (Hm & Hs' & Hc).
  split_and!; [done..|]. by rewrite Hm, length_log_status.
Qed.

Lemma keeps_mark_read B u s : in_sync s -> length (messages s) <= B -> keeps B s (mark_thread_read u s).
Proof.
  intros Hs Hl. destruct (rebuild_if_spec (fun m => bool_decide (tm_uuid m = u) && negb (tm_read m)) with_read s Hs)
    as (Hm & Hs' & Hc).
  split_and!; [done..|]. unfold mark_thread_read. cbv zeta. by rewrite Hm, length_fmap.
Qed.

Lemma keeps_resolve B u name s : in_sync s -> length (messages s) <= B -> keeps B s (snd (resolve_author_labels u name s)).
Proof.
  intros Hs Hl. destruct (rebuild_if_spec (fun m => bool_decide (tm_uuid m = u) && looks_like_raw_uuid (tm_author_label m))
    (with_label name) s Hs) as (Hm & Hs' & Hc).
  split_and!; [done..|]. cbn [resolve_author_labels snd]. by rewrite Hm, length_fmap.
Qed.

(** A push into a store of positive capacity succeeds and ends in the new row. *)
Lemma push_spec B s m :
  0 < capacity s -> capacity s <= B -> length (messages s) <= B ->
  exists s' ms,
    (s ← evict_if_full s; Some (rebuild (with_messages (messages s ++ [m]) s))) = Some s' /\
    keeps B s s' /\ messages s' = ms ++ [m].
Proof.
  intros Hc Hcb Hl. rewrite evict_if_full_spec by done. do 2 eexists. split; [done|].
  split; [|done]. split_and!; [done..|]. cbn [rebuild with_messages messages]. rewrite length_app. simpl.
  case_bool_decide; [|lia]. destruct (messages s); simpl in *; lia.
Qed.

(** ** Drafts *)
Definition scalar (c : N) : Prop := (c <= 1114111)%N.

Lemma byte_check (p : N -> bool) :
  forallb p (N.of_nat <$> seq 0 256) = true -> forall n, (n < 256)%N -> p n = true.
Proof.
  rewrite forallb_forall. intros Hp n Hn. apply Hp. apply list_elem_of_In, list_elem_of_fmap.
  exists (N.to_nat n). rewrite N2Nat.id. split; [done|]. apply elem_of_seq. lia.
Qed.

Lemma byte_char_lead n : (n < 128 \/ 192 <= n < 256)%N -> ascii_cont (byte_char n) = false.
Proof.
  intros Hn. apply negb_true_iff.
  pose proof (byte_check (fun n => implb ((n <? 128) || (192 <=? n))%N (negb (ascii_cont (byte_char n))))
    ltac:(vm_compute; reflexivity) n ltac:(lia)) as Hc.
  simpl in Hc. destruct ((n <? 128) || (192 <=? n))%N eqn:Hb; [done|].
  apply orb_false_iff in Hb as [?%N.ltb_ge ?%N.leb_gt]. lia.
Qed.

Lemma byte_char_cont n : (n < 64)%N -> ascii_cont (byte_char (128 + n)) = true.
Proof.
  intros Hn. pose proof (byte_check (fun n => implb (n <? 64)%N (ascii_cont (byte_char (128 + n))))
    ltac:(vm_compute; reflexivity) n ltac:(lia)) as Hc.
  simpl in Hc. by rewrite (proj2 (N.ltb_lt _ _) Hn) in Hc.
Qed.

(** A scalar value is one character. *)
Lemma utf8_char_group c : scalar c -> is_group (utf8_char c) = true /\ leads (utf8_char c) = true.
Proof.
  unfold scalar. intros Hc.
  assert (Hm : forall n, (n mod 64 < 64)%N) by (intros n; apply N.mod_lt; lia).
  unfold utf8_char.
  destruct (N.ltb_spec c 128); [|destruct (N.ltb_spec c 2048); [|destruct (N.ltb_spec c 65536)]];
    cbn [is_group leads string_forall]; rewrite ?byte_char_cont by apply Hm.
  - by rewrite byte_char_lead by lia.
  - assert (Hq : (c / 64 < 32)%N) by (apply N.Div0.div_lt_upper_bound; lia).
    generalize dependent (c / 64)%N. intros q Hq. by rewrite byte_char_lead by lia.
  - assert (Hq : (c / 4096 < 16)%N) by (apply N.Div0.div_lt_upper_bound; lia).
    generalize dependent (c / 4096)%N. intros q Hq. by rewrite byte_char_lead by lia.
  - assert (Hq : (c / 262144 < 5)%N) by (apply N.Div0.div_lt_upper_bound; lia).
    generalize dependent (c / 262144)%N. intros q Hq. by rewrite byte_char_lead by lia.
Qed.

Lemma composed_nil : composed "".
Proof. by exists []. Qed.

Lemma composed_push (s : string) k : scalar k -> is_compose_char k = true -> composed s -> composed (s +:+ utf8_char k).
Proof.
  intros Hk Hok (cps & Hs & Hall). destruct (utf8_char_group k Hk) as [Hg Hl]. exists (cps ++ [k]).
  rewrite chars_app, Hs, chars_group, fmap_app by done. split; [done|]. apply Forall_app. by split; [|constructor].
Qed.

Lemma composed_pop (s : string) : composed s -> composed (string_pop s).
Proof.
  intros (cps & Hs & Hall). exists (removelast cps). unfold string_pop.
  assert (Hrl : forall {A} (l : list A), removelast l = take (length l - 1) l).
  { intros A l. symmetry. rewrite removelast_firstn_len. f_equal. lia. }
  rewrite Hrl, chars_take, Hs, Hrl, length_fmap, fmap_take. split; [done|]. by apply Forall_take.
Qed.

(** ** Safe handlers *)

(** Well-formedness is about the store and the draft only. *)
Lemma wf_same B a a' : store a' = store a -> compose_buffer a' = compose_buffer a -> app_wf B a -> app_wf B a'.
Proof. intros Hs Hc. unfold app_wf. by rewrite Hs, Hc. Qed.

Lemma wf_status B x a : app_wf B a -> app_wf B (set_last_status x a).
Proof. intros Ha. exact Ha. Qed.
Lemma wf_screen B x a : app_wf B a -> app_wf B (set_screen x a).
Proof. intros Ha. exact Ha. Qed.

Lemma safe_upd_plain B (f : App Uuid -> App Uuid) :
  (forall a, store (f a) = store a /\ compose_buffer (f a) = compose_buffer a) -> safe (X:=X) B (upd f).
Proof. intros Hf. apply safe_upd. intros a Ha. destruct (Hf a). by apply (wf_same B a). Qed.

Lemma safe_upd_store B (f : MessageStore Uuid -> MessageStore Uuid) :
  (forall a, app_wf B a -> keeps B (store a) (f (store a))) ->
  safe (X:=X) B (upd (fun a => set_store (f (store a)) a)).
Proof. intros Hf. apply safe_upd. intros a Ha. apply wf_store; auto. Qed.

Lemma wf_cleared B a : app_wf B a -> app_wf B (set_compose_buffer "" a).
Proof. intros (? & ? & ? & ? & _). split_and!; try done. apply composed_nil. Qed.

Lemma wf_reset B a : app_wf B a -> app_wf B (reset_to_unlinked a).
Proof.
  intros (? & ? & ? & ? & _). split_and!; try done; [|apply Nat.le_0_l|apply composed_nil].
  unfold in_sync. symmetry. apply rebuild_nil.
Qed.

Lemma wrap_index_lt idx delta len : 0 < len -> wrap_index idx delta len < len.
Proof. intros Hl. unfold wrap_index. pose proof (Z.mod_pos_bound (Z.of_nat idx + delta) (Z.of_nat len)). lia. Qed.

Lemma safe_move_cursor B delta : safe (Uuid:=Uuid) (X:=X) B (upd_or_panic (move_cursor delta)).
Proof.
  apply safe_upd_or_panic. intros a Ha. unfold move_cursor.
  case_bool_decide as Hv; [by exists a|].
  assert (Hlt : wrap_index (position_or_0 (selected a) (omap id (menu_items a))) delta (length (omap id (menu_items a)))
                < length (omap id (menu_items a))).
  { apply wrap_index_lt. destruct (omap id (menu_items a)); [done|simpl; lia]. }
  apply lookup_lt_is_Some in Hlt as [item Hi]. rewrite Hi. by eexists.
Qed.

Lemma safe_settings_move B delta : safe (Uuid:=Uuid) (X:=X) B (upd_or_panic (settings_move delta)).
Proof.
  apply safe_upd_or_panic. intros a Ha. unfold settings_move.
  assert (Hlt : wrap_index (position_or_0 (settings_selected a) settings_items) delta (length settings_items)
                < length settings_items) by (apply wrap_index_lt; simpl; lia).
  apply lookup_lt_is_Some in Hlt as [item Hi]. rewrite Hi. by eexists.
Qed.

Lemma safe_push_incoming B u label body ts g :
  safe (X:=X) B (upd_or_panic (fun a => s ← push_incoming u label body ts g (store a); Some (set_store s a))).
Proof.
  apply safe_upd_or_panic. intros a Ha. pose proof Ha as (Hc & Hcb & _ & Hl & _).
  destruct (push_spec B (store a) (mkMsg u label body ts false Sent false g) Hc Hcb Hl) as (s' & ms & Hs & Hk & _).
  unfold push_incoming. rewrite Hs. eexists. split; [done|]. by apply wf_store.
Qed.

Lemma safe_push_outgoing B u body ts :
  safe (X:=X) B (upd_or_panic (fun a => s ← push_outgoing_pending u body ts (store a); Some (set_store s a))).
Proof.
  apply safe_upd_or_panic. intros a Ha. pose proof Ha as (Hc & Hcb & _ & Hl & _).
  destruct (push_spec B (store a) (mkMsg u "You" body ts true Pending true false) Hc Hcb Hl) as (s' & ms & Hs & Hk & _).
  unfold push_outgoing_pending. rewrite Hs. eexists. split; [done|]. by apply wf_store.
Qed.

Lemma keeps_status' B ts st a : app_wf B a -> keeps B (store a) (snd (set_outgoing_status ts st (store a))).
Proof. intros (? & ? & ? & ? & _). apply keeps_status. split_and!; try done. apply composed_nil. Qed.

Lemma safe_status B ts st : safe (Uuid:=Uuid) (X:=X) B (upd (fun a => set_store (snd (set_outgoing_status ts st (store a))) a)).
Proof. apply (safe_upd_store B (fun s => snd (set_outgoing_status ts st s))). intros a. apply keeps_status'. Qed.
End facts.

#[export] Hint Resolve safe_move_cursor safe_settings_move safe_push_incoming safe_push_outgoing safe_status : app_db.
#[export] Hint Extern 1 (safe _ (upd _)) => (apply safe_upd_plain; by intros) : app_db.

Section claims.
Context {Uuid X : Type} `{!UuidCrate Uuid} `{Countable Uuid} `{HashOrder} `{!Ui X} `{!UnicodeTables}.
Implicit Types (a : App Uuid) (d : Desk Uuid X) (u : Uuid) (s : MessageStore Uuid).

Lemma safe_render_ok B : safe (Uuid:=Uuid) (X:=X) B render_ok.
Proof. unfold render_ok, render, unix_now_ms. walk. Qed.
Lemma safe_notify B t q : safe (Uuid:=Uuid) (X:=X) B (notify_if_modals t q).
Proof. unfold notify_if_modals. walk. Qed.
Lemma safe_check_internet B : safe (Uuid:=Uuid) (X:=X) B check_internet.
Proof. unfold check_internet. walk. Qed.
Lemma safe_now B : safe (Uuid:=Uuid) (X:=X) B unix_now_ms.
Proof. unfold unix_now_ms. walk. Qed.
#[local] Hint Resolve safe_render_ok safe_notify safe_check_internet safe_now : app_db.
Lemma safe_device_name B : safe (Uuid:=Uuid) (X:=X) B next_attempt_device_name.
Proof. unfold next_attempt_device_name. walk. Qed.
#[local] Hint Resolve safe_device_name : app_db.
Lemma safe_drive_link B : safe (Uuid:=Uuid) (X:=X) B drive_link.
Proof. unfold drive_link. walk. Qed.
Lemma safe_drive_wipe B : safe (Uuid:=Uuid) (X:=X) B drive_wipe_settings.
Proof. unfold drive_wipe_settings. walk. Qed.
Lemma safe_drive_logout B : safe (Uuid:=Uuid) (X:=X) B drive_logout.
Proof. unfold drive_logout. walk. Qed.
Lemma safe_query B : safe (Uuid:=Uuid) (X:=X) B query_account.
Proof. unfold query_account. walk. Qed.
Lemma safe_drive_new_chat B : safe (Uuid:=Uuid) (X:=X) B drive_new_chat.
Proof.
  assert (Hopen : forall u, safe (X:=X) B (upd (fun a => set_compose_buffer "" (set_screen (Thread u) a)))).
  { intros u. apply safe_upd. intros a Ha. apply wf_cleared. by apply wf_screen. }
  unfold drive_new_chat. walk.
Qed.
Lemma safe_send_compose B u : safe (X:=X) B (send_compose u).
Proof.
  assert (Hclear : safe (Uuid:=Uuid) (X:=X) B (upd (set_compose_buffer ""))).
  { apply safe_upd. apply wf_cleared. }
  unfold send_compose, mark_send_failed. walk.
Qed.
#[local] Hint Resolve safe_drive_link safe_drive_wipe safe_drive_logout safe_query safe_drive_new_chat safe_send_compose : app_db.

Lemma safe_key B k : scalar k -> safe (Uuid:=Uuid) (X:=X) B (handle_key k).
Proof.
  intros Hk.
  assert (Hread : forall u, safe (X:=X) B
    (upd (fun a => set_screen (Thread u) (set_store (mark_thread_read u (store a)) a)))).
  { intros u. apply safe_upd. intros a Ha. pose proof Ha as (_ & _ & Hs & Hl & _).
    apply wf_screen, wf_store; [exact Ha|]. by apply keeps_mark_read. }
  assert (Hpop : safe (Uuid:=Uuid) (X:=X) B (upd (fun a => set_compose_buffer (string_pop (compose_buffer a)) a))).
  { apply safe_upd. intros a (? & ? & ? & ? & ?). split_and!; [assumption..|]. by apply composed_pop. }
  assert (Hpush : is_compose_char k = true ->
    safe (Uuid:=Uuid) (X:=X) B (upd (fun a => set_compose_buffer (compose_buffer a +:+ utf8_char k) a))).
  { intros Hok. apply safe_upd. intros a (? & ? & ? & ? & ?). split_and!; [assumption..|]. by apply composed_push. }
  unfold handle_key, menu_key, about_key, linked_key, preflight_home, no_internet_key, linking_key, home_key, sync_contacts,
    thread_key, settings_key, when, on_profile_key, help_key, open_settings.
  destruct (is_compose_char k); walk.
Qed.

Lemma safe_reset_with B banner : safe (Uuid:=Uuid) (X:=X) B (reset_with banner).
Proof.
  unfold reset_with. apply safe_bind; [|intros _; apply safe_render_ok].
  apply safe_upd. intros a Ha. by apply wf_status, wf_reset.
Qed.

Lemma safe_on_send_error B reason ts : safe (Uuid:=Uuid) (X:=X) B (on_send_error reason ts).
Proof.
  unfold on_send_error. apply safe_upd. intros a Ha. destruct ts as [ts|]; [|by apply wf_status].
  apply wf_status, wf_store; [exact Ha|]. by apply keeps_status'.
Qed.

Lemma safe_on_contact B u name : safe (X:=X) B (on_contact_resolved u name).
Proof.
  intros d Hd. pose proof Hd as (_ & _ & Hs & Hl & _).
  pose proof (keeps_resolve B u name (store (app d)) Hs Hl) as Hk.
  unfold on_contact_resolved. rewrite (mbind_ok get_app _ d (app d) d) by done.
  destruct (resolve_author_labels u name (store (app d))) as [touched s'] eqn:Hr. cbn [snd] in Hk.
  set (d1 := mkDesk (set_store s' (app d)) (world d) (sent d)).
  rewrite (mbind_ok _ _ d tt d1) by done. assert (Hd1 : app_wf B (app d1)) by (by apply wf_store).
  destruct touched; [|by exists tt, d1]. destruct (screen (app d)); try (by exists tt, d1); by apply safe_render_ok.
Qed.

Lemma safe_username B r : safe (Uuid:=Uuid) (X:=X) B (handle_username_resolve_result r).
Proof.
  unfold handle_username_resolve_result. apply safe_bind; [apply safe_get|]. intros a.
  destruct (negb (username_lookup_in_progress a)); [apply safe_mok|].
  apply safe_bind; [by apply safe_upd_plain|]. intros _. destruct r as [[u|]|reason]; [|walk..].
  apply safe_bind; [|walk]. destruct (username_lookup_pending a) as [name|]; [|apply safe_mok].
  apply safe_upd. intros b Hb. pose proof Hb as (_ & _ & Hs & Hl & _).
  apply wf_store; [exact Hb|]. by apply keeps_resolve.
Qed.
#[local] Hint Resolve safe_reset_with safe_on_send_error safe_on_contact safe_username : app_db.

Lemma safe_event B (e : Event Uuid) : safe (X:=X) B (handle_worker_event e).
Proof.
  destruct e as [| | | | | |[info|]| | | | | | | | | | | | |]; cbn [handle_worker_event];
    unfold when, on_link_complete, on_link_error, on_message, on_account_info, on_send_complete, mark_send_delivered;
    solve [walk].
Qed.
#[local] Hint Resolve safe_event safe_key : app_db.

(** ** The main loop *)
Lemma char_from_scalar k : scalar (char_from k).
Proof.
  unfold scalar, char_from, key_null. destruct (wrap32 k <? 55296)%N eqn:Ha; simpl.
  - apply N.ltb_lt in Ha. lia.
  - destruct (57344 <=? wrap32 k)%N, (N.leb_spec (wrap32 k) 1114111)%N; simpl; lia.
Qed.

Lemma safe_serve B msg (pending : list (Event Uuid)) : safe (X:=X) B (fst (serve msg pending)).
Proof.
  unfold serve. destruct (g_args msg) as [[[k1 k2] k3] k4]. destruct (xas_op (g_id msg)) as [[]|]; cbn [fst].
  - apply safe_render_ok.
  - apply safe_bind; [|intros _; apply safe_render_ok]. apply safe_mfor.
    intros k (k' & -> & _)%list_elem_of_fmap. apply safe_key, char_from_scalar.
  - unfold on_focus_change, when. walk.
  - apply safe_bind; [|intros _; apply safe_render_ok]. apply safe_mfor. intros e _. apply safe_event.
  - apply safe_mok.
Qed.

(** Whatever waits in the deque has a wake-up call in the mailbox. *)
Definition awake (p : Process (Uuid:=Uuid) (X:=X)) : Prop :=
  pending_events p <> [] -> exists m, m ∈ mailbox p /\ xas_op (g_id m) = Some OpWorkerEvent.
Definition delivered (i : Input (Uuid:=Uuid)) : Prop := match i with Forwarded _ b => b = true | _ => True end.

Lemma step_ok B i (p : Process (Uuid:=Uuid) (X:=X)) :
  app_wf B (app (desk p)) ->
  exists p', app_step i p = Ok p' /\ app_wf B (app (desk p')) /\ (delivered i -> awake p -> awake p').
Proof.
  intros Hwf. destruct i as [e b|msg|]; cbn [app_step].
  - eexists. split; [done|]. split; [done|]. intros Hb _ _. simpl in Hb. subst b. exists wake.
    split; [|done]. apply elem_of_app. right. by left.
  - eexists. split; [done|]. split; [done|]. intros _ Ha Hp. destruct (Ha Hp) as (m & Hm & Hop).
    exists m. split; [|done]. apply elem_of_app. by left.
  - destruct (mailbox p) as [|msg rest] eqn:Hmail; [by exists p|].
    destruct (serve msg (pending_events p)) as [m pending] eqn:Hs.
    pose proof (safe_serve B msg (pending_events p)) as Hsafe. rewrite Hs in Hsafe. cbn [fst] in Hsafe.
    destruct (Hsafe _ Hwf) as (r & d' & Hrun & Hwf'). rewrite Hrun. eexists. split; [done|]. split; [done|].
    intros _ Ha Hp. cbn [pending_events mailbox] in Hp |- *.
    unfold serve in Hs. destruct (g_args msg) as [[[k1 k2] k3] k4].
    destruct (xas_op (g_id msg)) as [[]|] eqn:Hop; injection Hs as _ <-; try done;
      (destruct (Ha Hp) as (m' & Hm & Hop'); rewrite Hmail in Hm; apply elem_of_cons in Hm as [->|Hm];
        [congruence|by exists m']).
Qed.

Lemma steps_ok B ins (p : Process (Uuid:=Uuid) (X:=X)) :
  app_wf B (app (desk p)) ->
  exists p', app_steps ins p = Ok p' /\ app_wf B (app (desk p')) /\ (Forall delivered ins -> awake p -> awake p').
Proof.
  revert p. induction ins as [|i ins IH]; intros p Hp; [by exists p|].
  destruct (step_ok B i p Hp) as (p1 & Hs & Hp1 & Ha1). destruct (IH p1 Hp1) as (p2 & Hs2 & Hp2 & Ha2).
  exists p2. cbn [app_steps]. rewrite Hs. split; [done|]. split; [done|].
  intros [Hi Hins]%Forall_cons Ha. auto.
Qed.

Definition bound_of (x : X) : nat := if bool_decide (env_mock_messages x = Some "1") then 12 else INBOX_CAPACITY.

Lemma unix_now_spec (d : Desk Uuid X) : exists now x', unix_now_ms d = (Ok now, mkDesk (app d) x' (sent d)).
Proof.
  unfold unix_now_ms, mbind, io. destruct (since_epoch_ms (world d)) as [r x']. by exists (from_option wrap64 0%N r), x'.
Qed.

Lemma startup_ok (x : X) :
  exists d, startup (mkDesk (initial_app (Uuid:=Uuid)) x []) = (Ok tt, d) /\ app_wf (bound_of x) (app d).
Proof.
  assert (Hinit : forall B, INBOX_CAPACITY <= B -> app_wf B (initial_app (Uuid:=Uuid))).
  { intros B HB. split_and!; [by apply Nat.lt_0_succ|done| |apply Nat.le_0_l|apply composed_nil].
    unfold in_sync. symmetry. apply rebuild_nil. }
  unfold startup, seed_mock_messages_if_requested, bound_of.
  assert (Hr : forall B d, app_wf B (app d) -> exists d', render_ok d = (Ok tt, d') /\ app_wf B (app d')).
  { intros B d Hd. destruct (safe_render_ok B d Hd) as ([] & d' & Hrun & Hwf). eauto. }
  rewrite mbind_assoc, (mbind_ok (ask env_mock_messages) _ _ (env_mock_messages x) (mkDesk initial_app x [])) by done.
  case_bool_decide as He; case_bool_decide as He'; try done.
  - unfold mbind, mok. apply Hr, Hinit. done.
  - destruct (unix_now_spec (mkDesk (initial_app (Uuid:=Uuid)) x [])) as (now & x' & Hnow).
    rewrite mbind_assoc, (mbind_ok _ _ _ _ _ Hnow). unfold mbind, upd. apply Hr. cbn [app].
    assert (Hs : app_wf 12 (set_store (seed (mock_rows now) (store initial_app)) (initial_app (Uuid:=Uuid)))).
    { apply wf_store; [apply Hinit; unfold INBOX_CAPACITY; lia|]. split_and!; [done..|]. simpl. lia. }
    exact Hs.
Qed.

(** C36: Whatever keys, focus changes, unknown messages and worker events reach
    the app, in whatever order they are served, and however the modals, the radio,
    the clock and the command channel answer, the app's thread never panics (no
    index out of bounds, no removal from an empty buffer). It keeps at most
    [INBOX_CAPACITY] messages (twelve after mock seeding), summaries in step with
    them and a draft of accepted characters; and no event waits in the deque
    without a wake-up call, as long as the forwarder's calls are delivered. *)
Theorem app_never_panics (x : X) ins :
  exists p, app_run (Uuid:=Uuid) x ins = Ok p /\
    app_wf (if bool_decide (env_mock_messages x = Some "1") then 12 else INBOX_CAPACITY) (app (desk p)) /\
    (Forall delivered ins -> awake p).
Proof.
  destruct (startup_ok x) as (d & Hs & Hd). unfold app_run. rewrite Hs.
  destruct (steps_ok _ ins (mkProcess d [] []) Hd) as (p & Hrun & Hp & Ha).
  exists p. split; [exact Hrun|]. split; [exact Hp|]. intros Hdel. apply Ha; [exact Hdel|]. by intros [].
Qed.

(** ** The compose box *)

(** The gate asks the messages still in the buffer. *)
Lemma is_group_thread_spec s u :
  in_sync s -> is_group_thread s u = existsb tm_group (conversation u (messages s)).
Proof.
  intros Hs. apply eq_true_iff_eq. unfold is_group_thread. rewrite Hs, existsb_exists. split.
  - intros (ds & Hin & [Hu Hg]%andb_true_iff). apply bool_decide_eq_true in Hu. apply list_elem_of_In in Hin.
    apply elem_of_rebuild in Hin as [Hds _]. rewrite Hds, Hu in Hg. exact Hg.
  - intros Hg. exists (summary_of u (messages s)). split.
    + apply list_elem_of_In, elem_of_rebuild. split; [done|]. cbn [summary_of ds_uuid].
      apply dec_stable. intros Hn%conversation_nil. by rewrite Hn in Hg.
    + cbn [summary_of ds_uuid ds_is_group]. rewrite bool_decide_true by done. done.
Qed.

(** What a send does: nothing but a status line in a group conversation, else
    the command and its pending row, marked failed if the channel is closed. *)
Lemma send_compose_group d u :
  is_group_thread (store (app d)) u = true ->
  send_compose u d = (Ok tt, mkDesk (set_last_status "Group reply not supported yet" (app d)) (world d) (sent d)).
Proof. intros Hg. unfold send_compose, mbind, get_app. by rewrite Hg. Qed.

Lemma send_compose_open B d u :
  app_wf B (app d) -> is_group_thread (store (app d)) u = false ->
  exists ts d' ms,
    send_compose u d = (Ok tt, d') /\
    compose_buffer (app d') = "" /\ screen (app d') = screen (app d) /\
    ((sent d' = sent d ++ [SendMessage (uuid_to_string u) (compose_buffer (app d)) ts] /\
      messages (store (app d')) = ms ++ [mkMsg u "You" (compose_buffer (app d)) ts true Pending true false]) \/
     (sent d' = sent d /\
      messages (store (app d')) = ms ++ [mkMsg u "You" (compose_buffer (app d)) ts true Failed true false])).
Proof.
  intros Hwf Hg. set (body := compose_buffer (app d)).
  set (d1 := mkDesk (set_compose_buffer "" (app d)) (world d) (sent d)).
  destruct (unix_now_spec d1) as (ts & x' & Hnow). set (d2 := mkDesk (app d1) x' (sent d1)) in *.
  pose proof Hwf as (Hc & Hcb & _ & Hl & _).
  destruct (push_spec B (store (app d)) (mkMsg u "You" body ts true Pending true false) Hc Hcb Hl)
    as (s' & ms & Hpush & (_ & Hsync & _) & Hms).
  exists ts. unfold send_compose. rewrite (mbind_ok get_app _ d (app d) d) by done. rewrite Hg. cbv zeta. fold body.
  rewrite (mbind_ok _ _ d tt d1) by done. rewrite (mbind_ok _ _ _ _ _ Hnow).
  set (d3 := mkDesk (set_store s' (app d2)) x' (sent d2)).
  rewrite (mbind_ok _ _ d2 tt d3).
  2:{ unfold upd_or_panic, push_outgoing_pending. cbn [app d2 d1 set_compose_buffer store]. by rewrite Hpush. }
  unfold mbind at 1, send_blocking. destruct (channel_send _ (world d3)) as [[[]|e] x''] eqn:Hch; cbn [is_ok].
  - eexists _, ms. split; [done|]. split_and!; [done..|]. left. split; [done|]. exact Hms.
  - eexists _, ms. split; [done|]. split_and!; [done..|]. right. split; [done|].
    cbn [app store set_store mark_send_failed].
    destruct (set_outgoing_status_log ts Failed s' Hsync) as (Hm & _). unfold mark_send_failed.
    etrans; [exact Hm|]. rewrite Hms. unfold log_status. rewrite rev_unit. cbn [update_first tm_outgoing tm_timestamp].
    rewrite N.eqb_refl. cbn [andb fmap option_fmap option_map default with_status rev]. by rewrite rev_involutive.
Qed.

(** The keys that send a draft: Enter under either code, and F1. *)
Definition sends (k : N) : Prop := k = key_return \/ k = key_select \/ k = key_f1.

Lemma enters_sends k : enters k = true -> sends k.
Proof. unfold enters, sends. intros [->%N.eqb_eq| ->%N.eqb_eq]%orb_true_iff; auto. Qed.

(** A key in a conversation sends at most the draft. *)
Lemma thread_key_sends B d u k r d' :
  app_wf B (app d) -> thread_key u k d = (r, d') ->
  (exists cs, sent d' = sent d ++ cs /\ existsb is_send cs = false) \/
  (sends k /\ is_group_thread (store (app d)) u = false /\ compose_buffer (app d) <> "" /\ send_compose u d = (r, d')).
Proof.
  intros Hwf. unfold thread_key. rewrite (mbind_ok get_app _ d (app d) d) by done.
  assert (Hcalm : forall (m : M (Desk Uuid X) Panic unit), calm m -> m d = (r, d') ->
    exists cs, sent d' = sent d ++ cs /\ existsb is_send cs = false) by (intros m Hm; apply Hm).
  assert (Hsend : sends k -> compose_buffer (app d) <> "" -> send_compose u d = (r, d') ->
    (exists cs, sent d' = sent d ++ cs /\ existsb is_send cs = false) \/
    (sends k /\ is_group_thread (store (app d)) u = false /\ compose_buffer (app d) <> "" /\ send_compose u d = (r, d'))).
  { intros Hk Hne Hs. destruct (is_group_thread (store (app d)) u) eqn:Hg; [|by right]. left.
    rewrite (send_compose_group d u Hg) in Hs. injection Hs as _ <-. exists []. by rewrite app_nil_r. }
  destruct (enters k) eqn:Hent.
  - case_bool_decide; [|by apply (Hsend (enters_sends k Hent))]. intros Hm. left. eapply Hcalm; [|exact Hm]. apply calm_upd.
  - destruct (k =? key_backspace)%N; [intros Hm; left; eapply Hcalm; [|exact Hm]; apply calm_upd|].
    destruct (is_compose_char k); [intros Hm; left; eapply Hcalm; [|exact Hm]; apply calm_upd|].
    destruct (k =? key_f1)%N eqn:Hf1.
    + apply N.eqb_eq in Hf1. case_bool_decide; [|by apply (Hsend (or_intror (or_intror Hf1)))]. intros Hm. left. eapply Hcalm; [|exact Hm]. apply calm_mok.
    + intros Hm. left. eapply Hcalm; [|exact Hm]. unfold open_settings. walk.
Qed.

(** C37: The only thing that sends a message is Enter, under either of its two
    codes, or F1 on a conversation whose rows in the buffer carry no group tag: the
    command names that conversation's contact, carries exactly the non-empty draft,
    empties it, and comes with a pending row of the same body and timestamp at the
    end of the buffer. No other key sends one, on whatever screen, and no worker
    event does. A conversation with a group-tagged row in the buffer never sends: on
    each of these keys its draft stays and a status line says why. *)
Theorem messages_only_from_compose B d :
  app_wf B (app d) ->
  (forall k r d', handle_key k d = (r, d') ->
     (exists cs, sent d' = sent d ++ cs /\ existsb is_send cs = false) \/
     (exists u ts ms,
        (k = key_return \/ k = key_select \/ k = key_f1) /\
        screen (app d) = Thread u /\ compose_buffer (app d) <> "" /\
        existsb tm_group (conversation u (messages (store (app d)))) = false /\
        sent d' = sent d ++ [SendMessage (uuid_to_string u) (compose_buffer (app d)) ts] /\
        compose_buffer (app d') = "" /\
        messages (store (app d')) = ms ++ [mkMsg u "You" (compose_buffer (app d)) ts true Pending true false])) /\
  (forall k u, k = key_return \/ k = key_select \/ k = key_f1 ->
     screen (app d) = Thread u -> compose_buffer (app d) <> "" ->
     existsb tm_group (conversation u (messages (store (app d)))) = true ->
     handle_key k d =
       (Ok tt, mkDesk (set_last_status "Group reply not supported yet" (app d)) (world d) (sent d))) /\
  (forall e r d', handle_worker_event e d = (r, d') ->
     exists cs, sent d' = sent d ++ cs /\ existsb is_send cs = false).
Proof.
  intros Hwf. pose proof Hwf as (_ & _ & Hsync & _). split_and!.
  - intros k r d' Hrun. unfold handle_key in Hrun. destruct (k =? key_null)%N; [left; by eapply calm_mok|].
    rewrite (mbind_ok get_app _ d (app d) d) in Hrun by done.
    destruct (screen (app d)) as [| | | |kind| |u| | | |next reason] eqn:Hsc;
      try (left; exact (calm_key k (screen (app d)) ltac:(by rewrite Hsc) d r d' ltac:(rewrite Hsc; exact Hrun))).
    destruct (thread_key_sends B d u k r d' Hwf Hrun) as [?|(Hk & Hg & Hne & Hs)]; [by left|].
    destruct (send_compose_open B d u Hwf Hg) as (ts & d1 & ms & Hs' & Hb & _ & Hsent).
    rewrite Hs in Hs'. injection Hs' as -> ->.
    destruct Hsent as [[Hc Hm]|[Hc _]]; [|left; exists []; by rewrite app_nil_r].
    right. exists u, ts, ms. rewrite <- is_group_thread_spec by done. done.
  - intros k u Hk Hsc Hne Hg. rewrite <- is_group_thread_spec in Hg by done.
    assert (Hkey : handle_key k d = send_compose u d).
    { unfold handle_key. assert ((k =? key_null)%N = false) as -> by (by destruct Hk as [-> |[-> | ->]]).
      rewrite (mbind_ok get_app _ d (app d) d) by done. rewrite Hsc. unfold thread_key.
      rewrite (mbind_ok get_app _ d (app d) d) by done. rewrite bool_decide_false by done.
      by destruct Hk as [-> |[-> | ->]]. }
    rewrite Hkey. by apply send_compose_group.
  - intros e r d'. apply calm_event.
Qed.

(** ** The end of a link *)
Lemma reset_eq a :
  reset_to_unlinked a =
  mkApp Menu ItemLink false (mkStore [] [] (capacity (store a))) 0 "" (last_status a) false (settings_selected a)
    None None None (account_query_pending a) false None.
Proof. done. Qed.

Definition frame_world (a : App Uuid) (x : X) : X := world (snd (render_ok (mkDesk a x []))).

(** Drawing reads the app and changes the outside only. *)
Definition draws {A} (m : M (Desk Uuid X) Panic A) : Prop :=
  forall a x, exists r x', forall l, m (mkDesk a x l) = (Ok r, mkDesk a x' l).

Lemma draws_bind {A C} (m : M (Desk Uuid X) Panic A) (k : A -> M (Desk Uuid X) Panic C) :
  draws m -> (forall y, draws (k y)) -> draws (mbind m k).
Proof.
  intros Hm Hk a x. destruct (Hm a x) as (y & x1 & Hy), (Hk y a x1) as (z & x2 & Hz).
  exists z, x2. intros l. by rewrite (mbind_ok _ _ _ _ _ (Hy l)).
Qed.
Lemma draws_mok {A} (y : A) : draws (mok y).
Proof. intros a x. by exists y, x. Qed.
Lemma draws_get : draws get_app.
Proof. intros a x. by exists a, x. Qed.
Lemma draws_io {A} (f : X -> A * X) : draws (io f).
Proof. intros a x. unfold io. cbn [world]. destruct (f x) as [y x']. by exists y, x'. Qed.

Lemma draws_render_ok : draws render_ok.
Proof.
  unfold render_ok, render, unix_now_ms.
  repeat first [apply draws_mok | apply draws_get | apply draws_io | apply draws_bind | progress intros
    | match goal with |- draws (match ?y with _ => _ end) => destruct y end].
Qed.

Lemma render_ok_spec d : render_ok d = (Ok tt, mkDesk (app d) (frame_world (app d) (world d)) (sent d)).
Proof.
  destruct d as [a x l]. destruct (draws_render_ok a x) as ([] & x' & Hr). unfold frame_world. cbn [app world sent].
  by rewrite !Hr.
Qed.

Lemma reset_with_spec banner d :
  let a := mkApp Menu ItemLink false (mkStore [] [] (capacity (store (app d)))) 0 "" banner false
             (settings_selected (app d)) None None None (account_query_pending (app d)) false None in
  reset_with banner d = (Ok tt, mkDesk a (frame_world a (world d)) (sent d)).
Proof.
  cbv zeta. unfold reset_with, mbind, upd. rewrite reset_eq, render_ok_spec. done.
Qed.

Definition ends_link (e : Event Uuid) : bool :=
  match e with LoggedOut | SignalAuthExpired _ | SignalConflictingDevice _ => true | _ => false end.

(** C38: What a logout, an expired authentication and a displaced device leave of the
    app. It is the unlinked menu with an empty store of the same size and the
    event's banner; of what the app held only two fields survive, which the reset
    does not touch: where the cursor of the settings list stood, and whether an
    account query is in flight. So two apps that agree on these are, after the event,
    in the same state, have drawn the same frame and left the outside world in the
    same state, whatever messages, drafts, names, lookups and account data they held;
    and with no query in flight and that cursor at its start, the app is the
    freshly booted one with the banner. *)
Theorem end_of_link_forgets e :
  ends_link e = true ->
  exists banner, forall d,
    let kept := mkApp Menu ItemLink false (mkStore [] [] (capacity (store (app d)))) 0 "" banner false
                  (settings_selected (app d)) None None None (account_query_pending (app d)) false None in
    (exists x, handle_worker_event e d = (Ok tt, mkDesk kept x (sent d)) /\
       forall d2, world d2 = world d -> capacity (store (app d2)) = capacity (store (app d)) ->
         settings_selected (app d2) = settings_selected (app d) ->
         account_query_pending (app d2) = account_query_pending (app d) ->
         handle_worker_event e d2 = (Ok tt, mkDesk kept x (sent d2))) /\
    (capacity (store (app d)) = INBOX_CAPACITY -> settings_selected (app d) = SetProfile ->
     account_query_pending (app d) = false -> kept = set_last_status banner initial_app).
Proof.
  intros He.
  assert (Hb : exists banner, forall d, handle_worker_event e d = reset_with banner d) by (destruct e; try done; by eexists).
  destruct Hb as [banner Hb]. exists banner. intros d kept. split.
  - exists (frame_world kept (world d)). split; [by rewrite Hb, reset_with_spec|].
    intros d2 Hw Hc Hs Hp. rewrite Hb, reset_with_spec, Hw, Hc, Hs, Hp. done.
  - unfold kept. by intros -> -> ->.
Qed.
End claims.
