(* ===== verification/AppHistory.v ===== *)
(** * What the rows of the conversation owe to the worker

    The command channel as the app's thread sees it, and an invariant of every
    handler: an outgoing row is a command that was sent, its status is what a worker
    event said, and an incoming row is a message that an event delivered
    ([honest]). *)
From Stdlib Require Import Ascii Strings.String.
From S2P Require Import Prelude Codec Utf8 Text Worker Dialogue MessageStore Screens AppLoop.

(** ** The channel

    [connected]: the worker still holds the receiving end. The rest of the outside
    world is as before. *)
Record Wired (X : Type) : Type := mkWired { connected : bool; outside : X }.
Arguments mkWired {X}. Arguments connected {X}. Arguments outside {X}.

Section wired.
Context {X : Type} `{!Ui X}.

Definition lift {A} (f : X -> A * X) (x : Wired X) : A * Wired X :=
  let '(a, y) := f (outside x) in (a, mkWired (connected x) y).
Definition lift_ (f : X -> X) (x : Wired X) : Wired X := mkWired (connected x) (f (outside x)).

#[global] Instance wired_ui : Ui (Wired X) := {|
  modals_new := lift modals_new;
  alert_build t d := lift (alert_build t d);
  show_notification t q := lift_ (show_notification t q);
  channel_send _ x := (if connected x then Ok tt else Err "SendError(..)", x);
  since_epoch_ms := lift since_epoch_ms;
  vibe := lift_ vibe;
  draw_rectangle := lift draw_rectangle;
  post_textview s t := lift (post_textview s t);
  gam_redraw := lift gam_redraw;
  env_bypass_preflight x := env_bypass_preflight (outside x);
  env_mock_messages x := env_mock_messages (outside x);
  env_home x := env_home (outside x);
  read_attempts p x := read_attempts p (outside x);
  write_attempts p t := lift_ (write_attempts p t);
  com_new := lift com_new;
  wlan_status := lift wlan_status;
  is_foreground := is_foreground;
  cargo_pkg_version := cargo_pkg_version
|}.

Lemma lift_connected {A} (f : X -> A * X) x : connected (lift f x).2 = connected x.
Proof. unfold lift. by destruct (f (outside x)). Qed.
End wired.

(** ** Honest rows *)

(** The commands the app's code sends. *)
Definition app_cmd (c : Cmd) : bool := match c with Hello | GetWhoami | Shutdown => false | _ => true end.

Section honest.
Context {Uuid X : Type} `{!UuidCrate Uuid} `{Countable Uuid} `{HashOrder} `{!Ui X} `{!UnicodeTables}.
Abbreviation handler := (M (Desk Uuid (Wired X)) Panic).
Abbreviation Row := (ThreadMessage Uuid).
Abbreviation A := (App Uuid).
Implicit Types (E : list (Event Uuid)) (cs L : list Cmd) (d : Desk Uuid (Wired X)) (m : Row) (u : Uuid).

(** The conversation of a message, and whether it is a group's. *)
Definition thread_of (sender : string) (group_master_key : option bytes) : Uuid * bool :=
  match group_master_key with
  | Some key => (uuid_new_v5_oid key, true)
  | None => (default uuid_nil (uuid_parse_str sender), false)
  end.
Definition delivered_in E m : Prop :=
  exists sender phone name group, Message sender phone name (tm_body m) (tm_timestamp m) group ∈ E /\
    thread_of sender group = (tm_uuid m, tm_group m).

Definition row_ok E cs m : Prop :=
  if tm_outgoing m then
    SendMessage (uuid_to_string (tm_uuid m)) (tm_body m) (tm_timestamp m) ∈ cs /\
    match tm_status m with
    | Delivered => SendComplete (tm_timestamp m) ∈ E
    | Failed => exists reason, SendError reason (Some (tm_timestamp m)) ∈ E
    | _ => True
    end
  else delivered_in E m.
Definition rows_ok E cs (a : A) : Prop := Forall (row_ok E cs) (messages (store a)).

Record honest E L d : Prop := mkHonest {
  h_open : connected (world d) = true;
  h_sent : Forall (fun c => app_cmd c = true) (sent d);
  h_rows : rows_ok E (sent d) (app d);
  h_grows : L `prefix_of` sent d
}.
(** [m] keeps the rows honest, whatever it answers. [L]: what had been sent before. *)
Definition kept E L {B} (m : handler B) : Prop := forall d r d', honest E L d -> m d = (r, d') -> honest E L d'.

Lemma row_ok_mono E E' cs cs' m : E ⊆ E' -> cs ⊆ cs' -> row_ok E cs m -> row_ok E' cs' m.
Proof.
  intros HE Hc. unfold row_ok. destruct (tm_outgoing m).
  - intros [Hs Ht]. split; [by apply Hc|].
    destruct (tm_status m); [done|done|by apply HE|]. destruct Ht as [reason Ht]. exists reason. by apply HE.
  - intros (sender & ph & nm & g & Hin & Ht). exists sender, ph, nm, g. split; [by apply HE|done].
Qed.
Lemma rows_ok_mono E E' cs cs' a : E ⊆ E' -> cs ⊆ cs' -> rows_ok E cs a -> rows_ok E' cs' a.
Proof. intros HE Hc Ha. eapply Forall_impl; [exact Ha|]. intros m. by apply row_ok_mono. Qed.

Lemma honest_mono E E' L d : E ⊆ E' -> honest E L d -> honest E' L d.
Proof. intros HE [Ho Hs Hr Hl]. constructor; [done..| |done]. by eapply rows_ok_mono. Qed.

(** *** Composition *)
Lemma kept_mok E L {B} (x : B) : kept E L (mok x).
Proof. by intros d r d' Hd [= _ <-]. Qed.
Lemma kept_bind E L {B C} (m : handler B) (k : B -> handler C) :
  kept E L m -> (forall x, kept E L (k x)) -> kept E L (mbind m k).
Proof.
  intros Hm Hk d r d' Hd [(x & d1 & Hx & Hr)|(e & He & _)]%mbind_inv; [|by eapply Hm].
  eapply Hk; [|exact Hr]. by eapply Hm.
Qed.
Lemma kept_get E L : kept E L get_app.
Proof. by intros d r d' Hd [= _ <-]. Qed.
Lemma kept_ask E L {B} (f : Wired X -> B) : kept E L (ask f).
Proof. by intros d r d' Hd [= _ <-]. Qed.
Lemma kept_io E L {B} (f : X -> B * X) : kept E L (io (lift f)).
Proof.
  intros d r d' [Ho Hs Hr Hl]. unfold io. pose proof (lift_connected f (world d)) as Hf.
  destruct (lift f (world d)) as [y x]. intros [= _ <-]. constructor; [|done..]. simpl in *. congruence.
Qed.
Lemma kept_io_ E L (f : X -> X) : kept E L (io_ (lift_ f)).
Proof. intros d r d' [Ho Hs Hr Hl] [= _ <-]. by constructor. Qed.
Lemma kept_upd_rows E L (f : A -> A) :
  (forall cs a, rows_ok E cs a -> rows_ok E cs (f a)) -> kept E L (upd f).
Proof. intros Hf d r d' [Ho Hs Hr Hl] [= _ <-]. constructor; [done..| |done]. by apply Hf. Qed.
Lemma kept_upd_or_panic E L (f : A -> option A) :
  (forall cs a a', f a = Some a' -> rows_ok E cs a -> rows_ok E cs a') -> kept E L (upd_or_panic f).
Proof.
  intros Hf d r d' [Ho Hs Hr Hl]. unfold upd_or_panic. destruct (f (app d)) as [a|] eqn:Ha; intros [= _ <-]; [|done].
  constructor; [done..| |done]. by eapply Hf.
Qed.
Lemma kept_send E L c : app_cmd c = true -> kept E L (send_blocking c).
Proof.
  intros Hc d r d' [Ho Hs Hr Hl] [= _ <-]. cbn [channel_send wired_ui]. rewrite Ho. cbn [is_ok].
  constructor; [done| | |]; cbn [sent app].
  - apply Forall_app. split; [done|]. by constructor.
  - eapply rows_ok_mono; [done| |exact Hr]. apply list_subseteq_app_l. done.
  - by apply prefix_app_r.
Qed.
Lemma kept_mfor E L {B} (xs : list B) body : (forall x, x ∈ xs -> kept E L (body x)) -> kept E L (mfor xs body).
Proof.
  induction xs as [|x xs IH]; intros Hb; [apply kept_mok|]. cbn [mfor].
  apply kept_bind; [apply Hb; by left|]. intros _. apply IH. intros y Hy. apply Hb. by right.
Qed.

(** *** Updates that leave the rows, or add and rewrite them *)
Lemma kept_upd E L (f : A -> A) :
  (forall a, messages (store (f a)) = messages (store a)) -> kept E L (upd f).
Proof. intros Hf. apply kept_upd_rows. intros cs a Ha. unfold rows_ok. by rewrite Hf. Qed.

Lemma kept_cleared E L (f : A -> A) : (forall a, messages (store (f a)) = []) -> kept E L (upd f).
Proof. intros Hf. apply kept_upd_rows. intros cs a Ha. unfold rows_ok. by rewrite Hf. Qed.

Lemma update_first_forall (P : Row -> Prop) p f ms ms' :
  (forall m, P m -> p m = true -> P (f m)) -> Forall P ms -> update_first p f ms = Some ms' -> Forall P ms'.
Proof.
  intros Hf Hms. revert ms'. induction Hms as [|m ms Hm Hms IH]; intros ms'; [done|]. simpl.
  destruct (p m) eqn:Hp; [intros [= <-]; constructor; auto|].
  destruct (update_first p f ms) as [r|]; [|done]. intros [= <-]. constructor; auto.
Qed.

Lemma status_rows E ts status (s : MessageStore Uuid) cs :
  match status with
  | Delivered => SendComplete ts ∈ E
  | Failed => exists reason, SendError reason (Some ts) ∈ E
  | _ => True
  end ->
  Forall (row_ok E cs) (messages s) -> Forall (row_ok E cs) (messages (set_outgoing_status ts status s).2).
Proof.
  intros Hst Hr. unfold set_outgoing_status. destruct (update_first _ _ _) as [ms|] eqn:Hu; [|done].
  cbn [snd rebuild with_messages messages]. apply Forall_rev.
  eapply update_first_forall; [| |exact Hu]; [|by apply Forall_rev].
  intros m Hm [Ho Ht%N.eqb_eq]%andb_true_iff. unfold row_ok in *. cbn [tm_outgoing tm_status tm_timestamp with_status] in *.
  rewrite Ho in Hm |- *. destruct Hm as [Hs _]. split; [exact Hs|]. by rewrite Ht.
Qed.

Lemma kept_status E L ts status (g : A -> A) :
  match status with
  | Delivered => SendComplete ts ∈ E
  | Failed => exists reason, SendError reason (Some ts) ∈ E
  | _ => True
  end ->
  (forall a, messages (store (g a)) = messages (set_outgoing_status ts status (store a)).2) -> kept E L (upd g).
Proof. intros Hst Hg. apply kept_upd_rows. intros cs a Ha. unfold rows_ok. rewrite Hg. by apply status_rows. Qed.

Lemma kept_map E L (g : A -> A) (f : Row -> Row) :
  (forall cs m, row_ok E cs m -> row_ok E cs (f m)) ->
  (forall a, messages (store (g a)) = f <$> messages (store a)) -> kept E L (upd g).
Proof.
  intros Hf Hg. apply kept_upd_rows. intros cs a Ha. unfold rows_ok. rewrite Hg. apply Forall_fmap.
  eapply Forall_impl; [exact Ha|]. apply Hf.
Qed.

Lemma evict_rows E cs (s s' : MessageStore Uuid) :
  evict_if_full s = Some s' -> Forall (row_ok E cs) (messages s) -> Forall (row_ok E cs) (messages s').
Proof.
  unfold evict_if_full. case_bool_decide; [|by intros [= <-]].
  destruct (messages s) as [|m ms]; [done|]. intros [= <-] [_ Hms]%Forall_cons. exact Hms.
Qed.

Lemma kept_push_incoming E L u label body ts g :
  delivered_in E (mkMsg u label body ts false Sent false g) ->
  kept E L (upd_or_panic (fun a => s ← push_incoming u label body ts g (store a); Some (set_store s a))).
Proof.
  intros Hrow. apply kept_upd_or_panic. intros cs a a'. unfold push_incoming.
  destruct (evict_if_full (store a)) as [s|] eqn:He; [|done]. intros [= <-] Ha.
  eapply evict_rows in He; [|exact Ha]. unfold rows_ok. cbn [store set_store rebuild with_messages messages].
  apply Forall_app. split; [done|]. by constructor.
Qed.

Lemma honest_world E L d x : connected x = connected (world d) -> honest E L d -> honest E L (mkDesk (app d) x (sent d)).
Proof. intros Hx [Ho Hs Hr Hl]. constructor; [|done..]. simpl. congruence. Qed.

(** The row is pushed before its command is sent; the channel takes the command. *)
Lemma kept_send_compose E L u : kept E L (send_compose u).
Proof.
  intros d r d' Hd. unfold send_compose. rewrite (mbind_ok get_app _ d (app d) d) by done.
  destruct (is_group_thread (store (app d)) u).
  { apply kept_upd; [|exact Hd]. done. }
  set (body := compose_buffer (app d)). set (d1 := mkDesk (set_compose_buffer "" (app d)) (world d) (sent d)).
  rewrite (mbind_ok (upd (set_compose_buffer "")) _ d tt d1) by done.
  assert (Hnow : exists now x, unix_now_ms d1 = (Ok now, mkDesk (app d1) x (sent d1)) /\ connected x = connected (world d1)).
  { unfold unix_now_ms, mbind, io. pose proof (lift_connected since_epoch_ms (world d1)) as Hl.
    change (since_epoch_ms (world d1)) with (lift since_epoch_ms (world d1)).
    destruct (lift since_epoch_ms (world d1)) as [t x]. by do 2 eexists. }
  destruct Hnow as (ts & x & Hnow & Hx). rewrite (mbind_ok _ _ _ _ _ Hnow).
  destruct Hd as [Ho Hs Hr Hl]. simpl in Hx. unfold upd_or_panic, mbind, push_outgoing_pending. simpl.
  destruct (evict_if_full (store (app d))) as [s|] eqn:He; simpl.
  2:{ intros [= _ <-]. constructor; simpl; [congruence|exact Hs|exact Hr|exact Hl]. }
  rewrite Hx, Ho. intros [= _ <-]. constructor; simpl; [congruence| | |by apply prefix_app_r].
  - apply Forall_app. split; [done|]. by constructor.
  - eapply evict_rows in He; [|exact Hr]. unfold rows_ok. simpl. apply Forall_app. split.
    + eapply Forall_impl; [exact He|]. intros m. apply row_ok_mono; [done|]. by apply list_subseteq_app_l.
    + constructor; [|constructor]. split; [|done]. apply elem_of_app. right. by left.
Qed.
End honest.

Create HintDb history_db.
#[export] Hint Resolve kept_mok kept_get kept_ask kept_io kept_io_ kept_send_compose : history_db.
#[export] Hint Extern 1 (kept _ _ (upd _)) => (apply kept_upd; reflexivity) : history_db.
#[export] Hint Extern 1 (kept _ _ (send_blocking _)) => (apply kept_send; reflexivity) : history_db.
#[export] Hint Extern 1 (kept _ _ (io _)) => apply kept_io : history_db.
#[export] Hint Extern 1 (kept _ _ (io_ _)) => apply kept_io_ : history_db.

Ltac keep :=
  repeat first
    [ progress intros
    | solve [eauto with history_db]
    | match goal with
      | |- kept _ _ (mbind _ _) => apply kept_bind
      | |- kept _ _ (match ?x with _ => _ end) => destruct x
      | |- kept _ _ (let '(_, _) := ?x in _) => destruct x
      end
    | progress cbv beta zeta ].

Section handlers.
Context {Uuid X : Type} `{!UuidCrate Uuid} `{Countable Uuid} `{HashOrder} `{!Ui X} `{!UnicodeTables}.
Abbreviation handler := (M (Desk Uuid (Wired X)) Panic).
Implicit Types (E : list (Event Uuid)) (L : list Cmd) (d : Desk Uuid (Wired X)) (u : Uuid).

(** ** Every handler is honest *)
Lemma kept_now E L : kept (Uuid := Uuid) (X := X) E L unix_now_ms.
Proof. unfold unix_now_ms. keep. Qed.
#[local] Hint Resolve kept_now : history_db.
Lemma kept_render_ok E L : kept (Uuid := Uuid) (X := X) E L render_ok.
Proof. unfold render_ok, render. keep. Qed.
Lemma kept_notify E L t q : kept (Uuid := Uuid) (X := X) E L (notify_if_modals t q).
Proof. unfold notify_if_modals. keep. Qed.
Lemma kept_check_internet E L : kept (Uuid := Uuid) (X := X) E L check_internet.
Proof. unfold check_internet. keep. Qed.
Lemma kept_device_name E L : kept (Uuid := Uuid) (X := X) E L next_attempt_device_name.
Proof. unfold next_attempt_device_name. keep. Qed.
#[local] Hint Resolve kept_render_ok kept_notify kept_check_internet kept_device_name : history_db.
Lemma kept_drive_link E L : kept (Uuid := Uuid) (X := X) E L drive_link.
Proof. unfold drive_link. keep. Qed.
Lemma kept_drive_wipe E L : kept (Uuid := Uuid) (X := X) E L drive_wipe_settings.
Proof. unfold drive_wipe_settings. keep. Qed.
Lemma kept_drive_logout E L : kept (Uuid := Uuid) (X := X) E L drive_logout.
Proof. unfold drive_logout. keep. Qed.
Lemma kept_drive_new_chat E L : kept (Uuid := Uuid) (X := X) E L drive_new_chat.
Proof. unfold drive_new_chat. keep. Qed.
Lemma kept_query E L : kept (Uuid := Uuid) (X := X) E L query_account.
Proof. unfold query_account. keep. Qed.
#[local] Hint Resolve kept_drive_link kept_drive_wipe kept_drive_logout kept_drive_new_chat kept_query : history_db.

Lemma move_cursor_rows E L delta : kept (Uuid := Uuid) (X := X) E L (upd_or_panic (move_cursor delta)).
Proof.
  apply kept_upd_or_panic. intros cs a a' Ha Hr. unfold rows_ok.
  assert (Hm : messages (store a') = messages (store a)); [|by rewrite Hm].
  unfold move_cursor in Ha. case_bool_decide; [by injection Ha as <-|]. by destruct (_ !! _); simplify_eq/=.
Qed.
Lemma settings_move_rows E L delta : kept (Uuid := Uuid) (X := X) E L (upd_or_panic (settings_move delta)).
Proof.
  apply kept_upd_or_panic. intros cs a a' Ha Hr. unfold rows_ok.
  assert (Hm : messages (store a') = messages (store a)); [|by rewrite Hm].
  unfold settings_move in Ha. by destruct (_ !! _); simplify_eq/=.
Qed.
#[local] Hint Resolve move_cursor_rows settings_move_rows : history_db.

Lemma kept_open_thread E L u :
  kept (X := X) E L (upd (fun a => set_screen (Thread u) (set_store (mark_thread_read u (store a)) a))).
Proof.
  apply (kept_map E L _ (fun m => if bool_decide (tm_uuid m = u) && negb (tm_read m) then with_read m else m)).
  - intros cs m Hm. by case_match.
  - intros a. cbn [store set_screen set_store]. unfold mark_thread_read. cbv zeta. by case_match.
Qed.
#[local] Hint Resolve kept_open_thread : history_db.

Lemma kept_key E L k : kept (Uuid := Uuid) (X := X) E L (handle_key k).
Proof.
  unfold handle_key, menu_key, about_key, linked_key, preflight_home, no_internet_key, linking_key, home_key, sync_contacts,
    thread_key, settings_key, when, on_profile_key, help_key, open_settings.
  keep.
Qed.
#[local] Hint Resolve kept_key : history_db.

Lemma resolve_rows E cs u name (s : MessageStore Uuid) :
  Forall (row_ok E cs) (messages s) -> Forall (row_ok E cs) (messages (resolve_author_labels u name s).2).
Proof.
  intros Hr. unfold resolve_author_labels. cbv zeta. cbn [snd].
  assert (Hm : Forall (row_ok E cs) ((fun m => if bool_decide (tm_uuid m = u) && looks_like_raw_uuid (tm_author_label m)
    then with_label name m else m) <$> messages s)).
  { apply Forall_fmap. eapply Forall_impl; [exact Hr|]. intros m Hm. simpl. by case_match. }
  by destruct (existsb _ (messages s)).
Qed.

Lemma kept_contact E L u name : kept (X := X) E L (on_contact_resolved u name).
Proof.
  intros d r d' Hd. unfold on_contact_resolved. rewrite (mbind_ok get_app _ d (app d) d) by done.
  pose proof (resolve_rows E (sent d) u name (store (app d)) (h_rows _ _ _ Hd)) as Hr.
  destruct (resolve_author_labels u name (store (app d))) as [touched s]. cbn [snd] in Hr.
  set (d1 := mkDesk (set_store s (app d)) (world d) (sent d)).
  rewrite (mbind_ok (upd (set_store s)) _ d tt d1) by done.
  assert (Hd1 : honest E L d1) by (destruct Hd; by constructor).
  assert (Hk : kept E L (if touched then match screen (app d) with Home | Thread _ => render_ok | _ => mok tt end else mok tt))
    by keep.
  by apply Hk.
Qed.

Lemma kept_lookup E L u name :
  kept (X := X) E L (upd (fun a => set_store (snd (resolve_author_labels u name (store a))) (set_lookup false None a))).
Proof. apply kept_upd_rows. intros cs a Ha. by apply resolve_rows. Qed.
#[local] Hint Resolve kept_contact kept_lookup : history_db.
#[local] Hint Extern 2 (kept _ _ (upd _)) => (apply kept_cleared; reflexivity) : history_db.

Lemma kept_message E L sender ph nm body ts g :
  Message sender ph nm body ts g ∈ E -> kept (X := X) E L (on_message sender ph nm body ts g).
Proof.
  intros Hin. unfold on_message. destruct g as [key|]; (apply kept_bind; [|keep]); apply kept_push_incoming;
    by exists sender, ph, nm; eexists.
Qed.
#[local] Hint Resolve kept_message : history_db.

Lemma kept_event E L (e : Event Uuid) : e ∈ E -> kept (X := X) E L (handle_worker_event e).
Proof.
  intros He. destruct e as [| | | | | |[info|]| | | |ts|reason ts| | | | | | | |]; cbn [handle_worker_event];
    unfold when, on_link_complete, on_link_error, on_account_info, reset_with,
      handle_username_resolve_result; try solve [keep].
  - by apply (kept_status E L ts Delivered).
  - unfold on_send_error. destruct ts as [ts|]; [|keep].
    apply (kept_status E L ts Failed); [by exists reason|done].
Qed.

(** ** A turn of the main loop *)
Lemma kept_events E L (es : list (Event Uuid)) : es ⊆ E -> kept (X := X) E L (mfor es handle_worker_event ;* render_ok).
Proof.
  intros Hes. apply kept_bind; [|intros _; apply kept_render_ok].
  apply kept_mfor. intros e He. by apply kept_event, Hes.
Qed.

(** What the turn takes out of the deque. *)
Definition drained (msg : GamMessage) (pending : list (Event Uuid)) : list (Event Uuid) :=
  match xas_op (g_id msg) with Some OpWorkerEvent => pending | _ => [] end.

Lemma serve_drained msg (pending : list (Event Uuid)) :
  drained msg pending ++ (serve (X := Wired X) msg pending).2 = pending.
Proof.
  unfold drained, serve. destruct (g_args msg) as [[[k1 k2] k3] k4].
  destruct (xas_op (g_id msg)) as [[]|]; try done. by rewrite app_nil_r.
Qed.

Lemma kept_serve E L msg (pending : list (Event Uuid)) :
  kept (X := X) (E ++ drained msg pending) L (fst (serve msg pending)).
Proof.
  unfold drained, serve. destruct (g_args msg) as [[[k1 k2] k3] k4].
  destruct (xas_op (g_id msg)) as [[]|]; cbn [fst].
  - apply kept_render_ok.
  - unfold handle_keys. apply kept_bind; [|intros _; apply kept_render_ok]. apply kept_mfor. intros k _. apply kept_key.
  - unfold on_focus_change, when. keep.
  - apply kept_events. by apply list_subseteq_app_r.
  - apply kept_mok.
Qed.
End handlers.
