(* ===== verification/AppConcrete.v ===== *)
(** * The app at concrete inputs

    Instances of the app's parameters (UUIDs as 128-bit numbers, a scripted
    outside world), the witnesses of the app's theorems, and behaviours in which
    the code and its comments disagree. *)
From Stdlib Require Import Ascii Strings.String.
From S2P Require Import Prelude Codec Utf8 Text Worker Dialogue MessageStore Screens AppLoop AppSpec.

(** ** Instances *)
Definition uuid_hyphenate (h : string) : string :=
  String.substring 0 8 h +:+ "-" +:+ String.substring 8 4 h +:+ "-" +:+ String.substring 12 4 h +:+ "-"
  +:+ String.substring 16 4 h +:+ "-" +:+ String.substring 20 12 h.

Definition number_uuids : UuidCrate N := {|
  uuid_simple u := hex_fixed 32 u;
  uuid_to_string u := uuid_hyphenate (hex_fixed 32 u);
  uuid_parse_str s :=
    if looks_like_raw_uuid s
    then from_str_radix (2 ^ 128) 16 (String.string_of_list_ascii
           (List.filter (fun c => negb (bool_decide (c = "-"%char))) (String.list_ascii_of_string s)))
    else None;
  uuid_nil := 0%N;
  uuid_new_v5_oid key := (2 ^ 64 + N.of_nat (length key))%N;
  uuid_from_u128 n := n
|}.

(** A scripted world: the answers the modals give, whether the channel is open,
    a clock, whether mock messages are asked for, and what was shown. *)
Record Script : Type := mkScript {
  answers : list (result string string);
  channel_open : bool;
  clock_ms : N;
  wlan : result WlanStatus string;
  mock : bool;
  frames : list string;
  notes : list string
}.
Definition online : WlanStatus := mkWlan true "Connected" (10, 0, 0, 2)%N.
Definition quiet : Script := mkScript [] true 1700000000000 (Ok online) false [] [].

Definition scripted : Ui Script := {|
  modals_new x := (Ok tt, x);
  alert_build _ _ x :=
    match answers x with
    | [] => (Err "Cancelled", x)
    | r :: rs => (r, mkScript rs (channel_open x) (clock_ms x) (wlan x) (mock x) (frames x) (notes x))
    end;
  show_notification t _ x :=
    mkScript (answers x) (channel_open x) (clock_ms x) (wlan x) (mock x) (frames x) (notes x ++ [t]);
  channel_send _ x := (if channel_open x then Ok tt else Err "Closed", x);
  since_epoch_ms x := (Some (clock_ms x), x);
  vibe x := x;
  draw_rectangle x := (Ok tt, x);
  post_textview _ t x :=
    (Ok tt, mkScript (answers x) (channel_open x) (clock_ms x) (wlan x) (mock x) (frames x ++ [t]) (notes x));
  gam_redraw x := (Ok tt, x);
  env_bypass_preflight _ := false;
  env_mock_messages x := if mock x then Some "1" else None;
  env_home _ := None;
  read_attempts _ _ := None;
  write_attempts _ _ x := x;
  com_new x := (true, x);
  wlan_status x := (wlan x, x);
  is_foreground n := (n =? 1)%N;
  cargo_pkg_version := "0.1.0"
|}.
Definition no_wide : UnicodeTables := fun _ => false.

#[local] Existing Instances canonical_order number_uuids scripted no_wide.
Abbreviation ADesk := (Desk N Script).

(** ** Witnesses *)
Definition alice : N := 0x0123456789abcdef0011223344556677.
Definition bob : N := 0xf0f0f0f0f0f0f0f0f0f0f0f0f0f0f0f0.

Lemma store_refines_log_witness :
  exists s, apply_ops [PushIncoming alice "Alice" "one" 100 false; PushOutgoing bob "two" 200;
                       MarkDelivered 200; PushIncoming alice "Alice" "three" 300 false] (new 2) = Some s /\
    tm_body <$> messages s = ["two"; "three"] /\ tm_status <$> messages s = [Delivered; Sent] /\
    total_unread s = 1%N.
Proof.
  destruct (store_refines_log 2 [PushIncoming alice "Alice" "one" 100%N false; PushOutgoing bob "two" 200%N;
    MarkDelivered 200%N; PushIncoming alice "Alice" "three" 300%N false] ltac:(lia) ltac:(unfold u32_max; lia))
    as (s & Hrun & Hm & _ & _ & Hu).
  exists s. rewrite Hrun, Hm, Hu, Hm. vm_compute. done.
Defined.

Definition draft_app (u : N) (rows : list (ThreadMessage N)) : App N :=
  mkApp (Thread u) ItemLink true (rebuild (mkStore rows [] 5)) 0 "hi" "" false SetProfile
    (Some "xas0") (Some "aci") (Some "+15550100") false false None.
Definition draft_desk (u : N) (rows : list (ThreadMessage N)) : ADesk := mkDesk (draft_app u rows) quiet [].
Definition from_alice : ThreadMessage N := mkMsg alice "Alice" "hello" 100 false Sent true false.

Lemma draft_app_wf u rows : length rows <= 5 -> app_wf 5 (draft_app u rows).
Proof.
  intros Hl. split_and!; simpl; [lia|lia|done|done|]. exists [104; 105]%N. split; [reflexivity|].
  repeat constructor.
Qed.

Lemma messages_only_from_compose_witness :
  app_wf 5 (app (draft_desk alice [from_alice])) /\
  sent (snd (handle_key key_return (draft_desk alice [from_alice]))) =
    [SendMessage (uuid_to_string alice) "hi" 1700000000000] /\
  exists u ts ms,
    screen (app (draft_desk alice [from_alice])) = Thread u /\
    messages (store (app (snd (handle_key key_return (draft_desk alice [from_alice]))))) =
      ms ++ [mkMsg u "You" "hi" ts true Pending true false].
Proof.
  assert (Hwf : app_wf 5 (app (draft_desk alice [from_alice]))) by (apply draft_app_wf; simpl; lia).
  split; [exact Hwf|]. split; [vm_compute; reflexivity|].
  destruct (messages_only_from_compose 5 (draft_desk alice [from_alice]) Hwf) as (Hkey & _ & _).
  destruct (handle_key key_return (draft_desk alice [from_alice])) as [r d'] eqn:Hk.
  destruct (Hkey key_return r d' Hk) as [(cs & Hs & Hcs)|(u & ts & ms & _ & Hu & _ & _ & _ & _ & Hm)].
  - exfalso. assert (Hsent : sent d' = [SendMessage (uuid_to_string alice) "hi" 1700000000000]).
    { replace d' with (snd (handle_key key_return (draft_desk alice [from_alice]))) by (by rewrite Hk).
      vm_compute. reflexivity. }
    rewrite Hsent in Hs. simpl in Hs. subst cs. discriminate Hcs.
  - exists u, ts, ms. split; [exact Hu|exact Hm].
Defined.

Lemma end_of_link_forgets_witness :
  handle_worker_event LoggedOut (draft_desk alice [from_alice]) =
    handle_worker_event LoggedOut (draft_desk bob []) /\
  app (snd (handle_worker_event LoggedOut (draft_desk alice [from_alice]))) = initial_app.
Proof.
  destruct (end_of_link_forgets (Uuid:=N) (X:=Script) LoggedOut eq_refl) as [banner Hb].
  destruct (Hb (draft_desk alice [from_alice])) as [(x & H1 & H2) H3].
  specialize (H2 (draft_desk bob []) eq_refl eq_refl eq_refl eq_refl). split; [rewrite H1, H2; reflexivity|].
  specialize (H3 eq_refl eq_refl eq_refl). rewrite H1. cbn [snd app]. rewrite H3.
  apply (f_equal (fun o => last_status (app (snd o)))) in H1. vm_compute in H1. rewrite <- H1. reflexivity.
Defined.

(** ** Where the code and its comments part *)
Definition pressed (keys : list N) (d : ADesk) : ADesk := snd (handle_keys keys d).
Definition told (e : Event N) (d : ADesk) : ADesk := snd (handle_worker_event e d).
Definition fresh : ADesk := mkDesk initial_app quiet [].

(** Help opened from the pre-link menu comes back to the post-link home screen,
    and from there to Settings, on a device that is not linked. *)
Lemma help_leaves_prelink_menu :
  screen (app (pressed [key_down; key_down; key_return; key_return] fresh)) = Home /\
  linked (app (pressed [key_down; key_down; key_return; key_return] fresh)) = false.
Proof. split; vm_compute; reflexivity. Qed.

(** The wipe screen is left by other events than [LoggedOut]: an account reply
    that was under way puts the app on its home screen, and linked. *)
Lemma wiping_left_by_account_info :
  let d := mkDesk (set_screen Wiping (app fresh)) quiet [Logout] in
  screen (app (told (AccountInfo (Ok (mkAccountInfo "xas0" "aci" "+15550100"))) d)) = Home /\
  linked (app (told (AccountInfo (Ok (mkAccountInfo "xas0" "aci" "+15550100"))) d)) = true.
Proof. split; vm_compute; reflexivity. Qed.

(** An account query under way when the authentication expires is not dropped with
    the rest: the unlinked menu goes on saying that the account is loading, and the
    answer, when it comes, links the app again. *)
Lemma account_query_survives_reset :
  let d := told (SignalAuthExpired "403") (mkDesk (set_account_query_pending true (draft_app alice [from_alice])) quiet []) in
  screen (app d) = Menu /\ linked (app d) = false /\ identity_line (app d) = "(loading linked account…)" /\
  linked (app (told (AccountInfo (Ok (mkAccountInfo "xas0" "aci" "+15550100"))) d)) = true.
Proof. split_and!; vm_compute; reflexivity. Qed.

(** A refused link leaves the menu's cursor where it was. *)
Lemma stale_store_leaves_cursor :
  screen (app (told StaleStoreDetected fresh)) = Menu /\ selected (app (told StaleStoreDetected fresh)) = selected (app fresh).
Proof. split; vm_compute; reflexivity. Qed.

(** A [LinkComplete] that arrives after the link was cancelled is not dropped. *)
Lemma late_link_complete_links name aci phone (d : ADesk) :
  linking_in_progress (app d) = false ->
  linked (app (told (LinkComplete name aci phone) d)) = true /\
  screen (app (told (LinkComplete name aci phone) d)) = Linked Success.
Proof.
  intros _. unfold told. cbn [handle_worker_event]. unfold on_link_complete, mbind, upd, send_blocking.
  cbn [world app sent]. destruct (channel_send StartReceive (world d)) as [r x]. done.
Qed.

(** A username found after the user has moved on still opens its conversation:
    leaving the screen does not clear the flag that is to drop stale answers. *)
Lemma late_username_opens_thread (d : ADesk) u :
  username_lookup_in_progress (app d) = true ->
  screen (app (told (UsernameResolveResult (Ok (Some u))) d)) = Thread u.
Proof.
  intros Hl. unfold told. cbn [handle_worker_event]. unfold handle_username_resolve_result.
  rewrite (mbind_ok get_app _ d (app d) d) by done. rewrite Hl. cbn [negb].
  unfold mbind, upd. destruct (username_lookup_pending (app d)); unfold mok; rewrite render_ok_spec; done.
Qed.

(** Esc in a conversation does nothing, though the screen says it goes back. *)
Lemma esc_in_thread_ignored (d : ADesk) u :
  screen (app d) = Thread u -> handle_key key_esc d = (Ok tt, d).
Proof.
  intros Hs. unfold handle_key. cbn [N.eqb key_esc key_null]. rewrite (mbind_ok get_app _ d (app d) d) by done.
  rewrite Hs. unfold thread_key. by rewrite (mbind_ok get_app _ d (app d) d) by done.
Qed.

(** The pre-link menu says [(unlinked)] before any lookup has been made. *)
Lemma unlinked_claimed_before_lookup : identity_line (app fresh) = "(unlinked)".
Proof. reflexivity. Qed.

(** Accented letters pass the filter of the draft, which says it drops them. *)
Lemma accented_letter_accepted : is_compose_char 233 = true.
Proof. reflexivity. Qed.

Definition group_row : ThreadMessage N := mkMsg (uuid_new_v5_oid [Byte.x42]) "Bob" "party" 50 false Sent true true.
Definition group_desk : ADesk := draft_desk (uuid_new_v5_oid [Byte.x42]) [group_row].
Definition five_messages : list (Event N) :=
  (fun t => Message (uuid_to_string alice) None (Some "Alice") "hi" t None) <$> [100; 101; 102; 103; 104]%N.

(** The reply-block of a group conversation is as old as its last tagged row:
    five other messages evict it, and the draft then goes out as a message to the
    pseudo-contact that stands for the group. *)
Lemma group_gate_lost_on_eviction :
  sent (pressed [key_return] group_desk) = [] /\
  sent (pressed [key_return] (foldl (fun d e => told e d) group_desk five_messages)) =
    [SendMessage (uuid_to_string (uuid_new_v5_oid [Byte.x42])) "hi" 1700000000000].
Proof. split; vm_compute; reflexivity. Qed.

Definition five_contacts : list (ThreadMessage N) :=
  (fun n => mkMsg n "C" "m" n false Sent false false) <$> [1; 2; 3; 4; 5]%N.
Definition shrunk : ADesk :=
  told (Message (uuid_to_string 5%N) None None "again" 9%N None)
    (mkDesk (set_home_focus 4 (set_screen Home (draft_app 1 five_contacts))) quiet []).

(** When an eviction shortens the conversation list under the cursor, the marker
    is drawn on the last row, but Enter opens nothing: only the drawing clamps. *)
Lemma marker_without_conversation :
  length (dialogues (store (app shrunk))) = 4 /\ shown_focus (app shrunk) = 3 /\
  screen (app (pressed [key_return] shrunk)) = Home.
Proof. split_and!; vm_compute; reflexivity. Qed.

(** Resolving a username for a contact without messages labels nothing. *)
Lemma resolve_fresh_contact_noop u name (s : MessageStore N) :
  conversation u (messages s) = [] -> fst (resolve_author_labels u name s) = false.
Proof.
  intros Hc%conversation_nil. cbn [resolve_author_labels fst]. apply not_true_is_false.
  intros (m & Hm & [Hu _]%andb_true_iff)%existsb_exists. apply bool_decide_eq_true in Hu. apply Hc.
  apply list_elem_of_fmap. exists m. split; [done|]. by apply list_elem_of_In.
Qed.
