(* ===== verification/Connection.v ===== *)
(** * Connections ([PddbClient::new] and [drop] of [xous-pddb-ipc/src/client.rs],
    [PddbBackend::connect], [PddbStore::with_pddb_backend], the set-up part of [run]
    in [gam_app.rs])

    What the program asks of the kernel and of the name server before it does
    anything else. Both are parameters: calls that succeed or fail, an error being its
    [{:?}] text, with the connections that the process holds as what the laws speak
    of. *)
From S2P Require Import Prelude Codec Utf8 Text Kv Buffering Wire PddbClient Startup Protocol Sessions Contents Batch Worker.
From S2P Require Import Dialogue MessageStore Screens AppLoop.

(** ** The PDDB's two connections *)
Class NameServer (K : Type) : Type := {
  names_new : M K string unit;
  request_connection : string -> M K string N;
  disconnect : N -> M K string unit
}.

(** [conns]: what the process holds, once for each time it asked. *)
Class NameServerLaws (K : Type) `{!NameServer K} : Type := {
  conns : K -> list N;
  names_new_conns k r k' : names_new k = (r, k') -> conns k' = conns k;
  request_ok name k cid k' : request_connection name k = (Ok cid, k') -> conns k' ≡ₚ cid :: conns k;
  request_err name k e k' : request_connection name k = (Err e, k') -> conns k' = conns k;
  disconnect_held cid k k' r l : disconnect cid k = (r, k') -> conns k ≡ₚ cid :: l -> conns k' ≡ₚ l
}.

Record PddbConns : Type := mkConns { main_conn : N; poller_conn : N }.

Section pddb.
Context {K : Type} `{!NameServer K}.

Definition client_new : M K IpcError PddbConns :=
  mmap_err (fun e => ipc_error Ipc ("XousNames::new failed: " +:+ e)) names_new ;*
  let* m := mmap_err (fun e => ipc_error Ipc ("connect to PDDB main server: " +:+ e)) (request_connection SERVER_NAME_PDDB) in
  let* p := mmap_err (fun e => ipc_error Ipc ("connect to PDDB mount poller: " +:+ e))
    (request_connection SERVER_NAME_PDDB_POLLER) in
  mok (mkConns m p).

(** [drop]: the two results are not looked at. *)
Definition client_drop (c : PddbConns) (k : K) : K := (disconnect (poller_conn c) (disconnect (main_conn c) k).2).2.

(** The backend over the server that the connections lead to. *)
Definition backend_connect {Sv} (sv : Sv) : M K Error (PddbBackend Sv) :=
  mmap_err (fun e => Backend ("PDDB connect: " +:+ ipc_error_to_string e))
    (let* _ := client_new in mok (mkPddbBackend sv false)).

Definition with_pddb_backend {Sv Rec} `{HashOrder} (sv : Sv) :
    M K Error (PddbStore (StoreBackend (PddbBackend Sv)) Rec) :=
  let* backend := backend_connect sv in mok (store_new (Buffered (buffering_new backend)) Trust).

Context `{!NameServerLaws K}.

(** The ways to connect: two connections more; none; or, when the poller is
    refused, one that nothing will ever release. *)
Lemma client_new_conns k r k' :
  client_new k = (r, k') ->
  match r with
  | Ok c => conns k' ≡ₚ poller_conn c :: main_conn c :: conns k
  | Err e => kind e = Ipc /\ (conns k' = conns k \/
      (exists m, conns k' ≡ₚ m :: conns k) /\ exists d, ipc_msg e = "connect to PDDB mount poller: " +:+ d)
  end.
Proof.
  unfold client_new, mbind, mmap_err, mok. destruct (names_new k) as [[[]|e] k1] eqn:H1; simpl.
  2: { intros [= <- <-]. split; [done|]. left. by eapply names_new_conns. }
  apply names_new_conns in H1. destruct (request_connection SERVER_NAME_PDDB k1) as [[m|e] k2] eqn:H2; simpl.
  2: { intros [= <- <-]. split; [done|]. left. apply request_err in H2. congruence. }
  apply request_ok in H2. rewrite H1 in H2.
  destruct (request_connection SERVER_NAME_PDDB_POLLER k2) as [[p|e] k3] eqn:H3; simpl; intros [= <- <-].
  - apply request_ok in H3. simpl. by rewrite H3, H2.
  - apply request_err in H3. split; [done|]. right. split; [exists m; by rewrite H3|]. by exists e.
Qed.

(** A client that was made and dropped leaves the process as it was. *)
Lemma client_drop_conns c k l : conns k ≡ₚ poller_conn c :: main_conn c :: l -> conns (client_drop c k) ≡ₚ l.
Proof.
  intros Hk. unfold client_drop. destruct (disconnect (main_conn c) k) as [r1 k1] eqn:H1. cbn [snd].
  destruct (disconnect (poller_conn c) k1) as [r2 k2] eqn:H2. cbn [snd].
  eapply disconnect_held; [exact H2|]. eapply disconnect_held; [exact H1|]. rewrite Hk. apply Permutation_swap.
Qed.

(** The store of [main] is the real one exactly when both connections were made. *)
Lemma build_store_connects {Sv} `{HashOrder} (sv : Sv) k r k' :
  client_new k = (r, k') ->
  build_store true (backend_connect sv k).1 =
  match r with Ok _ => RealStore (buffering_new (mkPddbBackend sv false)) | Err _ => MockStore mock_new end.
Proof. intros Hc. unfold backend_connect, mbind, mmap_err. rewrite Hc. by destruct r. Qed.
End pddb.

(** ** The app at the graphics server ([run], up to its loop) *)
Definition SERVER_NAME_XAS : string := "_xas_".

Definition xas_id (o : XasOp) : N :=
  match o with OpRedraw => 0 | OpRawkeys => 1 | OpFocusChange => 2 | OpWorkerEvent => 3 end%N.

Record UxRegistration : Type := mkUx {
  app_name : string;
  ux_type : N;
  predictor : option string;
  listener : N;
  redraw_id : N;
  gotinput_id : option N;
  audioframe_id : option N;
  rawkeys_id : option N;
  focuschange_id : option N
}.

(** The first two are constants of the crate [gam]; [register_ux] may answer without a
    token. *)
Class GraphicsServer (X : Type) : Type := {
  APP_NAME_XAS : string;
  ux_chat : N;
  gam_names : M X string unit;
  register_name : string -> M X string N;
  gam_new : M X string unit;
  register_ux : UxRegistration -> M X string (option N);
  request_content_canvas : N -> M X string N;
  get_canvas_bounds : N -> M X string N;
  allow_mainmenu : M X string unit;
  self_connect : N -> M X string N;
  spawn_forwarder : N -> M X string unit
}.

Section gam.
Context {X : Type} `{!GraphicsServer X}.

Definition registration (sid : N) : UxRegistration :=
  mkUx APP_NAME_XAS ux_chat None sid (xas_id OpRedraw) None None (Some (xas_id OpRawkeys)) (Some (xas_id OpFocusChange)).
Definition failing {A} (call : string) (m : M X string A) : M X string A := mmap_err (fun e => call +:+ e) m.

(** The server of the app, its canvas and bounds. *)
Definition run_setup : M X string (N * N * N) :=
  failing "XousNames::new: " gam_names ;*
  let* sid := failing "register_name: " (register_name SERVER_NAME_XAS) in
  failing "Gam::new: " gam_new ;*
  let* answer := failing "register_ux: " (register_ux (registration sid)) in
  let* token := mlift (match answer with Some t => Ok t | None => Err "register_ux returned None token" end) in
  let* content := failing "canvas: " (request_content_canvas token) in
  let* bounds := failing "bounds: " (get_canvas_bounds content) in
  let* _ := mtry allow_mainmenu in
  let* self := failing "self-connect: " (self_connect sid) in
  failing "spawn forwarder: " (spawn_forwarder self) ;*
  failing "XousNames for modals: " gam_names ;*
  mok (sid, content, bounds).

(** The ids that the graphics server and the forwarder are given are those the loop
    reads back. *)
Lemma xas_op_id o : xas_op (xas_id o) = Some o.
Proof. by destruct o. Qed.
Lemma xas_id_op n o : xas_op n = Some o -> n = xas_id o.
Proof. unfold xas_op. destruct n as [|[[]|[]|]]; by intros [= <-]. Qed.

Lemma registration_read_back sid :
  xas_op (redraw_id (registration sid)) = Some OpRedraw /\
  (rawkeys_id (registration sid) ≫= xas_op) = Some OpRawkeys /\
  (focuschange_id (registration sid) ≫= xas_op) = Some OpFocusChange /\
  xas_op (g_id wake) = Some OpWorkerEvent.
Proof. done. Qed.

(** No loop without a forwarder: the set-up succeeds only after the forwarder was
    started on a connection to the app's own server. *)
Lemma run_setup_forwards x sid content bounds x' :
  run_setup x = (Ok (sid, content, bounds), x') ->
  exists self x1 x2 x3, self_connect sid x1 = (Ok self, x2) /\ spawn_forwarder self x2 = (Ok tt, x3).
Proof.
  assert (Hf : forall (A : Type) call (m : M X string A) y a y', failing call m y = (Ok a, y') -> m y = (Ok a, y')).
  { intros A call m y a y'. unfold failing, mmap_err. destruct (m y) as [[]]; simpl; [by intros [= -> ->]|done]. }
  unfold run_setup. intros H.
  repeat (apply mbind_inv_ok in H as (? & ? & ? & H)).
  revert H. unfold mok. intros [= -> -> -> ->].
  repeat match goal with Hc : failing _ _ _ = (Ok _, _) |- _ => apply Hf in Hc end.
  repeat match goal with Hc : spawn_forwarder _ _ = (Ok ?u, _) |- _ => is_var u; destruct u end.
  eauto 10.
Qed.
End gam.

(** ** A refused poller *)
From S2P Require Import Concrete.

Fixpoint remove_first (cid : N) (l : list N) : list N :=
  match l with [] => [] | x :: l' => if bool_decide (x = cid) then l' else x :: remove_first cid l' end.

Lemma remove_first_perm cid l l' : l ≡ₚ cid :: l' -> remove_first cid l ≡ₚ l'.
Proof.
  intros Hl. apply (Permutation_cons_inv (a := cid)). rewrite <- Hl.
  assert (Hin : cid ∈ l) by (rewrite Hl; by left). clear Hl.
  induction l as [|x l IH]; [by apply not_elem_of_nil in Hin|]. simpl.
  case_bool_decide as Hx; [by subst|]. apply elem_of_cons in Hin as [->|Hin]; [done|].
  rewrite Permutation_swap. by rewrite (IH Hin).
Qed.

(** The connections held, and whether the poller takes new ones. *)
#[local] Instance listed_names : NameServer (list N * bool) := {|
  names_new := mok tt;
  request_connection name k :=
    if bool_decide (name = SERVER_NAME_PDDB_POLLER) && negb k.2 then (Err "ServerNotFound", k)
    else (Ok (N.of_nat (slen name)), (N.of_nat (slen name) :: k.1, k.2));
  disconnect cid k := (Ok tt, (remove_first cid k.1, k.2))
|}.
#[local] Program Instance listed_laws : NameServerLaws (list N * bool) := {| conns k := k.1 |}.
Next Obligation. by intros k r k' [= _ <-]. Qed.
Next Obligation. intros name k cid k'. simpl. destruct (_ && _); [done|]. by intros [= <- <-]. Qed.
Next Obligation. intros name k e k'. simpl. destruct (_ && _); [by intros [= _ <-]|done]. Qed.
Next Obligation. intros cid k k' r l [= _ <-]. apply remove_first_perm. Qed.

(** A client that cannot reach the poller keeps its connection to the main server: no
    [PddbClient] was built, so nothing is dropped. *)
Lemma refused_poller_leaks :
  (exists k, client_new ([], false) = (Err (ipc_error Ipc "connect to PDDB mount poller: ServerNotFound"), k) /\
     length (conns k) = 1) /\
  exists c k, client_new ([], true) = (Ok c, k) /\ length (conns k) = 2 /\ conns (client_drop c k) = [].
Proof. split; [|eexists]; eexists; vm_compute; repeat split. Qed.
