(* ===== verification/Client.v ===== *)
(** * The client as a whole ([main.rs], [gam_app.rs] and the worker together)

    The app's process and the worker, joined by the two channels of sixteen slots
    that [main] makes. A turn is a message of the graphics server, one message
    served by the app's main thread, one event passed on by the forwarder thread,
    one command handled by the dispatcher, one turn of a link in flight, or one wake-up
    of a manager task.

    A thread that would wait in the middle of its turn for room in a channel is
    taken to have finished it: what it still has to push is the end of the queue
    beyond the sixteen slots, and it has no further turn until the queue is back
    within them. *)
From S2P Require Import Prelude Codec Utf8 Text Kv Buffering Protocol Sessions Contents Store Batch Worker Send.
From S2P Require Import Startup Receive Dispatcher ManagerTask System Provenance Linking.
From S2P Require Import Dialogue MessageStore Screens AppLoop AppSpec AppHistory.

(** [c_taken]: how many of the app's commands the worker has received.
    [c_link]: the link in flight, during which the dispatcher does nothing else.
    [c_relayed]: how many of the worker's events the forwarder has passed on.
    [c_handled]: those the main loop has handled, in order. *)
Record Client (P Mgr Uuid X : Type) : Type := mkClient {
  c_app : Process (Uuid := Uuid) (X := Wired X);
  c_worker : System P Mgr Uuid;
  c_link : option (LinkRace Mgr);
  c_taken : nat;
  c_relayed : nat;
  c_handled : list (Event Uuid)
}.
Arguments mkClient {P Mgr Uuid X}. Arguments c_app {P Mgr Uuid X}. Arguments c_worker {P Mgr Uuid X}.
Arguments c_link {P Mgr Uuid X}. Arguments c_taken {P Mgr Uuid X}. Arguments c_relayed {P Mgr Uuid X}. Arguments c_handled {P Mgr Uuid X}.

Inductive ClientTurn (ServiceId Uuid : Type) : Type :=
| GamSends (msg : GamMessage)
| AppServes
| Relay (delivered : bool)
| WorkerCmd
| WorkerLink (u : LinkTurn)
| WorkerTask (k : nat) (ms : N) (wake : TaskWake ServiceId Uuid).
Arguments GamSends {ServiceId Uuid}. Arguments AppServes {ServiceId Uuid}. Arguments Relay {ServiceId Uuid}.
Arguments WorkerCmd {ServiceId Uuid}. Arguments WorkerLink {ServiceId Uuid}. Arguments WorkerTask {ServiceId Uuid}.

Section client.
Context `{HashOrder} `{SignalMisc} `{!RustDebug}
  {St SessionRecord Mgr ServiceId Uuid Contact X : Type} `{Countable Uuid} `{!KvBackend St}
  `{!WireRecord SessionRecord} `{!Bincode SessionBundle} `{!Json SessionBundle} `{!Json Contact}
  `{!ServiceIdText ServiceId}
  `{!WorkerIds ServiceId Uuid} `{!ContactFields Contact Uuid}
  `{!Presage (PddbStore (StoreBackend St) SessionRecord) Mgr ServiceId Uuid}
  `{!PresageLink (PddbStore (StoreBackend St) SessionRecord) Mgr}
  `{!LinkSteps (PddbStore (StoreBackend St) SessionRecord) Mgr}
  `{!UuidCrate Uuid} `{!Ui X} `{!UnicodeTables}.
Abbreviation P := (PddbStore (StoreBackend St) SessionRecord).
Abbreviation Y := (System P Mgr Uuid).
Abbreviation C := (Client P Mgr Uuid X).
Abbreviation Shared := (World P unit Uuid).
Abbreviation Proc := (Process (Uuid := Uuid) (X := Wired X)).
Implicit Types (c : C) (p : Proc).

(** ** The channels *)
Definition commands c : list Cmd := sent (desk (c_app c)).
Definition events c : list (Event Uuid) := w_events (y_world (c_worker c)).
Definition cmd_room c : bool := length (commands c) <=? c_taken c + CHAN_CAP.
Definition event_room c : bool := length (events c) <=? c_relayed c + CHAN_CAP.
Definition event_slot c : bool := length (events c) <? c_relayed c + CHAN_CAP.

(** The command channel is closed once the worker has left its loop. *)
Definition plug (open : bool) p : Proc :=
  mkProcess (mkDesk (app (desk p)) (mkWired open (outside (world (desk p)))) (sent (desk p)))
    (pending_events p) (mailbox p).

(** ** Turns *)
Definition app_serves c : option C :=
  match mailbox (c_app c) with
  | [] => None
  | msg :: _ =>
      if cmd_room c then
        match app_step Served (plug (y_running (c_worker c)) (c_app c)) with
        | Ok p => Some (mkClient p (c_worker c) (c_link c) (c_taken c) (c_relayed c)
                          (c_handled c ++ drained msg (pending_events (c_app c))))
        | Err _ => None
        end
      else None
  end.

Definition relay (delivered : bool) c : option C :=
  e ← events c !! c_relayed c;
  match app_step (Forwarded e delivered) (c_app c) with
  | Ok p => Some (mkClient p (c_worker c) (c_link c) (c_taken c) (S (c_relayed c)) (c_handled c))
  | Err _ => None
  end.

(** The link a command starts, unless the stale-store guard refuses it. *)
Definition link_started (x : Cmd) (s : Y) : option (LinkRace Mgr * Y) :=
  match x with LinkDevice name => sys_link_start name s | _ => None end.

(** The worker after a turn that took [n] commands. *)
Definition worked (n : nat) (link : option (LinkRace Mgr)) (s : Y) c : C :=
  mkClient (c_app c) s link (c_taken c + n) (c_relayed c) (c_handled c).

(** The next command: the link in flight takes it, or the dispatcher handles it. *)
Definition worker_cmd c : option C :=
  x ← commands c !! c_taken c;
  match c_link c with
  | Some l =>
      '(rest, s) ← sys_link_turn (event_slot c) l (LinkTakes x) (c_worker c);
      Some (worked 1 rest s c)
  | None =>
      if event_room c then
        match link_started x (c_worker c) with
        | Some (l, s) => Some (worked 1 (Some l) s c)
        | None =>
            s ← sys_step (Contact := Contact) (c_worker c) (TurnCmd x [] false);
            Some (worked 1 None s c)
        end
      else None
  end.

(** The link in flight goes on by itself: the app keeps its end of the command
    channel, which therefore stays open. *)
Definition worker_link (u : LinkTurn) c : option C :=
  match c_link c, u with
  | None, _ | _, (LinkTakes _ | LinkClosed) => None
  | Some l, _ =>
      '(rest, s) ← sys_link_turn (event_slot c) l u (c_worker c);
      Some (worked 0 rest s c)
  end.

Definition worker_task (k : nat) (ms : N) (wake : TaskWake ServiceId Uuid) c : option C :=
  if event_room c then
    s ← sys_step (Contact := Contact) (c_worker c) (TurnTask k ms wake);
    Some (worked 0 (c_link c) s c)
  else None.

Definition client_step c (u : ClientTurn ServiceId Uuid) : option C :=
  match u with
  | GamSends msg =>
      match app_step (Arrives msg) (c_app c) with
      | Ok p => Some (mkClient p (c_worker c) (c_link c) (c_taken c) (c_relayed c) (c_handled c))
      | Err _ => None
      end
  | AppServes => app_serves c
  | Relay delivered => relay delivered c
  | WorkerCmd => worker_cmd c
  | WorkerLink u => worker_link u c
  | WorkerTask k ms wake => worker_task k ms wake c
  end.

Fixpoint client_run (us : list (ClientTurn ServiceId Uuid)) c : option C :=
  match us with
  | [] => Some c
  | u :: us' => c' ← client_step c u; client_run us' c'
  end.

(** [main]: the worker is started, then the app; [None] is a panic of the app. *)
Definition client_start (w : Shared) (x : X) : option C :=
  match startup (mkDesk initial_app (mkWired true x) []) with
  | (Ok _, d) => Some (mkClient (mkProcess d [] []) (system_start w) None 0 0 [])
  | (Err _, _) => None
  end.
Definition client_reachable (w : Shared) (x : X) c : Prop :=
  exists us c0, client_start w x = Some c0 /\ client_run us c0 = Some c.

(** ** The worker lives as long as the app

    The app sends neither [Shutdown] nor lets go of its channel ends, so the
    worker has no reason to leave its loop. *)
Abbreviation D := (Dispatcher P Mgr Uuid).
Definition harmless (i : RaceInput) : Prop := match i with RaceCmd x => app_cmd x = true | RaceClosed => False end.

Lemma tell_or_stop_running e (d : D) : w_open (d_world d) = true -> d_running (tell_or_stop e d) = d_running d.
Proof. intros Ho. by destruct (tell_or_stop_open e d Ho) as [-> _]. Qed.

Lemma call_load_running (d : D) : d_running (call_load d).2 = d_running d /\ w_open (d_world (call_load d).2) = w_open (d_world d).
Proof. unfold call_load. by destruct (load_registered _) as [[ms r] p]. Qed.

Lemma link_race_running name inputs resolved (d : D) :
  Forall harmless inputs -> d_running (link_race name inputs resolved d).2 = d_running d.
Proof.
  assert (Hlink : d_running (handle_link_device name d).2 = d_running d).
  { unfold handle_link_device. destruct (link_secondary_device _ _) as [[ms [url r]] p]. by destruct r, url. }
  assert (Hdrop : d_running (drop_link name d) = d_running d).
  { unfold drop_link. destruct (link_dropped _ _) as [[ms url] p]. by destruct url. }
  induction 1 as [|[x|] inputs Hx Hi IH]; simpl; [done| |done].
  destruct x; try done. by destruct resolved.
Qed.

Lemma forward_running op err (d : D) : d_running (forward op err d) = d_running d.
Proof. unfold forward. destruct (d_ops d) as [ch|]; [|done]. by destruct (op_alive ch). Qed.

Lemma dispatch_running x inputs resolved (d : D) :
  w_open (d_world d) = true -> app_cmd x = true -> Forall harmless inputs ->
  d_running (dispatch x inputs resolved d) = d_running d.
Proof.
  intros Ho Hx Hi. destruct (call_load_running d) as [Hr Hw].
  destruct x as [| |name| | |rec body ts| | | |input|]; try done; cbn [dispatch]; try apply forward_running.
  - unfold link_device, probe. destruct (has_account_state _) as [stale p].
    set (d1 := with_dworld _ d). destruct stale; [by apply (tell_or_stop_running StaleStoreDetected d1)|].
    pose proof (link_race_running name inputs resolved d1 Hi) as Hl.
    by destruct (link_race name inputs resolved d1) as [[m|e] d2].
  - unfold get_account_info. destruct (d_cached d); [by apply tell_or_stop_running|].
    destruct (call_load d) as [[m|e] d1]; cbn [snd] in Hr, Hw; [|rewrite tell_or_stop_running; congruence].
    rewrite tell_or_stop_running; [by destruct (d_ops (with_cached _ d1))|].
    destruct (d_ops (with_cached _ d1)); simpl; congruence.
Qed.

Lemma absorb_running new (d' : D) (s : Y) : y_running (absorb new d' s) = d_running d'.
Proof. unfold absorb. destruct new; [done|]. destruct (y_link s); [|done]. by destruct (d_ops d'). Qed.

(** The turns the client gives the worker. *)
Definition client_turn (u : Turn ServiceId Uuid) : Prop :=
  match u with
  | TurnCmd x inputs _ => app_cmd x = true /\ Forall harmless inputs
  | TurnCmdsClosed => False
  | TurnTask _ _ _ => True
  end.

Lemma worker_turn_alive (s s' : Y) u :
  sys_ok s -> w_open (y_world s) = true -> y_running s = true -> client_turn u ->
  sys_step (Contact := Contact) s u = Some s' ->
  w_open (y_world s') = true /\ y_running s' = true /\
  exists es, w_events (y_world s') = w_events (y_world s) ++ es.
Proof.
  intros Hs Ho Hr Hu. unfold sys_step. rewrite Hr. destruct u as [x inputs resolved| |k ms wake]; [|done|].
  - destruct Hu as [Hx Hi]. destruct (can_accept x s); [|done]. intros Hn. apply Some_inj in Hn as <-.
    rewrite absorb_world, absorb_running, dispatch_running by done.
    destruct (dispatch_told x inputs resolved (view s)) as [es [Ho' He]]. simpl in Ho', He. rewrite Ho in He.
    split; [congruence|]. split; [done|]. by exists es.
  - destruct (y_tasks s !! k) as [sl|] eqn:Hk; [|done]. simpl.
    destruct (wake_slot _ wake sl) as [[i sl']|] eqn:Hw; [|done]. intros Hn. apply Some_inj in Hn as <-.
    destruct (run_slot_says (Contact := Contact) k ms wake sl s i sl' _ (mkInnerSend "" "" 0) Ho (sys_slots _ Hs k sl Hk) Hw)
      as (es & [Ho' He] & _).
    rewrite Ho in He. split; [congruence|]. split; [done|]. by exists es.
Qed.

(** ** Well-formed clients *)
Definition asked_in (xs : list Cmd) (ts : N) : Prop := exists recipient text, SendMessage recipient text ts ∈ xs.
(** What the worker owes to the commands [xs]. *)
Definition owed (xs : list Cmd) : Promise := mkPromise (asked_in xs) True 0.

Record client_ok c : Prop := mkClientOk {
  co_sys : sys_ok (c_worker c);
  co_open : w_open (y_world (c_worker c)) = true;
  co_running : y_running (c_worker c) = true;
  co_order : c_handled c ++ pending_events (c_app c) = take (c_relayed c) (events c);
  co_relayed : c_relayed c <= length (events c);
  co_taken : c_taken c <= length (commands c);
  co_credit : sys_credited (owed (take (c_taken c) (commands c))) (c_worker c);
  co_honest : honest (c_handled c) [] (desk (c_app c));
  co_wf : app_wf INBOX_CAPACITY (app (desk (c_app c)))
}.

Lemma honest_plug E L b p : honest E L (desk p) -> b = true -> honest E (sent (desk p)) (desk (plug b p)).
Proof. intros [Ho Hs Hr Hl] ->. constructor; simpl; [done..|]. done. Qed.

(** A message served: no panic, the commands grow at the end, the rows stay
    honest about the events handled. *)
Lemma app_serves_spec c msg rest :
  client_ok c -> mailbox (c_app c) = msg :: rest -> cmd_room c = true ->
  exists d, app_serves c =
      Some (mkClient (mkProcess d (serve (X := Wired X) msg (pending_events (c_app c))).2 rest) (c_worker c) (c_link c) (c_taken c) (c_relayed c)
        (c_handled c ++ drained msg (pending_events (c_app c)))) /\
    honest (c_handled c ++ drained msg (pending_events (c_app c))) (commands c) d /\ app_wf INBOX_CAPACITY (app d).
Proof.
  intros Hc Hm Hroom. unfold app_serves. rewrite Hm, Hroom, (co_running _ Hc). cbn [app_step plug mailbox]. rewrite Hm.
  set (pe := pending_events (c_app c)). set (d0 := desk (plug true (c_app c))).
  change (mkDesk (app (desk (c_app c))) _ _) with d0.
  change (pending_events (plug true (c_app c))) with pe.
  assert (Hd0 : honest (c_handled c ++ drained msg pe) (commands c) d0).
  { eapply honest_mono; [|exact (honest_plug _ _ true _ (co_honest _ Hc) eq_refl)]. by apply list_subseteq_app_l. }
  pose proof (kept_serve (c_handled c) (commands c) msg pe) as Hk.
  pose proof (safe_serve (X := Wired X) INBOX_CAPACITY msg pe) as Hsafe.
  destruct (serve msg pe) as [m pending]. cbn [fst snd] in *.
  destruct (Hsafe d0 (co_wf _ Hc)) as (r & d & Hrun & Hwf). rewrite Hrun. exists d.
  split; [done|]. split; [by eapply Hk|done].
Qed.

Lemma honest_weaken E L (d : Desk Uuid (Wired X)) : honest E L d -> honest E [] d.
Proof. intros [Ho Hs Hr Hl]. constructor; [done..|]. apply prefix_nil. Qed.

Lemma client_gam_ok c msg c' : client_ok c -> client_step c (GamSends msg) = Some c' -> client_ok c'.
Proof. intros [] [= <-]. by constructor. Qed.

Lemma client_relay_ok c b c' : client_ok c -> relay b c = Some c' -> client_ok c'.
Proof.
  intros Hc. unfold relay. destruct (events c !! c_relayed c) as [e|] eqn:He; [|done]. intros [= <-].
  destruct Hc. constructor; try done; simpl.
  - unfold events in *. simpl. rewrite app_assoc, co_order0. by erewrite take_S_r.
  - apply lookup_lt_Some in He. exact He.
Qed.

Lemma client_serve_ok c c' : client_ok c -> app_serves c = Some c' -> client_ok c'.
Proof.
  intros Hc Hs. pose proof Hs as Hs0. unfold app_serves in Hs0.
  destruct (mailbox (c_app c)) as [|msg rest] eqn:Hm; [done|]. destruct (cmd_room c) eqn:Hroom; [|done]. clear Hs0.
  destruct (app_serves_spec c msg rest Hc Hm Hroom) as (d & Hs' & Hh & Hwf). rewrite Hs in Hs'. injection Hs' as ->.
  destruct (h_grows _ _ _ Hh) as [xs Hxs]. pose proof (co_taken _ Hc) as Ht.
  constructor; simpl; try apply Hc.
  - rewrite <- app_assoc, serve_drained. apply Hc.
  - unfold commands. simpl. rewrite Hxs, length_app. lia.
  - unfold commands. simpl. rewrite Hxs, take_app_le by done. apply Hc.
  - by eapply honest_weaken.
  - done.
Qed.

(** ** The worker's turns *)

(** The worker lives on, with more events, and owes what it owed. *)
Record moves (Q : Promise) (s s' : Y) : Prop := mkMoves {
  mv_ok : sys_ok s';
  mv_open : w_open (y_world s') = true;
  mv_running : y_running s' = true;
  mv_events : exists es, w_events (y_world s') = w_events (y_world s) ++ es;
  mv_credit : sys_credited Q s -> sys_credited Q s'
}.

Lemma step_moves c Q u s' :
  client_ok c -> client_turn u -> turn_credit Q u ->
  sys_step (Contact := Contact) (c_worker c) u = Some s' -> moves Q (c_worker c) s'.
Proof.
  intros Hc Hu HQ Hs.
  destruct (worker_turn_alive _ _ _ (co_sys _ Hc) (co_open _ Hc) (co_running _ Hc) Hu Hs) as (Ho & Hr & Hes).
  constructor; try done.
  - eapply sys_step_ok; [apply Hc|exact Hs].
  - eapply sys_step_credited; [apply Hc|exact HQ|exact Hs].
Qed.

Lemma goes_on_moves c Q slot s' : client_ok c -> goes_on Q slot (c_worker c) s' -> moves Q (c_worker c) s'.
Proof.
  intros Hc [Hok Ho Hr (es & He & _) Hq]. constructor; [done| | |by exists es|done].
  - rewrite Ho. apply Hc.
  - rewrite Hr. apply Hc.
Qed.

(** What an app's command asks for is owed once it is taken. *)
Lemma taken_credit c x :
  client_ok c -> commands c !! c_taken c = Some x ->
  app_cmd x = true /\ turn_credit (ServiceId := ServiceId) (Uuid := Uuid) (owed (take (c_taken c + 1) (commands c))) (TurnCmd x [] false).
Proof.
  intros Hc Hx. split.
  - pose proof (h_sent _ _ _ (co_honest _ Hc)) as Hall. rewrite Forall_lookup in Hall. by eapply Hall.
  - destruct x; try done. exists recipient, body. apply list_elem_of_lookup_2 with (c_taken c).
    rewrite lookup_take_lt by lia. exact Hx.
Qed.

Lemma worker_turn_moves c u c' :
  client_ok c -> (u = WorkerCmd \/ (exists v, u = WorkerLink v) \/ exists k ms wake, u = WorkerTask k ms wake) ->
  client_step c u = Some c' ->
  exists n link s, c' = worked n link s c /\ c_taken c + n <= length (commands c) /\
    moves (owed (take (c_taken c + n) (commands c))) (c_worker c) s.
Proof.
  intros Hc [->|[[v ->]|(k & ms & wake & ->)]]; cbn [client_step].
  - unfold worker_cmd. destruct (commands c !! c_taken c) as [x|] eqn:Hx; [|done]. simpl.
    destruct (taken_credit c x Hc Hx) as [Hcmd Hcr]. apply lookup_lt_Some in Hx. destruct (c_link c) as [l|].
    + destruct (sys_link_turn _ l _ _) as [[rest s]|] eqn:Hl; [|done]. intros [= <-].
      exists 1, rest, s. split; [done|]. split; [lia|]. eapply (goes_on_moves c _ _ _ Hc).
      apply (sys_link_turn_goes_on _ _ l (LinkTakes x) _ rest); [apply Hc|by intros [= ->]|done|exact I|apply Hc|exact Hl].
    + destruct (event_room c); [|done]. destruct (link_started x (c_worker c)) as [[l s]|] eqn:Hl.
      * intros [= <-]. exists 1, (Some l), s. split; [done|]. split; [lia|]. destruct x; try done.
        apply (goes_on_moves c _ true _ Hc). eapply sys_link_start_goes_on; [apply Hc|exact Hl].
      * destruct (sys_step _ _) as [s|] eqn:Hs; [|done]. intros [= <-]. exists 1, None, s.
        split; [done|]. split; [lia|]. by eapply (step_moves c _ (TurnCmd x [] false)).
  - unfold worker_link. destruct (c_link c) as [l|]; [|done].
    assert (Hv : forall v0, v0 <> LinkTakes Shutdown -> v0 <> LinkClosed ->
      ('(rest, s) ← sys_link_turn (event_slot c) l v0 (c_worker c); Some (worked 0 rest s c)) = Some c' ->
      exists n link s, c' = worked n link s c /\ c_taken c + n <= length (commands c) /\
        moves (owed (take (c_taken c + n) (commands c))) (c_worker c) s).
    { intros v0 Hv Hn. destruct (sys_link_turn _ l v0 _) as [[rest s]|] eqn:Hl; [|done]. intros [= <-].
      exists 0, rest, s. split; [done|]. split; [rewrite Nat.add_0_r; apply Hc|]. eapply (goes_on_moves c _ _ _ Hc).
      apply (sys_link_turn_goes_on _ _ l v0 _ rest); [apply Hc|exact Hv|exact Hn|exact I|apply Hc|exact Hl]. }
    destruct v; try done; by apply Hv.
  - unfold worker_task. destruct (event_room c); [|done].
    destruct (sys_step _ _) as [s|] eqn:Hs; [|done]. intros [= <-]. exists 0, (c_link c), s.
    split; [done|]. split; [rewrite Nat.add_0_r; apply Hc|]. by eapply (step_moves c _ (TurnTask k ms wake)).
Qed.

Lemma worked_ok c n link s :
  client_ok c -> c_taken c + n <= length (commands c) ->
  moves (owed (take (c_taken c + n) (commands c))) (c_worker c) s -> client_ok (worked n link s c).
Proof.
  intros Hc Hn [Hok Ho Hr [es He] Hq]. constructor; simpl; try apply Hc; try done.
  - unfold events. simpl. rewrite He, take_app_le by apply Hc. apply Hc.
  - unfold events. simpl. rewrite He, length_app. pose proof (co_relayed _ Hc) as Hl. unfold events in Hl. lia.
  - apply Hq. eapply (sys_credited_mono (owed (take (c_taken c) (commands c)))); [|done|done|exact (co_credit _ Hc)].
    intros ts (r & b & Hin). exists r, b. rewrite <- take_take_drop. apply elem_of_app. by left.
Qed.

Lemma worker_turns (u : ClientTurn ServiceId Uuid) :
  (exists msg, u = GamSends msg) \/ u = AppServes \/ (exists b, u = Relay b) \/
  (u = WorkerCmd \/ (exists v, u = WorkerLink v) \/ exists k ms wake, u = WorkerTask k ms wake).
Proof. destruct u; eauto 10. Qed.

Lemma client_step_ok c u c' : client_ok c -> client_step c u = Some c' -> client_ok c'.
Proof.
  intros Hc Hs. destruct (worker_turns u) as [[msg ->]|[->|[[b ->]|Hu]]].
  - by eapply client_gam_ok.
  - by eapply client_serve_ok.
  - by eapply client_relay_ok.
  - destruct (worker_turn_moves c u c' Hc Hu Hs) as (n & link & s & -> & Hn & Hm). by apply worked_ok.
Qed.

Lemma client_run_ok us c c' : client_ok c -> client_run us c = Some c' -> client_ok c'.
Proof.
  revert c. induction us as [|u us IH]; intros c Hc; simpl; [by intros [= <-]|].
  destruct (client_step c u) as [c1|] eqn:Hu; [|done]. simpl. apply IH. by eapply client_step_ok.
Qed.

(** A device switched on: nothing said yet, the channel open, no mock messages. *)
Record just_started (w : Shared) (x : X) : Prop := mkJustStarted {
  fr_events : w_events w = [];
  fr_open : w_open w = true;
  fr_pending : w_pending w = ∅;
  fr_mock : env_mock_messages x <> Some "1"
}.

Lemma client_start_ok w x : just_started w x -> exists c, client_start w x = Some c /\ client_ok c.
Proof.
  intros [He Ho Hp Hm]. unfold client_start.
  destruct (startup_ok (X := Wired X) (mkWired true x)) as (d & Hd & Hwf).
  rewrite Hd. eexists. split; [done|].
  unfold bound_of in Hwf. cbn [env_mock_messages wired_ui outside] in Hwf. rewrite bool_decide_false in Hwf by done.
  assert (Hh : honest [] [] d).
  { unfold startup, seed_mock_messages_if_requested in Hd.
    rewrite mbind_assoc, (mbind_ok (ask env_mock_messages) _ _ (env_mock_messages x) _) in Hd by done.
    rewrite bool_decide_true in Hd by done. unfold mbind at 1, mok at 1 in Hd.
    eapply (kept_render_ok [] []); [|exact Hd]. constructor; simpl; done || constructor. }
  destruct (worker_start_spec w) as ((es & Hw & _) & Hr & _).
  constructor; simpl; try done.
  - apply system_start_ok.
  - unfold system_start. rewrite absorb_world. congruence.
  - unfold system_start. by rewrite absorb_running.
  - lia.
  - lia.
  - apply system_start_credited; [exact I|]. constructor; [by rewrite He|]. rewrite Hp. by intros ts [y Hy].
Qed.

Lemma client_step_grows c u c' :
  client_ok c -> client_step c u = Some c' -> commands c `prefix_of` commands c' /\ events c `prefix_of` events c'.
Proof.
  intros Hc Hs. destruct (worker_turns u) as [[msg ->]|[->|[[b ->]|Hu]]]; cbn [client_step] in Hs.
  - by injection Hs as <-.
  - pose proof Hs as Hs0. unfold app_serves in Hs0.
    destruct (mailbox (c_app c)) as [|msg rest] eqn:Hm; [done|]. destruct (cmd_room c) eqn:Hroom; [|done]. clear Hs0.
    destruct (app_serves_spec c msg rest Hc Hm Hroom) as (d & Hs' & Hh & _). rewrite Hs in Hs'. injection Hs' as ->.
    split; [exact (h_grows _ _ _ Hh)|done].
  - unfold relay in Hs. destruct (events c !! c_relayed c); [|done]. by injection Hs as <-.
  - destruct (worker_turn_moves c u c' Hc Hu Hs) as (n & link & s & -> & _ & [_ _ _ Hes _]). by split.
Qed.

Lemma reachable_client w x c : just_started w x -> client_reachable w x c -> client_ok c.
Proof.
  intros Hf (us & c0 & Hs & Hr). destruct (client_start_ok w x Hf) as (c1 & Hs' & Hc).
  rewrite Hs in Hs'. injection Hs' as <-. by eapply client_run_ok.
Qed.

(** C11: The two channels lose and reorder nothing, and stay open. While the app
    runs the worker never leaves its loop, whatever the user does, whatever the
    server delivers and however the threads interleave; so no command the app
    sends is refused. What the main loop has handled and what waits in the deque
    are together exactly the events the forwarder took, which are the worker's
    events in their order; the worker receives the commands in the order sent. *)
Theorem channels_keep_order w x c :
  just_started w x -> client_reachable w x c ->
  y_running (c_worker c) = true /\ w_open (y_world (c_worker c)) = true /\ connected (world (desk (c_app c))) = true /\
  c_handled c ++ pending_events (c_app c) = take (c_relayed c) (events c) /\
  c_relayed c <= length (events c) /\ c_taken c <= length (commands c) /\
  forall u c', client_step c u = Some c' -> commands c `prefix_of` commands c' /\ events c `prefix_of` events c'.
Proof.
  intros Hf Hc%reachable_client; [|done]. destruct (Hc) as [Hs Ho Hr Hord Hrel Htak _ Hh _].
  do 2 (split; [done|]). split; [exact (h_open _ _ _ Hh)|]. do 3 (split; [done|]). intros u c' Hu.
  by apply client_step_grows with u.
Qed.

(** C8: The conversation shows what happened and nothing else. Every outgoing row
    the app shows is a command it sent, with the row's contact, text and timestamp;
    it is shown as delivered, or as failed, only after the worker took a send command
    of that timestamp and reported its success, or its failure. Every incoming row is
    a message that the worker reported, with its text and timestamp, in the
    conversation of its sender or its group. *)
Theorem shown_rows_are_true w x c m :
  just_started w x -> client_reachable w x c -> m ∈ messages (store (app (desk (c_app c)))) ->
  (tm_outgoing m = true ->
    SendMessage (uuid_to_string (tm_uuid m)) (tm_body m) (tm_timestamp m) ∈ commands c /\
    (tm_status m = Delivered -> SendComplete (tm_timestamp m) ∈ events c) /\
    (tm_status m = Failed -> exists reason, SendError reason (Some (tm_timestamp m)) ∈ events c) /\
    (tm_status m = Delivered \/ tm_status m = Failed ->
       asked_in (take (c_taken c) (commands c)) (tm_timestamp m))) /\
  (tm_outgoing m = false ->
    exists sender phone name group, Message sender phone name (tm_body m) (tm_timestamp m) group ∈ events c /\
      thread_of sender group = (tm_uuid m, tm_group m)).
Proof.
  intros Hf Hc%reachable_client; [|done]. intros Hm.
  pose proof (h_rows _ _ _ (co_honest _ Hc)) as Hrows. unfold rows_ok in Hrows. rewrite Forall_forall in Hrows.
  specialize (Hrows m Hm). unfold row_ok in Hrows.
  assert (Hev : forall e, e ∈ c_handled c -> e ∈ events c).
  { intros e He. rewrite <- (take_drop (c_relayed c) (events c)), <- (co_order _ Hc), !elem_of_app. by left; left. }
  destruct (tm_outgoing m); (split; [|]); [intros _|done|done|intros _].
  2: { destruct Hrows as (sender & ph & nm & g & Hin & Ht). exists sender, ph, nm, g. split; [by apply Hev|done]. }
  destruct Hrows as [Hsent Hstatus]. split; [exact Hsent|].
  assert (Hq : forall e, e ∈ events c -> reported e = Some (tm_timestamp m) ->
    asked_in (take (c_taken c) (commands c)) (tm_timestamp m)).
  { intros e He Hr. pose proof (cr_events _ _ (yc_world _ _ (co_credit _ Hc))) as Hall. rewrite Forall_forall in Hall.
    specialize (Hall e He). unfold credit in Hall. by rewrite Hr in Hall. }
  destruct (tm_status m); split_and!; try done; try (by intros [|]); try (intros _; by apply Hev).
  - intros _. apply (Hq (SendComplete (tm_timestamp m))); [by apply Hev|done].
  - intros _. destruct Hstatus as [reason Hs]. exists reason. by apply Hev.
  - intros _. destruct Hstatus as [reason Hs]. apply (Hq (SendError reason (Some (tm_timestamp m)))); [by apply Hev|done].
Qed.

(** Nothing waits: every event passed on, every command received, every message
    served; a link in flight, if any, waits for its server. *)
Definition at_rest c : Prop :=
  c_relayed c = length (events c) /\ c_taken c = length (commands c) /\ mailbox (c_app c) = [] /\
  (forall l, c_link c = Some l -> waits l = true).

(** The turns that need nothing from the user, the network or the clock. *)
Definition internal (u : ClientTurn ServiceId Uuid) : Prop :=
  match u with
  | AppServes | Relay true | WorkerCmd | WorkerTask _ _ TakeOp => True
  | WorkerLink v => own_turn v
  | _ => False
  end.

Lemma own_link_turn c l u :
  c_link c = Some l -> own_turn u -> is_Some (link_turn (event_slot c) l u (view (c_worker c))) ->
  exists c', client_step c (WorkerLink u) = Some c'.
Proof.
  intros Hl Hu [[[rest new] d] Ht]. cbn [client_step]. unfold worker_link, sys_link_turn. rewrite Hl, Ht.
  destruct Hu as [->|[->| ->]]; by eexists.
Qed.

Lemma worker_progress c :
  client_ok c -> event_room c = true -> c_taken c < length (commands c) ->
  (exists c', client_step c WorkerCmd = Some c') \/
  (exists u c', own_turn u /\ client_step c (WorkerLink u) = Some c') \/
  (exists k sl, y_tasks (c_worker c) !! k = Some sl /\ length (k_queue sl) = OP_CHANNEL_CAP /\
     forall ms, exists c', client_step c (WorkerTask k ms TakeOp) = Some c').
Proof.
  intros Hc He [y Hy]%lookup_lt_is_Some. cbn [client_step]. unfold worker_cmd. rewrite Hy, He. simpl.
  destruct (c_link c) as [l|] eqn:Hl.
  { destruct (link_moves (event_slot c) l y (view (c_worker c))) as [[[[rest new] d] Ht]|(u & Hu & Ht)].
    - left. unfold sys_link_turn. rewrite Ht. by eexists.
    - right; left. exists u. destruct (own_link_turn c l u Hl Hu Ht) as [c' Hs]. by exists c'. }
  destruct (link_started y (c_worker c)) as [[l s]|]; [left; by eexists|].
  destruct (dispatcher_progress (Contact := Contact) (c_worker c) y [] false (co_sys _ Hc) (co_running _ Hc))
    as [[s' Hs]|(k & sl & _ & Hk & Hq & Hs)]; [left; rewrite Hs; by eexists|].
  do 2 right. exists k, sl. split; [done|]. split; [done|]. intros ms. destruct (Hs ms) as (s1 & _ & Hs1 & _).
  unfold worker_task. rewrite He, Hs1. by eexists.
Qed.

(** What a client in any well-formed state can do. *)
Lemma client_progress c :
  client_ok c ->
  (c_relayed c < length (events c) -> forall b, exists c', client_step c (Relay b) = Some c') /\
  (event_room c = true -> c_taken c < length (commands c) ->
     (exists c', client_step c WorkerCmd = Some c') \/
     (exists u c', own_turn u /\ client_step c (WorkerLink u) = Some c') \/
     (exists k sl, y_tasks (c_worker c) !! k = Some sl /\ length (k_queue sl) = OP_CHANNEL_CAP /\
        forall ms, exists c', client_step c (WorkerTask k ms TakeOp) = Some c')) /\
  (cmd_room c = true -> mailbox (c_app c) <> [] -> exists c', client_step c AppServes = Some c') /\
  (at_rest c \/ exists u c', internal u /\ client_step c u = Some c').
Proof.
  intros Hc.
  assert (Hrelay : c_relayed c < length (events c) -> forall b, exists c', client_step c (Relay b) = Some c').
  { intros [e He]%lookup_lt_is_Some b. cbn [client_step]. unfold relay. rewrite He. by eexists. }
  assert (Happ : cmd_room c = true -> mailbox (c_app c) <> [] -> exists c', client_step c AppServes = Some c').
  { intros Hr Hm. destruct (mailbox (c_app c)) as [|msg rest] eqn:Hmail; [done|].
    destruct (app_serves_spec c msg rest Hc Hmail Hr) as (d & Hs & _). by eexists. }
  split; [done|]. split; [by apply worker_progress|]. split; [done|].
  pose proof (co_relayed _ Hc) as Hrel. pose proof (co_taken _ Hc) as Htak.
  destruct (decide (c_relayed c < length (events c))) as [Hlt|Hge].
  { right. destruct (Hrelay Hlt true) as [c' Hs]. by exists (Relay true), c'. }
  assert (He : event_room c = true) by (apply Nat.leb_le; lia).
  assert (Hslot : event_slot c = true) by (apply Nat.ltb_lt; unfold CHAN_CAP; lia).
  destruct (decide (c_taken c < length (commands c))) as [Hlt|Hge'].
  { right. destruct (worker_progress c Hc He Hlt) as [[c' Hs]|[(u & c' & Hu & Hs)|(k & sl & _ & _ & Hs)]].
    - by exists WorkerCmd, c'.
    - by exists (WorkerLink u), c'.
    - destruct (Hs 0%N) as [c' Hs']. by exists (WorkerTask k 0 TakeOp), c'. }
  destruct (mailbox (c_app c)) as [|msg rest] eqn:Hm.
  2: { right. destruct Happ as [c' Hs]; [apply Nat.leb_le; lia|done|]. by exists AppServes, c'. }
  destruct (c_link c) as [l|] eqn:Hl; [destruct (waits l) eqn:Hw|].
  - left. split; [lia|]. split; [lia|]. split; [done|]. rewrite Hl. by intros ? [= <-].
  - right. destruct (link_settles l (view (c_worker c)) Hw) as (u & Hu & Ht). rewrite <- Hslot in Ht.
    destruct (own_link_turn c l u Hl Hu Ht) as [c' Hs]. by exists (WorkerLink u), c'.
  - left. split; [lia|]. split; [lia|]. split; [done|]. by rewrite Hl.
Qed.

(** C10: App, worker and forwarder never wait for each other in a circle. The
    forwarder can always pass an event on. The worker waits only for the forwarder:
    once the event channel has room, it takes the next command, or a link in flight
    goes on by itself, or its op channel is full and the task behind it can take an
    op. The app waits only for the worker: once the command channel has room, it
    serves the next message without a panic. A channel without room holds something
    to take, so a client that is not at rest can always move. *)
Theorem client_never_wedged w x c :
  just_started w x -> client_reachable w x c ->
  (c_relayed c < length (events c) -> forall b, exists c', client_step c (Relay b) = Some c') /\
  (event_room c = true -> c_taken c < length (commands c) ->
     (exists c', client_step c WorkerCmd = Some c') \/
     (exists u c', own_turn u /\ client_step c (WorkerLink u) = Some c') \/
     (exists k sl, y_tasks (c_worker c) !! k = Some sl /\ length (k_queue sl) = OP_CHANNEL_CAP /\
        forall ms, exists c', client_step c (WorkerTask k ms TakeOp) = Some c')) /\
  (cmd_room c = true -> mailbox (c_app c) <> [] -> exists c', client_step c AppServes = Some c') /\
  (at_rest c \/ exists u c', internal u /\ client_step c u = Some c').
Proof.
  intros Hf Hc%reachable_client; [|done]. by apply client_progress.
Qed.
End client.

(** ** A message from the keyboard to its tick *)
From S2P Require Import Concrete AppConcrete.

#[local] Existing Instances canonical_order plain_debug string_json scripted no_wide.

Section concrete_client.
Abbreviation P := (PddbStore (StoreBackend MockBackend) bytes).

(** Identifiers are their texts. *)
#[local] Instance text_uuids : UuidCrate string := {|
  uuid_simple u := u;
  uuid_to_string u := u;
  uuid_parse_str s := if bool_decide (s = "") then None else Some s;
  uuid_nil := "nil";
  uuid_new_v5_oid key := "group";
  uuid_from_u128 n := pretty n
|}.
#[local] Instance text_ids : WorkerIds string string := {|
  parse_uuid := fun s => if starts_with s "+" then None else Some s;
  aci_service_id := fun s => s;
  service_id_aci := fun s => Some s
|}.
#[local] Instance text_contact : ContactFields string string := {|
  c_uuid := fun s => s; c_name := fun s => s; c_phone_e164 := fun s => Some s
|}.
#[local] Instance willing_presage : Presage P unit string string := {|
  send_message sid _ _ := fun '(m, p) => (5%N, Worker.Sent, (m, p));
  request_contacts st := (0%N, Ok tt, st);
  lookup_username _ st := (0%N, Ok None, st);
  retrieve_profile_by_uuid _ _ st := (0%N, Ok None, st);
  receive_messages st := (0%N, Ok tt, st);
  last_identified_close_code _ := None
|}.
#[local] Instance known_device : PresageLink P unit := {|
  registration_data _ := mkRegistration (mkAccountInfo "xous" "aci" "+1") "pni";
  load_registered p := (3%N, Ok tt, p);
  link_secondary_device name p := (9%N, (None, Err "offline"), p);
  link_dropped name p := (1%N, None, p)
|}.

(** presage's steps of a link: offline. *)
#[local] Instance offline_steps : LinkSteps P unit := {|
  link_begin name p := (9%N, None, p);
  link_resolve name p := (1%N, Err "offline", p);
  link_abandon name shown p := (1%N, p)
|}.

Definition clean_world : World P unit string :=
  mkWorld (store_new (Buffered (buffering_new mock_new)) Trust) tt 0 [] true ∅.
Definition desk_world : Script := mkScript [Ok "bob"] true 1700000000000 (Ok online) false [] [].
Definition keys (k1 k2 k3 k4 : N) : ClientTurn string string := GamSends (mkGam 1 (k1, k2, k3, k4)).
Definition take_op : ClientTurn string string := WorkerTask 0 5 TakeOp.

(** The device links from its registration, Enter leads home, F1 opens a chat with
    the one the modal names; "hi" and Enter. *)
Definition typed : list (ClientTurn string string) :=
  [Relay true; AppServes; keys key_return key_f1 0 0; AppServes; keys 104 105 key_return 0; AppServes].
(** The worker starts receiving, sends, and its report comes back. *)
Definition answered : list (ClientTurn string string) :=
  [WorkerCmd; WorkerCmd; take_op; take_op; Relay true; Relay true; AppServes; AppServes].
Abbreviation CC := (Client P unit string Script).
Definition client0 : CC :=
  default (mkClient (mkProcess (mkDesk initial_app (mkWired true desk_world) []) [] []) (system_start clean_world) None 0 0 [])
    (client_start clean_world desk_world).
Definition client_after (us : list (ClientTurn string string)) : CC := default client0 (client_run (Contact := string) us client0).
Definition shown (c : CC) : list (string * string * SendStatus) :=
  (fun m => (tm_uuid m, tm_body m, tm_status m)) <$> messages (store (app (desk (c_app c)))).
Definition sent_and_ticked : list (ClientTurn string string) := typed ++ answered.

Lemma starts_clean : just_started clean_world desk_world.
Proof. by constructor. Qed.

Lemma reached us :
  client_run (Contact := string) us client0 = Some (client_after us) ->
  client_reachable (Contact := string) clean_world desk_world (client_after us).
Proof. intros Hr. exists us, client0. split; [vm_compute; reflexivity|exact Hr]. Qed.

Lemma channels_keep_order_witness :
  events (client_after sent_and_ticked) =
    [LinkComplete "xous" "aci" "+1"; ReceiveStarted; SendComplete 1700000000000] /\
  exists c, client_reachable (Contact := string) clean_world desk_world c /\ c_relayed c = 3 /\
    c_handled c ++ pending_events (c_app c) = take 3 (events c).
Proof.
  split; [vm_compute; reflexivity|]. exists (client_after sent_and_ticked).
  assert (Hr : client_reachable (Contact := string) clean_world desk_world (client_after sent_and_ticked))
    by (apply reached; vm_compute; reflexivity).
  assert (H3 : c_relayed (client_after sent_and_ticked) = 3) by (vm_compute; reflexivity).
  revert Hr H3. generalize (client_after sent_and_ticked). intros c Hr H3. split; [exact Hr|]. split; [exact H3|].
  destruct (channels_keep_order (Contact := string) clean_world desk_world c starts_clean Hr) as (_ & _ & _ & Ho & _).
  by rewrite H3 in Ho.
Defined.

(** Bob answers; the app shows both. *)
Definition reply_of_bob : ClientTurn string string :=
  WorkerTask 0 5 (StreamItem (ReceivedContent (mkContent (mkMetadata "bob" "xous" 1 None 1700000000009 false false false)
    (BodyDataMessage (mkData (Some "yes") None None None))))).
Definition exchange : list (ClientTurn string string) := sent_and_ticked ++ [reply_of_bob; Relay true; AppServes].

Lemma shown_rows_are_true_witness :
  shown (client_after typed) = [("bob", "hi", Pending)] /\
  shown (client_after exchange) = [("bob", "hi", Delivered); ("bob", "yes", Sent)] /\
  SendComplete 1700000000000 ∈ events (client_after exchange) /\
  exists sender phone name, Message sender phone name "yes" 1700000000009 None ∈ events (client_after exchange).
Proof.
  split; [vm_compute; reflexivity|]. split; [vm_compute; reflexivity|].
  assert (Hr : client_reachable (Contact := string) clean_world desk_world (client_after exchange))
    by (apply reached; vm_compute; reflexivity).
  set (hi := mkMsg "bob" "You" "hi" 1700000000000 true Delivered true false).
  set (yes := mkMsg "bob" "bob" "yes" 1700000000009 false Sent false false).
  assert (Hm : messages (store (app (desk (c_app (client_after exchange))))) = [hi; yes]) by (vm_compute; reflexivity).
  revert Hr Hm. generalize (client_after exchange). intros c Hr Hm. split.
  - destruct (shown_rows_are_true (Contact := string) clean_world desk_world c hi starts_clean Hr) as [Ho _].
    + rewrite Hm. by left.
    + destruct (Ho eq_refl) as (_ & Hd & _). exact (Hd eq_refl).
  - destruct (shown_rows_are_true (Contact := string) clean_world desk_world c yes starts_clean Hr) as [_ Hi].
    + rewrite Hm. right. by left.
    + destruct (Hi eq_refl) as (sender & ph & nm & [key|] & Hin & Ht); [discriminate|]. by exists sender, ph, nm.
Defined.

Lemma client_never_wedged_witness :
  c_taken (client_after typed) = 0 /\ event_room (client_after typed) = true /\
  exists c', client_step (Contact := string) (client_after typed) (WorkerCmd) = Some c'.
Proof.
  split; [vm_compute; reflexivity|]. split; [vm_compute; reflexivity|].
  assert (Hr : client_reachable (Contact := string) clean_world desk_world (client_after typed))
    by (apply reached; vm_compute; reflexivity).
  assert (He : event_room (client_after typed) = true) by (vm_compute; reflexivity).
  assert (Ht : c_taken (client_after typed) < length (commands (client_after typed))) by (vm_compute; lia).
  assert (Hq : k_queue <$> y_tasks (c_worker (client_after typed)) = [[]]) by (vm_compute; reflexivity).
  assert (Hl : c_link (client_after typed) = None) by (vm_compute; reflexivity).
  revert Hr He Ht Hq Hl. generalize (client_after typed). intros c Hr He Ht Hq Hn.
  destruct (client_never_wedged (Contact := string) clean_world desk_world c starts_clean Hr) as (_ & Hw & _).
  destruct (Hw He Ht) as [Hc|[(u & c' & _ & Hs)|(k & sl & Hk & Hl & _)]]; [exact Hc| |].
  { exfalso. cbn [client_step] in Hs. unfold worker_link in Hs. by rewrite Hn in Hs. }
  exfalso. apply (f_equal (lookup k)) in Hq. rewrite list_lookup_fmap, Hk in Hq. simpl in Hq.
  destruct k as [|k]; [|discriminate]. injection Hq as Hq. rewrite Hq in Hl. discriminate.
Defined.

(** ** A query lost in a link

    While a link runs the worker drops every command but [LinkCancel] and
    [Shutdown]; the app still sends one: coming to the foreground queries the
    account. Once the link is cancelled, with its code on the screen, nothing is in
    flight, yet the app goes on showing that it loads the account. *)
Section lost_query.
#[local] Instance unregistered_device : PresageLink P unit := {|
  registration_data _ := mkRegistration (mkAccountInfo "xous" "aci" "+1") "pni";
  load_registered p := (3%N, Err "not yet registered", p);
  link_secondary_device name p := (9%N, (None, Err "offline"), p);
  link_dropped name p := (1%N, None, p)
|}.
#[local] Instance slow_steps : LinkSteps P unit := {|
  link_begin name p := (9%N, Some "sgnl://link", p);
  link_resolve name p := (1%N, Err "timeout", p);
  link_abandon name shown p := (1%N, p)
|}.
Definition link_world : Script := mkScript [Ok "xas0"] true 1700000000000 (Ok online) false [] [].
Definition link_then_focus : list (ClientTurn string string) :=
  [keys key_return 0 0 0; AppServes; WorkerCmd; WorkerLink LinkProvisions; Relay true; AppServes;
   GamSends (mkGam 2 (1, 0, 0, 0)%N); AppServes; WorkerCmd; keys key_esc 0 0 0; AppServes; WorkerCmd;
   WorkerLink LinkDrops; WorkerLink LinkReports; Relay true; AppServes].

Lemma query_lost_in_link :
  exists c0 c, client_start clean_world link_world = Some c0 /\ client_run (Contact := string) link_then_focus c0 = Some c /\
    commands c = [LinkDevice "xas0"; GetAccountInfo; LinkCancel] /\ c_taken c = 3 /\ c_link c = None /\
    events c = [LinkUrl "sgnl://link"; LinkError "Cancelled"] /\ c_handled c = events c /\
    account_query_pending (app (desk (c_app c))) = true.
Proof. do 2 eexists. split; [vm_compute; reflexivity|]. split; [vm_compute; reflexivity|]. vm_compute. repeat split. Qed.
End lost_query.
End concrete_client.
