(* ===== verification/Settle.v ===== *)
(** * The client comes to rest

    When nothing more comes from the user, the network or the clock, the messages,
    commands, ops and events on their way are handled in finitely many turns,
    whatever the order of the threads: every turn makes a lexicographic measure
    smaller ([turn_settles]). A command can cause an event, an event a command,
    but only [LinkDevice] and [GetAccountInfo] cause an event that causes one, and
    that one is [StartReceive]. *)
From Stdlib Require Import Relation_Operators Wellfounded.
From S2P Require Import Prelude Codec Utf8 Text Kv Buffering Protocol Sessions Contents Store Batch Worker Send.
From S2P Require Import Startup Receive Dispatcher ManagerTask System Provenance Linking.
From S2P Require Import Dialogue MessageStore Screens AppLoop AppSpec AppHistory Client.

(** ** Counting *)
Section counting.
Context {A : Type}.
Implicit Types (f : A -> bool) (g : A -> nat) (l : list A).

Definition countb f l : nat := length (List.filter f l).

Lemma countb_app f l1 l2 : countb f (l1 ++ l2) = countb f l1 + countb f l2.
Proof. unfold countb. by rewrite List.filter_app, length_app. Qed.
Lemma countb_cons f x l : countb f (x :: l) = (if f x then 1 else 0) + countb f l.
Proof. unfold countb. simpl. by destruct (f x). Qed.
Lemma countb_none f l : Forall (fun x => f x = false) l -> countb f l = 0.
Proof. induction 1 as [|x l Hx _ IH]; [done|]. by rewrite countb_cons, Hx. Qed.
Lemma countb_zero f l : countb f l = 0 -> Forall (fun x => f x = false) l.
Proof.
  induction l as [|x l IH]; [constructor|]. rewrite countb_cons. destruct (f x) eqn:Hx; [done|].
  intros Hl. constructor; [done|by apply IH].
Qed.

(** A list of which one element changes. *)
Lemma sum_insert g l k x y :
  l !! k = Some x -> sum_list_with g (<[k := y]> l) + g x = sum_list_with g l + g y.
Proof.
  revert k. induction l as [|z l IH]; intros [|k] Hk; simplify_eq/=; [lia|].
  specialize (IH k Hk). lia.
Qed.
Lemma sum_alter g (h : A -> A) l k x :
  l !! k = Some x -> sum_list_with g (alter h k l) + g x = sum_list_with g l + g (h x).
Proof.
  revert k. induction l as [|z l IH]; intros [|k] Hk; simplify_eq/=; [lia|].
  specialize (IH k Hk). lia.
Qed.
End counting.

(** The lexicographic order, from the components. *)
Lemma lex_intro {B} (RB : B -> B -> Prop) (m n : nat) (y y' : B) :
  m <= n -> (m = n -> RB y y') -> slexprod _ _ lt RB (m, y) (n, y').
Proof.
  intros Hm Hy. destruct (decide (m = n)) as [->|Hne]; [right; by apply Hy|left; lia].
Qed.

(** ** What a handled event sends *)
Section replies.
Context {Uuid X : Type} `{!UuidCrate Uuid} `{Countable Uuid} `{HashOrder} `{!Ui X} `{!UnicodeTables}.
Abbreviation handler := (M (Desk Uuid X) Panic).
Implicit Types (d : Desk Uuid X) (b : bool).

(** The handler sends at most [StartReceive], and that only if [b]. *)
Definition replies b {B} (m : handler B) : Prop :=
  forall d r d', m d = (r, d') ->
  exists xs, sent d' = sent d ++ xs /\ Forall (fun x => x = StartReceive /\ b = true) xs.

Lemma replies_silent b {B} (m : handler B) : (forall d, sent (m d).2 = sent d) -> replies b m.
Proof. intros Hm d r d' Hd. exists []. specialize (Hm d). rewrite Hd in Hm. by rewrite app_nil_r. Qed.
Lemma replies_bind b {B C} (m : handler B) (k : B -> handler C) :
  replies b m -> (forall x, replies b (k x)) -> replies b (mbind m k).
Proof.
  intros Hm Hk d r d' [(x & d1 & Hx & Hr)|(e & He & _)]%mbind_inv; [|by eapply Hm].
  destruct (Hm _ _ _ Hx) as (xs & Hs & Hf), (Hk _ _ _ _ Hr) as (ys & Hs' & Hf').
  exists (xs ++ ys). rewrite app_assoc, <- Hs. split; [done|]. by apply Forall_app.
Qed.
Lemma replies_mok b {B} (x : B) : replies b (mok x).
Proof. by apply replies_silent. Qed.
Lemma replies_get b : replies b get_app.
Proof. by apply replies_silent. Qed.
Lemma replies_ask b {B} (f : X -> B) : replies b (ask f).
Proof. by apply replies_silent. Qed.
Lemma replies_io b {B} (f : X -> B * X) : replies b (io f).
Proof. apply replies_silent. intros d. unfold io. by destruct (f (world d)). Qed.
Lemma replies_io_ b (f : X -> X) : replies b (io_ f).
Proof. by apply replies_silent. Qed.
Lemma replies_upd b (f : App Uuid -> App Uuid) : replies b (upd f).
Proof. by apply replies_silent. Qed.
Lemma replies_upd_or_panic b (f : App Uuid -> option (App Uuid)) : replies b (upd_or_panic f).
Proof. apply replies_silent. intros d. unfold upd_or_panic. by destruct (f (app d)). Qed.
Lemma replies_send : replies true (send_blocking StartReceive).
Proof.
  intros d r d'. unfold send_blocking. destruct (channel_send _ _) as [r0 x]. intros [= _ <-].
  exists (if is_ok r0 then [StartReceive] else []). destruct r0; simpl; [|by rewrite app_nil_r].
  split; [done|]. by constructor.
Qed.
Lemma replies_weaken b {B} (m : handler B) : replies false m -> replies b m.
Proof.
  intros Hm d r d' Hd. destruct (Hm _ _ _ Hd) as (xs & Hs & Hf). exists xs. split; [done|].
  eapply Forall_impl; [exact Hf|]. by intros x [_ ?].
Qed.
End replies.

Create HintDb replies_db.
#[export] Hint Resolve replies_mok replies_get replies_ask replies_io replies_io_ replies_upd replies_upd_or_panic replies_send : replies_db.
Ltac reply :=
  repeat first
    [ progress intros
    | solve [eauto with replies_db]
    | match goal with
      | |- replies _ (mbind _ _) => apply replies_bind
      | |- replies _ (match ?x with _ => _ end) => destruct x
      | |- replies _ (let '(_, _) := ?x in _) => destruct x
      end
    | progress cbv beta zeta ].

Section events.
Context {Uuid X : Type} `{!UuidCrate Uuid} `{Countable Uuid} `{HashOrder} `{!Ui X} `{!UnicodeTables}.

Lemma replies_now b : replies (Uuid := Uuid) (X := X) b unix_now_ms.
Proof. unfold unix_now_ms. reply. Qed.
#[local] Hint Resolve replies_now : replies_db.
Lemma replies_render b : replies (Uuid := Uuid) (X := X) b render_ok.
Proof. unfold render_ok, render. reply. Qed.
Lemma replies_notify b t q : replies (Uuid := Uuid) (X := X) b (notify_if_modals t q).
Proof. unfold notify_if_modals. reply. Qed.
#[local] Hint Resolve replies_render replies_notify : replies_db.

Lemma replies_event (e : Event Uuid) : replies (X := X) (trigger e) (handle_worker_event e).
Proof.
  destruct e as [| | | | | |[info|]| | | |ts|reason ts| | | | | | | |]; cbn [handle_worker_event trigger];
    unfold when, on_link_complete, on_link_error, on_message, on_account_info, reset_with, on_send_complete,
      on_send_error, on_contact_resolved, handle_username_resolve_result; reply.
Qed.

Lemma replies_events (es : list (Event Uuid)) :
  replies (X := X) (existsb trigger es) (mfor es handle_worker_event ;* render_ok).
Proof.
  apply replies_bind; [|intros _; apply replies_render].
  induction es as [|e es IH]; [apply replies_mok|]. cbn [mfor existsb].
  apply replies_bind; [|intros _].
  - pose proof (replies_event e) as He. destruct (trigger e); [done|by apply replies_weaken].
  - destruct (existsb trigger es); [by rewrite orb_true_r|by apply replies_weaken].
Qed.
End events.

(** ** The worker's turns *)
Section settle.
Context `{HashOrder} `{SignalMisc} `{!RustDebug}
  {St SessionRecord Mgr ServiceId Uuid Contact X : Type} `{Countable Uuid} `{!KvBackend St}
  `{!WireRecord SessionRecord} `{!Bincode SessionBundle} `{!Json SessionBundle} `{!Json Contact}
  `{!ServiceIdText ServiceId}
  `{!WorkerIds ServiceId Uuid} `{!ContactFields Contact Uuid}
  `{!Presage (PddbStore (StoreBackend St) SessionRecord) Mgr ServiceId Uuid}
  `{!PresageLink (PddbStore (StoreBackend St) SessionRecord) Mgr}
  `{!LinkSteps (PddbStore (StoreBackend St) SessionRecord) Mgr}
  `{!UuidCrate Uuid} `{!Ui X} `{!UnicodeTables}.
Abbreviation P := (PddbStore (StoreBackend St) SessionRecord).
Abbreviation Y := (System P Mgr Uuid).
Abbreviation C := (Client P Mgr Uuid X).
Abbreviation Shared := (World P unit Uuid).
Implicit Types (c : C) (s : Y).

(** The commands that report an account. *)
Definition opener (x : Cmd) : bool := match x with LinkDevice _ | GetAccountInfo => true | _ => false end.

(** The ops that wait in front of the tasks. *)
Definition queued s : nat := sum_list_with (fun sl => length (k_queue sl)) (y_tasks s).

Lemma absorb_queued new (d' : Dispatcher P Mgr Uuid) s :
  sys_ok s -> turn_links new d' s -> queued (absorb new d' s) <= S (queued s).
Proof.
  intros Hs Hd. unfold absorb, queued. destruct new as [m|]; simpl.
  { rewrite sum_list_with_app. simpl. lia. }
  destruct (y_link s) as [k|] eqn:Hl; [|simpl; lia]. destruct (d_ops d') as [ch|] eqn:Ho; [|simpl; lia].
  destruct (sys_link _ Hs k Hl) as [sl Hk]. cbn [y_tasks].
  pose proof (sum_alter (fun sl => length (k_queue sl)) (enqueue (op_queue ch)) _ _ _ Hk) as Hsum.
  cbn [k_queue enqueue] in Hsum.
  unfold turn_links in Hd. rewrite Ho, (view_link s k sl Hl Hk) in Hd.
  destruct Hd as [|[Hd|(ch0 & op & Hv & _ & _ & Hd)]]; [done|..].
  - injection Hd as ->. cbn [op_queue channel_of] in Hsum |- *. lia.
  - injection Hv as <-. injection Hd as ->. cbn [op_queue channel_of] in Hsum |- *. rewrite length_app in Hsum.
    cbn [length] in Hsum. lia.
Qed.

Lemma cmd_queued x inputs resolved s s' :
  sys_ok s -> sys_step (Contact := Contact) (ServiceId := ServiceId) s (TurnCmd x inputs resolved) = Some s' ->
  queued s' <= S (queued s).
Proof.
  intros Hs. unfold sys_step. destruct (y_running s); [|done]. destruct (can_accept x s) eqn:Ha; [|done]. intros [= <-].
  apply absorb_queued; [done|]. by apply command_links.
Qed.

Lemma take_op_inv linked (sl : Slot P Mgr Uuid) i sl' :
  wake_slot (ServiceId := ServiceId) linked TakeOp sl = Some (i, sl') ->
  exists op, i = WakeOp op /\ k_queue sl = op :: k_queue sl'.
Proof.
  unfold wake_slot. destruct (t_phase _); try discriminate;
    (destruct (k_queue sl) as [|op rest]; [done|]; intros [= <- <-]; by exists op).
Qed.

Lemma op_queued k ms s s' :
  sys_step (Contact := Contact) (ServiceId := ServiceId) s (TurnTask k ms TakeOp) = Some s' -> S (queued s') = queued s.
Proof.
  unfold sys_step. destruct (y_running s); [|done]. destruct (y_tasks s !! k) as [sl|] eqn:Hk; [|done]. simpl.
  destruct (wake_slot _ _ sl) as [[i sl']|] eqn:Hw; [|done]. intros [= <-].
  apply take_op_inv in Hw as (op & -> & Hq). unfold queued, run_slot. cbn [y_tasks].
  pose proof (sum_insert (fun sl => length (k_queue sl)) _ _ _
    (mkSlot (k_manager sl') (task_step (Contact := Contact) (resume (y_world s) (k_task sl')) (ms, WakeOp op)) (k_queue sl')
       (k_accepted sl') (k_executed sl')) Hk) as Hsum.
  cbn beta in Hsum. rewrite Hq in Hsum. cbn [k_queue length] in Hsum. lia.
Qed.
(** A turn that opens no account causes no event that the app answers. *)
Definition modest (u : Turn ServiceId Uuid) : Prop := match u with TurnCmd x _ _ => opener x = false | _ => True end.

Lemma modest_turn u s s' :
  sys_ok s -> modest u -> sys_step (Contact := Contact) s u = Some s' ->
  Forall (fun e => trigger e = false) (drop (length (w_events (y_world s))) (w_events (y_world s'))).
Proof.
  intros Hs Hu Hstep. set (Q := mkPromise (fun _ => True) False (length (w_events (y_world s)))).
  assert (Hop : forall op, op_credit Q op) by by intros [].
  assert (Hc : sys_credited Q s).
  { constructor; [constructor; [|done]; simpl; by rewrite drop_all|]. intros k sl _. constructor; [|done].
    apply Forall_true, Hop. }
  assert (Hcmd : turn_credit Q u) by (destruct u as [[]| |]; done).
  eapply Forall_impl; [exact (cr_events _ _ (yc_world _ _ (sys_step_credited Q _ _ u Hs Hcmd Hstep Hc)))|].
  intros x. unfold credit. by destruct x as [| | | | | |[]| | | | | | | | | | | | |].
Qed.

(** ** The measure *)

(** A wake-up call of the forwarder, among the messages of the server. *)
Definition is_poke (msg : GamMessage) : bool := match xas_op (g_id msg) with Some OpWorkerEvent => true | _ => false end.

Definition untaken c : list Cmd := drop (c_taken c) (commands c).
Definition unhandled c : list (Event Uuid) := pending_events (c_app c) ++ drop (c_relayed c) (events c).

(** Messages of the server; commands that may open an account, and the link in
    flight, which weighs less than the command it comes from; events that the app
    answers; commands and ops, a command weighing more than the op it becomes; events
    in front of the forwarder; messages of any kind. *)
Definition Measure : Type := nat * (nat * (nat * (nat * (nat * nat)))).
Definition measure c : Measure :=
  (countb (fun msg => negb (is_poke msg)) (mailbox (c_app c)),
   (3 * countb opener (untaken c) + link_weight (c_link c),
    (countb trigger (unhandled c),
     (2 * length (untaken c) + queued (c_worker c),
      (length (events c) - c_relayed c,
       length (mailbox (c_app c))))))).
Definition smaller : Measure -> Measure -> Prop :=
  slexprod _ _ lt (slexprod _ _ lt (slexprod _ _ lt (slexprod _ _ lt (slexprod _ _ lt lt)))).

Lemma smaller_wf : well_founded smaller.
Proof. repeat apply wf_slexprod; apply lt_wf. Qed.

Lemma relay_smaller c c' : relay true c = Some c' -> smaller (measure c') (measure c).
Proof.
  unfold relay. destruct (events c !! c_relayed c) as [e|] eqn:He; [|done]. intros [= <-].
  pose proof (lookup_lt_Some _ _ _ He) as Hlt.
  apply lex_intro; [|intros _; apply lex_intro; [|intros _; apply lex_intro; [|intros _; apply lex_intro; [|intros _; left]]]].
  - simpl. rewrite countb_app. simpl. rewrite countb_cons. simpl. unfold countb. simpl. lia.
  - done.
  - unfold unhandled, events in *. simpl. by rewrite <- app_assoc, (drop_S _ _ _ He).
  - done.
  - unfold events in *. simpl. lia.
Qed.
Lemma serve_poke msg (es : list (Event Uuid)) :
  is_poke msg = true -> serve (X := Wired X) msg es = (mfor es handle_worker_event ;* render_ok, []).
Proof. unfold is_poke, serve. destruct (g_args msg) as [[[k1 k2] k3] k4]. by destruct (xas_op (g_id msg)) as [[]|]. Qed.
Lemma serve_other msg (es : list (Event Uuid)) : is_poke msg = false -> (serve (X := Wired X) msg es).2 = es.
Proof. unfold is_poke, serve. destruct (g_args msg) as [[[k1 k2] k3] k4]. by destruct (xas_op (g_id msg)) as [[]|]. Qed.

(** What serving a message leaves: fewer messages, and in answer to the events of a
    wake-up call nothing but [StartReceive]. *)
Lemma app_serves_inv c c' :
  app_serves c = Some c' ->
  exists msg, mailbox (c_app c) = msg :: mailbox (c_app c') /\
    c_worker c' = c_worker c /\ c_link c' = c_link c /\ c_taken c' = c_taken c /\ c_relayed c' = c_relayed c /\
    (is_poke msg = false -> pending_events (c_app c') = pending_events (c_app c)) /\
    (is_poke msg = true ->
      pending_events (c_app c') = [] /\
      exists xs, commands c' = commands c ++ xs /\
        Forall (fun x => x = StartReceive /\ existsb trigger (pending_events (c_app c)) = true) xs).
Proof.
  unfold app_serves. destruct (mailbox (c_app c)) as [|msg rest] eqn:Hm; [done|]. destruct (cmd_room c); [|done].
  cbn [app_step plug mailbox pending_events desk]. rewrite Hm.
  set (d0 := mkDesk _ _ _). assert (Hd0 : sent d0 = commands c) by done. clearbody d0.
  destruct (serve msg (pending_events (c_app c))) as [m pending] eqn:Hs.
  destruct (m d0) as [[u|e] d] eqn:Hd; [|done]. intros [= <-]. exists msg. do 5 (split; [done|]).
  split; [intros Hp; pose proof (serve_other msg (pending_events (c_app c)) Hp) as Ho; by rewrite Hs in Ho|]. intros Hp. rewrite serve_poke in Hs by done. injection Hs as <- <-. split; [done|].
  apply replies_events in Hd as (xs & Hx & Hf). exists xs. rewrite <- Hd0. by split.
Qed.

Lemma existsb_countb {A} (f : A -> bool) l : existsb f l = true -> 0 < countb f l.
Proof.
  induction l as [|x l IH]; [done|]. simpl. rewrite countb_cons. destruct (f x); simpl; [lia|]. intros Hl. by apply IH.
Qed.

Lemma serves_smaller c c' : client_ok c -> app_serves c = Some c' -> smaller (measure c') (measure c).
Proof.
  intros Hc (msg & Hm & Hw & Hl & Ht & Hr & _ & Hp)%app_serves_inv. unfold measure, untaken, unhandled. rewrite Hl, Ht, Hr, Hm.
  assert (He : events c' = events c) by (unfold events; by rewrite Hw). rewrite He, Hw, countb_cons.
  destruct (is_poke msg); [|left; simpl; lia]. destruct Hp as (Hpe & xs & Hx & Hxs); [done|].
  rewrite Hpe, Hx, !countb_app, drop_app_le, countb_app by apply Hc.
  apply lex_intro; [done|intros _]. apply lex_intro.
  { assert (Ho : countb opener xs = 0); [|lia]. apply countb_none. eapply Forall_impl; [exact Hxs|]. by intros x [-> _]. }
  intros _. apply lex_intro; [simpl; lia|]. intros Hn. change (countb trigger []) with 0 in Hn.
  destruct (existsb trigger (pending_events (c_app c))) eqn:Hex; [apply existsb_countb in Hex; lia|].
  assert (xs = []) as ->. { destruct Hxs as [|x xs [_ ?]]; [done|congruence]. }
  rewrite app_nil_r. do 2 right. simpl. lia.
Qed.

Lemma modest_unhandled c (s : Y) n link :
  client_ok c -> (exists es, w_events (y_world s) = events c ++ es) ->
  Forall (fun e => trigger e = false) (drop (length (events c)) (w_events (y_world s))) ->
  countb trigger (unhandled (worked n link s c)) = countb trigger (unhandled c).
Proof.
  intros Hc [es He] Hes. unfold unhandled. rewrite !countb_app. unfold events at 1. simpl.
  rewrite He, drop_app_length in Hes. rewrite He, drop_app_le, countb_app, (countb_none _ es) by (done || apply Hc).
  lia.
Qed.

(** A turn of the worker that takes [n] commands. *)
Lemma untaken_split c n link (s : Y) f :
  countb f (untaken (worked n link s c)) + countb f (take n (untaken c)) = countb f (untaken c).
Proof.
  unfold untaken. change (commands (worked n link s c)) with (commands c). cbn [worked c_taken].
  rewrite <- drop_drop. set (xs := drop (c_taken c) (commands c)). rewrite <- (take_drop n xs) at 3.
  rewrite countb_app. lia.
Qed.

(** Less to open, in the commands or the link. *)
Lemma opens_smaller c n link (s : Y) :
  3 * countb opener (untaken (worked n link s c)) + link_weight link <
    3 * countb opener (untaken c) + link_weight (c_link c) ->
  smaller (measure (worked n link s c)) (measure c).
Proof. intros Hn. apply lex_intro; [done|]. intros _. left. exact Hn. Qed.

(** Nothing more to open, no event that the app answers, fewer commands and ops. *)
Lemma worker_smaller c n link (s : Y) :
  client_ok c -> (exists es, w_events (y_world s) = events c ++ es) ->
  Forall (fun e => trigger e = false) (drop (length (events c)) (w_events (y_world s))) ->
  link_weight link <= link_weight (c_link c) ->
  c_taken c + n <= length (commands c) -> queued s < 2 * n + queued (c_worker c) ->
  smaller (measure (worked n link s c)) (measure c).
Proof.
  intros Hc He Hes Hl Hn Hq. unfold measure. rewrite (modest_unhandled c s n link) by done.
  pose proof (untaken_split c n link s opener) as Ho.
  apply lex_intro; [done|intros _]. apply lex_intro; [cbn [worked c_link]; lia|].
  intros _. apply lex_intro; [done|intros _]. left. unfold untaken.
  change (commands (worked n link s c)) with (commands c). cbn [worked c_taken c_worker]. rewrite !length_drop. lia.
Qed.

Lemma step_smaller c u s n :
  client_ok c -> client_turn u -> modest u -> sys_step (Contact := Contact) (c_worker c) u = Some s ->
  c_taken c + n <= length (commands c) -> queued s < 2 * n + queued (c_worker c) ->
  smaller (measure (worked n (c_link c) s c)) (measure c).
Proof.
  intros Hc Hu Hm Hs Hn Hq. apply worker_smaller; try done.
  - by eapply worker_turn_alive in Hs as (_ & _ & Hes); [exact Hes|apply Hc..|].
  - eapply modest_turn; [apply Hc|done|exact Hs].
Qed.

(** A link that takes a command says nothing. *)
Lemma take_smaller c l x rest s :
  client_ok c -> c_link c = Some l -> commands c !! c_taken c = Some x ->
  sys_link_turn (event_slot c) l (LinkTakes x) (c_worker c) = Some (rest, s) ->
  smaller (measure (worked 1 rest s c)) (measure c).
Proof.
  intros Hc Hl Hx. destruct (taken_credit (ServiceId := ServiceId) (Uuid := Uuid) c x Hc Hx) as [Hcmd _].
  apply lookup_lt_Some in Hx. unfold sys_link_turn.
  destruct (link_turn _ l _ _) as [[[rest0 new] d]|] eqn:Ht; [|done].
  apply take_quiet in Ht as (-> & -> & Hw); [|by intros ->]. intros Hn. apply Some_inj, pair_equal_spec in Hn as [<- <-].
  assert (Hq := absorb_queued None (view (c_worker c)) (c_worker c) (co_sys _ Hc) (or_intror (or_introl eq_refl))).
  apply worker_smaller; [done| | |rewrite Hl; lia|lia|lia].
  - exists []. rewrite absorb_world, app_nil_r. done.
  - rewrite absorb_world. unfold events. by rewrite drop_all.
Qed.

Lemma cmd_smaller c c' : client_ok c -> worker_cmd c = Some c' -> smaller (measure c') (measure c).
Proof.
  intros Hc. unfold worker_cmd. destruct (commands c !! c_taken c) as [x|] eqn:Hx; [|done]. simpl.
  destruct (c_link c) as [l|] eqn:Hl.
  { destruct (sys_link_turn _ _ _ _) as [[rest s]|] eqn:Ht; [|done]. intros [= <-]. by eapply take_smaller. }
  destruct (event_room c); [|done].
  assert (Hopen : forall link (s : Y), opener x = true -> link_weight link <= 2 -> smaller (measure (worked 1 link s c)) (measure c)).
  { intros link s Ho Hw. apply opens_smaller. pose proof (untaken_split c 1 link s opener) as Hs. revert Hs.
    unfold untaken at 2. rewrite (drop_S _ _ _ Hx). cbn [take]. rewrite countb_cons, Ho, Hl. cbn [link_weight]. lia. }
  destruct (link_started x (c_worker c)) as [[l s]|] eqn:Hs.
  { intros [= <-]. apply Hopen; [by destruct x|]. simpl. destruct (l_phase l); lia. }
  clear Hs. destruct (sys_step _ _) as [s|] eqn:Hs; [|done]. intros [= <-].
  destruct (opener x) eqn:Ho; [apply Hopen; [done|simpl; lia]|]. rewrite <- Hl.
  destruct (taken_credit (ServiceId := ServiceId) (Uuid := Uuid) c x Hc Hx) as [Hcmd _]. apply lookup_lt_Some in Hx.
  apply (step_smaller c (TurnCmd x [] false)); [done|by split|exact Ho|exact Hs|lia|].
  apply cmd_queued in Hs; [lia|apply Hc].
Qed.

Lemma link_smaller c u c' : own_turn u -> worker_link u c = Some c' -> smaller (measure c') (measure c).
Proof.
  intros Hu. unfold worker_link. destruct (c_link c) as [l|] eqn:Hl; [|done].
  assert (Hmain : ('(rest, s) ← sys_link_turn (event_slot c) l u (c_worker c); Some (worked 0 rest s c)) = Some c' ->
    smaller (measure c') (measure c)).
  { unfold sys_link_turn. destruct (link_turn _ l u _) as [[[rest new] d]|] eqn:Ht; [|done]. intros [= <-].
    apply own_turn_lighter in Ht; [|done]. apply opens_smaller.
    pose proof (untaken_split c 0 rest (absorb new d (c_worker c)) opener) as Hs. cbn [take] in Hs.
    change (countb opener []) with 0 in Hs. rewrite Hl. lia. }
  destruct Hu as [->|[->| ->]]; exact Hmain.
Qed.

Lemma op_smaller c k ms c' :
  client_ok c -> worker_task k ms TakeOp c = Some c' -> smaller (measure c') (measure c).
Proof.
  intros Hc. unfold worker_task. destruct (event_room c); [|done].
  destruct (sys_step _ _) as [s|] eqn:Hs; [|done]. intros [= <-].
  pose proof (step_smaller c (TurnTask k ms TakeOp) s 0 Hc I I Hs) as Hw. rewrite Nat.add_0_r in Hw.
  apply op_queued in Hs. apply Hw; [apply Hc|lia].
Qed.

Lemma turn_settles c u c' :
  client_ok c -> internal u -> client_step (Contact := Contact) c u = Some c' -> smaller (measure c') (measure c).
Proof.
  intros Hc. destruct u as [msg| |[]| |v|k ms []]; cbn [internal client_step]; try done; intros Hu.
  - by apply serves_smaller.
  - apply relay_smaller.
  - by apply cmd_smaller.
  - by apply link_smaller.
  - by apply op_smaller.
Qed.
(** ** Rest *)

(** Nothing waits, in front of a living task neither. *)
Definition resting c : Prop :=
  at_rest c /\ forall k sl, y_tasks (c_worker c) !! k = Some sl -> running sl = true -> k_queue sl = [].

(** No wake-up call was lost: events in the deque have one in the mailbox. *)
Definition poked c : Prop := pending_events (c_app c) = [] \/ exists msg, msg ∈ mailbox (c_app c) /\ is_poke msg = true.

Lemma poked_step c u c' : client_ok c -> internal u -> client_step (Contact := Contact) c u = Some c' -> poked c -> poked c'.
Proof.
  intros Hc Hu. destruct (worker_turns u) as [[msg ->]|[->|[[b ->]|Hw]]]; [done| | |]; cbn [client_step].
  - intros (msg & Hm & _ & _ & _ & _ & Ho & Hp)%app_serves_inv Hc'. destruct (is_poke msg) eqn:Hk; [left; by apply Hp|].
    destruct Hc' as [Hc'|(m & Hin & Hpoke)].
    + left. by rewrite Ho.
    + right. exists m. split; [|done]. rewrite Hm in Hin. apply elem_of_cons in Hin as [->|]; [congruence|done].
  - destruct b; [|done]. unfold relay. destruct (events c !! c_relayed c); [|done]. intros [= <-] _. right. exists wake. split; [|done].
    simpl. apply elem_of_app. right. by left.
  - intros Hs. by destruct (worker_turn_moves c u c' Hc Hw Hs) as (n & link & s & -> & _).
Qed.

Lemma op_enabled c k sl :
  client_ok c -> event_room c = true -> y_tasks (c_worker c) !! k = Some sl -> running sl = true -> k_queue sl <> [] ->
  exists c', client_step (Contact := Contact) c (WorkerTask k 0 TakeOp) = Some c'.
Proof.
  intros Hc He Hk Hrun Hq. cbn [client_step]. unfold worker_task, sys_step. rewrite He, (co_running _ Hc), Hk. simpl.
  pose proof (slot_waits _ (sys_slots _ (co_sys _ Hc) k sl Hk)) as Hwait.
  assert (Hw : exists i sl', wake_slot (ServiceId := ServiceId) (bool_decide (y_link (c_worker c) = Some k)) TakeOp sl = Some (i, sl')).
  { unfold wake_slot, running in *. destruct (k_queue sl) as [|op rest]; [done|].
    destruct (t_phase (k_task sl)); done || by do 2 eexists. }
  destruct Hw as (i & sl' & ->). by eexists.
Qed.

Lemma rest_or_move c :
  client_ok c -> resting c \/ exists u c', internal u /\ client_step (Contact := Contact) c u = Some c'.
Proof.
  intros Hc. destruct (client_progress (Contact := Contact) c Hc) as (_ & _ & _ & [Hr|(u & c' & Hu & Hs)]).
  2: { right. by exists u, c'. }
  destruct (decide (Exists (fun sl => running sl = true /\ length (k_queue sl) <> 0) (y_tasks (c_worker c)))) as [Hex|Hno].
  - right. apply Exists_exists in Hex as (sl & [k Hk]%list_elem_of_lookup & Hrun & Hq).
    destruct (op_enabled c k sl Hc) as [c' Hs]; [|done|done|by intros Hn; rewrite Hn in Hq|].
    { apply Nat.leb_le. destruct Hr as [Hr _]. lia. }
    by exists (WorkerTask k 0 TakeOp), c'.
  - left. split; [done|]. intros k sl Hk Hrun. destruct (k_queue sl) eqn:Hq; [done|]. destruct Hno.
    apply Exists_exists. exists sl. split; [by eapply list_elem_of_lookup_2|]. by rewrite Hq.
Qed.

Definition settles_to (c' c : C) : Prop := exists u, internal u /\ client_step (Contact := Contact) c u = Some c'.

Lemma settles_acc c : client_ok c -> Acc settles_to c.
Proof.
  remember (measure c) as n eqn:Hn. revert c Hn. induction n as [n IH] using (well_founded_ind smaller_wf).
  intros c -> Hc. constructor. intros c' (u & Hu & Hs).
  eapply IH; [by eapply turn_settles|done|]. by eapply client_step_ok.
Qed.

Lemma settles c :
  client_ok c -> exists us c', Forall internal us /\ client_run (Contact := Contact) us c = Some c' /\ resting c'.
Proof.
  intros Hc. pose proof (settles_acc c Hc) as Ha. induction Ha as [c _ IH].
  destruct (rest_or_move c Hc) as [Hr|(u & c1 & Hu & Hs)]; [exists [], c; split; [constructor|by split]|].
  destruct (IH c1) as (us & c' & Hus & Hrun & Hr); [by exists u|by eapply client_step_ok|].
  exists (u :: us), c'. split; [by constructor|]. split; [|done]. simpl. by rewrite Hs.
Qed.

Lemma poked_run us c c' : client_ok c -> Forall internal us -> client_run (Contact := Contact) us c = Some c' -> poked c -> poked c'.
Proof.
  intros Hc Hus. revert c Hc. induction Hus as [|u us Hu Hus IH]; intros c Hc; simpl; [by intros [= <-]|].
  destruct (client_step c u) as [c1|] eqn:Hs; [|done]. simpl. intros Hr Hp.
  eapply IH; [by eapply client_step_ok|exact Hr|by eapply poked_step].
Qed.

Lemma rest_handled c : client_ok c -> resting c -> poked c -> c_handled c = events c.
Proof.
  intros Hc [(Hr & _ & Hm & _) _] [Hp|(msg & Hin & _)]; [|by rewrite Hm in Hin; apply not_elem_of_nil in Hin].
  pose proof (co_order _ Hc) as Ho. rewrite Hp, app_nil_r, Hr, firstn_all in Ho. exact Ho.
Qed.

(** C9: Left alone, the client comes to rest. From any reachable state no infinite
    sequence of turns is possible that takes nothing from the user, the network or
    the clock; any such sequence that cannot be prolonged, and there is one, ends
    with every command received, every op carried out unless its task has stopped,
    every event passed on, every message served, and a link in flight, if any, that
    waits for its server. If no wake-up call was lost, the app has then handled every
    event of the worker. *)
Theorem client_comes_to_rest w x c :
  just_started w x -> client_reachable (Contact := Contact) w x c ->
  Acc settles_to c /\
  (exists us c', Forall internal us /\ client_run (Contact := Contact) us c = Some c' /\ resting c') /\
  forall us c', Forall internal us -> client_run (Contact := Contact) us c = Some c' ->
    (forall u, internal u -> client_step (Contact := Contact) c' u = None) ->
    resting c' /\ (poked c -> c_handled c' = events c').
Proof.
  intros Hf Hc%reachable_client; [|done]. split; [by apply settles_acc|]. split; [by apply settles|].
  intros us c' Hus Hrun Hend. pose proof (client_run_ok us c c' Hc Hrun) as Hc'.
  destruct (rest_or_move c' Hc') as [Hr|(u & c1 & Hu & Hs)]; [|by rewrite Hend in Hs].
  split; [done|]. intros Hp. apply rest_handled; [done..|]. eapply (poked_run us c c'); done.
Qed.
End settle.

(** ** A message on its way *)
From S2P Require Import Concrete AppConcrete.

#[local] Existing Instances canonical_order plain_debug string_json scripted no_wide text_uuids text_ids text_contact
  willing_presage known_device offline_steps.

(** The commands of the keys typed still wait; the client brings them to their end. *)
Lemma client_comes_to_rest_witness :
  c_taken (client_after typed) = 0 /\ length (commands (client_after typed)) = 2 /\
  exists us c', Forall internal us /\ client_run (Contact := string) us (client_after typed) = Some c' /\
    c_taken c' = length (commands c').
Proof.
  split; [vm_compute; reflexivity|]. split; [vm_compute; reflexivity|].
  assert (Hr : client_reachable (Contact := string) clean_world desk_world (client_after typed))
    by (apply reached; vm_compute; reflexivity).
  revert Hr. generalize (client_after typed). intros c Hr.
  destruct (client_comes_to_rest (Contact := string) clean_world desk_world c starts_clean Hr) as (_ & (us & c' & Hus & Hrun & Hrest) & _).
  exists us, c'. split; [exact Hus|]. split; [exact Hrun|]. exact (proj1 (proj2 (proj1 Hrest))).
Defined.
