(* ===== verification/AppTests.v ===== *)
(** * Unit tests of the app ([dialogue.rs], [store.rs] and [log_filter.rs] of
    [xous-app-signal], [redact.rs] of [presage-store-pddb]; [mod tests])

    UUIDs are 128-bit numbers, as in [AppConcrete]. *)
From S2P Require Import Prelude Codec Utf8 Text Redact Worker Dialogue MessageStore AppConcrete Testing.

#[local] Existing Instances canonical_order number_uuids.

(** ** Fixtures *)
Definition uuid_a : N := 0x0123456789abcdef0011223344556677.
Definition uuid_b : N := 0xf0f0f0f0f0f0f0f0f0f0f0f0f0f0f0f0.
Abbreviation Msg := (ThreadMessage N).
Abbreviation Summary := (DialogueSummary N).

Definition incoming (uuid ts : N) (body label : string) : Msg := mkMsg uuid label body ts false Sent false false.
Definition outgoing (uuid ts : N) (body : string) (status : SendStatus) : Msg :=
  mkMsg uuid "You" body ts true status true false.
Definition rebuilt (ms : list Msg) : list Summary := rebuild_summaries ms.
(** [s.ends_with(..)] on characters. *)
Definition ends_with_char (s c : string) : bool := bool_decide (last (chars s) = head (chars c)).
(** [v\[i\]], and the checks made on it. *)
Definition nth_is {A} (v : list A) (i : nat) (f : A -> bool) : bool :=
  match v !! i with Some d => f d | None => false end.

(** ** [ellipsize] *)
Definition ellipsize_short_unchanged : Test unit :=
  asserts [bool_decide (ellipsize "hi" 5 = "hi")].
Example ellipsize_short_unchanged_passes : passes ellipsize_short_unchanged tt = true.
Proof. run_test. Qed.

Definition ellipsize_at_boundary_unchanged : Test unit :=
  asserts [bool_decide (ellipsize "hello" 5 = "hello")].
Example ellipsize_at_boundary_unchanged_passes : passes ellipsize_at_boundary_unchanged tt = true.
Proof. run_test. Qed.

Definition ellipsize_truncates_with_ellipsis : Test unit :=
  asserts [bool_decide (char_count (ellipsize "hello world" 5) = 5);
    ends_with_char (ellipsize "hello world" 5) "…";
    bool_decide (ellipsize "hello world" 5 = "hell…")].
Example ellipsize_truncates_with_ellipsis_passes : passes ellipsize_truncates_with_ellipsis tt = true.
Proof. run_test. Qed.

Definition ellipsize_zero_max_yields_empty : Test unit :=
  asserts [bool_decide (ellipsize "anything" 0 = "")].
Example ellipsize_zero_max_yields_empty_passes : passes ellipsize_zero_max_yields_empty tt = true.
Proof. run_test. Qed.

Definition ellipsize_handles_multibyte : Test unit :=
  asserts [bool_decide (ellipsize "hï" 2 = "hï");
    bool_decide (ellipsize "hïllo" 3 = "hï…")].
Example ellipsize_handles_multibyte_passes : passes ellipsize_handles_multibyte tt = true.
Proof. run_test. Qed.

(** ** [brief_relative] *)
Definition brief_relative_seconds : Test unit :=
  asserts [bool_decide (brief_relative 0 30000 = "30s");
    bool_decide (brief_relative 0 59999 = "59s")].
Example brief_relative_seconds_passes : passes brief_relative_seconds tt = true.
Proof. run_test. Qed.

Definition brief_relative_minutes : Test unit :=
  asserts [bool_decide (brief_relative 0 60000 = "1m");
    bool_decide (brief_relative 0 (12 * 60000) = "12m");
    bool_decide (brief_relative 0 (59 * 60000 + 999) = "59m")].
Example brief_relative_minutes_passes : passes brief_relative_minutes tt = true.
Proof. run_test. Qed.

Definition brief_relative_hours : Test unit :=
  asserts [bool_decide (brief_relative 0 (60 * 60000) = "1h");
    bool_decide (brief_relative 0 (23 * 60 * 60000) = "23h")].
Example brief_relative_hours_passes : passes brief_relative_hours tt = true.
Proof. run_test. Qed.

Definition brief_relative_yesterday : Test unit :=
  asserts [bool_decide (brief_relative 0 (24 * 60 * 60000) = "Yest");
    bool_decide (brief_relative 0 (47 * 60 * 60000) = "Yest")].
Example brief_relative_yesterday_passes : passes brief_relative_yesterday tt = true.
Proof. run_test. Qed.

Definition brief_relative_days : Test unit :=
  asserts [bool_decide (brief_relative 0 (48 * 60 * 60000) = "2d");
    bool_decide (brief_relative 0 (7 * 24 * 60 * 60000) = "7d")].
Example brief_relative_days_passes : passes brief_relative_days tt = true.
Proof. run_test. Qed.

Definition brief_relative_clock_skew_clamps_to_zero : Test unit :=
  asserts [bool_decide (brief_relative 1000000 0 = "0s")].
Example brief_relative_clock_skew_clamps_to_zero_passes : passes brief_relative_clock_skew_clamps_to_zero tt = true.
Proof. run_test. Qed.

(** ** [rebuild_summaries] *)
Definition rebuild_empty_input_yields_empty : Test unit :=
  asserts [bool_decide (length (rebuilt []) = 0)].
Example rebuild_empty_input_yields_empty_passes : passes rebuild_empty_input_yields_empty tt = true.
Proof. run_test. Qed.

Definition rebuild_single_incoming : Test unit :=
  let v := rebuilt [incoming uuid_a 100 "hello" "Alice"] in
  asserts [bool_decide (length v = 1);
    nth_is v 0 (fun d => bool_decide (ds_uuid d = uuid_a));
    nth_is v 0 (fun d => bool_decide (ds_display_name d = "Alice"));
    nth_is v 0 (fun d => bool_decide (ds_last_msg_snippet d = "hello"));
    nth_is v 0 (fun d => bool_decide (ds_last_msg_ts d = 100%N));
    nth_is v 0 (fun d => negb (ds_last_msg_outgoing d));
    nth_is v 0 (fun d => bool_decide (ds_unread_count d = 1%N))].
Example rebuild_single_incoming_passes : passes rebuild_single_incoming tt = true.
Proof. run_test. Qed.

Definition rebuild_groups_by_uuid_takes_latest : Test unit :=
  let v := rebuilt [incoming uuid_a 100 "first" "Alice";
    incoming uuid_a 200 "second" "Alice";
    incoming uuid_a 50 "earlier" "Alice"] in
  asserts [bool_decide (length v = 1);
    nth_is v 0 (fun d => bool_decide (ds_last_msg_ts d = 200%N));
    nth_is v 0 (fun d => bool_decide (ds_last_msg_snippet d = "second"));
    nth_is v 0 (fun d => bool_decide (ds_unread_count d = 3%N))].
Example rebuild_groups_by_uuid_takes_latest_passes : passes rebuild_groups_by_uuid_takes_latest tt = true.
Proof. run_test. Qed.

Definition rebuild_outgoing_does_not_count_unread : Test unit :=
  let v := rebuilt [outgoing uuid_a 100 "ping" Delivered;
    outgoing uuid_a 200 "still ping" Pending] in
  asserts [bool_decide (length v = 1);
    nth_is v 0 (fun d => bool_decide (ds_unread_count d = 0%N));
    nth_is v 0 (fun d => ds_last_msg_outgoing d);
    nth_is v 0 (fun d => bool_decide (ds_last_msg_status d = Pending));
    nth_is v 0 (fun d => bool_decide (ds_last_msg_ts d = 200%N))].
Example rebuild_outgoing_does_not_count_unread_passes : passes rebuild_outgoing_does_not_count_unread tt = true.
Proof. run_test. Qed.

Definition rebuild_mixed_outgoing_uses_incoming_label_for_display_name : Test unit :=
  let v := rebuilt [outgoing uuid_a 50 "hi there" Delivered;
    incoming uuid_a 100 "hello" "Alice"] in
  asserts [bool_decide (length v = 1);
    nth_is v 0 (fun d => bool_decide (ds_display_name d = "Alice"))].
Example rebuild_mixed_outgoing_uses_incoming_label_for_display_name_passes :
  passes rebuild_mixed_outgoing_uses_incoming_label_for_display_name tt = true.
Proof. run_test. Qed.

Definition rebuild_outgoing_only_uses_uuid_fallback_display_name : Test unit :=
  let v := rebuilt [outgoing uuid_a 50 "anyone there?" Sent] in
  asserts [bool_decide (length v = 1);
    nth_is v 0 (fun d => starts_with (ds_display_name d) "uuid:")].
Example rebuild_outgoing_only_uses_uuid_fallback_display_name_passes :
  passes rebuild_outgoing_only_uses_uuid_fallback_display_name tt = true.
Proof. run_test. Qed.

Definition rebuild_multi_uuid_sorts_by_ts_desc : Test unit :=
  let v := rebuilt [incoming uuid_a 100 "older" "Alice";
    incoming uuid_b 300 "newest" "Bob";
    incoming uuid_a 200 "middle" "Alice"] in
  asserts [bool_decide (length v = 2);
    nth_is v 0 (fun d => bool_decide (ds_uuid d = uuid_b));
    nth_is v 1 (fun d => bool_decide (ds_uuid d = uuid_a));
    nth_is v 0 (fun d => bool_decide (ds_last_msg_ts d = 300%N));
    nth_is v 1 (fun d => bool_decide (ds_last_msg_ts d = 200%N))].
Example rebuild_multi_uuid_sorts_by_ts_desc_passes : passes rebuild_multi_uuid_sorts_by_ts_desc tt = true.
Proof. run_test. Qed.

Definition long_body : string := collect (replicate 80 "a").

Definition rebuild_long_body_is_ellipsized_in_snippet : Test unit :=
  let v := rebuilt [incoming uuid_a 100 long_body "Alice"] in
  asserts [nth_is v 0 (fun d => char_count (ds_last_msg_snippet d) <=? 32);
    nth_is v 0 (fun d => ends_with_char (ds_last_msg_snippet d) "…")].
Example rebuild_long_body_is_ellipsized_in_snippet_passes :
  passes rebuild_long_body_is_ellipsized_in_snippet tt = true.
Proof. run_test. Qed.

(** [m.read = true] and [m.group = true]. *)
Definition read_msg (m : Msg) : Msg := with_read m.
Definition group_msg (m : Msg) : Msg :=
  mkMsg (tm_uuid m) (tm_author_label m) (tm_body m) (tm_timestamp m) (tm_outgoing m) (tm_status m) (tm_read m) true.

Definition rebuild_unread_excludes_read_messages : Test unit :=
  let v := rebuilt [read_msg (incoming uuid_a 100 "first" "Alice");
    read_msg (incoming uuid_a 200 "second" "Alice");
    incoming uuid_a 300 "third" "Alice"] in
  asserts [bool_decide (length v = 1);
    nth_is v 0 (fun d => bool_decide (ds_unread_count d = 1%N))].
Example rebuild_unread_excludes_read_messages_passes : passes rebuild_unread_excludes_read_messages tt = true.
Proof. run_test. Qed.

Definition rebuild_all_read_yields_zero_unread : Test unit :=
  let v := rebuilt [read_msg (incoming uuid_a 100 "hi" "Alice");
    read_msg (incoming uuid_b 200 "hello" "Bob")] in
  asserts [bool_decide (length v = 2);
    forallb (fun d => bool_decide (ds_unread_count d = 0%N)) v].
Example rebuild_all_read_yields_zero_unread_passes : passes rebuild_all_read_yields_zero_unread tt = true.
Proof. run_test. Qed.

Definition rebuild_group_tag_propagates_to_summary : Test unit :=
  let v := rebuilt [group_msg (incoming uuid_a 100 "party is off" "Bob")] in
  asserts [nth_is v 0 (fun d => ds_is_group d)].
Example rebuild_group_tag_propagates_to_summary_passes : passes rebuild_group_tag_propagates_to_summary tt = true.
Proof. run_test. Qed.

Definition rebuild_plain_thread_is_not_group : Test unit :=
  let v := rebuilt [incoming uuid_a 100 "hello" "Alice"] in
  asserts [nth_is v 0 (fun d => negb (ds_is_group d))].
Example rebuild_plain_thread_is_not_group_passes : passes rebuild_plain_thread_is_not_group tt = true.
Proof. run_test. Qed.

Definition rebuild_group_tag_is_sticky_across_messages : Test unit :=
  let v := rebuilt [group_msg (incoming uuid_a 100 "one" "Bob");
    incoming uuid_a 200 "two" "Bob"] in
  asserts [bool_decide (length v = 1);
    nth_is v 0 (fun d => ds_is_group d)].
Example rebuild_group_tag_is_sticky_across_messages_passes :
  passes rebuild_group_tag_is_sticky_across_messages tt = true.
Proof. run_test. Qed.

Definition rebuild_status_reflects_latest_message : Test unit :=
  let v := rebuilt [outgoing uuid_a 100 "first" Delivered;
    outgoing uuid_a 200 "second" Failed] in
  asserts [nth_is v 0 (fun d => bool_decide (ds_last_msg_status d = Failed))].
Example rebuild_status_reflects_latest_message_passes : passes rebuild_status_reflects_latest_message tt = true.
Proof. run_test. Qed.

(** ** The message store

    A push panics on a store without room for one message; nothing else can fail. *)
Abbreviation Store := (MessageStore N).
Definition CAP : nat := 5.
Definition store : Store := new CAP.
Definition run_op (f : Store -> option Store) : Test Store :=
  fun s => match f s with Some s' => (Ok tt, s') | None => (Err "panicked", s) end.
Definition push_in (u : N) (label body : string) (ts : N) (group : bool) : Test Store :=
  run_op (push_incoming u label body ts group).
Definition push_out (u : N) (body : string) (ts : N) : Test Store := run_op (push_outgoing_pending u body ts).
(** A call that answers whether it changed anything, and reads. *)
Definition answers (f : Store -> bool * Store) : M Store string bool := query f.
Definition thread (u : N) : M Store string (list Msg) := ask (fun s => thread_messages s u).
Definition rows : M Store string (list Summary) := ask dialogues.
Definition unread : M Store string N := ask total_unread.
Definition body_of (k : N) : string := "m" +:+ pretty k.
(** [for i in 0..n] pushes of the message [m<i>] at [100 + i]. *)
Definition fill (n : nat) : Test Store :=
  mfor (N.of_nat <$> seq 0 n) (fun i => push_in uuid_a "Alice" (body_of i) (100 + i) false).

Definition starts_empty : Test Store :=
  let* ds := rows in
  let* n := unread in
  let* ms := thread uuid_a in
  asserts [bool_decide (length ds = 0); bool_decide (n = 0%N); bool_decide (length ms = 0)].
Example starts_empty_passes : passes starts_empty store = true.
Proof. run_test. Qed.

Definition push_incoming_creates_unread_dialogue : Test Store :=
  push_in uuid_a "Alice" "hello" 100 false ;* (
  let* ds := rows in
  let* n := unread in
  let* ms := thread uuid_a in
  asserts [bool_decide (length ds = 1);
    nth_is ds 0 (fun d => bool_decide (ds_display_name d = "Alice"));
    nth_is ds 0 (fun d => bool_decide (ds_unread_count d = 1%N));
    bool_decide (n = 1%N);
    bool_decide (length ms = 1);
    nth_is ms 0 (fun d => negb (tm_outgoing d));
    nth_is ms 0 (fun d => bool_decide (tm_status d = Sent));
    nth_is ms 0 (fun d => negb (tm_read d))]).
Example push_incoming_creates_unread_dialogue_passes : passes push_incoming_creates_unread_dialogue store = true.
Proof. run_test. Qed.

Definition push_outgoing_is_pending_read_and_labeled_you : Test Store :=
  push_out uuid_a "ping" 200 ;* (
  let* ms := thread uuid_a in
  let* n := unread in
  let* ds := rows in
  asserts [bool_decide (length ms = 1);
    nth_is ms 0 (fun d => tm_outgoing d);
    nth_is ms 0 (fun d => bool_decide (tm_author_label d = "You"));
    nth_is ms 0 (fun d => bool_decide (tm_status d = Pending));
    nth_is ms 0 (fun d => tm_read d);
    bool_decide (n = 0%N);
    nth_is ds 0 (fun d => bool_decide (ds_last_msg_status d = Pending))]).
Example push_outgoing_is_pending_read_and_labeled_you_passes :
  passes push_outgoing_is_pending_read_and_labeled_you store = true.
Proof. run_test. Qed.

Definition eviction_drops_oldest_at_capacity : Test Store :=
  fill CAP ;* (
  let* ms := thread uuid_a in
  asserts [bool_decide (length ms = CAP)] ;* (
  push_in uuid_a "Alice" "overflow" 999 false ;* (
  let* ms := thread uuid_a in
  asserts [bool_decide (length ms = CAP);
    nth_is ms 0 (fun d => bool_decide (tm_body d = "m1"));
    nth_is ms (length ms - 1) (fun d => bool_decide (tm_body d = "overflow"))]))).
Example eviction_drops_oldest_at_capacity_passes : passes eviction_drops_oldest_at_capacity store = true.
Proof. run_test. Qed.

Definition eviction_applies_to_outgoing_pushes_too : Test Store :=
  fill CAP ;* (
  push_out uuid_b "reply" 999 ;* (
  let* a := thread uuid_a in
  let* b := thread uuid_b in
  asserts [bool_decide (length a + length b = CAP)])).
Example eviction_applies_to_outgoing_pushes_too_passes :
  passes eviction_applies_to_outgoing_pushes_too store = true.
Proof. run_test. Qed.

Definition mark_send_delivered_matches_newest_row_with_timestamp : Test Store :=
  push_out uuid_a "one" 500 ;* (
  let* hit := answers (mark_send_delivered 500) in
  let* ms := thread uuid_a in
  let* ds := rows in
  asserts [hit;
    nth_is ms 0 (fun d => bool_decide (tm_status d = Delivered));
    nth_is ds 0 (fun d => bool_decide (ds_last_msg_status d = Delivered))]).
Example mark_send_delivered_matches_newest_row_with_timestamp_passes :
  passes mark_send_delivered_matches_newest_row_with_timestamp store = true.
Proof. run_test. Qed.

Definition mark_send_delivered_returns_false_without_match : Test Store :=
  push_out uuid_a "one" 500 ;* (
  let* hit := answers (mark_send_delivered 501) in
  let* ms := thread uuid_a in
  asserts [negb hit; nth_is ms 0 (fun d => bool_decide (tm_status d = Pending))]).
Example mark_send_delivered_returns_false_without_match_passes :
  passes mark_send_delivered_returns_false_without_match store = true.
Proof. run_test. Qed.

Definition mark_send_failed_flips_status_and_summary : Test Store :=
  push_out uuid_a "one" 500 ;* (
  let* hit := answers (mark_send_failed 500) in
  let* ds := rows in
  asserts [hit; nth_is ds 0 (fun d => bool_decide (ds_last_msg_status d = Failed))]).
Example mark_send_failed_flips_status_and_summary_passes :
  passes mark_send_failed_flips_status_and_summary store = true.
Proof. run_test. Qed.

Definition send_status_match_ignores_incoming_rows_with_same_timestamp : Test Store :=
  push_in uuid_a "Alice" "in" 500 false ;* (
  let* hit := answers (mark_send_delivered 500) in
  let* ms := thread uuid_a in
  asserts [negb hit; nth_is ms 0 (fun d => bool_decide (tm_status d = Sent))]).
Example send_status_match_ignores_incoming_rows_with_same_timestamp_passes :
  passes send_status_match_ignores_incoming_rows_with_same_timestamp store = true.
Proof. run_test. Qed.

Definition send_status_match_picks_newest_of_duplicate_timestamps : Test Store :=
  push_out uuid_a "first" 500 ;* (
  push_out uuid_a "second" 500 ;* (
  let* hit := answers (mark_send_delivered 500) in
  let* ms := thread uuid_a in
  asserts [hit;
    nth_is ms 0 (fun d => bool_decide (tm_status d = Pending));
    nth_is ms 1 (fun d => bool_decide (tm_status d = Delivered))])).
Example send_status_match_picks_newest_of_duplicate_timestamps_passes :
  passes send_status_match_picks_newest_of_duplicate_timestamps store = true.
Proof. run_test. Qed.

Definition mark_thread_read_clears_unread_for_that_thread_only : Test Store :=
  push_in uuid_a "Alice" "a1" 100 false ;* (
  push_in uuid_a "Alice" "a2" 200 false ;* (
  push_in uuid_b "Bob" "b1" 300 false ;* (
  let* n := unread in
  asserts [bool_decide (n = 3%N)] ;* (
  act (mark_thread_read uuid_a) ;* (
  let* n := unread in
  let* ds := rows in
  asserts [bool_decide (n = 1%N);
    from_option (fun d => bool_decide (ds_unread_count d = 1%N)) false (List.find (fun d => bool_decide (ds_uuid d = uuid_b)) ds)]))))).
Example mark_thread_read_clears_unread_for_that_thread_only_passes :
  passes mark_thread_read_clears_unread_for_that_thread_only store = true.
Proof. run_test. Qed.

Definition mark_thread_read_idempotent : Test Store :=
  push_in uuid_a "Alice" "a1" 100 false ;* (
  act (mark_thread_read uuid_a) ;* (
  act (mark_thread_read uuid_a) ;* (
  let* n := unread in
  asserts [bool_decide (n = 0%N)]))).
Example mark_thread_read_idempotent_passes : passes mark_thread_read_idempotent store = true.
Proof. run_test. Qed.

Definition resolve_author_labels_rewrites_uuid_shaped_labels_only : Test Store :=
  push_in uuid_a (uuid_to_string uuid_a) "hi" 100 false ;* (
  push_out uuid_a "yo" 200 ;* (
  let* hit := answers (resolve_author_labels uuid_a "Alice") in
  let* ms := thread uuid_a in
  let* ds := rows in
  asserts [hit;
    nth_is ms 0 (fun d => bool_decide (tm_author_label d = "Alice"));
    nth_is ms 1 (fun d => bool_decide (tm_author_label d = "You"));
    nth_is ds 0 (fun d => bool_decide (ds_display_name d = "Alice"))])).
Example resolve_author_labels_rewrites_uuid_shaped_labels_only_passes :
  passes resolve_author_labels_rewrites_uuid_shaped_labels_only store = true.
Proof. run_test. Qed.

Definition resolve_author_labels_no_op_on_named_labels : Test Store :=
  push_in uuid_a "Alice" "hi" 100 false ;* (
  let* hit := answers (resolve_author_labels uuid_a "Alicia") in
  let* ms := thread uuid_a in
  asserts [negb hit; nth_is ms 0 (fun d => bool_decide (tm_author_label d = "Alice"))]).
Example resolve_author_labels_no_op_on_named_labels_passes :
  passes resolve_author_labels_no_op_on_named_labels store = true.
Proof. run_test. Qed.

Definition clear_wipes_messages_and_dialogues : Test Store :=
  push_in uuid_a "Alice" "hi" 100 false ;* (
  act clear ;* (
  let* ds := rows in
  let* ms := thread uuid_a in
  let* n := unread in
  asserts [bool_decide (length ds = 0); bool_decide (length ms = 0); bool_decide (n = 0%N)])).
Example clear_wipes_messages_and_dialogues_passes : passes clear_wipes_messages_and_dialogues store = true.
Proof. run_test. Qed.

Definition push_incoming_group_tags_summary : Test Store :=
  push_in uuid_a "Bob" "party is off" 100 true ;* (
  push_in uuid_b "Alice" "hi" 200 false ;* (
  let* ds := rows in
  asserts [from_option (fun d => ds_is_group d) false (List.find (fun d => bool_decide (ds_uuid d = uuid_a)) ds);
    from_option (fun d => negb (ds_is_group d)) false (List.find (fun d => bool_decide (ds_uuid d = uuid_b)) ds)])).
Example push_incoming_group_tags_summary_passes : passes push_incoming_group_tags_summary store = true.
Proof. run_test. Qed.

Definition seed_bypasses_capacity_and_rebuilds_once : Test Store :=
  act (seed ((fun i => incoming uuid_a (100 + N.of_nat i) (body_of (N.of_nat i)) "Alice") <$> seq 0 (CAP + 5))) ;* (
  let* ms := thread uuid_a in
  let* ds := rows in
  let* n := unread in
  asserts [bool_decide (length ms = CAP + 5); bool_decide (length ds = 1); bool_decide (n = N.of_nat (CAP + 5))]).
Example seed_bypasses_capacity_and_rebuilds_once_passes :
  passes seed_bypasses_capacity_and_rebuilds_once store = true.
Proof. run_test. Qed.

Definition dialogues_sorted_newest_first_across_threads : Test Store :=
  push_in uuid_a "Alice" "old" 100 false ;* (
  push_in uuid_b "Bob" "new" 900 false ;* (
  let* ds := rows in
  asserts [nth_is ds 0 (fun d => bool_decide (ds_uuid d = uuid_b));
    nth_is ds 1 (fun d => bool_decide (ds_uuid d = uuid_a))])).
Example dialogues_sorted_newest_first_across_threads_passes :
  passes dialogues_sorted_newest_first_across_threads store = true.
Proof. run_test. Qed.

(** ** The log filter *)
Definition muffles_upstream_crates : Test unit :=
  asserts [muffled "presage";
    muffled "presage::manager::linking";
    muffled "libsignal_service::push_service";
    muffled "libsignal_protocol::group_cipher";
    muffled "zkgroup::api"].
Example muffles_upstream_crates_passes : passes muffles_upstream_crates tt = true.
Proof. run_test. Qed.

Definition does_not_muffle_our_own_crates : Test unit :=
  asserts [negb (muffled "presage_store_pddb");
    negb (muffled "presage_store_pddb::backend_pddb");
    negb (muffled "xas::gam_app");
    negb (muffled "xous_signal_worker");
    negb (muffled "xous_net_bridge::ws_pump")].
Example does_not_muffle_our_own_crates_passes : passes does_not_muffle_our_own_crates tt = true.
Proof. run_test. Qed.

Definition does_not_muffle_unrelated_targets : Test unit :=
  asserts [negb (muffled "");
    negb (muffled "net");
    negb (muffled "libsignalfoo")].
Example does_not_muffle_unrelated_targets_passes : passes does_not_muffle_unrelated_targets tt = true.
Proof. run_test. Qed.

(** ** Redaction *)
Definition redacts_uuid_to_last_four : Test unit :=
  asserts [bool_decide (redact_id "84e2d5a0-1b2c-4d3e-9f00-aabbccddeeff" = "..eeff")].
Example redacts_uuid_to_last_four_passes : passes redacts_uuid_to_last_four tt = true.
Proof. run_test. Qed.

Definition redacts_e164_to_last_four : Test unit :=
  asserts [bool_decide (redact_id "+15551234567" = "..4567")].
Example redacts_e164_to_last_four_passes : passes redacts_e164_to_last_four tt = true.
Proof. run_test. Qed.

Definition short_non_identifier_keys_pass_through : Test unit :=
  asserts [bool_decide (redact_id "all" = "all");
    bool_decide (redact_id "" = "")].
Example short_non_identifier_keys_pass_through_passes : passes short_non_identifier_keys_pass_through tt = true.
Proof. run_test. Qed.

Definition boundary_length_five_is_redacted : Test unit :=
  asserts [bool_decide (redact_id "abcde" = "..bcde")].
Example boundary_length_five_is_redacted_passes : passes boundary_length_five_is_redacted tt = true.
Proof. run_test. Qed.

Definition log_id_redacts_by_default : Test unit :=
  asserts [bool_decide (log_id false "+15551234567" = "..4567")].
Example log_id_redacts_by_default_passes : passes log_id_redacts_by_default tt = true.
Proof. run_test. Qed.
