(* ===== verification/NetTests.v ===== *)
(** * Unit tests of the network bridge ([xous-net-bridge/src/tls.rs], [mod counting_store_tests])

    rustls's session cache is a map of tickets here, enough for its calls on the
    ticket of TLS 1.3. The test of the WebSocket pump drives a real server; its
    schedule is [PumpExample.torn_down_at_timeout]. *)
From S2P Require Import Prelude Codec Tls Testing.

(** A cache that keeps the tickets of a server, newest first, and takes each once. *)
Abbreviation Cache := (gmap string (list bytes)).
#[local] Instance ticket_cache : TlsLib unit Cache string bytes unit unit (list bytes) bytes := {|
  cache_new _ := ∅;
  cache_set_kx_hint _ _ c := c;
  cache_kx_hint _ _ := None;
  cache_set_tls12_session _ _ c := c;
  cache_tls12_session _ c := (None, c);
  cache_remove_tls12_session _ c := c;
  cache_insert_tls13_ticket n t c := <[n := t :: default [] (c !! n)]> c;
  cache_take_tls13_ticket n c :=
    match c !! n with Some (t :: ts) => (Some t, <[n := ts]> c) | _ => (None, c) end;
  roots_empty := [];
  roots_add cert roots := Ok (cert :: roots);
  pem_certs pem := [Ok pem];
  server_name host := Ok host;
  tcp_connect _ _ x := (Ok tt, x);
  tcp_set_read_timeout _ x := (Ok tt, x);
  tcp_set_write_timeout _ x := (Ok tt, x)
|}.

Abbreviation Counting := (CountingResumptionStore (Cache := Cache)).
Abbreviation Process := (NetProcess (X := unit) (Cache := Cache)).

Definition take (name : string) : M Counting string (option bytes) := query (take_tls13_ticket name).

Definition take_some_count_increments_only_on_hit : Test Counting :=
  let name := "example.com" in
  let* t := take name in assert (is_none t) ;*
  (let* n := ask take_some_count in assert_eq n 0%N ;*
  (mfor (seq 0 16) (fun _ => let* t := take name in mok tt) ;*
  (let* n := ask take_some_count in assert_eq n 0%N))).
Example take_some_count_increments_only_on_hit_passes :
  passes take_some_count_increments_only_on_hit (counting_new 8) = true.
Proof. run_test. Qed.

(** The branch the test leaves to the integration test: a ticket that is found
    is counted, one that was only inserted is not. *)
Definition take_some_count_on_a_hit : Test Counting :=
  act (insert_tls13_ticket "example.com" [x01]) ;*
  (let* n := ask take_some_count in assert_eq n 0%N ;*
  (let* t := take "example.com" in assert_eq t (Some [x01]) ;*
  (let* n := ask take_some_count in assert_eq n 1%N))).
Example take_some_count_on_a_hit_passes : passes take_some_count_on_a_hit (counting_new 8) = true.
Proof. run_test. Qed.

Definition build_tls_config_reuses_the_active_counter : Test Process :=
  let roots : list bytes := [[x01]] in
  let* c1 := unwrap (build_tls_config roots []) in
  let* c2 := unwrap (build_tls_config roots []) in
  let* installed := ask active_counter_for_tests in
  let* counter := unwrap_some installed in
  assert_eq (take_some_count counter) 0%N.
Example build_tls_config_reuses_the_active_counter_passes :
  passes build_tls_config_reuses_the_active_counter (mkNetProcess None tt) = true.
Proof. run_test. Qed.
